(* ===== verification/_CoqProject ===== *)
-Q . S2P
Prelude.v
JsString.v
Double.v
RegExp.v
Schema.v
Addresses.v
Envelope.v
Encoding.v
Json.v
Dates.v
Bitcoin.v
Deploy.v
Platform.v
Reference.v
StateMachine.v
TransactionRepository.v
Outbox.v
Guarantee.v
Ledger.v
Tracing.v
Metrics.v
Rpc.v
Config.v
Adapters.v
EvmClient.v
Transfer.v
Confirmation.v
LogWindows.v
Index.v
EventListener.v
Sweeps.v
Payment.v
Reconcile.v
Idempotency.v
Registration.v
Ownership.v
Identity.v
Validators.v
Wire.v
Http.v
Contract.v
Pages.v
Observability.v
Health.v
Scheduler.v
Timers.v
Cluster.v
Worker.v
Registry.v
Lifecycle.v
System.v
