(* ===== verification/Prelude.v ===== *)
(** * A verified model of the blockchain transaction simulator

    ** The program

    A multi-tenant service that records token transfers in a PostgreSQL ledger
    and executes them on EVM, Bitcoin and Solana networks.  An API process takes
    transfer requests: it writes a PENDING row, signs and broadcasts through the
    adapter of the token's chain, marks the row SUBMITTED and enqueues a
    confirmation job.  A worker process handles those jobs (SUBMITTED to
    CONFIRMING to CONFIRMED, together with an outbox event, or FAILED), relays
    outbox events, expires what is confirming for too long, re-enqueues what was
    submitted, recovers what was orphaned in PENDING from indexed transfers,
    indexes EVM transfer logs into transfers and balances, and checks those
    balances against the chain.  Periodic work is guarded by database leases, so
    that several replicas can run.  In front of it all stands the HTTP API: bearer
    tokens and roles, tenants with their API keys, proofs of wallet ownership, an
    audit log and one error handler.  A separate script deploys the token contract.

    ** How it is modelled

    A TypeScript function is a [prog]: a finite tree whose nodes are remote calls
    ([Act]: database, queue, chain node), local steps ([Loc]) and exceptions
    ([Throw]).  [exec] runs it undisturbed, [run] under an environment that
    interferes before every call and decides whether the call is performed and
    whether its answer arrives, and [pstep] takes one step of it, for
    interleavings.  [prisma.$transaction] is one call that rolls back when its
    body throws.  The [World] (file Platform) holds the tables, the queues, the
    clock, the chain, the reported metrics and the module variables.

    - Prelude: programs, their execution, guarantees ([guards G p]: every step of
      [p] respects [G]) and the automation for them.
    - JsString, Double, RegExp, Encoding, Json, Dates: what the source uses of
      JavaScript strings, double-precision numbers and regular expressions, of
      hexadecimal and Base64url buffers, of [JSON.parse] and [JSON.stringify], and
      of ISO dates.
    - Schema: rows, enumerations, constraints and column widths of
      prisma/schema.prisma, and the exceptions of src/common/errors.
    - Platform: Prisma, BullMQ, prom-client and the chain nodes as classes of
      operations with their documented behaviour as laws; the world.  Reference:
      a concrete instance of all of them, with which the laws are shown to be
      consistent and the witnesses evaluate.
    - StateMachine: src/domain/transaction.  TransactionRepository:
      src/repositories/transaction.repository.ts.  Outbox: the outbox repository
      and src/services/outbox-event.service.ts.
    - Guarantee: the relation [steady] (rows only move forward; a sound ledger
      stays sound; a revoked key stays revoked and the key table well formed) and
      the proofs that the repository operations respect it.  Ledger: an abstract
      ledger as a transition system, and the simulation of every [steady] change
      of the database by it.
    - Metrics: the metrics of src/observability and src/metrics; Registry: their
      registration when the modules are loaded, and the scrape endpoint.  Tracing:
      src/observability/tracing.ts.  Rpc: src/blockchain/rpc.*.ts and
      src/utils/retry.ts.  Config: src/config/env.ts and the settings the RPC
      executor and the worker process read from the environment.
    - Addresses: chain ids, address validation and normalisation in
      src/blockchain.  Envelope: src/crypto/envelope.ts.
    - Bitcoin: src/blockchain/bitcoin/config.ts, rpc.client.ts and the conversions
      of amounts.  Adapters: the adapter interface, its registry, the three
      adapters, the signer services and the mint service.  EvmClient:
      src/blockchain/client.ts.
    - Transfer: src/services/transfer.service.ts, ledger.service.ts and the
      lookups they use.  Confirmation: src/workers/confirmation.processor.ts.
    - LogWindows: src/blockchain/evm/log-windows.ts.  Index: the transfer, cursor
      and balance repositories.  EventListener: the indexer configuration,
      src/workers/event.listener.ts, event-listener.worker.ts and the services
      that store events and balances.
    - Sweeps: the expiration, submission-recovery and pending-recovery
      processors and the sampler.  Payment: the confirmation queue
      (src/queues/transaction.queue.ts) and its worker, and the way of a payment
      through transfer, confirmation and relay.  Reconcile: the reconciliation service and the
      balance drift processor.
    - Idempotency: the guard for mutating requests with its service and
      repository.  Registration: wallet, custodial wallet and token services.
    - Ownership: src/services/wallet-ownership.service.ts.  Identity: API keys,
      sessions, tenants, users and the audit log (src/auth, src/services,
      src/repositories).  Validators: the request schemas of src/validators.  Wire: what
      the handlers send and the bodies of the responses, with src/utils/serialize.ts,
      src/api/utils/response.ts and the response schemas.  Http: the middleware, every
      route of src/api/routes, the serialisation of its answer and
      src/api/error-handler.ts.  Contract: what each endpoint answers.  Pages: the
      listings that are served page by page.
      Observability: src/observability/context.ts and the request hooks of
      src/api/plugins.  Health: src/api/health and its routes.
    - Deploy: src/blockchain/evm/deploy-safety.ts and
      scripts/deploy-mini-usdt-live.ts.
    - Scheduler: src/scheduling/postgres-scheduler-lease.ts and the five
      schedulers.  Timers: a scheduler under its timers, interleaved by the event
      loop.  Cluster: several processes with the same scheduler over one database.
      Worker: start and shutdown of the worker process and its probe server.
      Lifecycle: a Node.js process with its signals, the tracing preload
      (src/observability/otel-preload.ts), the assembly and the life of the API
      process (src/api/app.ts, src/api/server.ts) and the signal handlers of the
      worker.  System: all entry points over one world, interleaved.

    ** What is shown

    - System: in every state reachable through any interleaving, fault and crash
      the ledger is sound and agrees with the outbox (one confirmation event per
      CONFIRMED row, none otherwise), rows only move along the state machine, and
      terminal rows never change.  Every reachable history is a run of the abstract
      ledger of Ledger.  The key table stays well formed, and a revoked API key is
      refused in every later state.
    - Payment: an accepted payment whose chain answers within the attempts of its
      job ends CONFIRMED with a published event; one that takes longer is given up.
    - Http, Identity, Ownership: who is let through and with which refusal, what a
      caller can be shown (rows of the own tenant); the life of an API key, login
      followed by refresh, and the audit log that never disturbs; a challenge that
      was issued is accepted for its subject, and a registration that passed the
      gate had one.
    - Pages, Contract: a listing is served in pages that tile it; every endpoint sends
      the kind of data it promises, and it reaches the client (but for the balances of a
      wallet that has some, which cannot be serialised) without secret columns (but for
      the row of a new tenant's key).
    - Deploy: nothing is deployed unless every safeguard agreed.
    - Lifecycle: the API process exits with status 0 only after its server was
      closed, and a signal it serves starts that close; no plug-in registers a route
      another one has, and the table holds the route of every resource.  Registry: no metric is registered twice, whatever
      the order in which the modules are loaded.
    - Worker, Health: ready means running, a shutdown takes the process out of service
      before it closes a connection and ends with the exit code of its outcome, the
      readiness probe tells whether the node serves the configured chain.
    - Tracing, Observability: work inside a span or between the request hooks
      behaves like the work, contexts of concurrent requests do not mix, and the
      request metrics have a bounded number of series.
    - Config, Bitcoin: settings are read exactly or refused by name, and amounts of
      Bitcoin are exact over the whole supply in spite of floating point.
    - Transfer, Confirmation, Sweeps: the effect of each operation on every
      branch: what is rejected leaves no trace, what is accepted is submitted or
      recorded as failed; a confirmed transaction is persisted with its event, a
      redelivered job changes nothing, a pending one is left for a retry; what
      each sweep selects and does.
    - LogWindows, EventListener, Index: the scan covers its range with adjacent
      windows, a run of the indexer leaves no gap below its cursor, and balance
      snapshots hold the newest observation.
    - Reconcile: the verdict of a check, and that a sweep ends, checks every snapshot
      exactly once and publishes the counts of its verdicts.
    - Scheduler, Timers, Cluster: two processes never both hold a lease, and two
      processes are in their cycles at the same time only if one has outlived the
      term of its lease; a tick always ends
      with the scheduler idle, runs its cycle when it gets the lease and does not
      otherwise; within a process the runs of a scheduler never overlap and no timer
      outlives its run.
    - Idempotency: at most one execution per key under any interleaving; what
      later requests get after a success and after a failure; a key is bound to
      the transfer it was first used for.
    - Registration, Envelope, Addresses, Adapters, Rpc, Outbox, StateMachine: one
      wallet per address and one token per asset, custodial wallets are signable
      by their tenant only, an account has one nonce sequence, encryption round trips, chain ids do not collide,
      adapters only report final outcomes as final, an outage is retried a bounded
      number of times, no outbox event is lost and repeated relays drain the
      outbox, the lifecycle graph is closed.

    Some statements record behaviour that differs from what the comments or the
    documents say, or that is surprising: the examples at the end of
    Confirmation, EventListener, Sweeps, Registration, Pages, Worker and Lifecycle,
    [reverted_stays_submitted], [recovery_blocked_by_taken_hash],
    [mint_reports_receipt], [wallet_balances_fail], [refresh_unverifiable],
    [worker_error_sticks], [slow_payment_is_given_up], [retries_need_a_number],
    [unmatched_urls_are_series], [worker_context_dropped], [registered_body],
    [transaction_pages] and [signal_lost_while_starting].

    ** Fuel

    The loops of the program that do not follow a structure are the log scan and
    the paged sweep.  [scan_loop] runs on [scan_fuel], the windows left plus the halvings
    the current size allows; the paged sweep on one more than the number of rows;
    a batch loop on the length of its page.  The theorems about them show that
    the fuel is never used up.  The JSON parser runs on twice the length of its
    input plus one, which is shown to be enough for every printed value; the
    redaction of URLs on the length of the text plus one, each round consuming a
    character.  [retry_loop] is the retry loop as it is written: any fuel above the
    configured number of retries is shown to be enough, and none is when that number
    is not one.

    ** What is not modelled

    Logging and Swagger: output without effect on the rest.  The constructors of the
    third-party clients (Prisma, Redis, Fastify, the OpenTelemetry SDK) with their
    options, and Fastify's own request handling: routes, hooks and handlers are
    applied in the documented order.  BullMQ: delivery and retries are laws.
    Cryptography (AES-GCM, KMS, SHA-256, HMAC, bcrypt, JWT, signatures) is
    third-party code: a class with the laws the proofs use.  Unused helpers: the
    wrappers src/blockchain/token.ts, token-check.ts, transaction.ts and config.ts,
    and the constructors of src/common/errors/errors.ts that nothing throws.  The
    load test and the tooling are not part of the system.

    Strings are the bytes of their UTF-8 form, so lengths count bytes.  Foreign keys
    are not checked by the model of the database; where a theorem needs the rows they
    point to it says so.  Columns that no code under src/ reads or sends are left out
    (the version and the dates of a custody key, the dates of a cursor, of a lease's update
    and of an idempotency key's creation, and the unused table of indexer states).  Of an
    error's body the id of the request and the time are left out.  The calls of one [Promise.all] run one after the other.  A
    time-out of an RPC call is one of the ways a remote call can end.  The processes of
    System are not restarted as a whole; a crash ends a task at any point. *)

From stdpp Require Export gmap strings list fin_maps sorting.
From Stdlib Require Export ZArith Lia.

#[global] Set Default Goal Selector "!".

(** ** Effectful programs

    Asynchronous TypeScript is modelled by finite interaction trees over a
    world [W].  An [Act] is one awaited call to a remote party (PostgreSQL,
    Redis, a blockchain node): it is atomic, other tasks may run before it, and
    it may fail.  A [Loc] is a synchronous step of the process itself (reading
    the clock, bumping a metric, touching a module variable): it cannot fail.
    [Throw] is a JavaScript exception. *)
Section Prog.
Context {W err : Type}.

Inductive prog (A : Type) : Type :=
| Ret (a : A)
| Throw (e : err)
| Loc {R : Type} (f : W -> R * W) (k : R -> prog A)
| Act {R : Type} (f : W -> (R + err) * W) (k : R + err -> prog A).

Fixpoint bind {A B} (p : prog A) (k : A -> prog B) : prog B :=
  match p with
  | Ret _ a => k a
  | Throw _ e => Throw _ e
  | Loc _ f c => Loc _ f (fun r => bind (c r) k)
  | Act _ f c => Act _ f (fun r => bind (c r) k)
  end.

(** [attempt p] never throws: the exception of [p], if any, is returned.
    try/catch and try/finally are derived from it. *)
Fixpoint attempt {A} (p : prog A) : prog (A + err) :=
  match p with
  | Ret _ a => Ret _ (inl a)
  | Throw _ e => Ret _ (inr e)
  | Loc _ f c => Loc _ f (fun r => attempt (c r))
  | Act _ f c => Act _ f (fun r => attempt (c r))
  end.

Definition rethrow {A} (r : A + err) : prog A :=
  match r with inl a => Ret _ a | inr e => Throw _ e end.

Definition catch {A} (p : prog A) (h : err -> prog A) : prog A :=
  bind (attempt p) (fun r => match r with inl a => Ret _ a | inr e => h e end).

Definition finally {A} (p : prog A) (fin : prog unit) : prog A :=
  bind (attempt p) (fun r => bind fin (fun _ => rethrow r)).

Definition act {R} (f : W -> (R + err) * W) : prog R := Act _ f rethrow.
Definition loc {R} (f : W -> R * W) : prog R := Loc _ f (Ret _).
Definition gets {R} (f : W -> R) : prog R := loc (fun w => (f w, w)).
Definition modify (f : W -> W) : prog unit := loc (fun w => (tt, f w)).

(** [for (const x of l) { await body(x) }] *)
Fixpoint for_each {X} (l : list X) (body : X -> prog unit) : prog unit :=
  match l with
  | [] => Ret _ tt
  | x :: l' => bind (body x) (fun _ => for_each l' body)
  end.

(** [await] of [l.map(f)], in order. *)
Fixpoint map_prog {X Y} (f : X -> prog Y) (l : list X) : prog (list Y) :=
  match l with
  | [] => Ret _ []
  | x :: l' => bind (f x) (fun y => bind (map_prog f l') (fun ys => Ret _ (y :: ys)))
  end.

(** ** Executing a program under an environment

    Before each remote call the environment may change the world (other
    workers, the chain, the passage of time), and it decides how the call
    ends: it is performed and its result returned ([Commit]), it is not
    performed and an error is reported ([Refuse]), or it is performed but the
    caller sees an error ([Lose]: the connection dropped after the commit). *)
Inductive outcome := Commit | Refuse (e : err) | Lose (e : err).

Record envstep := EnvStep { interfere : W -> W; out : outcome }.

Definition perform {R} (o : outcome) (f : W -> (R + err) * W) (w : W) : (R + err) * W :=
  match o with
  | Commit => f w
  | Refuse e => (inr e, w)
  | Lose e => (inr e, (f w).2)
  end.

Fixpoint run {A} (p : prog A) (env : list envstep) (w : W)
  : (A + err) * W * list envstep :=
  match p with
  | Ret _ a => (inl a, w, env)
  | Throw _ e => (inr e, w, env)
  | Loc _ f c => run (c (f w).1) env (f w).2
  | Act _ f c =>
      match env with
      | [] => run (c (f w).1) [] (f w).2
      | s :: env' =>
          let rw := perform (out s) f (interfere s w) in
          run (c rw.1) env' rw.2
      end
  end.

(** The undisturbed run: nobody interferes and every call is committed. *)
Fixpoint exec {A} (p : prog A) (w : W) : (A + err) * W :=
  match p with
  | Ret _ a => (inl a, w)
  | Throw _ e => (inr e, w)
  | Loc _ f c => exec (c (f w).1) (f w).2
  | Act _ f c => exec (c (f w).1) (f w).2
  end.

(** [prisma.$transaction(body)]: the body runs as one unit and is rolled back
    when it throws. *)
Definition transaction {A} (p : prog A) : prog A :=
  act (fun w => match exec p w with
                | (inl a, w') => (inl a, w')
                | (inr e, _) => (inr e, w)
                end).

(** One small step of a program, as seen by a scheduler. *)
Definition pstep {A} (c c' : W * prog A) : Prop :=
  match c.2 with
  | Ret _ _ | Throw _ _ => False
  | Loc _ f k => c' = ((f c.1).2, k (f c.1).1)
  | Act _ f k => exists o, c' = ((perform o f c.1).2, k (perform o f c.1).1)
  end.

(** ** Guarantees

    [guards G p]: every step [p] can ever take, whatever the answers it gets,
    relates the worlds before and after by [G]. *)
Fixpoint guards {A} (G : W -> W -> Prop) (p : prog A) : Prop :=
  match p with
  | Ret _ _ | Throw _ _ => True
  | Loc _ f c => (forall w, G w (f w).2) /\ forall r, guards G (c r)
  | Act _ f c => (forall w, G w (f w).2) /\ forall r, guards G (c r)
  end.
End Prog.

Arguments prog : clear implicits.
Arguments envstep : clear implicits.
Arguments outcome : clear implicits.
Arguments Ret {W err A} a.
Arguments Throw {W err A} e.
Arguments Loc {W err A R} f k.
Arguments Act {W err A R} f k.

Declare Scope prog_scope.
Delimit Scope prog_scope with prog.
Bind Scope prog_scope with prog.
Notation "'let!' x ':=' p 'in' k" := (bind p (fun x => k))
  (at level 10, x name, p at level 100, k at level 200) : prog_scope.
Notation "'do!' p 'in' k" := (bind p (fun _ => k))
  (at level 10, p at level 100, k at level 200) : prog_scope.
#[global] Open Scope prog_scope.
#[global] Open Scope Z_scope.

Create HintDb guards discriminated.

Section ProgFacts.
Context {W err : Type}.
#[local] Abbreviation prog := (prog W err).

Lemma exec_bind {A B} (p : prog A) (k : A -> prog B) w :
  exec (bind p k) w =
  match exec p w with
  | (inl a, w') => exec (k a) w'
  | (inr e, w') => (inr e, w')
  end.
Proof. revert w. induction p; intros w; simpl; auto. Qed.

Lemma exec_attempt {A} (p : prog A) w :
  exec (attempt p) w = (inl (exec p w).1, (exec p w).2).
Proof. revert w. induction p; intros w; simpl; auto. Qed.

Lemma exec_act {R} (f : W -> (R + err) * W) w : exec (act f) w = f w.
Proof. unfold act, rethrow. simpl. by destruct (f w) as [[r|e] w']. Qed.

Lemma exec_catch {A} (p : prog A) h w :
  exec (catch p h) w =
  match exec p w with
  | (inl a, w') => (inl a, w')
  | (inr e, w') => exec (h e) w'
  end.
Proof.
  unfold catch. rewrite exec_bind, exec_attempt. by destruct (exec p w) as [[a|e] w'].
Qed.

Lemma exec_finally {A} (p : prog A) fin w :
  exec (finally p fin) w =
  let '(r, w') := exec p w in
  match exec fin w' with
  | (inl _, w'') => (r, w'')
  | (inr e, w'') => (inr e, w'')
  end.
Proof.
  unfold finally. rewrite exec_bind, exec_attempt.
  destruct (exec p w) as [r w']; simpl. rewrite exec_bind.
  destruct (exec fin w') as [[u|e] w'']; [|done]. by destruct r.
Qed.

Lemma exec_transaction {A} (p : prog A) w :
  exec (transaction p) w =
  match exec p w with
  | (inl a, w') => (inl a, w')
  | (inr e, _) => (inr e, w)
  end.
Proof. unfold transaction. by rewrite exec_act. Qed.

Lemma exec_for_each_cons {X} (x : X) l (body : X -> prog unit) w :
  exec (for_each (x :: l) body) w =
  match exec (body x) w with
  | (inl _, w') => exec (for_each l body) w'
  | (inr e, w') => (inr e, w')
  end.
Proof. simpl. apply exec_bind. Qed.

(** The undisturbed run is the run under the empty environment. *)
Lemma run_nil {A} (p : prog A) w : run p [] w = (exec p w, []).
Proof. revert w. induction p; intros w; simpl; auto. Qed.

Lemma run_bind {A B} (p : prog A) (k : A -> prog B) env w :
  run (bind p k) env w =
  match run p env w with
  | (inl a, w', env') => run (k a) env' w'
  | (inr e, w', env') => (inr e, w', env')
  end.
Proof.
  revert env w.
  induction p as [a|e|R f c IH|R f c IH]; intros env w; simpl; auto.
  destruct env; auto.
Qed.

Lemma run_attempt {A} (p : prog A) env w :
  run (attempt p) env w = (inl (run p env w).1.1, (run p env w).1.2, (run p env w).2).
Proof.
  revert env w.
  induction p as [a|e|R f c IH|R f c IH]; intros env w; simpl; auto.
  destruct env; auto.
Qed.

Lemma run_catch {A} (p : prog A) h env w :
  run (catch p h) env w =
  match run p env w with
  | (inl a, w', env') => (inl a, w', env')
  | (inr e, w', env') => run (h e) env' w'
  end.
Proof.
  unfold catch. rewrite run_bind, run_attempt.
  by destruct (run p env w) as [[[a|e] w'] env'].
Qed.

Lemma run_act_cons {R} (f : W -> (R + err) * W) s env w :
  run (act f) (s :: env) w = (perform (out s) f (interfere s w), env).
Proof.
  unfold act, rethrow. simpl.
  by destruct (perform (out s) f (interfere s w)) as [[r|e] w'].
Qed.

(** An environment that only decides the fate of the calls: faults, lost
    answers and crashes, but nobody else acting on the world. *)
Definition faults (outs : list (outcome err)) : list (envstep W err) :=
  EnvStep id <$> outs.

Lemma run_act_faults {R} (f : W -> (R + err) * W) outs w :
  exists o outs', run (act f) (faults outs) w = (perform o f w, faults outs').
Proof.
  destruct outs as [|o outs].
  - exists Commit, []. change (faults []) with (@nil (envstep W err)).
    by rewrite run_nil, exec_act.
  - exists o, outs. unfold faults. rewrite fmap_cons. by rewrite run_act_cons.
Qed.

(** A remote read either tells how the world is or fails; it changes nothing. *)
Lemma run_read_faults {R} (f : W -> R + err) outs w :
  exists r outs', run (act (fun w => (f w, w))) (faults outs) w = (r, w, faults outs') /\
    (r = f w \/ exists e, r = inr e).
Proof.
  destruct (run_act_faults (fun w => (f w, w)) outs w) as (o & outs' & E).
  rewrite E. destruct o; simpl; eauto 6.
Qed.

(** *** Guarantees compose *)
Section Guards.
Context (G : W -> W -> Prop).

Lemma guards_bind {A B} (p : prog A) (k : A -> prog B) :
  guards G p -> (forall a, guards G (k a)) -> guards G (bind p k).
Proof. intros Hp Hk. induction p; simpl in *; naive_solver. Qed.

Lemma guards_attempt {A} (p : prog A) : guards G p -> guards G (attempt p).
Proof. induction p; simpl; naive_solver. Qed.

Lemma guards_rethrow {A} (r : A + err) : guards G (rethrow r : prog A).
Proof. by destruct r. Qed.

Lemma guards_catch {A} (p : prog A) h :
  guards G p -> (forall e, guards G (h e)) -> guards G (catch p h).
Proof.
  intros Hp Hh. apply guards_bind; [by apply guards_attempt|].
  intros [a|e]; simpl; auto.
Qed.

Lemma guards_finally {A} (p : prog A) fin :
  guards G p -> guards G fin -> guards G (finally p fin).
Proof.
  intros Hp Hf. apply guards_bind; [by apply guards_attempt|]. intros r.
  apply guards_bind; [done|]. intros _. apply guards_rethrow.
Qed.

Lemma guards_act {R} (f : W -> (R + err) * W) :
  (forall w, G w (f w).2) -> guards G (act f).
Proof. intros H. split; [done|]. intros r. apply guards_rethrow. Qed.

Lemma guards_loc {R} (f : W -> R * W) :
  (forall w, G w (f w).2) -> guards G (loc f : prog R).
Proof. intros H. by split. Qed.

Lemma guards_for_each {X} (l : list X) (body : X -> prog unit) :
  (forall x, guards G (body x)) -> guards G (for_each l body).
Proof. intros H. induction l; simpl; [done|]. by apply guards_bind. Qed.

Lemma guards_map_prog {X Y} (f : X -> prog Y) l :
  (forall x, guards G (f x)) -> guards G (map_prog f l).
Proof.
  intros H. induction l; simpl; [done|].
  apply guards_bind; [done|]. intros y. by apply guards_bind.
Qed.

Lemma guards_modify (f : W -> W) : (forall w, G w (f w)) -> guards G (modify f : prog unit).
Proof. intros H. by apply guards_loc. Qed.

Context `{!PreOrder G}.

Lemma guards_gets {R} (f : W -> R) : guards G (gets f : prog R).
Proof. apply guards_loc. intros w. simpl. reflexivity. Qed.

Lemma guards_exec {A} (p : prog A) w : guards G p -> G w (exec p w).2.
Proof.
  revert w. induction p as [a|e|R f c IH|R f c IH]; intros w Hp; simpl in *;
    try reflexivity; destruct Hp as [Hf Hc]; etransitivity; eauto.
Qed.

Lemma guards_transaction {A} (p : prog A) : guards G p -> guards G (transaction p).
Proof.
  intros Hp. apply guards_act. intros w. pose proof (guards_exec p w Hp) as H.
  destruct (exec p w) as [[a|e] w']; simpl in *; [done|reflexivity].
Qed.

Lemma perform_guard {R} o (f : W -> (R + err) * W) w :
  (forall w, G w (f w).2) -> G w (perform o f w).2.
Proof. intros H. destruct o; simpl; auto. reflexivity. Qed.

(** A run under any environment that itself respects [G]. *)
Lemma guards_run {A} (p : prog A) env w :
  guards G p ->
  Forall (fun s : envstep W err => forall w, G w (interfere s w)) env ->
  G w (run p env w).1.2.
Proof.
  revert env w.
  induction p as [a|e|R f c IH|R f c IH]; intros env w Hp Henv; simpl in *;
    try reflexivity.
  - destruct Hp as [Hf Hc]. etransitivity; [apply Hf|]. auto.
  - destruct Hp as [Hf Hc].
    destruct Henv as [|s env' Hs Henv']; (etransitivity; [|by apply IH]); [done|].
    etransitivity; [apply Hs|]. by apply perform_guard.
Qed.

Lemma guards_pstep {A} w w' (p p' : prog A) :
  pstep (w, p) (w', p') -> guards G p -> G w w' /\ guards G p'.
Proof.
  unfold pstep. intros H Hp. destruct p; simpl in *; try done.
  - destruct Hp as [Hf Hc]. by simplify_eq.
  - destruct Hp as [Hf Hc], H as [o ?]. simplify_eq.
    split; [by apply perform_guard|done].
Qed.
End Guards.
End ProgFacts.

(** ** Automation *)

Section ExecEquations.
Context {W err : Type}.
Lemma exec_ret {A} (a : A) (w : W) : exec (Ret a : prog W err A) w = (inl a, w).
Proof. done. Qed.
Lemma exec_throw {A} (e : err) (w : W) : exec (Throw e : prog W err A) w = (inr e, w).
Proof. done. Qed.
Lemma exec_loc {R} (f : W -> R * W) w : exec (loc f : prog W err R) w = (inl (f w).1, (f w).2).
Proof. done. Qed.
Lemma exec_gets {R} (f : W -> R) w : exec (gets f : prog W err R) w = (inl (f w), w).
Proof. done. Qed.
Lemma exec_modify (f : W -> W) w : exec (modify f : prog W err unit) w = (inl tt, f w).
Proof. done. Qed.
Lemma exec_rethrow {A} (r : A + err) (w : W) : exec (rethrow r) w = (r, w).
Proof. by destruct r. Qed.
Lemma run_ret {A} (a : A) env (w : W) : run (Ret a : prog W err A) env w = (inl a, w, env).
Proof. done. Qed.
Lemma run_throw {A} (e : err) env (w : W) :
  run (Throw e : prog W err A) env w = (inr e, w, env).
Proof. done. Qed.
Lemma run_gets {R} (f : W -> R) env w :
  run (gets f : prog W err R) env w = (inl (f w), w, env).
Proof. done. Qed.
Lemma run_modify (f : W -> W) env w :
  run (modify f : prog W err unit) env w = (inl tt, f w, env).
Proof. done. Qed.
Lemma run_rethrow {A} (r : A + err) env (w : W) : run (rethrow r) env w = (r, w, env).
Proof. by destruct r. Qed.
End ExecEquations.

Create Rewrite HintDb exec.
#[export] Hint Rewrite @exec_bind @exec_attempt @exec_act @exec_catch @exec_finally
  @exec_transaction @exec_ret @exec_throw @exec_loc @exec_gets @exec_modify
  @exec_rethrow : exec.

Create Rewrite HintDb run.
#[export] Hint Rewrite @run_bind @run_attempt @run_catch @run_ret @run_throw @run_gets
  @run_modify @run_rethrow @run_act_cons : run.

Arguments exec : simpl never.
Arguments run : simpl never.
Arguments bind : simpl never.
Arguments attempt : simpl never.
Arguments act : simpl never.
Arguments loc : simpl never.
Arguments guards : simpl never.

(** Push the interpreter one call further. *)
Ltac step := autorewrite with exec; simpl.

(** Establish a guarantee: follow the structure of the program and finish each
    remote call with the [guards] hints. *)
Ltac guard_split :=
  match goal with
  | |- guards _ (bind _ _) => apply guards_bind
  | |- guards _ (catch _ _) => apply guards_catch
  | |- guards _ (finally _ _) => apply guards_finally
  | |- guards _ (attempt _) => apply guards_attempt
  | |- guards _ (for_each _ _) => apply guards_for_each
  | |- guards _ (map_prog _ _) => apply guards_map_prog
  | |- guards _ (rethrow _) => apply guards_rethrow
  | |- guards _ (Ret _) => exact I
  | |- guards _ (Throw _) => exact I
  | |- forall _, _ => intros ?
  | |- guards _ (if ?b then _ else _) => destruct b eqn:?
  | |- guards _ (match ?x with _ => _ end) => destruct x eqn:?
  | |- guards _ (let _ := _ in _) => cbv zeta
  end.

Ltac solve_guards := repeat first [solve [eauto 3 with guards] | guard_split].
