(* ===== verification/JsString.v ===== *)
(** * JavaScript strings and numbers

    The fragment of the language's standard library the sources use: ASCII case
    folding, substring search, trimming, splitting, and the conversion of a
    [bigint] to a double-precision [number]. *)

From S2P Require Import Prelude.
From Stdlib Require Import Ascii.

Definition lower_ascii (a : ascii) : ascii :=
  let n := N_of_ascii a in
  if (65 <=? n)%N && (n <=? 90)%N then ascii_of_N (n + 32) else a.

Definition upper_ascii (a : ascii) : ascii :=
  let n := N_of_ascii a in
  if (97 <=? n)%N && (n <=? 122)%N then ascii_of_N (n - 32) else a.

Definition newline : string := String (ascii_of_N 10) EmptyString.

(** A text between double quotes. *)
Definition in_quotes (s : string) : string :=
  let q := String (ascii_of_N 34) EmptyString in q +:+ s +:+ q.

Fixpoint string_map (f : ascii -> ascii) (s : string) : string :=
  match s with
  | EmptyString => EmptyString
  | String a s' => String (f a) (string_map f s')
  end.

Definition toLowerCase : string -> string := string_map lower_ascii.
Definition toUpperCase : string -> string := string_map upper_ascii.

(** [s.startsWith(p)] *)
Fixpoint startsWith (p s : string) : bool :=
  match p, s with
  | EmptyString, _ => true
  | String a p', String b s' => Ascii.eqb a b && startsWith p' s'
  | String _ _, EmptyString => false
  end.

(** [s.includes(p)] *)
Fixpoint includes (p s : string) : bool :=
  startsWith p s ||
  match s with
  | EmptyString => false
  | String _ s' => includes p s'
  end.

(** Every character of the string satisfies the predicate ([/^[...]*$/]). *)
Fixpoint all_chars (f : ascii -> bool) (s : string) : bool :=
  match s with
  | EmptyString => true
  | String a s' => f a && all_chars f s'
  end.

Definition is_digit (a : ascii) : bool :=
  let n := N_of_ascii a in (48 <=? n)%N && (n <=? 57)%N.

Definition is_space (a : ascii) : bool :=
  let n := N_of_ascii a in (n =? 32)%N || ((9 <=? n)%N && (n <=? 13)%N).

Fixpoint trimStart (s : string) : string :=
  match s with
  | String a s' => if is_space a then trimStart s' else s
  | EmptyString => EmptyString
  end.

Fixpoint trimEnd (s : string) : string :=
  match s with
  | EmptyString => EmptyString
  | String a s' =>
      match trimEnd s' with
      | EmptyString => if is_space a then EmptyString else String a EmptyString
      | t => String a t
      end
  end.

Definition trim (s : string) : string := trimEnd (trimStart s).

(** [!s] for an optional string: undefined and the empty string are falsy. *)
Definition falsy (o : option string) : bool :=
  match o with None | Some EmptyString => true | _ => false end.

(** [BigInt(s)] for a string of decimal digits. *)
Fixpoint digits_value (acc : Z) (s : string) : Z :=
  match s with
  | EmptyString => acc
  | String a s' => digits_value (acc * 10 + Z.of_N (N_of_ascii a) - 48) s'
  end.

(** [Number(b)] of a bigint: rounding to the nearest double, ties to even. *)
Definition toNumber (z : Z) : Z :=
  let a := Z.abs z in
  if a <=? 2 ^ 53 then z
  else
    let e := Z.log2 a - 52 in
    let q := a / 2 ^ e in
    let r := a mod 2 ^ e in
    let half := 2 ^ (e - 1) in
    let q' := if (half <? r) || ((r =? half) && Z.odd q) then q + 1 else q in
    Z.sgn z * (q' * 2 ^ e).

Definition MAX_SAFE_INTEGER : Z := 2 ^ 53 - 1.

Lemma toNumber_safe z : Z.abs z <= MAX_SAFE_INTEGER -> toNumber z = z.
Proof.
  unfold toNumber, MAX_SAFE_INTEGER. intros H.
  destruct (Z.leb_spec (Z.abs z) (2 ^ 53)); [done|lia].
Qed.

Lemma lower_ascii_idem a : lower_ascii (lower_ascii a) = lower_ascii a.
Proof. by destruct a as [[] [] [] [] [] [] [] []]. Qed.

Lemma toLowerCase_idem s : toLowerCase (toLowerCase s) = toLowerCase s.
Proof.
  unfold toLowerCase. induction s as [|a s IH]; simpl; [done|].
  by rewrite lower_ascii_idem, IH.
Qed.

Lemma startsWith_app p s t : startsWith p s -> startsWith p (s +:+ t).
Proof.
  revert s. induction p as [|a p IH]; intros [|b s]; simpl; try done.
  rewrite !andb_True. naive_solver.
Qed.

Lemma startsWith_self p t : startsWith p (p +:+ t).
Proof.
  induction p as [|a p IH]; simpl; [done|].
  rewrite andb_True. split; [|done]. by rewrite Ascii.eqb_refl.
Qed.

(** A fragment of a message is found wherever it is embedded. *)
Lemma includes_mid s p t : includes p (s +:+ p +:+ t).
Proof.
  induction s as [|a s IH]; simpl.
  - assert (H : startsWith p (p +:+ t)) by apply startsWith_self.
    destruct (p +:+ t) as [|b u]; simpl; rewrite orb_True; by left.
  - rewrite orb_True. by right.
Qed.
