(* ===== verification/Double.v ===== *)
(** * Double-precision numbers

    The [number] type of JavaScript as far as amounts and settings need it: IEEE
    754 doubles with rounding to nearest, ties to even.  A finite double is
    [m * 2^e]; the sign of zero is not kept, no operation here shows it. *)

From S2P Require Import Prelude.

Inductive double := Finite (m e : Z) | Infinite (negative : bool) | NaN.

#[global] Instance double_eq_dec : EqDecision double.
Proof. solve_decision. Defined.

(** Numerator and denominator of [m * 2^e]. *)
Definition vnum (m e : Z) : Z := m * 2 ^ Z.max 0 e.
Definition vden (e : Z) : Z := 2 ^ Z.max 0 (- e).

(** The integer nearest to [n / d], ties to even. *)
Definition round_even (n d : Z) : Z :=
  let q := n / d in
  let r := n mod d in
  if 2 * r <? d then q
  else if d <? 2 * r then q + 1
  else if Z.even q then q else q + 1.

(** [floor (log2 (n / d))] of a positive ratio. *)
Definition log2_ratio (n d : Z) : Z :=
  let k := Z.log2 n - Z.log2 d in
  if d * 2 ^ Z.max 0 k <=? n * 2 ^ Z.max 0 (- k) then k else k - 1.

(** The double nearest to the positive ratio [n / d]. *)
Definition round_pos (n d : Z) : double :=
  let e := Z.max (-1074) (log2_ratio n d - 52) in
  let m := round_even (n * vden e) (d * 2 ^ Z.max 0 e) in
  let me := if m =? 2 ^ 53 then (2 ^ 52, e + 1) else (m, e) in
  if 971 <? me.2 then Infinite false else Finite me.1 me.2.

Definition negate (x : double) : double :=
  match x with
  | Finite m e => Finite (- m) e
  | Infinite b => Infinite (negb b)
  | NaN => NaN
  end.

(** The double nearest to [n / d], for a positive [d]. *)
Definition of_ratio (n d : Z) : double :=
  if n =? 0 then Finite 0 0
  else if 0 <? n then round_pos n d else negate (round_pos (- n) d).

(** [Number(z)] of a BigInt. *)
Definition of_Z (z : Z) : double := of_ratio z 1.

(** [x * y] and [x - y] *)
Definition mul (x y : double) : double :=
  match x, y with
  | Finite m e, Finite m' e' => of_ratio (vnum m e * vnum m' e') (vden e * vden e')
  | Infinite b, Finite m _ | Finite m _, Infinite b =>
      if m =? 0 then NaN else Infinite (xorb b (m <? 0))
  | Infinite b, Infinite b' => Infinite (xorb b b')
  | _, _ => NaN
  end.

Definition sub (x y : double) : double :=
  match x, y with
  | Finite m e, Finite m' e' =>
      of_ratio (vnum m e * vden e' - vnum m' e' * vden e) (vden e * vden e')
  | Infinite b, Finite _ _ => Infinite b
  | Finite _ _, Infinite b => Infinite (negb b)
  | Infinite b, Infinite b' => if Bool.eqb b b' then NaN else Infinite b
  | _, _ => NaN
  end.

(** [x / y] of finite numbers, [y] not zero. *)

Definition div (x y : double) : double :=
  match x, y with
  | Finite m e, Finite m' e' =>
      of_ratio (vnum m e * vden e' * Z.sgn m') (vden e * Z.abs (vnum m' e'))
  | _, _ => NaN
  end.

(** [Math.round]: the nearest integer, ties up. *)
Definition round_half_up (n d : Z) : Z := (2 * n + d) / (2 * d).

(** ** Rounding errors *)

Lemma vden_pos e : 0 < vden e.
Proof. unfold vden. apply Z.pow_pos_nonneg; lia. Qed.

Lemma round_even_error n d : 0 < d -> 2 * Z.abs (round_even n d * d - n) <= d.
Proof.
  intros Hd. unfold round_even. pose proof (Z.div_mod n d ltac:(lia)) as E.
  pose proof (Z.mod_pos_bound n d Hd).
  destruct (Z.ltb_spec (2 * (n mod d)) d); [nia|].
  destruct (Z.ltb_spec d (2 * (n mod d))); [nia|]. destruct (Z.even (n / d)); nia.
Qed.

Lemma round_even_exact n : round_even n 1 = n.
Proof. unfold round_even. rewrite Z.div_1_r, Z.mod_1_r. done. Qed.

Lemma round_even_bounds n d a b :
  0 < d -> a * d <= n -> n < b * d -> a <= round_even n d <= b.
Proof.
  intros Hd Ha Hb. unfold round_even. pose proof (Z.div_mod n d ltac:(lia)) as E.
  pose proof (Z.mod_pos_bound n d Hd).
  assert (a <= n / d) by (apply Z.div_le_lower_bound; lia).
  assert (n / d < b) by (apply Z.div_lt_upper_bound; lia).
  repeat case_match; lia.
Qed.

(** [2^k <= n / d], compared without fractions at any scale. *)
Definition at_least (n d k : Z) : Prop := d * 2 ^ Z.max 0 k <= n * 2 ^ Z.max 0 (- k).

Lemma at_least_scale n d k c :
  0 <= c -> 0 <= k + c -> at_least n d k <-> d * 2 ^ (k + c) <= n * 2 ^ c.
Proof.
  intros Hc Hk. unfold at_least.
  replace (k + c) with (Z.max 0 k + (c - Z.max 0 (- k))) by lia.
  replace (2 ^ c) with (2 ^ Z.max 0 (- k) * 2 ^ (c - Z.max 0 (- k)))
    by (rewrite <- Z.pow_add_r by lia; f_equal; lia).
  rewrite Z.pow_add_r by lia.
  assert (0 < 2 ^ (c - Z.max 0 (- k))) by (apply Z.pow_pos_nonneg; lia). split; intros; nia.
Qed.

Lemma log2_ratio_spec n d :
  0 < n -> 0 < d -> at_least n d (log2_ratio n d) /\ ~ at_least n d (log2_ratio n d + 1).
Proof.
  intros Hn Hd. unfold log2_ratio.
  pose proof (Z.log2_spec n Hn) as [Hn1 Hn2]. pose proof (Z.log2_spec d Hd) as [Hd1 Hd2].
  pose proof (Z.log2_nonneg n). pose proof (Z.log2_nonneg d).
  set (a := Z.log2 n) in *. set (b := Z.log2 d) in *. set (c := Z.abs (a - b) + 2).
  assert (Hp : forall x, 0 <= x -> 0 < 2 ^ x) by (intros; apply Z.pow_pos_nonneg; lia).
  assert (Hup : ~ at_least n d (a - b + 1)).
  { rewrite (at_least_scale _ _ _ c) by lia. apply Z.lt_nge.
    apply Z.lt_le_trans with (2 ^ (Z.succ a) * 2 ^ c).
    - apply Z.mul_lt_mono_pos_r; [apply Hp; lia|done].
    - rewrite <- Z.pow_add_r by lia. transitivity (2 ^ b * 2 ^ (a - b + 1 + c)).
      + rewrite <- Z.pow_add_r by lia. apply Z.pow_le_mono_r; lia.
      + apply Z.mul_le_mono_nonneg_r; [apply Z.lt_le_incl, Hp; lia|done]. }
  assert (Hlo : at_least n d (a - b - 1)).
  { rewrite (at_least_scale _ _ _ c) by lia.
    transitivity (2 ^ (Z.succ b) * 2 ^ (a - b - 1 + c)).
    - apply Z.mul_le_mono_nonneg_r; [apply Z.lt_le_incl, Hp; lia|lia].
    - rewrite <- Z.pow_add_r by lia. transitivity (2 ^ a * 2 ^ c).
      + rewrite <- Z.pow_add_r by lia. apply Z.pow_le_mono_r; lia.
      + apply Z.mul_le_mono_nonneg_r; [apply Z.lt_le_incl, Hp; lia|done]. }
  destruct (Z.leb_spec (d * 2 ^ Z.max 0 (a - b)) (n * 2 ^ Z.max 0 (- (a - b)))) as [Hge|Hlt].
  - done.
  - split; [done|]. replace (a - b - 1 + 1) with (a - b) by lia. unfold at_least. lia.
Qed.

Lemma at_least_mono n d a b : 0 < d -> b <= a -> at_least n d a -> at_least n d b.
Proof.
  intros Hd Hab. set (c := Z.abs a + Z.abs b).
  rewrite (at_least_scale n d a c), (at_least_scale n d b c) by lia. intros H.
  transitivity (d * 2 ^ (a + c)); [|done].
  apply Z.mul_le_mono_nonneg_l; [lia|]. apply Z.pow_le_mono_r; lia.
Qed.

Lemma log2_ratio_range n d i j :
  0 < n -> 0 < d -> 0 <= i -> 0 <= j -> d <= n * 2 ^ i -> n < d * 2 ^ j -> - i <= log2_ratio n d < j.
Proof.
  intros Hn Hd Hi Hj Hlo Hhi. destruct (log2_ratio_spec n d Hn Hd) as [H1 H2].
  assert (Hl : at_least n d (- i)).
  { unfold at_least. rewrite Z.max_l, Z.max_r by lia. rewrite Z.opp_involutive. lia. }
  assert (Hu : ~ at_least n d j).
  { unfold at_least. rewrite Z.max_r, (Z.max_l 0 (- j)) by lia. lia. }
  split.
  - destruct (Z.le_gt_cases (- i) (log2_ratio n d)); [done|]. exfalso. apply H2.
    apply (at_least_mono _ _ (- i)); [done|lia|done].
  - destruct (Z.le_gt_cases j (log2_ratio n d)); [|done]. exfalso. apply Hu.
    by apply (at_least_mono _ _ (log2_ratio n d)).
Qed.

(** The scaled ratio has 53 bits. *)
Lemma scaled_bounds n d e :
  0 < n -> 0 < d -> e = log2_ratio n d - 52 ->
  2 ^ 52 * (d * 2 ^ Z.max 0 e) <= n * vden e < 2 ^ 53 * (d * 2 ^ Z.max 0 e).
Proof.
  intros Hn Hd ->. destruct (log2_ratio_spec n d Hn Hd) as [H1 H2].
  set (k := log2_ratio n d) in *. unfold vden.
  rewrite (at_least_scale _ _ _ (Z.max 0 (- (k - 52)))) in H1 by lia.
  rewrite (at_least_scale _ _ _ (Z.max 0 (- (k - 52)))) in H2 by lia.
  replace (k + Z.max 0 (- (k - 52))) with (52 + Z.max 0 (k - 52)) in H1 by lia.
  replace (k + 1 + Z.max 0 (- (k - 52))) with (53 + Z.max 0 (k - 52)) in H2 by lia.
  rewrite Z.pow_add_r in H1, H2 by lia. split; nia.
Qed.

Lemma pow2_pos x : 0 <= x -> 0 < 2 ^ x.
Proof. intros. apply Z.pow_pos_nonneg; lia. Qed.

(** A relative error of at most 2^-53. *)
Definition close (x d n q : Z) : Prop := 2 ^ 53 * Z.abs (x * d - n * q) <= n * q.

(** Halving the mantissa and raising the exponent changes nothing. *)
Lemma vnum_vden_succ m e : vnum m (e + 1) * vden e = vnum (2 * m) e * vden (e + 1).
Proof.
  unfold vnum, vden. destruct (Z.leb_spec 0 e).
  - rewrite !(Z.max_l 0 (- _)), !(Z.max_r 0 _) by lia. rewrite Z.pow_add_r by lia. lia.
  - rewrite !(Z.max_r 0 (- _)), !(Z.max_l 0 _) by lia.
    replace (- e) with (1 + - (e + 1)) at 1 by lia. rewrite Z.pow_add_r by lia. lia.
Qed.

Lemma close_scale x q x' q' d n :
  0 < q -> 0 < q' -> x' * q = x * q' -> close x d n q -> close x' d n q'.
Proof.
  unfold close. intros Hq Hq' E H. apply (Z.mul_le_mono_pos_r _ _ q Hq).
  replace (2 ^ 53 * Z.abs (x' * d - n * q') * q)
    with (2 ^ 53 * (Z.abs (x' * d - n * q') * Z.abs q)) by (rewrite (Z.abs_eq q) by lia; lia).
  rewrite <- Z.abs_mul. replace ((x' * d - n * q') * q) with ((x * d - n * q) * q')
    by (pose proof (f_equal (Z.mul d) E); lia).
  rewrite Z.abs_mul, (Z.abs_eq q') by lia. nia.
Qed.

(** A common factor of the ratio is irrelevant. *)
Lemma close_cancel c x d n q : 0 < c -> close x (d * c) (n * c) q -> close x d n q.
Proof.
  unfold close. intros Hc H. apply (Z.mul_le_mono_pos_r _ _ c Hc).
  replace (2 ^ 53 * Z.abs (x * d - n * q) * c)
    with (2 ^ 53 * (Z.abs (x * d - n * q) * Z.abs c)) by (rewrite (Z.abs_eq c) by lia; lia).
  rewrite <- Z.abs_mul.
  replace ((x * d - n * q) * c) with (x * (d * c) - n * c * q) by lia. lia.
Qed.

(** The relative error of a rounded ratio in the normal range. *)
Lemma of_ratio_close n d :
  0 < n -> 0 < d -> -1022 <= log2_ratio n d < 1023 ->
  exists m e, of_ratio n d = Finite m e /\ 0 <= m /\ close (vnum m e) d n (vden e).
Proof.
  intros Hn Hd Hk. unfold of_ratio. destruct (Z.eqb_spec n 0); [lia|].
  destruct (Z.ltb_spec 0 n); [|lia]. unfold round_pos. rewrite Z.max_r by lia.
  set (e := log2_ratio n d - 52). pose proof (scaled_bounds n d e Hn Hd eq_refl) as [Hlo Hhi].
  set (D := d * 2 ^ Z.max 0 e) in *. set (N := n * vden e) in *.
  assert (HD : 0 < D) by (unfold D; pose proof (pow2_pos (Z.max 0 e)); nia).
  pose proof (round_even_error N D HD) as Herr.
  pose proof (round_even_bounds N D (2 ^ 52) (2 ^ 53) HD Hlo Hhi) as Hb.
  set (m := round_even N D) in *.
  assert (Hc : close (vnum m e) d n (vden e)).
  { unfold close. fold N. replace (vnum m e * d) with (m * D) by (unfold vnum, D; lia). lia. }
  destruct (Z.eqb_spec m (2 ^ 53)) as [Em|_]; cbn [fst snd].
  - destruct (Z.ltb_spec 971 (e + 1)); [lia|]. exists (2 ^ 52), (e + 1). split; [done|].
    split; [lia|]. apply (close_scale (vnum m e) (vden e)); [apply vden_pos..| |done].
    rewrite vnum_vden_succ, Em. done.
  - destruct (Z.ltb_spec 971 e); [lia|]. exists m, e. split; [done|]. split; [lia|done].
Qed.

(** The same for a ratio given with a common factor. *)
Lemma of_ratio_near c n d :
  0 < c -> 0 < n -> 0 < d -> d <= n * 2 ^ 1022 -> n < d * 2 ^ 1023 ->
  exists m e, of_ratio (n * c) (d * c) = Finite m e /\ 0 <= m /\ close (vnum m e) d n (vden e).
Proof.
  intros Hc Hn Hd Hlo Hhi.
  destruct (of_ratio_close (n * c) (d * c)) as (m & e & E & Hm & Hcl);
    [by apply Z.mul_pos_pos..| |].
  - apply (log2_ratio_range (n * c) (d * c) 1022 1023); [by apply Z.mul_pos_pos..|lia|lia| |].
    + replace (n * c * 2 ^ 1022) with (n * 2 ^ 1022 * c) by lia.
      apply Z.mul_le_mono_nonneg_r; lia.
    + replace (d * c * 2 ^ 1023) with (d * 2 ^ 1023 * c) by lia.
      by apply Z.mul_lt_mono_pos_r.
  - exists m, e. split; [done|]. split; [done|]. by apply (close_cancel c).
Qed.

(** An integer of at most 53 bits is kept exactly. *)
Lemma of_Z_exact z : 0 < z < 2 ^ 53 ->
  exists m e, of_Z z = Finite m e /\ 0 < m /\ vnum m e = z * vden e.
Proof.
  intros Hz. unfold of_Z, of_ratio. destruct (Z.eqb_spec z 0); [lia|].
  destruct (Z.ltb_spec 0 z); [|lia]. unfold round_pos.
  assert (El : log2_ratio z 1 = Z.log2 z).
  { unfold log2_ratio. change (Z.log2 1) with 0. rewrite Z.sub_0_r.
    pose proof (Z.log2_nonneg z). rewrite Z.max_r, (Z.max_l 0 (- _)) by lia.
    pose proof (Z.log2_spec z). destruct (Z.leb_spec (1 * 2 ^ Z.log2 z) (z * 2 ^ 0)); lia. }
  assert (Hk : 0 <= Z.log2 z <= 52).
  { split; [apply Z.log2_nonneg|]. apply Z.lt_succ_r, Z.log2_lt_pow2; lia. }
  rewrite El, Z.max_r by lia. set (e := Z.log2 z - 52).
  rewrite (Z.max_l 0 e) by lia. change (1 * 2 ^ 0) with 1. rewrite round_even_exact.
  pose proof (scaled_bounds z 1 e ltac:(lia) ltac:(lia) ltac:(lia)) as [_ Hhi].
  rewrite (Z.max_l 0 e) in Hhi by lia.
  destruct (Z.eqb_spec (z * vden e) (2 ^ 53)); [lia|]. cbn [fst snd].
  destruct (Z.ltb_spec 971 e); [lia|]. exists (z * vden e), e. split; [done|].
  pose proof (vden_pos e). split; [nia|]. unfold vnum. rewrite Z.max_l by lia. lia.
Qed.

(** ** Integers *)

(** A common factor of a ratio does not matter. *)
Lemma round_even_scale n d c : 0 < d -> 0 < c -> round_even (n * c) (d * c) = round_even n d.
Proof.
  intros Hd Hc. unfold round_even. rewrite Z.div_mul_cancel_r, Zmult_mod_distr_r by lia.
  replace (2 * (n mod d * c) <? d * c) with (2 * (n mod d) <? d)
    by (destruct (Z.ltb_spec (2 * (n mod d)) d), (Z.ltb_spec (2 * (n mod d * c)) (d * c)); nia).
  replace (d * c <? 2 * (n mod d * c)) with (d <? 2 * (n mod d))
    by (destruct (Z.ltb_spec d (2 * (n mod d))), (Z.ltb_spec (d * c) (2 * (n mod d * c))); nia).
  done.
Qed.

Lemma log2_ratio_scale n d c : 0 < n -> 0 < d -> 0 < c -> log2_ratio (n * c) (d * c) = log2_ratio n d.
Proof.
  intros Hn Hd Hc.
  destruct (log2_ratio_spec n d Hn Hd) as [H1 H2].
  destruct (log2_ratio_spec (n * c) (d * c)) as [H3 H4]; [nia..|].
  assert (Hs : forall k, at_least (n * c) (d * c) k <-> at_least n d k).
  { intros k. unfold at_least. split; intros H; nia. }
  rewrite Hs in H3, H4.
  destruct (Z.lt_trichotomy (log2_ratio (n * c) (d * c)) (log2_ratio n d)) as [Hl|[Hl|Hl]]; [|done|].
  - exfalso. apply H4. apply (at_least_mono _ _ (log2_ratio n d)); [done|lia|done].
  - exfalso. apply H2. apply (at_least_mono _ _ (log2_ratio (n * c) (d * c))); [done|lia|done].
Qed.

Lemma round_pos_scale n d c : 0 < n -> 0 < d -> 0 < c -> round_pos (n * c) (d * c) = round_pos n d.
Proof.
  intros Hn Hd Hc. unfold round_pos. rewrite log2_ratio_scale by done. cbv zeta.
  set (e := Z.max _ _).
  replace (n * c * vden e) with (n * vden e * c) by lia.
  replace (d * c * 2 ^ Z.max 0 e) with (d * 2 ^ Z.max 0 e * c) by lia.
  rewrite round_even_scale; [done| |done]. pose proof (pow2_pos (Z.max 0 e)). nia.
Qed.

Lemma of_ratio_scale n d c : 0 < d -> 0 < c -> of_ratio (n * c) (d * c) = of_ratio n d.
Proof.
  intros Hd Hc. unfold of_ratio.
  destruct (Z.eqb_spec n 0) as [->|]; [done|]. destruct (Z.eqb_spec (n * c) 0); [nia|].
  destruct (Z.ltb_spec 0 n), (Z.ltb_spec 0 (n * c)); try nia; [by apply round_pos_scale|].
  rewrite <- Z.mul_opp_l, round_pos_scale by lia. done.
Qed.

(** The double is the integer [n]. *)
Definition reads (x : double) (n : Z) : Prop :=
  exists m e, x = Finite m e /\ vnum m e = n * vden e.

Lemma of_Z_reads n : 0 <= n < 2 ^ 53 -> reads (of_Z n) n.
Proof.
  intros Hn. destruct (decide (n = 0)) as [->|]; [by exists 0, 0|].
  destruct (of_Z_exact n) as (m & e & E & _ & H); [lia|]. by exists m, e.
Qed.

Lemma of_Z_reads_neg n : 0 < n < 2 ^ 53 -> reads (of_Z (- n)) (- n).
Proof.
  intros Hn. destruct (of_Z_exact n Hn) as (m & e & E & _ & H). unfold of_Z, of_ratio in *.
  destruct (Z.eqb_spec n 0); [lia|]. destruct (Z.ltb_spec 0 n); [|lia].
  destruct (Z.eqb_spec (- n) 0); [lia|]. destruct (Z.ltb_spec 0 (- n)); [lia|].
  rewrite Z.opp_involutive, E. exists (- m), e. split; [done|]. unfold vnum in *. lia.
Qed.

(** Differences and products of integers are the integers, rounded. *)
Lemma sub_reads x y a b : reads x a -> reads y b -> sub x y = of_Z (a - b).
Proof.
  intros (m & e & -> & H) (m' & e' & -> & H'). cbn [sub]. rewrite H, H'.
  pose proof (vden_pos e). pose proof (vden_pos e'). unfold of_Z.
  rewrite <- (of_ratio_scale (a - b) 1 (vden e * vden e')) by nia. f_equal; lia.
Qed.

Lemma mul_reads x y a b : reads x a -> reads y b -> mul x y = of_Z (a * b).
Proof.
  intros (m & e & -> & H) (m' & e' & -> & H'). cbn [mul]. rewrite H, H'.
  pose proof (vden_pos e). pose proof (vden_pos e'). unfold of_Z.
  rewrite <- (of_ratio_scale (a * b) 1 (vden e * vden e')) by nia. f_equal; lia.
Qed.

(** ** Comparisons and decimal conversions *)

(** [Number.isFinite(x)] *)
Definition isFinite (x : double) : bool := match x with Finite _ _ => true | _ => false end.

(** [x < z] for an integer [z]; [NaN] compares as false. *)
Definition ltb_Z (x : double) (z : Z) : bool :=
  match x with
  | Finite m e => vnum m e <? z * vden e
  | Infinite negative => negative
  | NaN => false
  end.

(** The integer nearest to [10^digits * x], ties up. *)
Definition scaled (digits : Z) (x : double) : Z :=
  match x with
  | Finite m e => round_half_up (vnum m e * 10 ^ digits) (vden e)
  | _ => 0
  end.

(** [Number(x.toFixed(digits))] of a number that is not negative: from 10^21 on,
    [toFixed] is [toString], which reads back as the number itself. *)
Definition reparse_fixed (digits : Z) (x : double) : double :=
  if isFinite x && ltb_Z x (10 ^ 21) then of_ratio (scaled digits x) (10 ^ digits) else x.

(** [BigInt(Math.round(x))]: a RangeError on what is not a finite number. *)
Definition BigInt_round (x : double) : option Z :=
  match x with Finite m e => Some (round_half_up (vnum m e) (vden e)) | _ => None end.

Lemma round_half_up_near n d z : 0 < d -> 2 * Z.abs (n - z * d) < d -> round_half_up n d = z.
Proof. intros Hd H. unfold round_half_up. symmetry. apply (Z.div_unique_pos _ _ _ (2 * n + d - 2 * d * z)); lia. Qed.

Lemma close_near x d n q : 0 < q -> n < 2 ^ 51 -> close x d n q -> 4 * Z.abs (x * d - n * q) < q.
Proof. unfold close. intros Hq Hn H. nia. Qed.

(** Rounding something close to an integer once more stays close to it. *)
Lemma close_near_again v q y d n :
  0 < q -> 0 < d -> n < 2 ^ 51 - 1 -> 4 * Z.abs (y - n * q) < q -> close v q y d ->
  2 * Z.abs (v - n * d) < d.
Proof.
  unfold close. intros Hq Hd Hn Hy Hv.
  assert (Hy2 : y <= 2 ^ 51 * q) by nia.
  assert (H1 : 4 * Z.abs (v * q - y * d) <= q * d) by nia.
  assert (H2 : 4 * Z.abs (y * d - n * q * d) < q * d).
  { replace (y * d - n * q * d) with ((y - n * q) * d) by lia. rewrite Z.abs_mul, (Z.abs_eq d) by lia. nia. }
  assert (H3 : 2 * Z.abs ((v - n * d) * q) < d * q) by lia.
  rewrite Z.abs_mul, (Z.abs_eq q) in H3 by lia. nia.
Qed.

(** A double within half an ulp of [n / 10^digits] prints as those digits. *)
Lemma scaled_close digits m e n :
  0 <= digits -> n < 2 ^ 51 -> close (vnum m e) (10 ^ digits) n (vden e) ->
  scaled digits (Finite m e) = n.
Proof.
  intros Hd Hn Hc. cbn. apply round_half_up_near; [apply vden_pos|].
  pose proof (close_near _ _ _ _ (vden_pos e) Hn Hc). lia.
Qed.

Example third : of_ratio 1 3 = Finite 6004799503160661 (-54).
Proof. reflexivity. Qed.
Example tenth_times_three : mul (of_ratio 1 10) (of_Z 3) = Finite 5404319552844596 (-54).
Proof. reflexivity. Qed.
Example overflow : of_ratio (2 ^ 1024) 1 = Infinite false.
Proof. reflexivity. Qed.
Example subnormal : of_ratio 1 (2 ^ 1074) = Finite 1 (-1074) /\ of_ratio 1 (2 ^ 1076) = Finite 0 (-1074).
Proof. split; reflexivity. Qed.
