(* ===== verification/RegExp.v ===== *)
(** * Regular expressions

    The fragment of JavaScript's [RegExp.test] the sources use: character
    classes, sequence, alternation, optional and repeated parts, and word
    boundaries, searched for anywhere in the text. *)

From S2P Require Import Prelude JsString.
From Stdlib Require Import Ascii.

Inductive regexp :=
| Eps
| Chr (f : ascii -> bool)
| Seq (a b : regexp)
| Alt (a b : regexp)
| Star (a : regexp)
| Boundary.

Definition is_word (a : ascii) : bool :=
  let n := N_of_ascii (lower_ascii a) in
  ((97 <=? n)%N && (n <=? 122)%N) || is_digit a || (n =? 95)%N.

Definition opt_word (o : option ascii) : bool := match o with Some a => is_word a | None => false end.

Definition first_char (s : string) : option ascii :=
  match s with EmptyString => None | String a _ => Some a end.

(** Match [r] at the current position, given the character before it, and
    continue with [k] behind the match. *)
Fixpoint matches (r : regexp) (prev : option ascii) (s : string)
    (k : option ascii -> string -> bool) : bool :=
  match r with
  | Eps => k prev s
  | Chr f => match s with String a s' => f a && k (Some a) s' | EmptyString => false end
  | Seq a b => matches a prev s (fun p s' => matches b p s' k)
  | Alt a b => matches a prev s k || matches b prev s k
  | Star a =>
      (fix star (n : nat) (p : option ascii) (s : string) : bool :=
         k p s ||
         match n with
         | O => false
         | S n' => matches a p s (fun p' s' =>
             Nat.ltb (String.length s') (String.length s) && star n' p' s')
         end) (String.length s) prev s
  | Boundary => negb (Bool.eqb (opt_word prev) (opt_word (first_char s))) && k prev s
  end.

(** [r.test(s)] *)
Fixpoint search (r : regexp) (prev : option ascii) (s : string) : bool :=
  matches r prev s (fun _ _ => true) ||
  match s with EmptyString => false | String a s' => search r (Some a) s' end.

Definition test (r : regexp) (s : string) : bool := search r None s.

(** A literal under the [i] flag; the pattern is written in lower case. *)
Fixpoint lit (p : string) : regexp :=
  match p with
  | EmptyString => Eps
  | String a p' => Seq (Chr (fun b => Ascii.eqb a (lower_ascii b))) (lit p')
  end.

Fixpoint alts (rs : list regexp) : regexp :=
  match rs with
  | [] => Chr (fun _ => false)
  | [r] => r
  | r :: rs' => Alt r (alts rs')
  end.

Definition seqs (rs : list regexp) : regexp := fold_right Seq Eps rs.
Definition Opt (r : regexp) : regexp := Alt r Eps.
Definition Plus (r : regexp) : regexp := Seq r (Star r).

(** [r{0,n}] *)
Fixpoint upto (n : nat) (r : regexp) : regexp :=
  match n with O => Eps | S n' => Opt (Seq r (upto n' r)) end.

(** A literal matches exactly where the folded text contains it. *)
Lemma matches_lit p prev s :
  matches (lit p) prev s (fun _ _ => true) = startsWith p (toLowerCase s).
Proof.
  revert prev s. induction p as [|a p IH]; intros prev s; simpl; [done|].
  destruct s as [|b s]; simpl; [done|]. by rewrite IH.
Qed.

Lemma test_lit p s : test (lit p) s = includes p (toLowerCase s).
Proof.
  unfold test. generalize (@None ascii). induction s as [|a s IH]; intros prev; simpl;
    by rewrite matches_lit, ?IH.
Qed.
