(* ===== verification/Schema.v ===== *)
(** * The data model

    The enums and tables of [prisma/schema.prisma] the modelled code reads and
    writes, and the exceptions of [src/common/errors], [src/blockchain] and the
    Prisma client.  A table row does not repeat its primary key: a table is a
    finite map from primary keys to rows.  Columns that nothing reads or sends
    (the version and the dates of a custody key, [createdAt] and [updatedAt] of a
    cursor, [updatedAt] of a lease, [createdAt] of an idempotency key) are left
    out. *)

From S2P Require Import Prelude JsString.
From Stdlib Require Ascii.

Inductive TransactionStatus :=
| PENDING | SUBMITTED | CONFIRMING | CONFIRMED | FAILED | EXPIRED.

#[global] Instance TransactionStatus_eq_dec : EqDecision TransactionStatus.
Proof. solve_decision. Defined.

Inductive Blockchain := EVM | BITCOIN | SOLANA.

#[global] Instance Blockchain_eq_dec : EqDecision Blockchain.
Proof. solve_decision. Defined.

Definition Blockchain_name (b : Blockchain) : string :=
  match b with EVM => "EVM" | BITCOIN => "BITCOIN" | SOLANA => "SOLANA" end.

Inductive CustodyType := CUSTODIAL | EXTERNAL | LOCAL | KMS.

#[global] Instance CustodyType_eq_dec : EqDecision CustodyType.
Proof. solve_decision. Defined.

Inductive WalletStatus := ACTIVE | SUSPENDED.

Inductive Role := ADMIN | USER | SERVICE.

#[global] Instance Role_eq_dec : EqDecision Role.
Proof. solve_decision. Defined.

Record Transaction := mkTransaction {
  tenantId : string; tokenId : string; fromWalletId : string; toWalletId : string;
  txHash : option string; amount : Z; nonce : option Z; gasUsed : option Z;
  blockNumber : option Z;
  status : TransactionStatus; createdAt : Z; submittedAt : option Z;
  confirmationStartedAt : option Z; confirmedAt : option Z;
  failureReason : option string; failedAt : option Z }.

Record Token := mkToken {
  tok_name : string; tok_symbol : string; contractAddress : option string;
  blockchain : Blockchain; isActive : bool; decimals : Z; tok_lastProcessedBlock : Z;
  tok_createdAt : Z }.

Record WalletCustodyKey := mkCustodyKey { encryptedKey : list Ascii.ascii; kmsKeyId : string }.

(** The row of a wallet with the custody key it has, if any. *)
Record Wallet := mkWallet {
  wal_tenantId : string; ownerId : string; chainId : Z; address : string;
  custodyType : CustodyType; wal_status : WalletStatus; custodyKey : option WalletCustodyKey;
  wal_createdAt : Z }.

Record TokenTransfer := mkTransfer {
  tr_tokenId : string; tr_from : string; tr_to : string; tr_amount : Z;
  transactionHash : string; logIndex : Z; tr_blockNumber : Z; tr_createdAt : Z }.

Record TokenEventCursor := mkCursor {
  cur_tokenId : string; lastProcessedBlock : Z; lastProcessedLogIndex : Z;
  lastSuccessfulSync : option Z; lastFailedSync : option Z; failureCount : Z }.

Record BalanceSnapshot := mkSnapshot {
  snap_walletId : string; snap_tokenId : string; balance : Z; snap_blockNumber : Z;
  snap_updatedAt : Z }.

(** The values of payloads and metadata: null, a string, the ISO form of a date,
    an array of strings. *)
Inductive json := JNull | JString (s : string) | JIsoDate (ms : Z) | JStrings (l : list string).

Record OutboxEvent := mkOutbox {
  aggregateId : string; ev_type : string; payload : list (string * json);
  published : bool; publishedAt : option Z; ev_createdAt : Z }.

Record SchedulerLease := mkLease { lease_ownerId : string; expiresAt : Z }.

Record IdempotencyKey := mkIdem {
  idem_tenantId : string; key : string; requestHash : string;
  idem_transactionId : option string; response : option (list (string * json));
  idem_status : string; idem_expiresAt : Z }.

Record Tenant := mkTenant { ten_name : string; ten_createdAt : Z }.

Record User := mkUser {
  email : string; passwordHash : string; role : Role; usr_tenantId : string;
  usr_createdAt : Z }.

Record RefreshToken := mkRefreshToken {
  rt_userId : string; tokenHash : string; rt_createdAt : Z; rt_expiresAt : Z;
  rt_revokedAt : option Z }.

Record ApiKey := mkApiKey {
  key_tenantId : string; keyHash : string; keyPrefix : string; key_name : string;
  active : bool; scopes : list string; lastUsedAt : option Z; key_expiresAt : option Z;
  key_createdAt : Z; revokedAt : option Z }.

Record AuditLog := mkAuditLog {
  log_tenantId : option string; log_userId : option string; action : string;
  resource : string; resourceId : option string;
  metadata : option (list (string * json)); log_createdAt : Z }.

(** ** Exceptions *)

Inductive RpcKind :=
| RpcTimeout | RpcNetwork | RpcRateLimit | RpcUnavailable | RpcReverted
| RpcInvalidRequest | RpcUnknown.

#[global] Instance RpcKind_eq_dec : EqDecision RpcKind.
Proof. solve_decision. Defined.

(** One object of an error's [cause] chain, with the fields the code reads. *)
Record ErrorLayer := mkLayer {
  layer_message : option string; shortMessage : option string;
  details : option string; layer_status : option Z }.

#[global] Instance ErrorLayer_eq_dec : EqDecision ErrorLayer.
Proof. solve_decision. Defined.

(** A value in the [details] of an application error. *)
Inductive detail := DString (s : string) | DNumber (n : Z).

#[global] Instance detail_eq_dec : EqDecision detail.
Proof. solve_decision. Defined.

(** [id ? { key: id } : undefined] *)
Definition id_details (k : string) (id : option string) : option (list (string * detail)) :=
  match id with
  | Some (String _ _ as s) => Some [(k, DString s)]
  | _ => None
  end.

(** [NodeError]: an error of a chain client, with its causes, outermost first.  The
    [meta] of a Prisma error and the [issues] of a zod error are what those libraries
    put there, as JSON text; a validation error of Fastify lists the [instancePath] and
    the [message] of its items. *)
Inductive err :=
| AppError (statusCode : Z) (code message : string) (details_ : option (list (string * detail)))
| InvalidTransactionTransitionError (from to : TransactionStatus)
| TransactionStateConflictError (id : string) (expectedStatus : TransactionStatus)
| TransactionPendingError (hash : string)
| RpcError (kind : RpcKind) (message : string)
| PrismaKnownRequestError (code : string) (meta : option string)
| PlainError (message : string)
| NodeError (top : ErrorLayer) (causes : list ErrorLayer)
| ZodError (issues : string)
| FastifyValidationError (validation : option (list (option string * option string)))
| DeploySafetyError (message : string)
| OutOfFuel.

#[global] Instance err_eq_dec : EqDecision err.
Proof. solve_decision. Defined.

Definition Status_name (s : TransactionStatus) : string :=
  match s with
  | PENDING => "PENDING" | SUBMITTED => "SUBMITTED" | CONFIRMING => "CONFIRMING"
  | CONFIRMED => "CONFIRMED" | FAILED => "FAILED" | EXPIRED => "EXPIRED"
  end.

(** [error.message] *)
Definition err_message (e : err) : string :=
  match e with
  | AppError _ _ m _ => m
  | InvalidTransactionTransitionError f t =>
      "Invalid transaction state transition: " +:+ Status_name f +:+ " -> " +:+ Status_name t
  | TransactionStateConflictError id s =>
      "Transaction " +:+ id +:+ " is no longer in " +:+ Status_name s +:+ " state"
  | TransactionPendingError h => "Transaction " +:+ h +:+ " is still pending confirmation"
  | RpcError _ m => m
  | PrismaKnownRequestError c _ => c
  | PlainError m => m
  | NodeError l _ => default EmptyString (layer_message l)
  | ZodError issues => issues
  | FastifyValidationError _ => "Request validation failed"
  | DeploySafetyError m => m
  | OutOfFuel => ""
  end.

(** ** Column ranges and unique constraints

    PostgreSQL stores a Prisma [BigInt] in eight bytes; a write that does not
    fit is rejected.  [conflicts] lists the [@unique] columns: two distinct
    rows for which it holds cannot coexist. *)
Definition int8 (z : Z) : bool := (- 2 ^ 63 <=? z) && (z <? 2 ^ 63).
Definition int4 (z : Z) : bool := (- 2 ^ 31 <=? z) && (z <? 2 ^ 31).
Definition opt_int8 (o : option Z) : bool := match o with Some z => int8 z | None => true end.

Class Table (R : Type) := { conflicts : R -> R -> bool; fits : R -> bool }.

Definition same_some (a b : option string) : bool :=
  match a, b with Some x, Some y => String.eqb x y | _, _ => false end.

#[global] Instance Transaction_table : Table Transaction := {|
  conflicts a b := same_some (txHash a) (txHash b);
  fits t := int8 (amount t) && opt_int8 (nonce t) && opt_int8 (gasUsed t) && opt_int8 (blockNumber t) |}.
#[global] Instance Token_table : Table Token := {|
  conflicts a b := same_some (contractAddress a) (contractAddress b);
  fits t := int4 (decimals t) && int8 (tok_lastProcessedBlock t) |}.
#[global] Instance Wallet_table : Table Wallet := {|
  conflicts a b := String.eqb (address a) (address b);
  fits t := int4 (chainId t) |}.
#[global] Instance TokenTransfer_table : Table TokenTransfer := {|
  conflicts a b := String.eqb (transactionHash a) (transactionHash b)
                   && (logIndex a =? logIndex b);
  fits t := int8 (tr_amount t) && int4 (logIndex t) && int8 (tr_blockNumber t) |}.
#[global] Instance TokenEventCursor_table : Table TokenEventCursor := {|
  conflicts a b := String.eqb (cur_tokenId a) (cur_tokenId b);
  fits t := int8 (lastProcessedBlock t) && int8 (lastProcessedLogIndex t)
            && int4 (failureCount t) |}.
#[global] Instance BalanceSnapshot_table : Table BalanceSnapshot := {|
  conflicts a b := String.eqb (snap_walletId a) (snap_walletId b)
                   && String.eqb (snap_tokenId a) (snap_tokenId b);
  fits t := int8 (balance t) && int8 (snap_blockNumber t) |}.
#[global] Instance OutboxEvent_table : Table OutboxEvent := {|
  conflicts a b := false; fits t := true |}.
#[global] Instance SchedulerLease_table : Table SchedulerLease := {|
  conflicts a b := false; fits t := true |}.
#[global] Instance IdempotencyKey_table : Table IdempotencyKey := {|
  conflicts a b :=
    (String.eqb (idem_tenantId a) (idem_tenantId b) && String.eqb (key a) (key b))
    || same_some (idem_transactionId a) (idem_transactionId b);
  fits t := true |}.

#[global] Instance Tenant_table : Table Tenant := {|
  conflicts a b := String.eqb (ten_name a) (ten_name b); fits t := true |}.
#[global] Instance User_table : Table User := {|
  conflicts a b := String.eqb (email a) (email b); fits t := true |}.
#[global] Instance RefreshToken_table : Table RefreshToken := {|
  conflicts a b := String.eqb (tokenHash a) (tokenHash b); fits t := true |}.
#[global] Instance ApiKey_table : Table ApiKey := {|
  conflicts a b := String.eqb (keyHash a) (keyHash b); fits t := true |}.
#[global] Instance AuditLog_table : Table AuditLog := {|
  conflicts a b := false; fits t := true |}.

(** A table whose rows fit their columns and respect its unique constraints. *)
Definition table_ok {R} `{Table R} (t : gmap string R) : Prop :=
  map_Forall (fun _ r => fits r = true) t /\
  map_Forall (fun k1 r1 => map_Forall (fun k2 r2 => k1 = k2 \/ conflicts r1 r2 = false) t) t.

#[global] Instance table_ok_dec {R} `{Table R} (t : gmap string R) : Decision (table_ok t).
Proof. unfold table_ok. apply _. Defined.
