(* ===== verification/Addresses.v ===== *)
(** * Chains, wallet addresses and asset identifiers

    [src/blockchain/chain-ids.ts], [src/blockchain/evm/chain.ts],
    [src/blockchain/wallet-address.ts], [src/blockchain/token-identifier.ts]:
    which blockchain a numeric chain id belongs to, and when two spellings of an
    address are the same address. *)

From S2P Require Import Prelude JsString Schema.
From stdpp Require Import pretty.
From Stdlib Require Import Ascii.
#[local] Open Scope Z_scope.

(** The process environment. *)
Abbreviation Env := (string -> option string).

Definition ANVIL_CHAIN_ID : Z := 31337.
Definition BITCOIN_REGTEST_CHAIN_ID : Z := 18444.
Definition SOLANA_LOCALNET_CHAIN_ID : Z := 900.

Definition RESERVED_CHAIN_IDS : list Z := [BITCOIN_REGTEST_CHAIN_ID; SOLANA_LOCALNET_CHAIN_ID].

(** [/^[1-9]\d*$/] *)
Definition positive_decimal (s : string) : bool :=
  match s with
  | EmptyString => false
  | String a s' => is_digit a && negb (Ascii.eqb a "0"%char) && all_chars is_digit s'
  end.

(** The number a decimal literal denotes, as [Number] reads it. *)
Definition numeral (s : string) : Z := toNumber (digits_value 0 s).

Definition getEvmChainId (env : Env) : Z + err :=
  match trim <$> env "EVM_CHAIN_ID" with
  | None | Some EmptyString => inl ANVIL_CHAIN_ID
  | Some raw =>
      let c := numeral raw in
      if negb (positive_decimal raw) || negb (c <=? MAX_SAFE_INTEGER) then
        inr (PlainError ("Invalid EVM_CHAIN_ID " +:+ in_quotes raw +:+ ": expected a positive integer"))
      else if bool_decide (c ∈ RESERVED_CHAIN_IDS) then
        inr (PlainError ("Invalid EVM_CHAIN_ID " +:+ pretty c +:+
               ": collides with a reserved non-EVM chain id"))
      else inl c
  end.

(** The functions below are called in a process that started, i.e. whose
    [EVM_CHAIN_ID] was accepted; [evm] is the accepted value. *)
Section Chains.
Context (evm : Z).
(** viem's [isAddress] and web3.js' on-curve test of a public key. *)
Context (isEvmAddress isOnCurve : string -> bool).

Definition isEvmChainId (c : Z) : bool := c =? evm.

Definition blockchainForChainId (c : Z) : option Blockchain :=
  if isEvmChainId c then Some EVM
  else if c =? BITCOIN_REGTEST_CHAIN_ID then Some BITCOIN
  else if c =? SOLANA_LOCALNET_CHAIN_ID then Some SOLANA
  else None.

(** [/^bcrt1/i] *)
Definition is_bech32 (a : string) : bool := startsWith "bcrt1" (toLowerCase a).

Definition isCaseInsensitiveWalletAddress (c : Z) (a : string) : bool :=
  if isEvmChainId c then true
  else if c =? BITCOIN_REGTEST_CHAIN_ID then is_bech32 a
  else false.

Definition normalizeWalletAddress (c : Z) (a : string) : string :=
  if isCaseInsensitiveWalletAddress c a then toLowerCase a else a.

Definition in_range (lo hi : N) (a : ascii) : bool :=
  let n := N_of_ascii a in (lo <=? n)%N && (n <=? hi)%N.

(** [[ac-hj-np-z02-9]] on a lower-cased character. *)
Definition bech32_char (a : ascii) : bool :=
  Ascii.eqb a "a" || in_range 99 104 a || in_range 106 110 a || in_range 112 122 a
  || Ascii.eqb a "0" || in_range 50 57 a.

(** [[1-9A-HJ-NP-Za-km-z]] *)
Definition base58_char (a : ascii) : bool :=
  in_range 49 57 a || in_range 65 72 a || in_range 74 78 a || in_range 80 90 a
  || in_range 97 107 a || in_range 109 122 a.

Definition length_in (lo hi : nat) (s : string) : bool :=
  (lo <=? String.length s)%nat && (String.length s <=? hi)%nat.

Definition isBitcoinRegtestAddress (a : string) : bool :=
  (match toLowerCase a with
   | String "b" (String "c" (String "r" (String "t" (String "1" s)))) =>
       length_in 8 87 s && all_chars bech32_char s
   | _ => false
   end)
  ||
  (match a with
   | String x s =>
       (Ascii.eqb x "m" || Ascii.eqb x "n" || Ascii.eqb x "2")
       && length_in 25 39 s && all_chars base58_char s
   | EmptyString => false
   end).

Definition isSolanaAddress (a : string) : bool :=
  match a with EmptyString => false | _ => isOnCurve a end.

Definition isValidWalletAddress (c : Z) (a : string) : bool :=
  if isEvmChainId c then isEvmAddress a
  else if c =? BITCOIN_REGTEST_CHAIN_ID then isBitcoinRegtestAddress a
  else if c =? SOLANA_LOCALNET_CHAIN_ID then isSolanaAddress a
  else false.
End Chains.

Definition isCaseInsensitiveAssetIdentifier (b : Blockchain) : bool := bool_decide (b = EVM).

Definition normalizeContractAddress (b : Blockchain) (a : string) : string :=
  if isCaseInsensitiveAssetIdentifier b then toLowerCase a else a.

(** ** Properties *)

Lemma digits_value_bound acc s : 0 <= acc -> all_chars is_digit s = true -> acc <= digits_value acc s.
Proof.
  revert acc. induction s as [|a s IH]; intros acc H Hd; simpl in *; [lia|].
  apply andb_true_iff in Hd as [Ha Hs].
  assert (48 <= Z.of_N (N_of_ascii a)).
  { unfold is_digit in Ha. apply andb_true_iff in Ha as [Ha _]. apply N.leb_le in Ha. lia. }
  specialize (IH (acc * 10 + Z.of_N (N_of_ascii a) - 48) ltac:(lia) Hs). lia.
Qed.

Lemma getEvmChainId_not_reserved env c : getEvmChainId env = inl c -> c ∉ RESERVED_CHAIN_IDS.
Proof.
  unfold getEvmChainId. destruct (trim <$> env "EVM_CHAIN_ID") as [[|a s]|]; simpl.
  - intros [= <-]. by apply (bool_decide_unpack _).
  - destruct (_ || _); [done|]. case_bool_decide; [done|]. by intros [= <-].
  - intros [= <-]. by apply (bool_decide_unpack _).
Qed.

(** With any accepted [EVM_CHAIN_ID], each of the three blockchains is
    reachable through exactly one chain id, and every other id is refused: the
    configurable EVM id can never shadow Bitcoin or Solana. *)
Theorem chain_ids_disjoint env evm c b :
  getEvmChainId env = inl evm ->
  (blockchainForChainId evm c = Some b <->
   c = match b with EVM => evm | BITCOIN => BITCOIN_REGTEST_CHAIN_ID
                  | SOLANA => SOLANA_LOCALNET_CHAIN_ID end).
Proof.
  intros H%getEvmChainId_not_reserved.
  assert (evm <> BITCOIN_REGTEST_CHAIN_ID /\ evm <> SOLANA_LOCALNET_CHAIN_ID) as [Hb Hs]
    by (unfold RESERVED_CHAIN_IDS in H; set_solver).
  assert (BITCOIN_REGTEST_CHAIN_ID <> SOLANA_LOCALNET_CHAIN_ID) as Hbs by done.
  unfold blockchainForChainId, isEvmChainId.
  destruct (Z.eqb_spec c evm) as [->|He]; [|destruct (Z.eqb_spec c BITCOIN_REGTEST_CHAIN_ID) as [->|Hb'];
    [|destruct (Z.eqb_spec c SOLANA_LOCALNET_CHAIN_ID) as [->|Hs']]];
    split; intros Hc; destruct b; try done; by rewrite ?Hc in *.
Qed.

(** A deployment against another EVM network. *)
Lemma chain_ids_disjoint_witness :
  blockchainForChainId 46630 18444 = Some BITCOIN <-> 18444 = BITCOIN_REGTEST_CHAIN_ID.
Proof.
  apply (chain_ids_disjoint (fun v => if String.eqb v "EVM_CHAIN_ID" then Some " 46630 " else None)
           46630 18444 BITCOIN).
  vm_compute. reflexivity.
Defined.

Lemma is_bech32_lower a : is_bech32 (toLowerCase a) = is_bech32 a.
Proof. unfold is_bech32. by rewrite toLowerCase_idem. Qed.

Lemma case_insensitive_normalized evm c a :
  isCaseInsensitiveWalletAddress evm c (normalizeWalletAddress evm c a) =
  isCaseInsensitiveWalletAddress evm c a.
Proof.
  unfold normalizeWalletAddress, isCaseInsensitiveWalletAddress.
  destruct (isEvmChainId evm c); [done|].
  destruct (c =? BITCOIN_REGTEST_CHAIN_ID); [|done].
  destruct (is_bech32 a) eqn:E; [|done]. by rewrite is_bech32_lower.
Qed.

Lemma normalizeWalletAddress_idem evm c a :
  normalizeWalletAddress evm c (normalizeWalletAddress evm c a) = normalizeWalletAddress evm c a.
Proof.
  unfold normalizeWalletAddress at 1. rewrite case_insensitive_normalized.
  unfold normalizeWalletAddress. destruct (isCaseInsensitiveWalletAddress evm c a); [|done].
  apply toLowerCase_idem.
Qed.
