(* ===== verification/Envelope.v ===== *)
(** * The wallet-key envelope

    [src/crypto/envelope.ts]: custodial keys are encrypted by AWS KMS or, for
    local development, by AES-256-GCM under a master key from the environment,
    stored as [iv (12 bytes) ++ tag (16 bytes) ++ ciphertext].  AES-GCM and KMS
    are parameters; a buffer is the list of its bytes, a string the list of its
    UTF-8 bytes. *)

From S2P Require Import Prelude JsString Schema Addresses.
From stdpp Require Import pretty.
From Stdlib Require Import Ascii.
#[local] Open Scope Z_scope.

Abbreviation bytes := (list ascii).

Definition utf8 (s : string) : bytes := String.list_ascii_of_string s.
Definition of_utf8 (b : bytes) : string := String.string_of_list_ascii b.

(** Node's AES-256-GCM and the KMS client. *)
Class Crypto := {
  gcm_encrypt : bytes -> bytes -> bytes -> bytes * bytes;
  gcm_decrypt : bytes -> bytes -> bytes -> bytes -> option bytes;
  kms_encrypt : string -> bytes -> option bytes + err;
  kms_decrypt : string -> bytes -> option bytes + err }.

(** Documented behaviour: the authentication tag has 16 bytes, and decrypting
    under the same key, nonce and tag gives the plaintext back; KMS decrypts
    what it encrypted under a key. *)
Class CryptoLaws (C : Crypto) : Prop := {
  gcm_tag_length : forall k iv p, length (gcm_encrypt k iv p).2 = 16%nat;
  gcm_round_trip : forall k iv p,
    gcm_decrypt k iv (gcm_encrypt k iv p).2 (gcm_encrypt k iv p).1 = Some p;
  kms_round_trip : forall k p c,
    kms_encrypt k p = inl (Some c) -> kms_decrypt k c = inl (Some p) }.

Definition is_hex (a : ascii) : bool :=
  in_range 48 57 a || in_range 97 102 a || in_range 65 70 a.

Definition hex_digit (a : ascii) : N :=
  let n := N_of_ascii a in
  if (n <=? 57)%N then (n - 48)%N else if (n <=? 70)%N then (n - 55)%N else (n - 87)%N.

(** [Buffer.from(s, 'hex')] for a string of hex digits. *)
Fixpoint of_hex (s : string) : bytes :=
  match s with
  | String a (String b s') => ascii_of_N (hex_digit a * 16 + hex_digit b) :: of_hex s'
  | _ => []
  end.

Section Envelope.
Context `{C : Crypto} (env : Env).

Definition isLocalProvider : bool :=
  match env "KMS_PROVIDER" with Some p => String.eqb p "local" | None => false end.

Definition getWalletKmsKeyId : string + err :=
  match trim <$> env "KMS_KEY_ID" with
  | Some (String a s) => inl (String a s)
  | _ => if isLocalProvider then inl "local"
         else inr (PlainError ("KMS_KEY_ID is not set. It is required to create custodial wallets whenever "
                 +:+ "KMS_PROVIDER is not " +:+ in_quotes "local" +:+ " (e.g. a KMS key ARN or alias)."))
  end.

Definition parseLocalMasterKey (raw : option string) : bytes + err :=
  match trim <$> raw with
  | None | Some EmptyString =>
      inr (PlainError ("LOCAL_KMS_MASTER_KEY is not set. Add a 64-char hex string (32 bytes) to your "
             +:+ ".env.test (or .env for local dev) — required whenever KMS_PROVIDER=local."))
  | Some value =>
      if Nat.eqb (String.length value) 64 && all_chars is_hex value
      then inl (of_hex value)
      else inr (PlainError ("LOCAL_KMS_MASTER_KEY must be exactly 64 hex characters (32 bytes), got "
                +:+ pretty (String.length value) +:+ " characters. Check for a stray quote, trailing newline, or "
                +:+ in_quotes "0x" +:+ " prefix in your .env file."))
  end.

Definition getLocalMasterKey : bytes + err :=
  parseLocalMasterKey (env "LOCAL_KMS_MASTER_KEY").

(** [iv] is [crypto.randomBytes(12)]. *)
Definition encryptLocal (iv : bytes) (privateKey : string) : bytes + err :=
  match getLocalMasterKey with
  | inl k =>
      let '(ciphertext, authTag) := gcm_encrypt k iv (utf8 privateKey) in
      inl (iv ++ authTag ++ ciphertext)
  | inr e => inr e
  end.

(** [buf.subarray(from, to)] *)
Definition subarray (from to : nat) (b : bytes) : bytes := take (to - from) (drop from b).

Definition decryptLocal (blob : bytes) : string + err :=
  match getLocalMasterKey with
  | inl k =>
      match gcm_decrypt k (subarray 0 12 blob) (subarray 12 28 blob) (drop 28 blob) with
      | Some p => inl (of_utf8 p)
      | None => inr (PlainError "Unsupported state or unable to authenticate data")
      end
  | inr e => inr e
  end.

Definition encryptWalletKey (iv : bytes) (privateKey kmsKey : string) : bytes + err :=
  if isLocalProvider then encryptLocal iv privateKey
  else
    match kms_encrypt kmsKey (utf8 privateKey) with
    | inl (Some c) => inl c
    | inl None => inr (PlainError "Key encryption failed")
    | inr e => inr e
    end.

Definition decryptWalletKey (ciphertext : bytes) (kmsKey : string) : string + err :=
  if isLocalProvider then decryptLocal ciphertext
  else
    match kms_decrypt kmsKey ciphertext with
    | inl (Some p) => inl (of_utf8 p)
    | inl None => inr (PlainError "Key decryption failed")
    | inr e => inr e
    end.
End Envelope.

Lemma of_utf8_utf8 s : of_utf8 (utf8 s) = s.
Proof. apply String.string_of_list_ascii_of_string. Qed.

(** The three parts of a local blob are recovered exactly. *)
Lemma blob_layout (iv tag ct : bytes) :
  length iv = 12%nat -> length tag = 16%nat ->
  subarray 0 12 (iv ++ tag ++ ct) = iv /\
  subarray 12 28 (iv ++ tag ++ ct) = tag /\ drop 28 (iv ++ tag ++ ct) = ct.
Proof.
  intros Hi Ht. unfold subarray. simpl. rewrite !drop_0.
  rewrite (take_app_length' iv), (drop_app_length' iv) by done.
  rewrite (take_app_length' tag) by done. split_and!; [done..|].
  rewrite app_assoc, drop_app_length'; [done|]. rewrite length_app. lia.
Qed.

(** The round trip, as the clients use it. *)
Lemma decrypt_encrypt `{C : Crypto} `{!CryptoLaws C} env iv secret kmsKey blob :
  length iv = 12%nat ->
  encryptWalletKey env iv secret kmsKey = inl blob ->
  decryptWalletKey env blob kmsKey = inl secret.
Proof.
  intros Hiv. unfold encryptWalletKey, decryptWalletKey.
  destruct (isLocalProvider env).
  - unfold encryptLocal, decryptLocal. destruct (getLocalMasterKey env) as [k|e]; [|done].
    destruct (gcm_encrypt k iv (utf8 secret)) as [ct tag] eqn:E. intros [= <-].
    pose proof (gcm_tag_length k iv (utf8 secret)) as Ht.
    pose proof (gcm_round_trip k iv (utf8 secret)) as Hr. rewrite E in Ht, Hr. simpl in *.
    destruct (blob_layout iv tag ct Hiv Ht) as (-> & -> & ->).
    by rewrite Hr, of_utf8_utf8.
  - destruct (kms_encrypt kmsKey (utf8 secret)) as [[c|]|e] eqn:E; try done.
    intros [= <-]. by rewrite (kms_round_trip _ _ _ E), of_utf8_utf8.
Qed.

(** Decryption inverts encryption, for both providers.  Whatever was
    encrypted for a wallet is recovered exactly, as long as the environment is
    the same when it is read back. *)
Theorem envelope_round_trip `{C : Crypto} `{!CryptoLaws C} env iv secret kmsKey blob :
  length iv = 12%nat ->
  encryptWalletKey env iv secret kmsKey = inl blob ->
  decryptWalletKey env blob kmsKey = inl secret.
Proof. apply decrypt_encrypt. Qed.

Section Witness.
(** A transparent cipher: enough to run the envelope. *)
#[local] Instance plain_crypto : Crypto := {|
  gcm_encrypt k iv p := (p, repeat "t"%char 16);
  gcm_decrypt k iv t c := Some c;
  kms_encrypt k p := inl (Some p);
  kms_decrypt k p := inl (Some p) |}.

#[local] Instance plain_crypto_laws : CryptoLaws plain_crypto.
Proof. split; simpl; [done..|]. by intros k p c [= ->]. Qed.

Definition local_env : Env := fun v =>
  if String.eqb v "KMS_PROVIDER" then Some "local"
  else if String.eqb v "LOCAL_KMS_MASTER_KEY"
  then Some "00112233445566778899aabbccddeeff00112233445566778899AABBCCDDEEFF"
  else None.

Lemma envelope_round_trip_witness :
  decryptWalletKey local_env (repeat "i"%char 12 ++ repeat "t"%char 16 ++ utf8 "0xkey") "local"
  = inl "0xkey".
Proof.
  apply (envelope_round_trip local_env (repeat "i"%char 12) "0xkey" "local");
    vm_compute; reflexivity.
Defined.
End Witness.
