(* ===== verification/Encoding.v ===== *)
(** * Textual encodings

    What the source uses of Node's [Buffer]: [toString('hex')],
    [toString('base64url')] and their inverses. *)

From S2P Require Import Prelude JsString Addresses Envelope.
From Stdlib Require Import Ascii.

(** ** Hexadecimal *)

Definition hex_char (n : N) : ascii :=
  if (n <? 10)%N then ascii_of_N (48 + n) else ascii_of_N (87 + n).

(** [buf.toString('hex')] *)
Fixpoint to_hex (b : bytes) : string :=
  match b with
  | [] => EmptyString
  | a :: b' => String (hex_char (N_of_ascii a / 16)) (String (hex_char (N_of_ascii a mod 16)) (to_hex b'))
  end.

(** ** base64url *)

Definition b64_char (n : N) : ascii :=
  if (n <? 26)%N then ascii_of_N (65 + n)
  else if (n <? 52)%N then ascii_of_N (71 + n)
  else if (n <? 62)%N then ascii_of_N (n - 4)
  else if (n =? 62)%N then "-"%char else "_"%char.

(** Both alphabets are read. *)
Definition b64_value (a : ascii) : option N :=
  let n := N_of_ascii a in
  if in_range 65 90 a then Some (n - 65)%N
  else if in_range 97 122 a then Some (n - 71)%N
  else if in_range 48 57 a then Some (n + 4)%N
  else if Ascii.eqb a "-" || Ascii.eqb a "+" then Some 62%N
  else if Ascii.eqb a "_" || Ascii.eqb a "/" then Some 63%N
  else None.

(** [buf.toString('base64url')]: no padding. *)
Fixpoint base64url (b : bytes) : string :=
  match b with
  | [] => EmptyString
  | [x] =>
      let n := N_of_ascii x in
      String (b64_char (n / 4)) (String (b64_char (n mod 4 * 16)) EmptyString)
  | [x; y] =>
      let n := N_of_ascii x in let m := N_of_ascii y in
      String (b64_char (n / 4)) (String (b64_char (n mod 4 * 16 + m / 16))
        (String (b64_char (m mod 16 * 4)) EmptyString))
  | x :: y :: z :: b' =>
      let n := N_of_ascii x in let m := N_of_ascii y in let k := N_of_ascii z in
      String (b64_char (n / 4)) (String (b64_char (n mod 4 * 16 + m / 16))
        (String (b64_char (m mod 16 * 4 + k / 64)) (String (b64_char (k mod 64)) (base64url b'))))
  end.

(** The digits of a text: characters outside the alphabet are skipped, and the
    text ends at the first padding character. *)
Fixpoint b64_digits (s : string) : list N :=
  match s with
  | EmptyString => []
  | String a s' =>
      if Ascii.eqb a "=" then []
      else match b64_value a with Some n => n :: b64_digits s' | None => b64_digits s' end
  end.

Fixpoint b64_bytes (l : list N) : bytes :=
  match l with
  | a :: b :: c :: d :: l' =>
      ascii_of_N (a * 4 + b / 16) :: ascii_of_N (b mod 16 * 16 + c / 4)
        :: ascii_of_N (c mod 4 * 64 + d) :: b64_bytes l'
  | [a; b; c] => [ascii_of_N (a * 4 + b / 16); ascii_of_N (b mod 16 * 16 + c / 4)]
  | [a; b] => [ascii_of_N (a * 4 + b / 16)]
  | _ => []
  end.

(** [Buffer.from(s, 'base64url')] *)
Definition of_base64url (s : string) : bytes := b64_bytes (b64_digits s).

(** ** Decoding inverts encoding *)

(** A fact about every byte, by evaluation. *)
Definition for_all_bytes (f : ascii -> bool) : bool :=
  forallb f (map (fun n => ascii_of_N (N.of_nat n)) (seq 0 256)).

Lemma for_all_bytes_spec f : for_all_bytes f = true -> forall a, f a = true.
Proof.
  unfold for_all_bytes. rewrite forallb_forall. intros H a. apply H, in_map_iff.
  exists (N.to_nat (N_of_ascii a)). rewrite N2Nat.id, ascii_N_embedding. split; [done|].
  apply in_seq. pose proof (N_ascii_bounded a). lia.
Qed.

Definition for_all_digits (f : N -> bool) : bool := forallb f (map N.of_nat (seq 0 64)).

Lemma for_all_digits_spec f : for_all_digits f = true -> forall n, (n < 64)%N -> f n = true.
Proof.
  unfold for_all_digits. rewrite forallb_forall. intros H n Hn. apply H, in_map_iff.
  exists (N.to_nat n). rewrite N2Nat.id. split; [done|]. apply in_seq. lia.
Qed.

Lemma hex_char_digit a :
  ascii_of_N (hex_digit (hex_char (N_of_ascii a / 16)) * 16 + hex_digit (hex_char (N_of_ascii a mod 16)))
  = a.
Proof.
  apply Ascii.eqb_eq. revert a. apply for_all_bytes_spec. vm_compute. reflexivity.
Qed.

Lemma of_hex_to_hex b : of_hex (to_hex b) = b.
Proof. induction b as [|a b IH]; [done|]. cbn [to_hex of_hex]. by rewrite hex_char_digit, IH. Qed.

Lemma to_hex_inj a b : to_hex a = to_hex b -> a = b.
Proof. intros H. by rewrite <- (of_hex_to_hex a), H, of_hex_to_hex. Qed.

Lemma length_to_hex b : String.length (to_hex b) = (2 * length b)%nat.
Proof. induction b as [|a b IH]; [done|]. cbn [to_hex String.length length]. lia. Qed.

Lemma b64_digit_char n s :
  (n < 64)%N -> b64_digits (String (b64_char n) s) = n :: b64_digits s.
Proof.
  intros Hn. cbn [b64_digits].
  assert (H : negb (Ascii.eqb (b64_char n) "=") &&
              match b64_value (b64_char n) with Some m => (m =? n)%N | None => false end = true).
  { revert n Hn. apply for_all_digits_spec. vm_compute. reflexivity. }
  apply andb_true_iff in H as [H1 H2]. apply negb_true_iff in H1. rewrite H1.
  destruct (b64_value (b64_char n)) as [m|]; [|done]. apply N.eqb_eq in H2. by subst.
Qed.

(** The four digits of three bytes, and the bytes they stand for. *)
Section Digits.
#[local] Ltac Zify.zify_post_hook ::= Z.to_euclidean_division_equations.
Context (n m k : N) (Hn : (n < 256)%N) (Hm : (m < 256)%N) (Hk : (k < 256)%N).

Lemma digit0 : (n / 4 < 64)%N.
Proof using Hn. clear -Hn. lia. Qed.
Lemma digit1 : (n mod 4 * 16 + m / 16 < 64)%N.
Proof using Hm. clear -Hm. lia. Qed.
Lemma digit1_last : (n mod 4 * 16 < 64)%N.
Proof using Type. clear Hn Hm Hk. lia. Qed.
Lemma digit2 : (m mod 16 * 4 + k / 64 < 64)%N.
Proof using Hk. clear -Hk. lia. Qed.
Lemma digit2_last : (m mod 16 * 4 < 64)%N.
Proof using Type. clear Hn Hm Hk. lia. Qed.
Lemma digit3 : (k mod 64 < 64)%N.
Proof using Type. clear Hn Hm Hk. lia. Qed.

Lemma byte0 : (n / 4 * 4 + (n mod 4 * 16 + m / 16) / 16 = n)%N.
Proof using Hm. clear -Hm. lia. Qed.
Lemma byte0_last : (n / 4 * 4 + (n mod 4 * 16) / 16 = n)%N.
Proof using Type. clear Hn Hm Hk. lia. Qed.
Lemma byte1 : ((n mod 4 * 16 + m / 16) mod 16 * 16 + (m mod 16 * 4 + k / 64) / 4 = m)%N.
Proof using Hm Hk. clear -Hm Hk. lia. Qed.
Lemma byte1_last : ((n mod 4 * 16 + m / 16) mod 16 * 16 + (m mod 16 * 4) / 4 = m)%N.
Proof using Hm. clear -Hm. lia. Qed.
Lemma byte2 : ((m mod 16 * 4 + k / 64) mod 4 * 64 + k mod 64 = k)%N.
Proof using Hk. clear -Hk. lia. Qed.
End Digits.

Ltac digit := first
  [ by apply digit0 | by apply digit1 | by apply digit1_last | by apply digit2
  | by apply digit2_last | by apply digit3 ].

(** Induction in steps of three. *)
Lemma bytes_ind3 (Q : bytes -> Prop) :
  Q [] -> (forall x, Q [x]) -> (forall x y, Q [x; y]) ->
  (forall x y z b, Q b -> Q (x :: y :: z :: b)) -> forall b, Q b.
Proof.
  intros H0 H1 H2 H3. fix IH 1. intros [|x [|y [|z b]]]; [done|done|done|].
  apply H3, IH.
Qed.

Lemma of_base64url_base64url b : of_base64url (base64url b) = b.
Proof.
  unfold of_base64url. induction b as [|x|x y|x y z b IH] using bytes_ind3; [done|..];
    pose proof (N_ascii_bounded x) as Hx.
  - cbn [base64url]. rewrite !b64_digit_char by digit.
    cbn [b64_digits b64_bytes]. rewrite byte0_last by done. by rewrite ascii_N_embedding.
  - pose proof (N_ascii_bounded y) as Hy. cbn [base64url].
    rewrite !b64_digit_char by digit.
    cbn [b64_digits b64_bytes]. rewrite byte0, byte1_last by done. by rewrite !ascii_N_embedding.
  - pose proof (N_ascii_bounded y) as Hy. pose proof (N_ascii_bounded z) as Hz.
    cbn [base64url]. rewrite !b64_digit_char by digit.
    cbn [b64_bytes]. rewrite byte0, byte1, byte2, IH by done. by rewrite !ascii_N_embedding.
Qed.

(** The encoding never contains a dot, so it can be joined with one. *)
Fixpoint no_char (c : ascii) (s : string) : bool :=
  match s with EmptyString => true | String a s' => negb (Ascii.eqb a c) && no_char c s' end.

Lemma b64_char_not_dot n : (n < 64)%N -> Ascii.eqb (b64_char n) "." = false.
Proof.
  intros Hn. apply negb_true_iff. revert n Hn. apply for_all_digits_spec. vm_compute. reflexivity.
Qed.

Lemma base64url_no_dot b : no_char "."%char (base64url b) = true.
Proof.
  induction b as [|x|x y|x y z b IH] using bytes_ind3; [done|..];
    pose proof (N_ascii_bounded x) as Hx; try pose proof (N_ascii_bounded y) as Hy;
    try pose proof (N_ascii_bounded z) as Hz; cbn [base64url no_char];
    rewrite ?b64_char_not_dot by digit;
    done.
Qed.

(** ** Splitting *)

(** [s.split(c)] for a single character. *)
Fixpoint split_on (c : ascii) (s : string) : list string :=
  match s with
  | EmptyString => [EmptyString]
  | String a s' =>
      if Ascii.eqb a c then EmptyString :: split_on c s'
      else match split_on c s' with
           | x :: l => String a x :: l
           | [] => [String a EmptyString]
           end
  end.

Lemma split_on_none c s : no_char c s = true -> split_on c s = [s].
Proof.
  induction s as [|a s IH]; [done|]. cbn [no_char split_on]. intros H.
  apply andb_true_iff in H as [Ha H]. rewrite (IH H). apply negb_true_iff in Ha. by rewrite Ha.
Qed.

Lemma split_on_cons c s : exists x l, split_on c s = x :: l.
Proof.
  destruct s as [|a s]; [by eexists _, _|]. cbn [split_on].
  destruct (Ascii.eqb a c); [by eexists _, _|]. destruct (split_on c s); by eexists _, _.
Qed.

Lemma split_on_sep c s t :
  split_on c (s +:+ String c EmptyString +:+ t) = split_on c s ++ split_on c t.
Proof.
  induction s as [|a s IH].
  - change (split_on c (String c t) = [EmptyString] ++ split_on c t). cbn [split_on].
    by rewrite Ascii.eqb_refl.
  - change (split_on c (String a s +:+ String c EmptyString +:+ t))
      with (split_on c (String a (s +:+ String c EmptyString +:+ t))).
    cbn [split_on]. rewrite IH. destruct (Ascii.eqb a c); [done|].
    by destruct (split_on_cons c s) as (x & l & ->).
Qed.

Lemma split_on_app c s t :
  no_char c s = true -> split_on c (s +:+ String c EmptyString +:+ t) = s :: split_on c t.
Proof. intros H. by rewrite split_on_sep, (split_on_none _ _ H). Qed.

Lemma split_on_inv c s : String.concat (String c EmptyString) (split_on c s) = s.
Proof.
  induction s as [|a s IH]; [done|]. cbn [split_on].
  destruct (split_on_cons c s) as (x & l & E). rewrite E in IH |- *.
  destruct (Ascii.eqb_spec a c) as [->|Ha].
  - change (String c (String.concat (String c EmptyString) (x :: l)) = String c s). by rewrite IH.
  - rewrite <- IH. by destruct l.
Qed.
