(* ===== verification/Json.v ===== *)
(** * JSON

    [JSON.stringify] and [JSON.parse], on the UTF-8 bytes of the text.  A number
    is the double nearest to its literal. *)

From S2P Require Import Prelude JsString Addresses Envelope Encoding.
From Stdlib Require Import Ascii.

(** A double that came out of a literal: an integer, another finite number (its
    integer part from below), or an overflow. *)
Inductive number := Int (z : Z) | Frac (below : Z) | Infinity (negative : bool).

Inductive jsval :=
| JsNull
| JsBool (b : bool)
| JsNum (n : number)
| JsStr (s : string)
| JsArr (l : list jsval)
| JsObj (l : list (string * jsval)).

(** ** Printing *)

Definition quote : ascii := ascii_of_N 34.
Definition backslash : ascii := ascii_of_N 92.

Definition digit_char (n : N) : ascii := ascii_of_N (48 + n).

Fixpoint print_digits (fuel : nat) (n : N) (acc : bytes) : bytes :=
  let acc' := digit_char (n mod 10) :: acc in
  match fuel with
  | O => acc'
  | S fuel' => if (n <? 10)%N then acc' else print_digits fuel' (n / 10) acc'
  end.

Definition print_N (n : N) : bytes := print_digits (N.to_nat (N.size n)) n [].

(** The decimal form of an integer below 10^21. *)
Definition print_Z (z : Z) : bytes :=
  if z <? 0 then "-"%char :: print_N (Z.abs_N z) else print_N (Z.to_N z).

(** The two-character escapes. *)
Definition short_escape (a : ascii) : option ascii :=
  let n := N_of_ascii a in
  if (n =? 34)%N then Some quote
  else if (n =? 92)%N then Some backslash
  else if (n =? 8)%N then Some "b"%char
  else if (n =? 9)%N then Some "t"%char
  else if (n =? 10)%N then Some "n"%char
  else if (n =? 12)%N then Some "f"%char
  else if (n =? 13)%N then Some "r"%char
  else None.

Definition escape_char (a : ascii) : bytes :=
  match short_escape a with
  | Some c => [backslash; c]
  | None =>
      let n := N_of_ascii a in
      if (n <? 32)%N
      then [backslash; "u"%char; "0"%char; "0"%char; hex_char (n / 16); hex_char (n mod 16)]
      else [a]
  end.

Definition quoted (s : string) : bytes := quote :: flat_map escape_char (utf8 s) ++ [quote].

Definition comma_sep (l : list bytes) : bytes :=
  match l with
  | [] => []
  | x :: l' => x ++ flat_map (fun y => ","%char :: y) l'
  end.

Fixpoint stringify (v : jsval) : bytes :=
  match v with
  | JsNull => utf8 "null"
  | JsBool true => utf8 "true"
  | JsBool false => utf8 "false"
  | JsNum (Int z) => print_Z z
  | JsNum _ => utf8 "null"
  | JsStr s => quoted s
  | JsArr l => "["%char :: comma_sep (map stringify l) ++ ["]"%char]
  | JsObj l =>
      "{"%char :: comma_sep (map (fun kv => quoted kv.1 ++ ":"%char :: stringify kv.2) l)
        ++ ["}"%char]
  end.

(** ** Parsing *)

Fixpoint skip_ws (s : bytes) : bytes :=
  match s with
  | a :: s' =>
      if bool_decide (N_of_ascii a ∈ [32; 9; 10; 13])%N then skip_ws s' else s
  | [] => []
  end.

(** The UTF-8 form of a code unit. *)
Definition utf8_unit (n : N) : bytes :=
  if (n <? 128)%N then [ascii_of_N n]
  else if (n <? 2048)%N then [ascii_of_N (192 + n / 64); ascii_of_N (128 + n mod 64)]
  else [ascii_of_N (224 + n / 4096); ascii_of_N (128 + n / 64 mod 64); ascii_of_N (128 + n mod 64)].

Definition short_unescape (c : ascii) : option ascii :=
  let n := N_of_ascii c in
  if (n =? 34)%N then Some quote
  else if (n =? 92)%N then Some backslash
  else if (n =? 47)%N then Some "/"%char
  else if Ascii.eqb c "b" then Some (ascii_of_N 8)
  else if Ascii.eqb c "t" then Some (ascii_of_N 9)
  else if Ascii.eqb c "n" then Some (ascii_of_N 10)
  else if Ascii.eqb c "f" then Some (ascii_of_N 12)
  else if Ascii.eqb c "r" then Some (ascii_of_N 13)
  else None.

(** The rest of a string literal, after its opening quote. *)
Fixpoint string_body (s : bytes) : option (bytes * bytes) :=
  match s with
  | [] => None
  | a :: s' =>
      if Ascii.eqb a quote then Some ([], s')
      else if Ascii.eqb a backslash then
        match s' with
        | c :: s1 =>
            match short_unescape c with
            | Some x =>
                match string_body s1 with Some (b, r) => Some (x :: b, r) | None => None end
            | None =>
                match s1 with
                | h1 :: h2 :: h3 :: h4 :: s2 =>
                    if Ascii.eqb c "u" && is_hex h1 && is_hex h2 && is_hex h3 && is_hex h4 then
                      match string_body s2 with
                      | Some (b, r) =>
                          Some (utf8_unit (((hex_digit h1 * 16 + hex_digit h2) * 16
                                            + hex_digit h3) * 16 + hex_digit h4) ++ b, r)
                      | None => None
                      end
                    else None
                | _ => None
                end
            end
        | [] => None
        end
      else if (N_of_ascii a <? 32)%N then None
      else match string_body s' with Some (b, r) => Some (a :: b, r) | None => None end
  end.

Fixpoint span_digits (s : bytes) : bytes * bytes :=
  match s with
  | a :: s' => if is_digit a then let '(d, r) := span_digits s' in (a :: d, r) else ([], s)
  | [] => ([], [])
  end.

Definition decimal_value (d : bytes) : Z := digits_value 0 (of_utf8 d).

(** [b ^ x] for a positive [x], and 1 otherwise. *)
Definition up (b x : Z) : Z := b ^ Z.max x 0.

(** Half-to-even division of non-negative integers. *)
Definition div_even (a b : Z) : Z :=
  let q := a / b in let r := a mod b in
  if (b <? 2 * r) || ((b =? 2 * r) && Z.odd q) then q + 1 else q.

(** The double nearest to [p / q], for positive [p] and [q]: its 53-bit mantissa
    and its exponent. *)
Definition nearest (p q : Z) : Z * Z :=
  let e0 := Z.max (Z.log2 p - Z.log2 q - 53) (-1074) in
  let m0 := div_even (p * up 2 (- e0)) (q * up 2 e0) in
  if m0 <? 2 ^ 53 then (m0, e0)
  else (div_even (p * up 2 (- (e0 + 1))) (q * up 2 (e0 + 1)), e0 + 1).

(** The double of the literal [m * 10 ^ e]. *)
Definition to_number (m e : Z) : number :=
  if e =? 0 then (if Z.abs m <? 2 ^ 1024 then Int (toNumber m) else Infinity (m <? 0))
  else if m =? 0 then Int 0
  else
    let '(k, x) := nearest (Z.abs m * up 10 e) (up 10 (- e)) in
    if 2 ^ 1024 <=? k * up 2 x then Infinity (m <? 0)
    else
      let v := Z.sgn m * k in
      if v mod up 2 (- x) =? 0 then Int (v * up 2 x / up 2 (- x)) else Frac (v / up 2 (- x)).

(** [(\.\d+)?]: the fraction's digits. *)
Definition fraction (s : bytes) : option (bytes * bytes) :=
  match s with
  | "."%char :: s' => match span_digits s' with ([], _) => None | (d, r) => Some (d, r) end
  | _ => Some ([], s)
  end.

Definition exponent (s : bytes) : option (Z * bytes) :=
  match s with
  | a :: s' =>
      if Ascii.eqb a "e" || Ascii.eqb a "E" then
        let '(sign, t) :=
          match s' with
          | "+"%char :: t => (1, t)
          | "-"%char :: t => (-1, t)
          | _ => (1, s')
          end in
        match span_digits t with
        | ([], _) => None
        | (d, r) => Some (sign * decimal_value d, r)
        end
      else Some (0, s)
  | [] => Some (0, s)
  end.

Definition leading_zero (d : bytes) : bool :=
  match d with "0"%char :: _ :: _ => true | _ => false end.

Definition number_literal (s : bytes) : option (number * bytes) :=
  let '(sign, t) := match s with "-"%char :: t => (-1, t) | _ => (1, s) end in
  let '(d, r) := span_digits t in
  match d with
  | [] => None
  | _ =>
      if leading_zero d then None
      else
        match fraction r with
        | None => None
        | Some (f, r1) =>
            match exponent r1 with
            | None => None
            | Some (e, r2) =>
                Some (to_number (sign * decimal_value (d ++ f)) (e - Z.of_nat (length f)), r2)
            end
        end
  end.

Fixpoint keyword (k s : bytes) : option bytes :=
  match k, s with
  | [], _ => Some s
  | a :: k', b :: s' => if Ascii.eqb a b then keyword k' s' else None
  | _ :: _, [] => None
  end.

(** [fuel] bounds the nesting and the number of elements. *)
Fixpoint value (fuel : nat) (s : bytes) : option (jsval * bytes) :=
  match fuel with
  | O => None
  | S n =>
      match skip_ws s with
      | [] => None
      | a :: s' =>
          if Ascii.eqb a quote then
            match string_body s' with Some (b, r) => Some (JsStr (of_utf8 b), r) | None => None end
          else if Ascii.eqb a "{" then
            match skip_ws s' with
            | "}"%char :: r => Some (JsObj [], r)
            | _ => match members n s' with Some (l, r) => Some (JsObj l, r) | None => None end
            end
          else if Ascii.eqb a "[" then
            match skip_ws s' with
            | "]"%char :: r => Some (JsArr [], r)
            | _ => match elements n s' with Some (l, r) => Some (JsArr l, r) | None => None end
            end
          else if Ascii.eqb a "n" then
            match keyword (utf8 "ull") s' with Some r => Some (JsNull, r) | None => None end
          else if Ascii.eqb a "t" then
            match keyword (utf8 "rue") s' with Some r => Some (JsBool true, r) | None => None end
          else if Ascii.eqb a "f" then
            match keyword (utf8 "alse") s' with Some r => Some (JsBool false, r) | None => None end
          else
            match number_literal (a :: s') with Some (x, r) => Some (JsNum x, r) | None => None end
      end
  end
with elements (fuel : nat) (s : bytes) : option (list jsval * bytes) :=
  match fuel with
  | O => None
  | S n =>
      match value n s with
      | None => None
      | Some (v, r) =>
          match skip_ws r with
          | "]"%char :: r' => Some ([v], r')
          | ","%char :: r' =>
              match elements n r' with Some (l, r'') => Some (v :: l, r'') | None => None end
          | _ => None
          end
      end
  end
with members (fuel : nat) (s : bytes) : option (list (string * jsval) * bytes) :=
  match fuel with
  | O => None
  | S n =>
      match skip_ws s with
      | a :: s1 =>
          if Ascii.eqb a quote then
            match string_body s1 with
            | None => None
            | Some (k, r) =>
                match skip_ws r with
                | ":"%char :: r1 =>
                    match value n r1 with
                    | None => None
                    | Some (v, r2) =>
                        match skip_ws r2 with
                        | "}"%char :: r3 => Some ([(of_utf8 k, v)], r3)
                        | ","%char :: r3 =>
                            match members n r3 with
                            | Some (l, r4) => Some ((of_utf8 k, v) :: l, r4)
                            | None => None
                            end
                        | _ => None
                        end
                    end
                | _ => None
                end
            end
          else None
      | [] => None
      end
  end.

(** [JSON.parse]; [None] is a SyntaxError. *)
Definition JSON_parse (s : bytes) : option jsval :=
  match value (S (2 * length s)) s with
  | Some (v, r) => match skip_ws r with [] => Some v | _ => None end
  | None => None
  end.

(** [o.k] on a parsed object: the last member of that name. *)
Definition member (k : string) (l : list (string * jsval)) : option jsval :=
  fold_left (fun found kv => if String.eqb kv.1 k then Some kv.2 else found) l None.

(** ** Parsing inverts printing *)

(** Integers a double represents exactly, at every depth. *)
Fixpoint exact (v : jsval) : bool :=
  match v with
  | JsNum (Int z) => Z.abs z <=? MAX_SAFE_INTEGER
  | JsNum _ => false
  | JsArr l => forallb exact l
  | JsObj l => forallb (fun kv => exact kv.2) l
  | _ => true
  end.

(** The fuel a value needs. *)
Fixpoint need (v : jsval) : nat :=
  match v with
  | JsArr l => S (list_sum (map (fun v => S (need v)) l))
  | JsObj l => S (list_sum (map (fun kv => S (need kv.2)) l))
  | _ => 1
  end.

Lemma jsval_nested_ind (Q : jsval -> Prop) :
  Q JsNull -> (forall b, Q (JsBool b)) -> (forall n, Q (JsNum n)) -> (forall s, Q (JsStr s)) ->
  (forall l, Forall Q l -> Q (JsArr l)) ->
  (forall l, Forall (fun kv => Q kv.2) l -> Q (JsObj l)) -> forall v, Q v.
Proof.
  intros Hn Hb Hm Hs Ha Ho. fix IH 1. intros [|b|n|s|l|l]; [done|auto|auto|auto| |].
  - apply Ha. induction l; constructor; auto.
  - apply Ho. induction l as [|[k v] l IHl]; constructor; auto.
Qed.

(** *** Strings *)

Lemma string_body_escape a s :
  string_body (escape_char a ++ s) =
  match string_body s with Some (b, r) => Some (a :: b, r) | None => None end.
Proof. by destruct a as [[] [] [] [] [] [] [] []]. Qed.

Lemma string_body_quoted b r :
  string_body (flat_map escape_char b ++ quote :: r) = Some (b, r).
Proof.
  induction b as [|a b IH]; [done|]. cbn [flat_map]. rewrite <- app_assoc, string_body_escape.
  by rewrite IH.
Qed.

(** *** Numbers *)

Definition is_digits (d : bytes) : bool := forallb is_digit d.

Lemma decimal_value_fold d acc :
  digits_value acc (of_utf8 d) =
  fold_left (fun v a => v * 10 + Z.of_N (N_of_ascii a) - 48) d acc.
Proof. revert acc. induction d as [|a d IH]; intros acc; cbn; [done|]. apply IH. Qed.

Lemma decimal_value_snoc d a :
  decimal_value (d ++ [a]) = decimal_value d * 10 + Z.of_N (N_of_ascii a) - 48.
Proof. unfold decimal_value. by rewrite !decimal_value_fold, fold_left_app. Qed.

Lemma digit_char_spec n :
  (n < 10)%N -> is_digit (digit_char n) = true /\ N_of_ascii (digit_char n) = (48 + n)%N.
Proof.
  intros H. unfold digit_char, is_digit. rewrite N_ascii_embedding by lia.
  split; [|done]. apply andb_true_iff. rewrite !N.leb_le. lia.
Qed.

(** What a printed number looks like. *)
Definition numeral_of (d : bytes) (n : N) : Prop :=
  d <> [] /\ is_digits d = true /\ decimal_value d = Z.of_N n /\
  ((0 < n)%N -> forall t, d <> "0"%char :: t) /\ (n = 0%N -> d = ["0"%char]).

Lemma numeral_digit n : (n < 10)%N -> numeral_of [digit_char n] n.
Proof.
  intros H. destruct (digit_char_spec n H) as [Hd Hv]. split_and!; [done| | | |].
  - cbn. by rewrite Hd.
  - unfold decimal_value. cbn [of_utf8 String.string_of_list_ascii digits_value]. rewrite Hv. lia.
  - intros Hp t [= E _]. rewrite E in Hv. cbn in Hv. lia.
  - by intros ->.
Qed.

Lemma print_digits_spec fuel n acc :
  (n < 10 ^ N.of_nat (S fuel))%N -> exists d, print_digits fuel n acc = d ++ acc /\ numeral_of d n.
Proof.
  revert n acc. induction fuel as [|fuel IH]; intros n acc Hn.
  - exists [digit_char n]. cbn [print_digits]. cbn in Hn. rewrite N.mod_small by lia.
    split; [done|]. apply numeral_digit. lia.
  - cbn [print_digits]. destruct (N.ltb_spec n 10) as [Hlt|Hge].
    + exists [digit_char n]. rewrite N.mod_small by lia. split; [done|]. by apply numeral_digit.
    + destruct (IH (n / 10)%N (digit_char (n mod 10) :: acc)) as (d & E & H1 & H2 & H3 & H4 & H5).
      { apply N.Div0.div_lt_upper_bound. rewrite <- N.pow_succ_r'.
        replace (N.succ (N.of_nat (S fuel))) with (N.of_nat (S (S fuel))) by lia. done. }
      pose proof (N.mod_lt n 10 ltac:(done)) as Hm. destruct (digit_char_spec _ Hm) as [Hd Hv].
      assert (Hp : (0 < n / 10)%N) by (apply N.div_str_pos; lia).
      exists (d ++ [digit_char (n mod 10)]). rewrite E, <- app_assoc. split; [done|].
      split_and!.
      * by destruct d.
      * unfold is_digits in *. rewrite forallb_app, H2. cbn. by rewrite Hd.
      * rewrite decimal_value_snoc, H3, Hv. pose proof (N.div_mod' n 10). lia.
      * intros _ t Ht. destruct d as [|x d]; [done|]. injection Ht as -> _. by apply (H4 Hp d).
      * lia.
Qed.

Lemma print_N_spec n : numeral_of (print_N n) n.
Proof.
  unfold print_N. destruct (print_digits_spec (N.to_nat (N.size n)) n []) as (d & -> & H).
  - apply N.lt_le_trans with (2 ^ N.size n)%N; [apply N.size_gt|].
    + apply N.le_trans with (10 ^ N.size n)%N.
      * apply N.pow_le_mono_l. lia.
      * apply N.pow_le_mono_r; lia.
  - by rewrite app_nil_r.
Qed.

(** The text after a value: nothing, or a character that ends it. *)
Definition after (r : bytes) : bool :=
  match r with
  | [] => true
  | a :: _ => Ascii.eqb a "," || Ascii.eqb a "]" || Ascii.eqb a "}"
  end.

Lemma span_digits_app d r :
  is_digits d = true -> after r = true -> span_digits (d ++ r) = (d, r).
Proof.
  intros Hd Hr. induction d as [|a d IH]; cbn [app span_digits].
  - destruct r as [|a r]; [done|]. cbn [after] in Hr. cbn [span_digits].
    replace (is_digit a) with false; [done|].
    destruct (Ascii.eqb_spec a ",") as [->|]; [done|].
    destruct (Ascii.eqb_spec a "]") as [->|]; [done|].
    by destruct (Ascii.eqb_spec a "}") as [->|].
  - cbn in Hd. apply andb_true_iff in Hd as [-> Hd]. by rewrite (IH Hd).
Qed.

Lemma after_number r : after r = true -> fraction r = Some ([], r) /\ exponent r = Some (0, r).
Proof.
  destruct r as [|a r]; [done|]. cbn [after]. intros H.
  destruct (Ascii.eqb_spec a ",") as [->|]; [done|].
  destruct (Ascii.eqb_spec a "]") as [->|]; [done|].
  by destruct (Ascii.eqb_spec a "}") as [->|].
Qed.

Lemma numeral_no_leading_zero d n : numeral_of d n -> leading_zero d = false.
Proof.
  intros (H1 & _ & _ & H4 & H5). destruct (N.eq_0_gt_0_cases n) as [E|Hp]; [by rewrite H5|].
  destruct d as [|a [|b d]]; [done| |].
  - unfold leading_zero. by destruct a as [[] [] [] [] [] [] [] []].
  - specialize (H4 Hp (b :: d)). unfold leading_zero.
    destruct a as [[] [] [] [] [] [] [] []]; done.
Qed.

Lemma number_literal_print z r :
  Z.abs z <= MAX_SAFE_INTEGER -> after r = true ->
  number_literal (print_Z z ++ r) = Some (Int z, r).
Proof.
  intros Hz Hr. destruct (after_number r Hr) as [Hf He].
  assert (Key : forall sign n, (sign = 1 \/ sign = -1) -> sign * Z.of_N n = z ->
    match span_digits (print_N n ++ r) with
    | ([], _) => None
    | (d, r0) =>
        if leading_zero d then None
        else match fraction r0 with
             | None => None
             | Some (f, r1) =>
                 match exponent r1 with
                 | None => None
                 | Some (e, r2) =>
                     Some (to_number (sign * decimal_value (d ++ f)) (e - Z.of_nat (length f)), r2)
                 end
             end
    end = Some (Int z, r)).
  { intros sign n Hs Hv. pose proof (print_N_spec n) as Hn.
    pose proof (numeral_no_leading_zero _ _ Hn) as Hl. destruct Hn as (H1 & H2 & H3 & _).
    rewrite (span_digits_app _ _ H2 Hr). destruct (print_N n) as [|x d] eqn:E; [done|].
    rewrite <- E in *. rewrite Hl, Hf, He. cbn [length]. rewrite app_nil_r, H3, Hv.
    unfold to_number. change (0 - Z.of_nat 0 =? 0) with true. cbv iota.
    replace (Z.abs z <? 2 ^ 1024) with true.
    - by rewrite toNumber_safe.
    - symmetry. apply Z.ltb_lt. apply Z.le_lt_trans with MAX_SAFE_INTEGER; [done|]. reflexivity. }
  unfold print_Z, number_literal. destruct (Z.ltb_spec z 0) as [Hneg|Hpos].
  - cbn [app]. change (Ascii _ _ _ _ _ _ _ _) with "-"%char. apply (Key (-1)); [auto|lia].
  - assert (Hhd : forall t, print_N (Z.to_N z) ++ r <> "-"%char :: t).
    { intros t Ht. destruct (print_N_spec (Z.to_N z)) as (H1 & H2 & _).
      destruct (print_N (Z.to_N z)) as [|x d]; [done|]. injection Ht as -> _.
      cbn in H2. done. }
    specialize (Key 1 (Z.to_N z) ltac:(auto) ltac:(lia)).
    destruct (print_N (Z.to_N z) ++ r) as [|x t] eqn:E; [exact Key|].
    destruct x as [[] [] [] [] [] [] [] []]; try exact Key. by destruct (Hhd t).
Qed.

(** *** Values *)

(** The first character of a printed value: never white space or a closing
    bracket. *)
Definition starts_value (a : ascii) : bool :=
  negb (bool_decide (N_of_ascii a ∈ [32; 9; 10; 13])%N)
  && negb (Ascii.eqb a "]") && negb (Ascii.eqb a "}").

(** The first character of a number leads to the number branch. *)
Definition starts_number (a : ascii) : bool :=
  starts_value a && negb (Ascii.eqb a quote) && negb (Ascii.eqb a "{") && negb (Ascii.eqb a "[")
  && negb (Ascii.eqb a "n") && negb (Ascii.eqb a "t") && negb (Ascii.eqb a "f").

Lemma starts_number_value a : starts_number a = true -> starts_value a = true.
Proof.
  intros H. assert (Hb : implb (starts_number a) (starts_value a) = true).
  { clear H. revert a. apply for_all_bytes_spec. vm_compute. reflexivity. }
  by rewrite H in Hb.
Qed.

Lemma print_Z_head z : exists a t, print_Z z = a :: t /\ starts_number a = true.
Proof.
  unfold print_Z. destruct (z <? 0); [by eexists _, _|].
  destruct (print_N_spec (Z.to_N z)) as (H1 & H2 & _).
  destruct (print_N (Z.to_N z)) as [|a t]; [done|]. exists a, t. split; [done|].
  cbn in H2. apply andb_true_iff in H2 as [H2 _]. clear H1.
  assert (H : implb (is_digit a) (starts_number a) = true).
  { revert a H2. intros a _. revert a. apply for_all_bytes_spec. vm_compute. reflexivity. }
  by rewrite H2 in H.
Qed.

Lemma stringify_head v : exists a t, stringify v = a :: t /\ starts_value a = true.
Proof.
  destruct v as [|[]|[z| |]|s|l|l]; try (by eexists _, _).
  destruct (print_Z_head z) as (a & t & E & H). exists a, t. split; [done|].
  by apply starts_number_value.
Qed.

Lemma skip_ws_start a s : starts_value a = true -> skip_ws (a :: s) = a :: s.
Proof.
  unfold starts_value. intros H. repeat apply andb_true_iff in H as [H _].
  cbn [skip_ws]. by rewrite (proj1 (negb_true_iff _) H).
Qed.

Lemma skip_ws_after r : after r = true -> skip_ws r = r.
Proof.
  destruct r as [|a r]; [done|]. cbn [after]. intros H.
  destruct (Ascii.eqb_spec a ",") as [->|]; [done|].
  destruct (Ascii.eqb_spec a "]") as [->|]; [done|].
  by destruct (Ascii.eqb_spec a "}") as [->|].
Qed.

(** The value [v] is read back from its text. *)
Definition reads (v : jsval) : Prop :=
  exact v = true -> forall n r, (need v <= n)%nat -> after r = true ->
  value n (stringify v ++ r) = Some (v, r).

Lemma reads_num z : reads (JsNum (Int z)).
Proof.
  intros Hz [|n] r Hn Hr; [cbn in Hn; lia|]. cbn [exact] in Hz. apply Z.leb_le in Hz.
  cbn [stringify]. pose proof (number_literal_print z r Hz Hr) as H.
  destruct (print_Z_head z) as (a & t & E & Ha). rewrite E in H |- *. cbn [app value] in H |- *.
  rewrite (skip_ws_start a _ (starts_number_value a Ha)). unfold starts_number in Ha.
  do 6 (apply andb_true_iff in Ha as [Ha Hx]; apply negb_true_iff in Hx; rewrite Hx; clear Hx).
  by rewrite H.
Qed.

Lemma comma_sep_cons x y l : comma_sep (x :: y :: l) = x ++ ","%char :: comma_sep (y :: l).
Proof. done. Qed.

Lemma elements_read l n r :
  l <> [] -> Forall reads l -> forallb exact l = true ->
  (list_sum (map (fun v => S (need v)) l) <= n)%nat ->
  elements n (comma_sep (map stringify l) ++ "]"%char :: r) = Some (l, r).
Proof.
  revert n. induction l as [|v [|v' l] IH]; intros n Hne Hl He Hn; [done|..].
  - apply Forall_cons in Hl as [Hv _]. cbn [forallb] in He. apply andb_true_iff in He as [He _].
    cbn [map list_sum fold_right] in Hn. destruct n as [|n]; [lia|]. cbn [map comma_sep flat_map elements].
    rewrite app_nil_r. rewrite (Hv He n) by (done || lia). by rewrite skip_ws_after.
  - apply Forall_cons in Hl as [Hv Hl]. cbn [forallb] in He. apply andb_true_iff in He as [He He'].
    cbn [map list_sum fold_right] in Hn. destruct n as [|n]; [lia|].
    cbn [map]. rewrite comma_sep_cons, <- app_assoc. cbn [app elements].
    rewrite (Hv He n) by (done || lia). rewrite skip_ws_after by done.
    change (stringify v' :: map stringify l) with (map stringify (v' :: l)).
    rewrite IH; [done|done|done|done|]. cbn [map list_sum fold_right]. lia.
Qed.

Lemma reads_arr l : Forall reads l -> reads (JsArr l).
Proof.
  intros Hl He [|n] r Hn Hr; [cbn in Hn; lia|]. cbn [exact need] in He, Hn. cbn [stringify app value].
  rewrite (skip_ws_start "["%char) by done.
  change (Ascii.eqb "[" quote) with false. change (Ascii.eqb "[" "{") with false.
  change (Ascii.eqb "[" "[") with true. cbv iota.
  destruct l as [|v l]; [by cbn [map comma_sep app]; rewrite (skip_ws_after ("]"%char :: r))|].
  rewrite <- app_assoc. cbn [app].
  pose proof (elements_read (v :: l) n r ltac:(done) Hl He ltac:(lia)) as H.
  destruct (stringify_head v) as (a & t & Ea & Ha).
  assert (Hd : exists t', comma_sep (map stringify (v :: l)) ++ "]"%char :: r = a :: t').
  { cbn [map comma_sep]. rewrite Ea. by eexists. }
  destruct Hd as [t' Hd]. rewrite Hd in H |- *. rewrite (skip_ws_start a _ Ha), H.
  assert (Hnb : a <> "]"%char).
  { intros ->. done. }
  destruct a as [[] [] [] [] [] [] [] []]; (reflexivity || (exfalso; by apply Hnb)).
Qed.

Lemma members_read l n r :
  l <> [] -> Forall (fun kv => reads kv.2) l -> forallb (fun kv => exact kv.2) l = true ->
  (list_sum (map (fun kv => S (need kv.2)) l) <= n)%nat ->
  members n (comma_sep (map (fun kv => quoted kv.1 ++ ":"%char :: stringify kv.2) l) ++ "}"%char :: r)
  = Some (l, r).
Proof.
  revert n. induction l as [|[k v] l IH]; intros n Hne Hl He Hn; [done|].
  apply Forall_cons in Hl as [Hv Hl]. cbn [forallb snd] in He, Hv. apply andb_true_iff in He as [He He'].
  change (S (need v) + list_sum (map (fun kv => S (need kv.2)) l) <= n)%nat in Hn.
  destruct n as [|n]; [lia|]. destruct l as [|kv l].
  - cbn [map comma_sep flat_map fst snd]. rewrite app_nil_r. unfold quoted.
    rewrite <- !app_assoc. cbn [app members]. rewrite (skip_ws_start quote) by done.
    rewrite Ascii.eqb_refl, <- app_assoc. cbn [app]. rewrite string_body_quoted, (skip_ws_start ":"%char) by done.
    rewrite (Hv He n) by (done || lia). rewrite skip_ws_after by done. by rewrite of_utf8_utf8.
  - cbn [map]. rewrite comma_sep_cons. cbn [fst snd]. unfold quoted at 1.
    rewrite <- !app_assoc. cbn [app members]. rewrite (skip_ws_start quote) by done.
    rewrite Ascii.eqb_refl, <- app_assoc. cbn [app]. rewrite string_body_quoted, (skip_ws_start ":"%char) by done.
    rewrite (Hv He n) by (done || lia). rewrite skip_ws_after by done.
    change (?f kv :: map ?f l) with (map f (kv :: l)).
    specialize (IH n ltac:(done) Hl He' ltac:(lia)). cbn [map fst snd] in IH. rewrite IH.
    by rewrite of_utf8_utf8.
Qed.

Lemma reads_obj l : Forall (fun kv => reads kv.2) l -> reads (JsObj l).
Proof.
  intros Hl He [|n] r Hn Hr; [cbn in Hn; lia|]. cbn [exact need] in He, Hn. cbn [stringify app value].
  rewrite (skip_ws_start "{"%char) by done.
  change (Ascii.eqb "{" quote) with false. change (Ascii.eqb "{" "{") with true. cbv iota.
  destruct l as [|kv l]; [by cbn [map comma_sep app]; rewrite (skip_ws_after ("}"%char :: r))|].
  rewrite <- app_assoc. cbn [app].
  pose proof (members_read (kv :: l) n r ltac:(done) Hl He ltac:(lia)) as H.
  rewrite H. cbn [map comma_sep quoted app]. by rewrite (skip_ws_start quote) by done.
Qed.

Lemma value_reads v : reads v.
Proof.
  induction v as [|b|[z| |]|s|l Hl|l Hl] using jsval_nested_ind.
  - intros _ [|n] r Hn Hr; [cbn in Hn; lia|]. done.
  - intros _ [|n] r Hn Hr; [cbn in Hn; lia|]. by destruct b.
  - apply reads_num.
  - done.
  - done.
  - intros _ [|n] r Hn Hr; [cbn in Hn; lia|]. cbn [stringify quoted app value].
    rewrite (skip_ws_start quote), Ascii.eqb_refl, <- app_assoc by done. cbn [app].
    by rewrite string_body_quoted, of_utf8_utf8.
  - by apply reads_arr.
  - by apply reads_obj.
Qed.

(** The parser's fuel, twice the length of its input, is enough. *)
Lemma length_comma_sep l :
  (list_sum (map (fun b => S (length b)) l) <= S (length (comma_sep l)))%nat.
Proof.
  induction l as [|x [|y l] IH]; [cbn; lia| |].
  - cbn. rewrite length_app. cbn. lia.
  - rewrite comma_sep_cons, length_app. cbn [length].
    change (list_sum (map (fun b => S (length b)) (x :: y :: l)))
      with (S (length x) + list_sum (map (fun b => S (length b)) (y :: l)))%nat. lia.
Qed.

Lemma list_sum_bound {A} (f : A -> nat) (g : A -> bytes) l :
  Forall (fun x => f x <= 2 * length (g x))%nat l ->
  (list_sum (map (fun x => S (f x)) l) <= 2 * S (length (comma_sep (map g l))))%nat.
Proof.
  intros H. pose proof (length_comma_sep (map g l)) as Hl.
  enough (list_sum (map (fun x => S (f x)) l)
          <= 2 * list_sum (map (fun b => S (length b)) (map g l)))%nat by lia. clear Hl.
  induction H as [|x l Hx _ IH]; [done|]. cbn [map].
  change (S (f x) + list_sum (map (fun x => S (f x)) l)
    <= 2 * (S (length (g x)) + list_sum (map (fun b => S (length b)) (map g l))))%nat. lia.
Qed.

Lemma need_bound v : (need v <= 2 * length (stringify v))%nat.
Proof.
  assert (Pos : forall v, (1 <= length (stringify v))%nat).
  { intros w. destruct (stringify_head w) as (a & t & -> & _). cbn. lia. }
  induction v as [|b|n|s|l Hl|l Hl] using jsval_nested_ind;
    try (match goal with |- (need ?w <= _)%nat => specialize (Pos w); cbn [need]; lia end).
  - apply (list_sum_bound need stringify) in Hl. cbn [need stringify length].
    rewrite length_app. cbn [length]. lia.
  - pose proof (list_sum_bound (fun kv : string * jsval => need kv.2)
      (fun kv => quoted kv.1 ++ ":"%char :: stringify kv.2) l) as H.
    cbn [need stringify length]. rewrite length_app. cbn [length].
    enough (Hq : Forall (fun kv : string * jsval =>
      (need kv.2 <= 2 * length (quoted kv.1 ++ ":"%char :: stringify kv.2))%nat) l)
      by (specialize (H Hq); lia).
    eapply Forall_impl; [exact Hl|]. intros kv Hkv. cbn beta in *.
    rewrite length_app. cbn [length]. lia.
Qed.

Lemma JSON_parse_stringify v : exact v = true -> JSON_parse (stringify v) = Some v.
Proof.
  intros He. unfold JSON_parse.
  pose proof (value_reads v He (S (2 * length (stringify v))) []) as H.
  rewrite app_nil_r in H. rewrite H; [done| |done]. pose proof (need_bound v). lia.
Qed.
