(* ===== verification/Dates.v ===== *)
(** * Dates

    [Date.prototype.toISOString]: the proleptic Gregorian calendar, in UTC, of a
    number of milliseconds since 1970. *)

From S2P Require Import Prelude JsString Addresses Envelope Encoding Json.
From Stdlib Require Import Ascii.

(** The largest time value, 100,000,000 days around the epoch. *)
Definition MAX_TIME : Z := 8640000000000000.

Definition MS_PER_DAY : Z := 86400000.

(** Year, month and day of a day number, with years counted from March. *)
Definition civil (days : Z) : Z * Z * Z :=
  let z := days + 719468 in
  let era := z / 146097 in
  let doe := z mod 146097 in
  let yoe := (doe - doe / 1460 + doe / 36524 - doe / 146096) / 365 in
  let doy := doe - (365 * yoe + yoe / 4 - yoe / 100) in
  let mp := (5 * doy + 2) / 153 in
  let d := doy - (153 * mp + 2) / 5 + 1 in
  let m := if mp <? 10 then mp + 3 else mp - 9 in
  (yoe + era * 400 + (if m <=? 2 then 1 else 0), m, d).

(** A number in [n] decimal digits. *)
Fixpoint padded (n : nat) (z : Z) : string :=
  match n with
  | O => EmptyString
  | S n' => padded n' (z / 10) +:+ String (ascii_of_N (48 + Z.to_N (z mod 10))) EmptyString
  end.

Definition iso_year (y : Z) : string :=
  if (0 <=? y) && (y <=? 9999) then padded 4 y
  else if y <? 0 then "-" +:+ padded 6 (- y) else "+" +:+ padded 6 y.

Definition iso (t : Z) : string :=
  let '(y, m, d) := civil (t / MS_PER_DAY) in
  let ms := t mod MS_PER_DAY in
  iso_year y +:+ "-" +:+ padded 2 m +:+ "-" +:+ padded 2 d +:+ "T" +:+
  padded 2 (ms / 3600000) +:+ ":" +:+ padded 2 (ms / 60000 mod 60) +:+ ":" +:+
  padded 2 (ms / 1000 mod 60) +:+ "." +:+ padded 3 (ms mod 1000) +:+ "Z".

(** [new Date(n).toISOString()]: the time is truncated to milliseconds; [None] is
    the RangeError of an invalid date. *)
Definition toISOString (n : number) : option string :=
  match n with
  | Int t => if Z.abs t <=? MAX_TIME then Some (iso t) else None
  | Frac b =>
      let t := if b <? 0 then b + 1 else b in
      if Z.abs t <=? MAX_TIME then Some (iso t) else None
  | Infinity _ => None
  end.

Example toISOString_epoch : toISOString (Int 0) = Some "1970-01-01T00:00:00.000Z".
Proof. reflexivity. Qed.
Example toISOString_leap : toISOString (Int 1709164800123) = Some "2024-02-29T00:00:00.123Z".
Proof. reflexivity. Qed.
Example toISOString_far :
  toISOString (Int MAX_TIME) = Some "+275760-09-13T00:00:00.000Z" /\
  toISOString (Int (- MAX_TIME)) = Some "-271821-04-20T00:00:00.000Z" /\
  toISOString (Int (MAX_TIME + 1)) = None /\
  toISOString (Int (-1)) = Some "1969-12-31T23:59:59.999Z".
Proof. split_and!; reflexivity. Qed.
