(* ===== verification/Bitcoin.v ===== *)
(** * Talking to a Bitcoin node

    [src/blockchain/bitcoin/config.ts] and [rpc.client.ts], and the two conversions
    of [bitcoin.adapter.ts] between satoshis and the BTC amounts of the node, which
    are JSON numbers. *)

From S2P Require Import Prelude JsString Double Schema Addresses Envelope Encoding Json.
From Stdlib Require Import Ascii.
From stdpp Require Import pretty.
#[local] Open Scope Z_scope.

(** ** Amounts *)

Definition MAX_SATOSHIS : Z := 21000000 * 100000000.

Definition btcToSatoshis (amount : double) : Z + err :=
  if negb (isFinite amount) || ltb_Z amount 0
  then inr (PlainError "Bitcoin RPC returned an invalid BTC amount")
  else
    match BigInt_round (mul (reparse_fixed 8 amount) (of_Z 100000000)) with
    | Some z => inl z
    | None => inr (PlainError "The number Infinity cannot be converted to a BigInt because it is not an integer")
    end.

Definition satoshisToBtc (amount : Z) : double + err :=
  if amount <? 0 then inr (PlainError "Bitcoin transfer amount cannot be negative")
  else if MAX_SATOSHIS <? amount then
    inr (PlainError "Bitcoin transfer amount exceeds maximum supply")
  else inl (div (of_Z amount) (of_Z 100000000)).

(** *** They are exact over the whole supply *)

(** The doubles that stand for [n] satoshis. *)
Definition denotes (x : double) (n : Z) : Prop :=
  exists m e, x = Finite m e /\ 0 <= m /\ close (vnum m e) (10 ^ 8) n (vden e).

(** What JSON.parse makes of the decimal the node prints. *)
Lemma ratio_denotes n : 0 < n <= MAX_SATOSHIS -> denotes (of_ratio n (10 ^ 8)) n.
Proof.
  unfold MAX_SATOSHIS. intros Hn.
  destruct (of_ratio_near 1 n (10 ^ 8)) as (m & e & E & Hm & Hc); [lia..|].
  rewrite !Z.mul_1_r in E. by exists m, e.
Qed.

Lemma satoshisToBtc_denotes n :
  0 < n <= MAX_SATOSHIS -> exists x, satoshisToBtc n = inl x /\ denotes x n.
Proof.
  intros Hn. unfold satoshisToBtc. destruct (Z.ltb_spec n 0); [lia|].
  destruct (Z.ltb_spec MAX_SATOSHIS n); [lia|]. unfold MAX_SATOSHIS in *.
  eexists. split; [done|]. destruct (of_Z_exact n) as (m & e & -> & Hm & Hv); [lia|].
  destruct (of_Z_exact 100000000) as (m8 & e8 & -> & Hm8 & Hv8); [lia|]. cbn [div].
  rewrite Hv, Hv8. pose proof (vden_pos e). pose proof (vden_pos e8).
  rewrite Z.sgn_pos, Z.abs_eq, Z.mul_1_r by lia.
  destruct (of_ratio_near (vden e * vden e8) n (10 ^ 8)) as (m' & e' & E & Hm' & Hc);
    [by apply Z.mul_pos_pos|lia..|].
  exists m', e'. split; [|done]. rewrite <- E. f_equal; lia.
Qed.

(** A double that denotes [n] satoshis is read as [n]. *)
Lemma btcToSatoshis_denotes x n : 0 < n <= MAX_SATOSHIS -> denotes x n -> btcToSatoshis x = inl n.
Proof.
  intros Hn (m & e & -> & Hm & Hc). unfold MAX_SATOSHIS in Hn. pose proof (vden_pos e) as Hq.
  pose proof (close_near (vnum m e) (10 ^ 8) n (vden e) Hq ltac:(lia) Hc) as Hnear.
  assert (Hv : 0 <= vnum m e) by (unfold vnum; pose proof (pow2_pos (Z.max 0 e)); nia).
  unfold btcToSatoshis. cbn [isFinite negb orb ltb_Z].
  destruct (Z.ltb_spec (vnum m e) (0 * vden e)); [lia|].
  unfold reparse_fixed. cbn [isFinite andb ltb_Z].
  destruct (Z.ltb_spec (vnum m e) (10 ^ 21 * vden e)); [|nia].
  rewrite (scaled_close 8 m e n) by (lia || done).
  destruct (ratio_denotes n Hn) as (m1 & e1 & -> & Hm1 & Hc1). clear Hc Hnear Hq Hv Hm.
  pose proof (vden_pos e1) as Hq.
  pose proof (close_near (vnum m1 e1) (10 ^ 8) n (vden e1) Hq ltac:(lia) Hc1) as Hnear.
  destruct (of_Z_exact 100000000) as (m8 & e8 & -> & Hm8 & Hv8); [lia|]. cbn [mul].
  rewrite Hv8, Z.mul_assoc. pose proof (vden_pos e8).
  set (y := vnum m1 e1 * 100000000) in *. change (10 ^ 8) with 100000000 in Hnear. fold y in Hnear.
  clear Hc1 Hm1. clearbody y.
  destruct (of_ratio_near (vden e8) y (vden e1)) as (m2 & e2 & -> & Hm2 & Hc2); [nia..|].
  cbn [BigInt_round]. f_equal. apply round_half_up_near; [apply vden_pos|].
  apply (close_near_again _ (vden e1) y); [done|apply vden_pos|lia|done|done].
Qed.

(** The two conversions are inverse over the whole supply, and so is the reading of
    the decimals a node prints. *)
Lemma satoshis_round_trip n :
  0 <= n <= MAX_SATOSHIS -> exists x, satoshisToBtc n = inl x /\ btcToSatoshis x = inl n.
Proof.
  intros Hn. destruct (decide (n = 0)) as [->|]; [by eexists|].
  destruct (satoshisToBtc_denotes n) as (x & E & Hx); [lia|].
  exists x. split; [done|]. apply btcToSatoshis_denotes; [lia|done].
Qed.

Lemma node_amount_read n : 0 <= n <= MAX_SATOSHIS -> btcToSatoshis (of_ratio n (10 ^ 8)) = inl n.
Proof.
  intros Hn. destruct (decide (n = 0)) as [->|]; [done|].
  apply btcToSatoshis_denotes, ratio_denotes; lia.
Qed.

(** ** The client *)

Record BitcoinConfig := mkBitcoinConfig {
  BITCOIN_RPC_URL : string; BITCOIN_RPC_USER : string; BITCOIN_RPC_PASSWORD : string;
  BITCOIN_RPC_WALLET : string; BITCOIN_NETWORK : string }.

(** An HTTP answer: status and body. *)
Record HttpResponse := mkHttpResponse { hr_status : Z; hr_text : string }.

(** [response.ok] *)
Definition hr_ok (r : HttpResponse) : bool := (200 <=? hr_status r) && (hr_status r <=? 299).

(** The request [fetch] is called with, always a POST. *)
Record HttpRequest := mkHttpRequest {
  hq_url : string; hq_authorization : string; hq_body : bytes }.

(** Zod's URL check and its message for a rejected environment; the network behind
    [fetch]. *)
Class BitcoinNet := {
  zod_url : string -> bool;
  zod_message : Env -> string;
  Peer : Type;
  fetch : HttpRequest -> Peer -> (HttpResponse + err) * Peer }.

(** [encodeURIComponent], on the bytes of the UTF-8 form. *)
Definition uri_unreserved (a : ascii) : bool :=
  let n := N_of_ascii a in
  ((48 <=? n) && (n <=? 57) || (65 <=? n) && (n <=? 90) || (97 <=? n) && (n <=? 122)
   || (n =? 45) || (n =? 95) || (n =? 46) || (n =? 33) || (n =? 126) || (n =? 42)
   || (n =? 39) || (n =? 40) || (n =? 41))%N.

Fixpoint encodeURIComponent (s : string) : string :=
  match s with
  | EmptyString => EmptyString
  | String a s' =>
      let n := N_of_ascii a in
      if uri_unreserved a then String a (encodeURIComponent s')
      else String "%" (String (upper_ascii (hex_char (n / 16)))
             (String (upper_ascii (hex_char (n mod 16))) (encodeURIComponent s')))
  end.

(** [url.replace(/\/$/, '')] *)
Fixpoint drop_trailing_slash (s : string) : string :=
  match s with
  | EmptyString => EmptyString
  | String a EmptyString => if Ascii.eqb a "/" then EmptyString else s
  | String a s' => String a (drop_trailing_slash s')
  end.

(** [Buffer.from(s).toString('base64')]: the other alphabet, padded. *)
Definition base64_char (a : ascii) : ascii :=
  if Ascii.eqb a "-" then "+"%char else if Ascii.eqb a "_" then "/"%char else a.

Definition base64 (b : bytes) : string :=
  let s := string_map base64_char (base64url b) in
  match (String.length s mod 4)%nat with
  | 2%nat => s +:+ "=="
  | 3%nat => s +:+ "="
  | _ => s
  end.

Section Client.
Context `{BN : BitcoinNet} (env : Env).

Definition nonempty_env (name : string) : option string :=
  match env name with Some (String a s) => Some (String a s) | _ => None end.

Definition getBitcoinConfig : BitcoinConfig + err :=
  let network := default "regtest" (env "BITCOIN_NETWORK") in
  match env "BITCOIN_RPC_URL", nonempty_env "BITCOIN_RPC_USER", nonempty_env "BITCOIN_RPC_PASSWORD",
        nonempty_env "BITCOIN_RPC_WALLET" with
  | Some url, Some user, Some password, Some wallet =>
      if zod_url url && bool_decide (network ∈ ["regtest"; "testnet"; "mainnet"])
      then inl (mkBitcoinConfig url user password wallet network)
      else inr (PlainError ("Invalid Bitcoin configuration: " +:+ zod_message env))
  | _, _, _, _ => inr (PlainError ("Invalid Bitcoin configuration: " +:+ zod_message env))
  end.

(** The module variable and the network. *)
Record RpcState := mkRpcState { requestId : Z; peer : Peer }.

Abbreviation rpc A := (prog RpcState err A).

Definition call_url (config : BitcoinConfig) (wallet : bool) : string :=
  if wallet
  then drop_trailing_slash (BITCOIN_RPC_URL config) +:+ "/wallet/"
         +:+ encodeURIComponent (BITCOIN_RPC_WALLET config)
  else BITCOIN_RPC_URL config.

Definition call_request (config : BitcoinConfig) (id : Z) (method : string) (params : list jsval)
    (wallet : bool) : HttpRequest :=
  mkHttpRequest (call_url config wallet)
    ("Basic " +:+ base64 (utf8 (BITCOIN_RPC_USER config +:+ ":" +:+ BITCOIN_RPC_PASSWORD config)))
    (stringify (JsObj [("jsonrpc", JsStr "1.0"); ("id", JsNum (Int id)); ("method", JsStr method);
                       ("params", JsArr params)])).

Definition member_of (k : string) (j : jsval) : option jsval :=
  match j with JsObj l => member k l | _ => None end.

(** [if (body.error)] *)
Definition truthy (o : option jsval) : bool :=
  match o with
  | None | Some JsNull | Some (JsBool false) | Some (JsNum (Int 0)) | Some (JsStr EmptyString) => false
  | _ => true
  end.

(** A code or a message in a template literal; the node sends no containers there. *)
Definition template (o : option jsval) : string :=
  match o with
  | None => "undefined"
  | Some JsNull => "null"
  | Some (JsBool b) => if b then "true" else "false"
  | Some (JsNum (Int z)) => pretty z
  | Some (JsStr s) => s
  | Some _ => "[object Object]"
  end.

(** The answer of [call]: [None] is undefined. *)
Definition read_response (response : HttpResponse) : option jsval + err :=
  if negb (hr_ok response) then
    inr (PlainError ("Bitcoin RPC HTTP " +:+ pretty (hr_status response) +:+ ": " +:+ hr_text response))
  else
    match JSON_parse (utf8 (hr_text response)) with
    | None => inr (PlainError "Unexpected token in JSON")
    | Some JsNull => inr (PlainError "Cannot read properties of null (reading 'error')")
    | Some body =>
        if truthy (member_of "error" body) then
          let e := default JsNull (member_of "error" body) in
          inr (PlainError ("Bitcoin RPC " +:+ template (member_of "code" e) +:+ ": "
                 +:+ template (member_of "message" e)))
        else inl (member_of "result" body)
    end.

Definition rpc_call (method : string) (params : list jsval) (wallet : bool) : rpc (option jsval) :=
  let! config := rethrow getBitcoinConfig in
  do! modify (fun s => mkRpcState (requestId s + 1) (peer s)) in
  let! id := gets requestId in
  let! response := act (fun s =>
    let '(r, p) := fetch (call_request config id method params wallet) (peer s) in
    (r, mkRpcState (requestId s) p)) in
  rethrow (read_response response).
End Client.

(** ** Facts *)

Lemma utf8_of_utf8 b : utf8 (of_utf8 b) = b.
Proof. apply String.list_ascii_of_string_of_list_ascii. Qed.

(** The credentials survive their encoding. *)
Lemma b64_digits_base64 p s :
  b64_digits p = [] -> b64_digits (string_map base64_char s +:+ p) = b64_digits s.
Proof.
  intros Hp. induction s as [|a s IH]; [done|].
  assert (H : Bool.eqb (Ascii.eqb (base64_char a) "=") (Ascii.eqb a "=") &&
              bool_decide (b64_value (base64_char a) = b64_value a) = true).
  { revert a. apply for_all_bytes_spec. vm_compute. reflexivity. }
  change (b64_digits (String (base64_char a) (string_map base64_char s +:+ p)) = b64_digits (String a s)).
  cbn [b64_digits]. apply andb_true_iff in H as [H1%Bool.eqb_prop H2%bool_decide_eq_true]. rewrite H1, H2, IH. done.
Qed.

Lemma base64_decodes b : of_base64url (base64 b) = b.
Proof.
  assert (H : b64_digits (base64 b) = b64_digits (base64url b)).
  { unfold base64. set (s := string_map _ _).
    assert (Hs : s = s +:+ EmptyString).
    { clearbody s. induction s as [|a s IH]; [done|]. change (String a s = String a (s +:+ "")). by rewrite <- IH. }
    destruct (String.length s mod 4)%nat as [|[|[|[|n]]]]; try (by apply b64_digits_base64);
      rewrite Hs; by apply b64_digits_base64. }
  unfold of_base64url. rewrite H. apply of_base64url_base64url.
Qed.

Section Facts.
Context `{BN : BitcoinNet} (env : Env).

(** A call whose node answers: one request, under the next id, and the result the
    node sent. *)
Lemma rpc_call_delivers config method params wallet s p result id :
  getBitcoinConfig env = inl config -> exact result = true -> Z.abs id <= MAX_SAFE_INTEGER ->
  let request := call_request config (requestId s + 1) method params wallet in
  fetch request (peer s) =
    (inl (mkHttpResponse 200 (of_utf8 (stringify (JsObj
       [("result", result); ("error", JsNull); ("id", JsNum (Int id))])))), p) ->
  exec (rpc_call env method params wallet) s =
    (inl (Some result), mkRpcState (requestId s + 1) p).
Proof.
  intros Hc Hr Hid request Hf. unfold rpc_call. rewrite exec_bind, exec_rethrow, Hc.
  rewrite exec_bind, exec_modify, exec_bind, exec_gets, exec_bind, exec_act.
  cbn [requestId peer]. fold request. rewrite Hf, exec_rethrow. unfold read_response, hr_ok.
  cbn [hr_status hr_text negb]. change ((200 <=? 200) && (200 <=? 299)) with true. cbn [negb].
  rewrite utf8_of_utf8, JSON_parse_stringify; [done|]. cbn [exact forallb snd].
  rewrite Hr. cbn [andb]. by rewrite (proj2 (Z.leb_le _ _) Hid).
Qed.
End Facts.
