(* ===== verification/Deploy.v ===== *)
(** * Deploying the token contract

    [src/blockchain/evm/deploy-safety.ts], the rules that stop a bad deployment,
    and [scripts/deploy-mini-usdt-live.ts], the script they guard.  The node, the
    key derivation, the ABI encoder and the URL parser are third-party code: the
    class [DeployNet]. *)

From S2P Require Import Prelude JsString Schema Addresses Envelope Encoding Json.
From Stdlib Require Import Ascii.
From stdpp Require Import pretty.
#[local] Open Scope Z_scope.

(** ** Safety rules *)

Definition DEV_MNEMONIC : string :=
  "test test test test test test test test test test test junk".
Definition DEV_ACCOUNT_COUNT : nat := 20.

Record DeployReceipt := mkDeployReceipt {
  dr_success : bool; dr_contractAddress : option string; dr_blockNumber : Z }.

Class DeployNet := {
  Net : Type;
  mnemonicToAccount : string -> nat -> string;
  privateKeyToAccount : string -> string;
  (** [new URL(url).origin]; [None] when the text is not a URL. *)
  url_origin : string -> option string;
  encodeDeployData : jsval -> string -> string + err;
  net_getChainId : Net -> Z + err;
  net_getBalance : string -> Net -> Z + err;
  net_getGasPrice : Net -> Z + err;
  net_estimateGas : string -> string -> Net -> Z + err;
  net_deployContract : string -> jsval -> string -> Net -> (string + err) * Net;
  net_waitForTransactionReceipt : string -> Net -> DeployReceipt + err;
  net_getCode : string -> Net -> option string + err;
  net_readContract : string -> string -> Net -> string + err;
  net_readDecimals : string -> Net -> Z + err }.

Section Safety.
Context `{DN : DeployNet}.

Definition wellKnownDevAddresses : list string :=
  map (fun i => toLowerCase (mnemonicToAccount DEV_MNEMONIC i)) (seq 0 DEV_ACCOUNT_COUNT).

Definition isWellKnownDevAccount (address : string) : bool :=
  bool_decide (toLowerCase address ∈ wellKnownDevAddresses).

(** [/^0x[0-9a-fA-F]{64}$/] *)
Definition is_private_key (s : string) : bool :=
  startsWith "0x" s && (String.length s =? 66)%nat && all_chars is_hex (String.substring 2 64 s).

Definition parseDeployerKey (raw : option string) : string + err :=
  match trim <$> raw with
  | None | Some EmptyString => inr (DeploySafetyError "PRIVATE_KEY is not set")
  | Some trimmed =>
      let withPrefix := if startsWith "0x" trimmed then trimmed else "0x" +:+ trimmed in
      if is_private_key withPrefix then inl withPrefix
      else inr (DeploySafetyError "PRIVATE_KEY is not a 32-byte hex private key")
  end.

Definition redactRpcUrl (url : string) : string := default "<invalid RPC_URL>" (url_origin url).

(** [[^\s] and none of the quotes, angle brackets and closing parenthesis] *)
Definition url_char (a : ascii) : bool :=
  negb (is_space a) && negb (bool_decide (N_of_ascii a ∈ [34; 39; 60; 62; 41]%N)).

Fixpoint span_url (s : string) : string * string :=
  match s with
  | EmptyString => (EmptyString, EmptyString)
  | String a s' =>
      if url_char a then let '(u, r) := span_url s' in (String a u, r) else (EmptyString, s)
  end.

Definition is_punctuation (a : ascii) : bool :=
  bool_decide (N_of_ascii a ∈ [46; 44; 59; 58; 33; 63]%N).

(** The URL and the punctuation behind it. *)
Fixpoint split_trailing (s : string) : string * string :=
  match s with
  | EmptyString => (EmptyString, EmptyString)
  | String a s' =>
      let '(u, t) := split_trailing s' in
      match u with
      | EmptyString => if is_punctuation a then (EmptyString, String a t) else (String a EmptyString, t)
      | _ => (String a u, t)
      end
  end.

(** The scheme at the head of a text that a URL continues. *)
Definition url_scheme (s : string) : option (string * string) :=
  let try_ (p : string) :=
    if startsWith p s then
      match String.substring (String.length p) (String.length s) s with
      | String a r => if url_char a then Some (p, String a r) else None
      | EmptyString => None
      end
    else None in
  match try_ "https://" with Some x => Some x | None => try_ "http://" end.

Fixpoint redact (fuel : nat) (text : string) : string :=
  match fuel with
  | O => text
  | S n =>
      match url_scheme text with
      | Some (scheme, rest) =>
          let '(tail, after) := span_url rest in
          let '(url, trailing) := split_trailing (scheme +:+ tail) in
          redactRpcUrl url +:+ trailing +:+ redact n after
      | None =>
          match text with
          | EmptyString => EmptyString
          | String a text' => String a (redact n text')
          end
      end
  end.

(** Each step consumes a character: the length is enough fuel. *)
Definition redactUrlsInText (text : string) : string := redact (S (String.length text)) text.

Definition first_line (s : string) : string :=
  match split_on (ascii_of_N 10) s with x :: _ => x | [] => s end.

Definition nonempty (o : option string) : list string :=
  match o with Some (String a s) => [String a s] | _ => [] end.

Definition describeRpcError (e : err) : string :=
  let parts :=
    match e with
    | NodeError l _ => map first_line (nonempty (shortMessage l) ++ nonempty (details l))
    | _ => []
    end in
  let text := match parts with [] => first_line (err_message e) | _ => String.concat ": " parts end in
  String.substring 0 300 (redactUrlsInText text).

Record DeployCheckInput := mkDeployCheck {
  configuredChainId : Z; rpcChainId : Z; deployerAddress : string; dc_balance : Z;
  estimatedCost : Z }.

Definition isLocalChain (c : Z) : bool := c =? ANVIL_CHAIN_ID.

Definition assertDeployAllowed (i : DeployCheckInput) : unit + err :=
  if negb (rpcChainId i =? configuredChainId i) then
    inr (DeploySafetyError ("RPC_URL serves chain " +:+ pretty (rpcChainId i) +:+
      " but EVM_CHAIN_ID is " +:+ pretty (configuredChainId i) +:+ ". " +:+
      "Refusing to deploy to a network you did not configure. Set EVM_CHAIN_ID to the " +:+
      "chain you mean to deploy to, and check RPC_URL points at it."))
  else if negb (isLocalChain (configuredChainId i)) && isWellKnownDevAccount (deployerAddress i) then
    inr (DeploySafetyError (deployerAddress i +:+
      " is a well-known development account (Anvil/Hardhat default). " +:+
      "Its private key is public, so anyone could mint or pause a token it owns. Generate a " +:+
      "fresh key for this network."))
  else if dc_balance i =? 0 then
    inr (DeploySafetyError (deployerAddress i +:+ " has no funds on chain " +:+
      pretty (configuredChainId i) +:+ ". " +:+
      "Send it enough native token to pay for deployment gas, then re-run."))
  else if dc_balance i <? estimatedCost i then
    inr (DeploySafetyError (deployerAddress i +:+ " holds " +:+ pretty (dc_balance i) +:+
      " wei but deployment is estimated to cost " +:+ "about " +:+ pretty (estimatedCost i) +:+
      " wei. Add funds and re-run."))
  else inl tt.
End Safety.

(** ** The script *)

Definition ARTIFACT_PATH : string := "artifacts/contracts/MiniUSDT.sol/MiniUSDT.json".

(** The network, what was printed, and the file that was written. *)
Record DeployState `{DeployNet} := mkDeployState {
  net : Net; console : list string; written : option (string * string) }.

Section Script.
Context `{DN : DeployNet}.
Context (env : Env) (argv : list string) (artifact_file : option string).
(** Name and explorer of the configured chain. *)
Context (chain_name : string) (explorer : option string).

Abbreviation script A := (prog DeployState err A).

Definition ask_net {R} (f : Net -> R + err) : script R := act (fun s => (f (net s), s)).

Definition log (line : string) : script unit :=
  modify (fun s => mkDeployState _ (net s) (console s ++ [line]) (written s)).

Definition flag (name : string) : bool := bool_decide (name ∈ argv).

Fixpoint option_ (args : list string) (name : string) : option string :=
  match args with
  | [] => None
  | a :: rest => if String.eqb a name then head rest else option_ rest name
  end.

(** [!x] of a property. *)
Definition falsy_value (o : option jsval) : bool :=
  match o with
  | None | Some JsNull | Some (JsBool false) | Some (JsNum (Int 0)) | Some (JsStr EmptyString) => true
  | _ => false
  end.

Definition property (k : string) (j : jsval) : option jsval :=
  match j with JsObj l => member k l | _ => None end.

Definition loadArtifact : script (jsval * string) :=
  match artifact_file with
  | None =>
      Throw (DeploySafetyError (ARTIFACT_PATH +:+ " not found. Run `npm run compile` first."))
  | Some raw =>
      match JSON_parse (utf8 raw) with
      | None => Throw (PlainError "Unexpected token in JSON")
      | Some JsNull => Throw (PlainError "Cannot read properties of null (reading 'abi')")
      | Some j =>
          if falsy_value (property "abi" j) || falsy_value (property "bytecode" j)
          then Throw (DeploySafetyError (ARTIFACT_PATH +:+ " has no ABI/bytecode. Re-run `npm run compile`."))
          else
            match property "abi" j, property "bytecode" j with
            | Some abi, Some (JsStr bytecode) =>
                if String.eqb bytecode "0x"
                then Throw (DeploySafetyError
                       (ARTIFACT_PATH +:+ " has no ABI/bytecode. Re-run `npm run compile`."))
                else Ret (abi, bytecode)
            | _, _ => Throw (PlainError "bytecode is not a string")
            end
      end
  end.

(** [deployContract]: the one call that changes the network. *)
Definition deployContract (account : string) (abi : jsval) (bytecode : string) : script string :=
  act (fun s => let '(r, n) := net_deployContract account abi bytecode (net s) in
                (r, mkDeployState _ n (console s) (written s))).

Definition writeFile (path content : string) : script unit :=
  act (fun s => (inl tt, mkDeployState _ (net s) (console s) (Some (path, content)))).

(** [JSON.stringify(value, null, 2)] of an object whose values are no containers. *)
Definition indented (l : list (string * jsval)) : string :=
  let field kv := "  " +:+ of_utf8 (stringify (JsStr kv.1)) +:+ ": " +:+ of_utf8 (stringify kv.2) in
  "{" +:+ newline +:+ String.concat ("," +:+ newline) (map field l) +:+ newline +:+ "}".

(** What follows a deployment that was sent: its receipt, the code and the owner
    are checked before it is reported. *)
Definition verify_deployment (account hash : string) (rpcChain : Z) : script unit :=
  do! log (newline +:+ "Deployment tx sent: " +:+ hash) in
  do! log "Waiting for it to be mined..." in
  let! receipt := catch (ask_net (net_waitForTransactionReceipt hash))
    (fun _ => Throw (DeploySafetyError ("No receipt for " +:+ hash +:+ " within 120s. It may still be mined: "
       +:+ "check the explorer before deploying again."))) in
  match dr_success receipt, dr_contractAddress receipt with
  | true, Some (String a0 a1) =>
      let address := String a0 a1 in
      let! code := ask_net (net_getCode address) in
      if bool_decide (default EmptyString code ∈ [EmptyString; "0x"])
      then Throw (DeploySafetyError ("No contract code at " +:+ address +:+ " after deployment"))
      else
        let! owner := ask_net (net_readContract address "owner") in
        let! name := ask_net (net_readContract address "name") in
        let! symbol := ask_net (net_readContract address "symbol") in
        let! decimals := ask_net (net_readDecimals address) in
        if negb (String.eqb (toLowerCase owner) (toLowerCase account))
        then Throw (DeploySafetyError ("Contract owner " +:+ owner +:+ " is not the deployer " +:+ account))
        else
          let block := pretty (dr_blockNumber receipt) in
          do! log (newline +:+ "MiniUSDT deployed") in
          do! log ("  address:          " +:+ address) in
          do! log ("  deployment block: " +:+ block) in
          do! log ("  owner:            " +:+ owner) in
          do! (match explorer with
               | Some e => log ("  explorer:         " +:+ e +:+ "/address/" +:+ address)
               | None => Ret tt
               end) in
          do! log (newline +:+ "Next steps") in
          do! log "  1. API and worker environment:" in
          do! log ("       EVM_CHAIN_ID=" +:+ pretty rpcChain) in
          do! log "       RPC_URL=<same RPC>" in
          do! log "       PRIVATE_KEY=<the key you just deployed with, from your secret store>" in
          do! log "  2. Worker environment (skip the empty history when indexing):" in
          do! log ("       EVM_INDEX_START_BLOCK=" +:+ block) in
          do! log "  3. Register the token (POST /api/v1/tokens, ADMIN):" in
          do! log ("       " +:+ of_utf8 (stringify (JsObj
                [("tokenId", JsStr "<any new uuid>"); ("name", JsStr name); ("symbol", JsStr symbol);
                 ("blockchain", JsStr "EVM"); ("contractAddress", JsStr address);
                 ("decimals", JsNum (Int decimals))]))) in
          match option_ argv "--out" with
          | Some (String p0 p1) =>
              let path := String p0 p1 in
              do! writeFile path (indented
                [("address", JsStr address); ("transactionHash", JsStr hash);
                 ("deploymentBlock", JsStr block); ("chainId", JsNum (Int rpcChain));
                 ("owner", JsStr account); ("name", JsStr name); ("symbol", JsStr symbol);
                 ("decimals", JsNum (Int decimals))] +:+ newline) in
              log (newline +:+ "Wrote " +:+ path)
          | _ => Ret tt
          end
  | _, _ => Throw (DeploySafetyError ("Deployment transaction " +:+ hash +:+ " did not succeed"))
  end.

Definition main : script unit :=
  match trim <$> env "RPC_URL" with
  | None | Some EmptyString => Throw (DeploySafetyError "RPC_URL is not set")
  | Some rpcUrl =>
      let! key := rethrow (parseDeployerKey (env "PRIVATE_KEY")) in
      let account := privateKeyToAccount key in
      let! configured := rethrow (getEvmChainId env) in
      let local := isLocalChain configured in
      let! rpcChain := catch (ask_net net_getChainId) (fun e =>
        Throw (DeploySafetyError ("Cannot reach the RPC at " +:+ redactRpcUrl rpcUrl +:+ ": "
                 +:+ describeRpcError e))) in
      let! artifact := loadArtifact in
      let! data := rethrow (encodeDeployData artifact.1 artifact.2) in
      let! balance := ask_net (net_getBalance account) in
      let! gasPrice := ask_net net_getGasPrice in
      let! gas := ask_net (net_estimateGas account data) in
      let cost := gas * gasPrice * 12 ÷ 10 in
      do! log "MiniUSDT deployment plan" in
      do! log ("  network:   " +:+ chain_name +:+ " (chain id " +:+ pretty rpcChain +:+ ")") in
      do! log ("  rpc:       " +:+ redactRpcUrl rpcUrl) in
      do! log ("  deployer:  " +:+ account +:+ "  (becomes owner: the only account that can mint)") in
      do! log ("  balance:   " +:+ pretty balance +:+ " wei") in
      do! log ("  est. cost: ~" +:+ pretty cost +:+ " wei (gas " +:+ pretty gas +:+ ", incl. 20% headroom)") in
      do! rethrow (assertDeployAllowed (mkDeployCheck configured rpcChain account balance cost)) in
      if negb local && negb (flag "--yes")
      then log (newline +:+ "DRY RUN: nothing was deployed. Re-run with --yes to deploy.")
      else
        let! hash := deployContract account artifact.1 artifact.2 in
        verify_deployment account hash rpcChain
  end.

(** [main().catch(...)]: the exit code. *)
Definition deploy_script : script Z :=
  catch (do! main in Ret 0) (fun e =>
    do! (match e with
         | DeploySafetyError m => log (newline +:+ "Refusing to deploy: " +:+ m)
         | _ => log (newline +:+ "Deployment failed: " +:+ describeRpcError e)
         end) in
    Ret 1).
End Script.

(** ** Nothing is deployed by mistake *)
Section Guarded.
Context `{DN : DeployNet}.

Lemma run_ask_net {R} (f : Net -> R + err) outs s :
  exists r outs', run (ask_net f) (faults outs) s = (r, s, faults outs') /\
    (r = f (net s) \/ exists e, r = inr e).
Proof. apply (run_read_faults (fun s => f (net s))). Qed.

Lemma run_log line env s :
  exists s', run (log line) env s = (inl tt, s', env) /\ net s' = net s.
Proof. unfold log. rewrite run_modify. by eexists. Qed.

(** The rules, as a proposition. *)
Definition allowed (i : DeployCheckInput) : Prop :=
  rpcChainId i = configuredChainId i /\
  (isLocalChain (configuredChainId i) = true \/ isWellKnownDevAccount (deployerAddress i) = false) /\
  dc_balance i <> 0 /\ estimatedCost i <= dc_balance i.

Lemma assertDeployAllowed_spec i : assertDeployAllowed i = inl tt <-> allowed i.
Proof.
  unfold assertDeployAllowed, allowed.
  destruct (Z.eqb_spec (rpcChainId i) (configuredChainId i)); cbn [negb]; [|naive_solver].
  destruct (isLocalChain (configuredChainId i)) eqn:El; cbn [negb andb].
  - destruct (Z.eqb_spec (dc_balance i) 0); [naive_solver|].
    destruct (Z.ltb_spec (dc_balance i) (estimatedCost i)); [naive_solver lia|naive_solver].
  - destruct (isWellKnownDevAccount (deployerAddress i)) eqn:Ed; [naive_solver|].
    destruct (Z.eqb_spec (dc_balance i) 0); [naive_solver|].
    destruct (Z.ltb_spec (dc_balance i) (estimatedCost i)); [naive_solver lia|naive_solver].
Qed.
End Guarded.

Lemma run_loadArtifact `{DN : DeployNet} artifact_file env s :
  exists x, run (loadArtifact artifact_file) env s = (x, s, env).
Proof.
  unfold loadArtifact. destruct artifact_file as [raw|]; [|by eexists].
  destruct (JSON_parse (utf8 raw)) as [[| | | | |]|]; try (by eexists);
    destruct (_ || _); try (by eexists); destruct (property "abi" _); try (by eexists);
    destruct (property "bytecode" _) as [[| | |b| |]|]; try (by eexists);
    destruct (String.eqb b "0x"); by eexists.
Qed.

(** One read of the network: either it failed and the script has stopped, or its
    answer is known. *)
Ltac net_read H Hnet :=
  rewrite run_bind in H;
  match type of H with
  | context [run (ask_net ?f) (faults ?outs) ?s] =>
      let r := fresh "r" in let outs' := fresh "outs" in let E := fresh "E" in let Hr := fresh "Hr" in
      destruct (run_ask_net f outs s) as (r & outs' & E & Hr); rewrite E in H;
      destruct r as [r|]; [|by injection H as _ <- _; destruct Hnet];
      destruct Hr as [Hr|[? ?]]; [|done]
  end.

(** A line is printed. *)
Ltac net_log H :=
  rewrite run_bind in H;
  match type of H with
  | context [run (log ?l) ?env ?s] =>
      let s1 := fresh "s" in let E := fresh "E" in let Hn := fresh "Hn" in
      destruct (run_log l env s) as (s1 & E & Hn); rewrite E in H
  end.

(** C21: no deployment without every safeguard.  If the script changed the network at
    all, whatever failures it met, then the node serves the configured chain, the
    deployer is not a well-known development account (unless the chain is the
    local one), it has funds for the estimated cost with its headroom, and the
    operator passed --yes (or the chain is local). *)
Theorem deploy_guarded `{DN : DeployNet} env argv artifact_file chain_name explorer outs s r s' rest :
  run (main env argv artifact_file chain_name explorer) (faults outs) s = (r, s', rest) ->
  net s' <> net s ->
  exists key configured rpc data balance gasPrice gas,
    parseDeployerKey (env "PRIVATE_KEY") = inl key /\ getEvmChainId env = inl configured /\
    net_getChainId (net s) = inl rpc /\
    net_getBalance (privateKeyToAccount key) (net s) = inl balance /\
    net_getGasPrice (net s) = inl gasPrice /\
    net_estimateGas (privateKeyToAccount key) data (net s) = inl gas /\
    allowed (mkDeployCheck configured rpc (privateKeyToAccount key) balance
               (gas * gasPrice * 12 ÷ 10)) /\
    (isLocalChain configured = true \/ "--yes" ∈ argv).
Proof.
  intros H Hnet. unfold main in H.
  destruct (trim <$> env "RPC_URL") as [[|u0 u1]|]; try (by injection H as _ <- _; destruct Hnet).
  rewrite run_bind, run_rethrow in H.
  destruct (parseDeployerKey (env "PRIVATE_KEY")) as [key|e] eqn:Ek;
    [|by injection H as _ <- _; destruct Hnet].
  rewrite run_bind, run_rethrow in H.
  destruct (getEvmChainId env) as [configured|e] eqn:Ec; [|by injection H as _ <- _; destruct Hnet].
  rewrite run_bind, run_catch in H.
  destruct (run_ask_net net_getChainId outs s) as (rc & outs1 & E1 & Hrc). rewrite E1 in H.
  destruct rc as [rpc|e]; [|by rewrite run_throw in H; injection H as _ <- _; destruct Hnet].
  destruct Hrc as [Hrc|[? ?]]; [|done].
  rewrite run_bind in H. destruct (run_loadArtifact artifact_file (faults outs1) s) as [x Ex].
  rewrite Ex in H. destruct x as [[abi bytecode]|e]; [|by injection H as _ <- _; destruct Hnet].
  rewrite run_bind, run_rethrow in H. cbn [fst snd] in H.
  destruct (encodeDeployData abi bytecode) as [data|e]; [|by injection H as _ <- _; destruct Hnet].
  do 3 net_read H Hnet. do 6 net_log H. rewrite run_bind, run_rethrow in H.
  match type of H with context [assertDeployAllowed ?i] =>
    destruct (assertDeployAllowed i) as [[]|e] eqn:Ea end;
    [|injection H as _ <- _; destruct Hnet; congruence].
  apply assertDeployAllowed_spec in Ea.
  exists key, configured, rpc, data, r0, r1, r2. split_and!; try done.
  destruct (isLocalChain configured) eqn:El; [by left|]. cbn [negb andb] in H.
  unfold flag in H. case_bool_decide; [by right|]. cbn [negb] in H.
  match type of H with run (log ?l) ?env ?s0 = _ => destruct (run_log l env s0) as (s9 & E9 & Hn9) end.
  rewrite E9 in H. injection H as _ <- _. destruct Hnet. congruence.
Qed.

(** The key is never echoed: a rejected key is answered with one of two fixed
    texts, and an accepted one is 0x and 64 hexadecimal digits. *)
Lemma parseDeployerKey_cases raw :
  match parseDeployerKey raw with
  | inl k => is_private_key k = true
  | inr e => e = DeploySafetyError "PRIVATE_KEY is not set" \/
             e = DeploySafetyError "PRIVATE_KEY is not a 32-byte hex private key"
  end.
Proof.
  unfold parseDeployerKey. destruct (trim <$> raw) as [[|a s]|]; [by left| |by left].
  destruct (is_private_key _) eqn:E; [done|by right].
Qed.

Section Witness.
(** A network that counts its deployments. *)
#[local] Instance toy_net : DeployNet := {|
  Net := nat;
  mnemonicToAccount m i := "0xDEV" +:+ pretty i;
  privateKeyToAccount k := "0xOwner";
  url_origin u := Some "https://node";
  encodeDeployData abi code := inl code;
  net_getChainId n := inl 46630;
  net_getBalance a n := inl 1000;
  net_getGasPrice n := inl 2;
  net_estimateGas a d n := inl 100;
  net_deployContract a abi code n := (inl "0xhash", S n);
  net_waitForTransactionReceipt h n := inl (mkDeployReceipt true (Some "0xc") 7);
  net_getCode a n := inl (Some "0x60");
  net_readContract a f n := inl "0xOWNER";
  net_readDecimals a n := inl 6 |}.

Definition live_env : Env := fun v =>
  if String.eqb v "RPC_URL" then Some "https://node/v2/key"
  else if String.eqb v "EVM_CHAIN_ID" then Some "46630"
  else if String.eqb v "PRIVATE_KEY"
  then Some "1111111111111111111111111111111111111111111111111111111111111111" else None.

Definition contract_json : string :=
  of_utf8 (stringify (JsObj [("abi", JsArr []); ("bytecode", JsStr "0x6001")])).

Definition before : DeployState := mkDeployState _ 0%nat [] None.

Definition deployment : (unit + err) * DeployState * list (envstep DeployState err) :=
  run (main live_env ["--yes"] (Some contract_json) "Testnet" None) (faults []) before.

Lemma deploy_guarded_witness : exists configured rpc balance cost,
  allowed (mkDeployCheck configured rpc "0xOwner" balance cost) /\
  (isLocalChain configured = true \/ "--yes" ∈ ["--yes"]).
Proof.
  destruct (deploy_guarded live_env ["--yes"] (Some contract_json) "Testnet" None [] before
    deployment.1.1 deployment.1.2 deployment.2) as (k & c & rpc & d & b & gp & g & _ & _ & _ & _ & _ & _ & H1 & H2).
  - vm_compute. reflexivity.
  - vm_compute. discriminate.
  - eexists c, rpc, b, _. split; [exact H1|exact H2].
Defined.

(** Without --yes nothing is deployed. *)
Example dry_run :
  net (run (main live_env [] (Some contract_json) "Testnet" None) (faults []) before).1.2 = 0%nat.
Proof. vm_compute. reflexivity. Qed.

(** URLs in a provider's message lose everything behind their origin. *)
Example redaction :
  redactUrlsInText "failed: https://node/v2/secret, retry (https://node/v2/secret)."
  = "failed: https://node, retry (https://node).".
Proof. vm_compute. reflexivity. Qed.
End Witness.
