(* ===== verification/Platform.v ===== *)
(** * The platform: what the code calls and does not contain

    The Prisma client over PostgreSQL, the BullMQ queues over Redis and the
    blockchain nodes are third-party systems.  They enter the model as classes of
    operations, and what the code relies on as named laws
    ([PrismaLaws], [BullMQLaws]).  The file also fixes the world the programs
    act on and the primitive calls through which they reach it. *)

From S2P Require Import Prelude JsString Double Schema.

(** ** Prisma over PostgreSQL *)

Class Prisma := {
  (** [findMany] with its [where], [orderBy], [skip] and [take]. *)
  findMany : forall {R : Type}, (string -> R -> bool) -> (R -> R -> bool) -> nat ->
    option nat -> gmap string R -> list (string * R);
  (** [updateMany] with its [where] and [data]: the number of rows updated. *)
  updateMany : forall {R : Type} `{Table R}, (string -> R -> bool) -> (R -> R) ->
    gmap string R -> (nat + err) * gmap string R;
  (** [findMany] by keyset: [orderBy: { id: 'asc' }], at most [take] rows, behind
      the row whose id is given ([cursor] with [skip: 1]). *)
  findPageById : forall {R : Type}, option string -> nat -> gmap string R -> list (string * R);
  (** The value of a number given for an [Int] argument ([skip], [take]), or its
      rejection by the client's validation. *)
  int_arg : double -> option Z;
  (** The [@default(uuid())] of a new row. *)
  uuid : forall {R : Type}, gmap string R -> string;
  create : forall {R : Type} `{Table R}, R -> gmap string R ->
    ((string * R) + err) * gmap string R;
  (** The [meta] of the error for a record that is not there. *)
  P2025_meta : option string }.

Definition rows {R} (w : string -> R -> bool) (t : gmap string R) : list (string * R) :=
  List.filter (fun kr => w kr.1 kr.2) (map_to_list t).

Definition updated {R} (w : string -> R -> bool) (d : R -> R) (t : gmap string R)
  : gmap string R := map_imap (fun k r => Some (if w k r then d r else r)) t.

Definition page {A} (skip : nat) (take_ : option nat) (l : list A) : list A :=
  match take_ with
  | Some n => take n (drop skip l)
  | None => drop skip l
  end.

(** A unique constraint was violated. *)
Definition is_P2002 (e : err) : bool :=
  match e with PrismaKnownRequestError c _ => String.eqb c "P2002" | _ => false end.

(** A record that an operation depends on was not found. *)
Definition P2025 `{Prisma} : err := PrismaKnownRequestError "P2025" P2025_meta.

(** Documented behaviour: a query returns exactly the matching rows, in the
    requested order, sliced by skip and take; an [Int] argument takes the integers
    of 32 bits and nothing that is not an integer; an update is applied to exactly
    the matching rows, or to none when a constraint would break; a created row
    gets a fresh key, or the unique constraint is reported as P2002. *)
Class PrismaLaws (P : Prisma) : Prop := {
  findMany_all : forall R (w : string -> R -> bool) o t,
    Permutation (findMany w o 0 None t) (rows w t);
  findMany_page : forall R (w : string -> R -> bool) o s n t,
    findMany w o s n t = page s n (findMany w o 0 None t);
  findMany_sorted : forall R (w : string -> R -> bool) (o : R -> R -> bool) t,
    (forall a b, o a b = true \/ o b a = true) ->
    (forall a b c, o a b = true -> o b c = true -> o a c = true) ->
    StronglySorted (fun a b => o a.2 b.2 = true) (findMany w o 0 None t);
  findPageById_spec : forall R (t : gmap string R), exists all,
    Permutation all (map_to_list t) /\
    (forall n, findPageById None n t = take n all) /\
    (forall i k r n, all !! i = Some (k, r) -> findPageById (Some k) n t = take n (drop (S i) all));
  int_arg_int : forall x n, reads x n -> - 2 ^ 31 <= n < 2 ^ 31 -> int_arg x = Some n;
  int_arg_reads : forall x n, int_arg x = Some n -> reads x n;
  updateMany_ok : forall R `{Table R} (w : string -> R -> bool) d t,
    table_ok (updated w d t) ->
    updateMany w d t = (inl (length (rows w t)), updated w d t);
  updateMany_bad : forall R `{Table R} (w : string -> R -> bool) d t,
    ~ table_ok (updated w d t) ->
    exists c m, updateMany w d t = (inr (PrismaKnownRequestError c m), t);
  uuid_fresh : forall R (t : gmap string R), t !! uuid t = None;
  create_ok : forall R `{Table R} (r : R) t,
    table_ok (<[uuid t := r]> t) ->
    create r t = (inl (uuid t, r), <[uuid t := r]> t);
  create_duplicate : forall R `{Table R} (r : R) t,
    table_ok t -> fits r = true -> ~ table_ok (<[uuid t := r]> t) ->
    exists m, create r t = (inr (PrismaKnownRequestError "P2002" m), t);
  create_bad : forall R `{Table R} (r : R) t,
    ~ table_ok (<[uuid t := r]> t) ->
    exists c m, create r t = (inr (PrismaKnownRequestError c m), t) }.

Definition any_order {R} (a b : R) : bool := true.

(** [findUnique]/[findFirst]: the first matching row or null. *)
Definition findFirst `{Prisma} {R} (w : string -> R -> bool) (o : R -> R -> bool)
    (t : gmap string R) : option (string * R) :=
  head (findMany w o 0 (Some 1%nat) t).

Definition findUnique `{Prisma} {R} (w : string -> R -> bool) (t : gmap string R)
  : option (string * R) := findFirst w any_order t.

(** [update]: like [updateMany] on a unique row, but a missing row is P2025. *)
Definition update `{Prisma} {R} `{Table R} (w : string -> R -> bool) (d : R -> R)
    (t : gmap string R) : (unit + err) * gmap string R :=
  match updateMany w d t with
  | (inl O, t') => (inr P2025, t')
  | (inl (S _), t') => (inl tt, t')
  | (inr e, t') => (inr e, t')
  end.

Definition is_id {R} (id : string) : string -> R -> bool := fun k _ => String.eqb k id.

(** ** BullMQ over Redis

    A queue is the set of jobs Redis still knows, whatever their state: a job
    is forgotten when it is removed on completion, and kept when it failed
    ([removeOnFail: false]). *)
Class BullMQ := {
  queue_add : forall {J : Type}, option string -> J -> gmap string J -> gmap string J }.

(** Documented behaviour: a job whose id is already known is not added again;
    a job without an id gets a fresh one. *)
Class BullMQLaws (Q : BullMQ) : Prop := {
  queue_add_known : forall J (j : string) (d x : J) q,
    q !! j = Some x -> queue_add (Some j) d q = q;
  queue_add_new : forall J (j : string) (d : J) q,
    q !! j = None -> queue_add (Some j) d q = <[j := d]> q;
  queue_add_anonymous : forall J (d : J) q,
    exists j, q !! j = None /\ queue_add None d q = <[j := d]> q }.

(** ** Blockchain nodes *)

Record EvmReceipt := mkReceipt {
  rcpt_success : bool; rcpt_blockNumber : Z; rcpt_gasUsed : Z }.

Record BitcoinTransaction := mkBtcTx {
  btc_confirmations : option Z; blockhash : option string }.

Record SolanaStatus := mkSolStatus {
  slot : Z; sol_confirmations : option Z; sol_err : bool;
  confirmationStatus : string }.

Record TransferLog := mkLog {
  log_address : string; log_from : string; log_to : string; log_value : Z;
  log_transactionHash : string; log_logIndex : Z; log_blockNumber : Z }.

Class ChainNodes := {
  Chain : Type;
  evm_getTransactionReceipt : string -> Chain -> EvmReceipt + err;
  evm_transfer : string -> string -> string -> Z -> Chain -> (string + err) * Chain;
  evm_mint : string -> string -> string -> Z -> Chain -> (string + err) * Chain;
  evm_waitForTransactionReceipt : string -> Chain -> (string * EvmReceipt) + err;
  evm_balanceOf : string -> string -> option Z -> Chain -> Z + err;
  evm_getBlockNumber : Chain -> Z + err;
  evm_getLogs : option string -> Z -> Z -> Chain -> list TransferLog + err;
  btc_getrawtransaction : string -> Chain -> BitcoinTransaction + err;
  btc_getblockheader_height : string -> Chain -> Z + err;
  btc_getblockchaininfo_blocks : Chain -> Z + err;
  btc_listunspent_amounts : string -> Chain -> list double + err;
  btc_sendtoaddress : string -> double -> Chain -> (string + err) * Chain;
  sol_getSignatureStatus : string -> Chain -> option SolanaStatus + err;
  sol_computeUnits : string -> Chain -> option Z + err;
  sol_getLatestBlockhash : Chain -> string + err;
  sol_sendTransfer : string -> string -> string -> Z -> Chain -> (string + err) * Chain;
  sol_getBalanceAndContext : string -> option Z -> Chain -> (Z * Z) + err }.

(** ** The world *)

Record ConfirmationJob := mkJob { job_transactionId : string; job_tenantId : string }.

Record OutboxRelayJob := mkRelayJob {
  outboxEventId : string; rj_aggregateId : string; rj_type : string;
  rj_payload : list (string * json) }.

(** ** prom-client *)

(** What was reported to the metrics registry. *)
Inductive sample :=
| Inc (metric : string) (labels : list (string * string)) (by_ : Z)
| Observe (metric : string) (labels : list (string * string))
| SetGauge (metric : string) (labels : list (string * string)) (value : Z).

#[global] Instance sample_eq_dec : EqDecision sample.
Proof. solve_decision. Defined.

(** Whether a metric declared with these label names accepts these labels;
    [inc], [observe] and [set] throw otherwise. *)
Class PromClient := {
  prom_accepts : list string -> list (string * string) -> bool }.

Class PromLaws (M : PromClient) : Prop := {
  prom_accepts_spec : forall names labels,
    prom_accepts names labels = true <-> Forall (fun l => l.1 ∈ names) labels }.

Record World `{ChainNodes} := mkWorld {
  transactions : gmap string Transaction;
  tokens : gmap string Token;
  wallets : gmap string Wallet;
  transfers : gmap string TokenTransfer;
  cursors : gmap string TokenEventCursor;
  snapshots : gmap string BalanceSnapshot;
  outbox : gmap string OutboxEvent;
  leases : gmap string SchedulerLease;
  idempotencyKeys : gmap string IdempotencyKey;
  tenants : gmap string Tenant;
  users : gmap string User;
  refreshTokens : gmap string RefreshToken;
  apiKeys : gmap string ApiKey;
  auditLogs : gmap string AuditLog;
  confirmationQueue : gmap string ConfirmationJob;
  relayQueue : gmap string OutboxRelayJob;
  clock : Z;
  chain : Chain;
  metrics : list sample;
  (** Module variables of [src/workers/event.listener.ts]. *)
  processingTokens : gset string;
  learnedMaxBlockRange : option Z }.

(** A component of the world that can be read and replaced. *)
Record lens W T := mkLens { view : W -> T; put : T -> W -> W }.
Arguments view {W T}.
Arguments put {W T}.
Arguments mkLens {W T}.

Section Lenses.
Context `{C : ChainNodes}.

Definition Transactions : lens World (gmap string Transaction) :=
  mkLens transactions (fun x w => mkWorld _
    x w.(tokens) w.(wallets) w.(transfers) w.(cursors) w.(snapshots) w.(outbox)
    w.(leases) w.(idempotencyKeys) w.(tenants) w.(users) w.(refreshTokens) w.(apiKeys)
    w.(auditLogs) w.(confirmationQueue) w.(relayQueue) w.(clock) w.(chain) w.(metrics)
    w.(processingTokens) w.(learnedMaxBlockRange)).
Definition Tokens : lens World (gmap string Token) :=
  mkLens tokens (fun x w => mkWorld _
    w.(transactions) x w.(wallets) w.(transfers) w.(cursors) w.(snapshots) w.(outbox)
    w.(leases) w.(idempotencyKeys) w.(tenants) w.(users) w.(refreshTokens) w.(apiKeys)
    w.(auditLogs) w.(confirmationQueue) w.(relayQueue) w.(clock) w.(chain) w.(metrics)
    w.(processingTokens) w.(learnedMaxBlockRange)).
Definition Wallets : lens World (gmap string Wallet) :=
  mkLens wallets (fun x w => mkWorld _
    w.(transactions) w.(tokens) x w.(transfers) w.(cursors) w.(snapshots) w.(outbox)
    w.(leases) w.(idempotencyKeys) w.(tenants) w.(users) w.(refreshTokens) w.(apiKeys)
    w.(auditLogs) w.(confirmationQueue) w.(relayQueue) w.(clock) w.(chain) w.(metrics)
    w.(processingTokens) w.(learnedMaxBlockRange)).
Definition Transfers : lens World (gmap string TokenTransfer) :=
  mkLens transfers (fun x w => mkWorld _
    w.(transactions) w.(tokens) w.(wallets) x w.(cursors) w.(snapshots) w.(outbox)
    w.(leases) w.(idempotencyKeys) w.(tenants) w.(users) w.(refreshTokens) w.(apiKeys)
    w.(auditLogs) w.(confirmationQueue) w.(relayQueue) w.(clock) w.(chain) w.(metrics)
    w.(processingTokens) w.(learnedMaxBlockRange)).
Definition Cursors : lens World (gmap string TokenEventCursor) :=
  mkLens cursors (fun x w => mkWorld _
    w.(transactions) w.(tokens) w.(wallets) w.(transfers) x w.(snapshots) w.(outbox)
    w.(leases) w.(idempotencyKeys) w.(tenants) w.(users) w.(refreshTokens) w.(apiKeys)
    w.(auditLogs) w.(confirmationQueue) w.(relayQueue) w.(clock) w.(chain) w.(metrics)
    w.(processingTokens) w.(learnedMaxBlockRange)).
Definition Snapshots : lens World (gmap string BalanceSnapshot) :=
  mkLens snapshots (fun x w => mkWorld _
    w.(transactions) w.(tokens) w.(wallets) w.(transfers) w.(cursors) x w.(outbox)
    w.(leases) w.(idempotencyKeys) w.(tenants) w.(users) w.(refreshTokens) w.(apiKeys)
    w.(auditLogs) w.(confirmationQueue) w.(relayQueue) w.(clock) w.(chain) w.(metrics)
    w.(processingTokens) w.(learnedMaxBlockRange)).
Definition Outbox : lens World (gmap string OutboxEvent) :=
  mkLens outbox (fun x w => mkWorld _
    w.(transactions) w.(tokens) w.(wallets) w.(transfers) w.(cursors) w.(snapshots) x
    w.(leases) w.(idempotencyKeys) w.(tenants) w.(users) w.(refreshTokens) w.(apiKeys)
    w.(auditLogs) w.(confirmationQueue) w.(relayQueue) w.(clock) w.(chain) w.(metrics)
    w.(processingTokens) w.(learnedMaxBlockRange)).
Definition Leases : lens World (gmap string SchedulerLease) :=
  mkLens leases (fun x w => mkWorld _
    w.(transactions) w.(tokens) w.(wallets) w.(transfers) w.(cursors) w.(snapshots)
    w.(outbox) x w.(idempotencyKeys) w.(tenants) w.(users) w.(refreshTokens)
    w.(apiKeys) w.(auditLogs) w.(confirmationQueue) w.(relayQueue) w.(clock) w.(chain)
    w.(metrics) w.(processingTokens) w.(learnedMaxBlockRange)).
Definition IdempotencyKeys : lens World (gmap string IdempotencyKey) :=
  mkLens idempotencyKeys (fun x w => mkWorld _
    w.(transactions) w.(tokens) w.(wallets) w.(transfers) w.(cursors) w.(snapshots)
    w.(outbox) w.(leases) x w.(tenants) w.(users) w.(refreshTokens) w.(apiKeys)
    w.(auditLogs) w.(confirmationQueue) w.(relayQueue) w.(clock) w.(chain) w.(metrics)
    w.(processingTokens) w.(learnedMaxBlockRange)).
Definition Tenants : lens World (gmap string Tenant) :=
  mkLens tenants (fun x w => mkWorld _
    w.(transactions) w.(tokens) w.(wallets) w.(transfers) w.(cursors) w.(snapshots)
    w.(outbox) w.(leases) w.(idempotencyKeys) x w.(users) w.(refreshTokens)
    w.(apiKeys) w.(auditLogs) w.(confirmationQueue) w.(relayQueue) w.(clock) w.(chain)
    w.(metrics) w.(processingTokens) w.(learnedMaxBlockRange)).
Definition Users : lens World (gmap string User) :=
  mkLens users (fun x w => mkWorld _
    w.(transactions) w.(tokens) w.(wallets) w.(transfers) w.(cursors) w.(snapshots)
    w.(outbox) w.(leases) w.(idempotencyKeys) w.(tenants) x w.(refreshTokens)
    w.(apiKeys) w.(auditLogs) w.(confirmationQueue) w.(relayQueue) w.(clock) w.(chain)
    w.(metrics) w.(processingTokens) w.(learnedMaxBlockRange)).
Definition RefreshTokens : lens World (gmap string RefreshToken) :=
  mkLens refreshTokens (fun x w => mkWorld _
    w.(transactions) w.(tokens) w.(wallets) w.(transfers) w.(cursors) w.(snapshots)
    w.(outbox) w.(leases) w.(idempotencyKeys) w.(tenants) w.(users) x w.(apiKeys)
    w.(auditLogs) w.(confirmationQueue) w.(relayQueue) w.(clock) w.(chain) w.(metrics)
    w.(processingTokens) w.(learnedMaxBlockRange)).
Definition ApiKeys : lens World (gmap string ApiKey) :=
  mkLens apiKeys (fun x w => mkWorld _
    w.(transactions) w.(tokens) w.(wallets) w.(transfers) w.(cursors) w.(snapshots)
    w.(outbox) w.(leases) w.(idempotencyKeys) w.(tenants) w.(users) w.(refreshTokens)
    x w.(auditLogs) w.(confirmationQueue) w.(relayQueue) w.(clock) w.(chain)
    w.(metrics) w.(processingTokens) w.(learnedMaxBlockRange)).
Definition AuditLogs : lens World (gmap string AuditLog) :=
  mkLens auditLogs (fun x w => mkWorld _
    w.(transactions) w.(tokens) w.(wallets) w.(transfers) w.(cursors) w.(snapshots)
    w.(outbox) w.(leases) w.(idempotencyKeys) w.(tenants) w.(users) w.(refreshTokens)
    w.(apiKeys) x w.(confirmationQueue) w.(relayQueue) w.(clock) w.(chain) w.(metrics)
    w.(processingTokens) w.(learnedMaxBlockRange)).
Definition ConfirmationQueue : lens World (gmap string ConfirmationJob) :=
  mkLens confirmationQueue (fun x w => mkWorld _
    w.(transactions) w.(tokens) w.(wallets) w.(transfers) w.(cursors) w.(snapshots)
    w.(outbox) w.(leases) w.(idempotencyKeys) w.(tenants) w.(users) w.(refreshTokens)
    w.(apiKeys) w.(auditLogs) x w.(relayQueue) w.(clock) w.(chain) w.(metrics)
    w.(processingTokens) w.(learnedMaxBlockRange)).
Definition RelayQueue : lens World (gmap string OutboxRelayJob) :=
  mkLens relayQueue (fun x w => mkWorld _
    w.(transactions) w.(tokens) w.(wallets) w.(transfers) w.(cursors) w.(snapshots)
    w.(outbox) w.(leases) w.(idempotencyKeys) w.(tenants) w.(users) w.(refreshTokens)
    w.(apiKeys) w.(auditLogs) w.(confirmationQueue) x w.(clock) w.(chain) w.(metrics)
    w.(processingTokens) w.(learnedMaxBlockRange)).
Definition Clock : lens World Z :=
  mkLens clock (fun x w => mkWorld _
    w.(transactions) w.(tokens) w.(wallets) w.(transfers) w.(cursors) w.(snapshots)
    w.(outbox) w.(leases) w.(idempotencyKeys) w.(tenants) w.(users) w.(refreshTokens)
    w.(apiKeys) w.(auditLogs) w.(confirmationQueue) w.(relayQueue) x w.(chain)
    w.(metrics) w.(processingTokens) w.(learnedMaxBlockRange)).
Definition Node : lens World Chain :=
  mkLens chain (fun x w => mkWorld _
    w.(transactions) w.(tokens) w.(wallets) w.(transfers) w.(cursors) w.(snapshots)
    w.(outbox) w.(leases) w.(idempotencyKeys) w.(tenants) w.(users) w.(refreshTokens)
    w.(apiKeys) w.(auditLogs) w.(confirmationQueue) w.(relayQueue) w.(clock) x
    w.(metrics) w.(processingTokens) w.(learnedMaxBlockRange)).
Definition Metrics : lens World (list sample) :=
  mkLens metrics (fun x w => mkWorld _
    w.(transactions) w.(tokens) w.(wallets) w.(transfers) w.(cursors) w.(snapshots)
    w.(outbox) w.(leases) w.(idempotencyKeys) w.(tenants) w.(users) w.(refreshTokens)
    w.(apiKeys) w.(auditLogs) w.(confirmationQueue) w.(relayQueue) w.(clock) w.(chain)
    x w.(processingTokens) w.(learnedMaxBlockRange)).
Definition ProcessingTokens : lens World (gset string) :=
  mkLens processingTokens (fun x w => mkWorld _
    w.(transactions) w.(tokens) w.(wallets) w.(transfers) w.(cursors) w.(snapshots)
    w.(outbox) w.(leases) w.(idempotencyKeys) w.(tenants) w.(users) w.(refreshTokens)
    w.(apiKeys) w.(auditLogs) w.(confirmationQueue) w.(relayQueue) w.(clock) w.(chain)
    w.(metrics) x w.(learnedMaxBlockRange)).
Definition LearnedMaxBlockRange : lens World (option Z) :=
  mkLens learnedMaxBlockRange (fun x w => mkWorld _
    w.(transactions) w.(tokens) w.(wallets) w.(transfers) w.(cursors) w.(snapshots)
    w.(outbox) w.(leases) w.(idempotencyKeys) w.(tenants) w.(users) w.(refreshTokens)
    w.(apiKeys) w.(auditLogs) w.(confirmationQueue) w.(relayQueue) w.(clock) w.(chain)
    w.(metrics) w.(processingTokens) x).
End Lenses.

Abbreviation prog' := (prog World err).

(** ** Primitive calls *)
Section Calls.
Context `{C : ChainNodes}.

(** A remote call that reads and replaces one component. *)
Definition on {T R} (l : lens World T) (f : T -> (R + err) * T) (w : World) : (R + err) * World :=
  let rt := f (view l w) in (rt.1, put l rt.2 w).

Definition call {T R} (l : lens World T) (f : T -> (R + err) * T) : prog' R := act (on l f).

(** A remote read. *)
Definition query {T R} (l : lens World T) (f : T -> R) : prog' R :=
  act (fun w => (inl (f (view l w)), w)).

(** A remote read that may fail by itself (a node's answer). *)
Definition ask {T R} (l : lens World T) (f : T -> R + err) : prog' R :=
  act (fun w => (f (view l w), w)).

(** [Date.now()] *)
Definition now : prog' Z := gets clock.

(** [await sleep(ms)]: the timer fires [ms] milliseconds later. *)
Definition sleep (ms : Z) : prog' unit := modify (fun w => put Clock (clock w + ms) w).
End Calls.

(** Everything the modelled code calls, and the laws it relies on. *)
Class Platform := {
  platform_prisma :: Prisma;
  platform_bullmq :: BullMQ;
  platform_nodes :: ChainNodes;
  platform_prom :: PromClient }.

Class PlatformLaws (P : Platform) : Prop := {
  platform_prisma_laws :: PrismaLaws platform_prisma;
  platform_bullmq_laws :: BullMQLaws platform_bullmq;
  platform_prom_laws :: PromLaws platform_prom }.

(** A required relation without its row: Prisma refuses to build the result. *)
Definition inconsistent_query : err :=
  PlainError "Inconsistent query result: a required relation is missing".

(** [findMany({ where, orderBy, skip, take, include })] with numbers the program
    computed: both must be accepted as [Int]; a negative [skip] is rejected, and a
    negative [take] reads from the end.  [join] adds the included relations of a row. *)
Definition findSlice `{P : Platform} {R X} (l : lens World (gmap string R))
    (join : World -> string * R -> option X)
    (w : string -> R -> bool) (o : R -> R -> bool) (skip take_ : double) : prog' (list X) :=
  match int_arg skip, int_arg take_ with
  | Some s, Some n =>
      if s <? 0 then Throw (PlainError "Invalid value for skip argument")
      else
        act (fun x =>
          let t := view l x in
          let rows_ :=
            if 0 <=? n then findMany w o (Z.to_nat s) (Some (Z.to_nat n)) t
            else rev (page (Z.to_nat s) (Some (Z.to_nat (- n))) (rev (findMany w o 0 None t))) in
          match mapM (join x) rows_ with
          | Some r => (inl r, x)
          | None => (inr inconsistent_query, x)
          end)
  | _, _ => Throw (PlainError "Argument is not an Int")
  end.

(** No relation is included. *)
Definition row_only `{ChainNodes} {R} (_ : World) (kr : string * R) : option (string * R) := Some kr.

(** ** Consequences of the laws *)

(** The rows with a given key that satisfy a further condition. *)
Definition at_id {R} (id : string) (c : R -> bool) : string -> R -> bool :=
  fun k r => String.eqb k id && c r.

Lemma lookup_updated {R} w d (t : gmap string R) k :
  updated w d t !! k = (fun r => if w k r then d r else r) <$> t !! k.
Proof. unfold updated. rewrite map_lookup_imap. by destruct (t !! k). Qed.

Lemma elem_of_rows {R} w (t : gmap string R) k r :
  (k, r) ∈ rows w t <-> t !! k = Some r /\ w k r = true.
Proof.
  unfold rows. rewrite list_elem_of_In, filter_In, <- list_elem_of_In.
  rewrite elem_of_map_to_list. done.
Qed.

Lemma NoDup_rows {R} w (t : gmap string R) : NoDup (rows w t).*1.
Proof.
  unfold rows. pose proof (NoDup_fst_map_to_list t) as H.
  induction (map_to_list t) as [|[k r] l IH]; simpl in *; [constructor|].
  apply NoDup_cons in H as [Hk H]. destruct (w k r); simpl; [|by apply IH].
  apply NoDup_cons. split; [|by apply IH].
  intros Hin. apply Hk. apply list_elem_of_fmap in Hin as ([k' r'] & -> & Hin).
  apply list_elem_of_In, filter_In in Hin as [Hin _].
  apply list_elem_of_fmap. exists (k', r'). split; [done|]. by apply list_elem_of_In.
Qed.

Lemma rows_at_id {R} id c (t : gmap string R) :
  rows (at_id id c) t =
  match t !! id with
  | Some r => if c r then [(id, r)] else []
  | None => []
  end.
Proof.
  assert (Hin : forall k r, (k, r) ∈ rows (at_id id c) t <-> k = id /\ t !! id = Some r /\ c r = true).
  { intros k r. rewrite elem_of_rows. unfold at_id. rewrite andb_true_iff, String.eqb_eq.
    naive_solver. }
  pose proof (NoDup_rows (at_id id c) t) as Hnd.
  destruct (rows (at_id id c) t) as [|[k r] [|[k' r'] l]] eqn:E.
  - destruct (t !! id) as [r|] eqn:Hr; [|done]. destruct (c r) eqn:Hc; [|done].
    exfalso. apply (not_elem_of_nil (id, r)), Hin. done.
  - assert (H : k = id /\ t !! id = Some r /\ c r = true) by (apply Hin; left).
    destruct H as (-> & -> & ->). done.
  - exfalso. assert (H1 : k = id) by (apply (Hin k r); left).
    assert (H2 : k' = id) by (apply (Hin k' r'); right; left).
    subst. apply NoDup_cons in Hnd as [Hnd _]. apply Hnd. left.
Qed.

Section PrismaFacts.
Context `{P : Prisma} `{!PrismaLaws P}.

Lemma elem_of_findMany {R} (w : string -> R -> bool) o s n t k r :
  (k, r) ∈ findMany w o s n t -> t !! k = Some r /\ w k r = true.
Proof.
  rewrite findMany_page. intros H. apply elem_of_rows. rewrite <- (findMany_all _ w o t).
  destruct n as [n|]; simpl in H.
  - apply (elem_of_submseteq _ _ _ H). etransitivity.
    + apply sublist_submseteq, sublist_take.
    + apply sublist_submseteq, sublist_drop.
  - apply (elem_of_submseteq _ _ _ H), sublist_submseteq, sublist_drop.
Qed.

Lemma findFirst_Some {R} (w : string -> R -> bool) o t k r :
  findFirst w o t = Some (k, r) -> t !! k = Some r /\ w k r = true.
Proof.
  unfold findFirst. intros H. apply (elem_of_findMany w o 0 (Some 1%nat)).
  by apply head_Some_elem_of.
Qed.

Lemma findFirst_None {R} (w : string -> R -> bool) o t :
  findFirst w o t = None <-> forall k r, t !! k = Some r -> w k r = false.
Proof.
  unfold findFirst. rewrite findMany_page. simpl. rewrite drop_0.
  pose proof (findMany_all _ w o t) as Hp. split.
  - intros H k r Hr. destruct (w k r) eqn:Hw; [|done].
    destruct (findMany w o 0 None t) as [|x l]; [|done].
    exfalso. apply (not_elem_of_nil (k, r)). rewrite Hp. by apply elem_of_rows.
  - intros H. destruct (findMany w o 0 None t) as [|[k r] l]; [done|]. exfalso.
    assert (Hin : (k, r) ∈ rows w t) by (rewrite <- Hp; left).
    apply elem_of_rows in Hin as [Hr Hw]. by rewrite (H _ _ Hr) in Hw.
Qed.

Lemma findUnique_at_id {R} id c (t : gmap string R) :
  findUnique (at_id id c) t =
  match t !! id with
  | Some r => if c r then Some (id, r) else None
  | None => None
  end.
Proof.
  unfold findUnique, findFirst. rewrite findMany_page. simpl. rewrite drop_0.
  pose proof (findMany_all _ (at_id id c) any_order t) as Hp. rewrite rows_at_id in Hp.
  destruct (t !! id) as [r|]; [destruct (c r)|].
  - apply Permutation_singleton_r in Hp. by rewrite Hp.
  - apply Permutation_nil_r in Hp. by rewrite Hp.
  - apply Permutation_nil_r in Hp. by rewrite Hp.
Qed.

(** An update is either applied as a whole or rejected as a whole. *)
Lemma updateMany_cases {R} `{Table R} (w : string -> R -> bool) d t :
  (table_ok (updated w d t) /\
     updateMany w d t = (inl (length (rows w t)), updated w d t)) \/
  (~ table_ok (updated w d t) /\
     exists cm, updateMany w d t = (inr (PrismaKnownRequestError cm.1 cm.2), t)).
Proof.
  destruct (decide (table_ok (updated w d t))) as [Hok|Hbad].
  - left. split; [done|]. by apply updateMany_ok.
  - right. split; [done|]. destruct (updateMany_bad _ w d t Hbad) as (c & m & E). by exists (c, m).
Qed.

Lemma create_cases {R} `{Table R} (r : R) t :
  (table_ok (<[uuid t := r]> t) /\ create r t = (inl (uuid t, r), <[uuid t := r]> t)) \/
  (exists cm, create r t = (inr (PrismaKnownRequestError cm.1 cm.2), t)).
Proof.
  destruct (decide (table_ok (<[uuid t := r]> t))) as [Hok|Hbad].
  - left. split; [done|]. by apply create_ok.
  - right. destruct (create_bad _ r t Hbad) as (c & m & E). by exists (c, m).
Qed.
End PrismaFacts.

(** Writing back what is already there changes nothing. *)
Lemma updated_none {R} w d (t : gmap string R) : rows w t = [] -> updated w d t = t.
Proof.
  intros H. apply map_eq. intros k. rewrite lookup_updated.
  destruct (t !! k) as [r|] eqn:Hr; [|done]. simpl.
  destruct (w k r) eqn:Hw; [|done]. exfalso.
  apply (not_elem_of_nil (k, r)). rewrite <- H. by apply elem_of_rows.
Qed.

(** *** Slices *)

Lemma elem_of_page {A} s n (l : list A) x : x ∈ page s n l -> x ∈ l.
Proof.
  destruct n; cbn; intros H; [apply elem_of_take in H as (i & H & _)|apply list_elem_of_lookup in H as [i H]];
    rewrite lookup_drop in H; by apply list_elem_of_lookup_2 in H.
Qed.

Section Slices.
Context `{P : Platform} `{!PlatformLaws P} {R X : Type} (l : lens World (gmap string R)).
Context (join : World -> string * R -> option X) (w : string -> R -> bool) (o : R -> R -> bool).

(** Whatever is asked for, only matching rows are returned and nothing changes. *)
Lemma findSlice_inv skip take_ x r x' :
  exec (findSlice l join w o skip take_) x = (inl r, x') ->
  x' = x /\ exists rows_, mapM (join x) rows_ = Some r /\ Forall (fun kr => w kr.1 kr.2 = true) rows_.
Proof.
  unfold findSlice. destruct (int_arg skip) as [s|], (int_arg take_) as [n|]; try done.
  destruct (_ <? 0); [done|]. rewrite exec_act. cbv zeta.
  destruct (mapM _ _) as [r'|] eqn:E; [|done]. intros [= <- <-]. split; [done|]. eexists. split; [exact E|].
  clear E. apply Forall_forall. intros [k a] Hin. destruct (0 <=? n).
  - by apply elem_of_findMany in Hin as [_ Hin].
  - rewrite list_elem_of_In, <- in_rev, <- list_elem_of_In in Hin.
    apply (elem_of_page _ (Some _)) in Hin. rewrite list_elem_of_In, <- in_rev, <- list_elem_of_In in Hin.
    by apply elem_of_findMany in Hin as [_ Hin].
Qed.

(** Page [p] of [n] rows, counted from 1. *)
Lemma findSlice_page page_ limit p n x :
  reads page_ p -> reads limit n -> 1 <= p -> 1 <= n < 2 ^ 31 -> (p - 1) * n < 2 ^ 31 ->
  exec (findSlice l join w o (mul (sub page_ (of_Z 1)) limit) limit) x =
  match mapM (join x) (take (Z.to_nat n) (drop (Z.to_nat ((p - 1) * n)) (findMany w o 0 None (view l x)))) with
  | Some r => (inl r, x)
  | None => (inr inconsistent_query, x)
  end.
Proof.
  intros Hp Hn H1 H0 Hskip. assert (p - 1 < 2 ^ 31) by nia.
  rewrite (sub_reads page_ (of_Z 1) p 1) by (done || by apply of_Z_reads).
  rewrite (mul_reads (of_Z (p - 1)) limit (p - 1) n) by (done || (apply of_Z_reads; lia)).
  unfold findSlice.
  rewrite (int_arg_int (of_Z ((p - 1) * n)) ((p - 1) * n)) by (try (apply of_Z_reads); nia).
  rewrite (int_arg_int limit n) by (done || lia).
  destruct (Z.ltb_spec ((p - 1) * n) 0); [nia|]. destruct (Z.leb_spec 0 n); [|lia].
  rewrite exec_act. cbv zeta. rewrite findMany_page. cbn [page]. by destruct (mapM _ _).
Qed.

(** What is not an integer is rejected. *)
Lemma findSlice_rejects skip take_ x :
  int_arg skip = None \/ int_arg take_ = None ->
  exec (findSlice l join w o skip take_) x = (inr (PlainError "Argument is not an Int"), x).
Proof.
  unfold findSlice. intros H. destruct (int_arg skip), (int_arg take_); naive_solver.
Qed.
End Slices.

Lemma mapM_row_only `{ChainNodes} {R} x (l : list (string * R)) : mapM (row_only x) l = Some l.
Proof. induction l as [|kr l IH]; [done|]. cbn. by rewrite IH. Qed.

(** *** Calls under faults *)
Section CallFacts.
Context `{C : ChainNodes}.

Lemma exec_query {T R} (l : lens World T) (f : T -> R) w :
  exec (query l f) w = (inl (f (view l w)), w).
Proof. unfold query. by rewrite exec_act. Qed.

Lemma exec_ask {T R} (l : lens World T) (f : T -> R + err) w :
  exec (ask l f) w = (f (view l w), w).
Proof. unfold ask. by rewrite exec_act. Qed.

Lemma exec_call {T R} (l : lens World T) (f : T -> (R + err) * T) w :
  exec (call l f) w = on l f w.
Proof. unfold call. by rewrite exec_act. Qed.

Lemma exec_now w : exec now w = (inl (clock w), w).
Proof. done. Qed.

Lemma run_query {T R} (l : lens World T) (f : T -> R) outs w :
  exists r outs', run (query l f) (faults outs) w = (r, w, faults outs') /\
    (r = inl (f (view l w)) \/ exists e, r = inr e).
Proof.
  destruct (run_act_faults (fun w => (inl (f (view l w)), w)) outs w) as (o & outs' & E).
  unfold query. rewrite E. destruct o; simpl; eauto 6.
Qed.

Lemma run_call {T R} (l : lens World T) (f : T -> (R + err) * T) outs w :
  exists r w' outs', run (call l f) (faults outs) w = (r, w', faults outs') /\
    ((w' = w /\ exists e, r = inr e) \/
     (w' = (on l f w).2 /\ (r = (on l f w).1 \/ exists e, r = inr e))).
Proof.
  destruct (run_act_faults (on l f) outs w) as (o & outs' & E).
  unfold call. rewrite E. destruct o; simpl; do 3 eexists; eauto 7.
Qed.
End CallFacts.

#[export] Hint Rewrite @exec_query @exec_ask @exec_call @exec_now : exec.
