(* ===== verification/Reference.v ===== *)
(** * A reference platform

    Concrete, executable instances of the platform interfaces: tables queried by
    sorting their rows, queues keyed by job id, and a scripted blockchain node.
    They discharge the laws of [Platform], so the hypotheses of the theorems are
    satisfiable, and they let concrete scenarios be evaluated. *)

From S2P Require Import Prelude JsString Double Schema Platform.
From Stdlib Require Import Ascii.

Definition row_le {R} (o : R -> R -> bool) (a b : string * R) : Prop := o a.2 b.2 = true.

#[local] Instance row_le_dec {R} (o : R -> R -> bool) a b : Decision (row_le o a b).
Proof. unfold row_le. apply _. Defined.

Definition ref_select {R} (w : string -> R -> bool) (o : R -> R -> bool) (t : gmap string R)
  : list (string * R) := merge_sort (row_le o) (rows w t).

Fixpoint repeat_char (n : nat) : string :=
  match n with O => EmptyString | S n' => String "x"%char (repeat_char n') end.

Definition longest {R} (t : gmap string R) : nat :=
  list_max (List.map (fun kr : string * R => String.length kr.1) (map_to_list t)).

Definition ref_uuid {R} (t : gmap string R) : string := repeat_char (S (longest t)).

(** The rows behind a given key, in the order of the map. *)
Fixpoint behind {R} (k : string) (l : list (string * R)) : list (string * R) :=
  match l with
  | [] => []
  | (k', _) :: l' => if String.eqb k k' then l' else behind k l'
  end.

Definition ref_page {R} (after : option string) (n : nat) (t : gmap string R)
  : list (string * R) :=
  take n (match after with None => map_to_list t | Some k => behind k (map_to_list t) end).

Lemma behind_drop {R} (l : list (string * R)) i k r :
  NoDup l.*1 -> l !! i = Some (k, r) -> behind k l = drop (S i) l.
Proof.
  revert i. induction l as [|[k' r'] l IH]; intros i Hnd Hi; [done|].
  cbn in Hnd. apply NoDup_cons in Hnd as [Hk Hnd]. destruct i as [|i]; cbn in Hi |- *.
  - simplify_eq. by rewrite String.eqb_refl, drop_0.
  - destruct (String.eqb_spec k k') as [<-|]; [|by apply (IH i)].
    destruct Hk. apply list_elem_of_fmap. exists (k, r). split; [done|].
    by eapply list_elem_of_lookup_2.
Qed.

(** Exactly the integers of 32 bits. *)
Definition ref_int (x : double) : option Z :=
  match x with
  | Finite m e =>
      if (vnum m e mod vden e =? 0) && int4 (vnum m e / vden e) then Some (vnum m e / vden e) else None
  | _ => None
  end.

#[local] Instance ref_prisma : Prisma := {|
  findMany R w o s n t := page s n (ref_select w o t);
  updateMany R _ w d t :=
    if decide (table_ok (updated w d t)) then (inl (length (rows w t)), updated w d t)
    else (inr (PrismaKnownRequestError "P2002" None), t);
  findPageById R after n t := ref_page after n t;
  int_arg x := ref_int x;
  uuid R t := ref_uuid t;
  create R _ r t :=
    if decide (table_ok (<[ref_uuid t := r]> t))
    then (inl (ref_uuid t, r), <[ref_uuid t := r]> t)
    else (inr (PrismaKnownRequestError "P2002" None), t);
  P2025_meta := None |}.

Lemma length_repeat_char n : String.length (repeat_char n) = n.
Proof. induction n; simpl; congruence. Qed.

Lemma ref_uuid_fresh {R} (t : gmap string R) : t !! ref_uuid t = None.
Proof.
  destruct (t !! ref_uuid t) as [r|] eqn:E; [|done]. exfalso.
  apply elem_of_map_to_list in E. apply list_elem_of_In in E.
  assert (H : (String.length (ref_uuid t) <= longest t)%nat).
  { unfold longest. pose proof (proj1 (list_max_le _ _) (Nat.le_refl (longest t))) as Hall.
    rewrite List.Forall_forall in Hall. apply Hall.
    apply (List.in_map (fun kr : string * R => String.length kr.1)) in E. exact E. }
  unfold ref_uuid in H. rewrite length_repeat_char in H. lia.
Qed.

#[local] Instance ref_prisma_laws : PrismaLaws ref_prisma.
Proof.
  split; simpl.
  - intros R w o t. rewrite drop_0. apply merge_sort_Permutation.
  - intros R w o s n t. by rewrite drop_0.
  - intros R w o t Htot Htr. rewrite drop_0.
    assert (Total (row_le o)) by (intros a b; apply Htot).
    assert (Transitive (row_le o)) by (intros a b c; apply Htr).
    apply (StronglySorted_merge_sort (row_le o)).
  - intros R t. exists (map_to_list t). split_and!; [done|done|].
    intros i k r n Hi. cbn. unfold ref_page.
    by rewrite (behind_drop _ i k r (NoDup_fst_map_to_list t) Hi).
  - intros x n (m & e & -> & H) Hn. cbn. pose proof (vden_pos e). rewrite H, Z.mod_mul, Z.div_mul by lia.
    cbn [Z.eqb andb]. unfold int4. by destruct (Z.leb_spec (- 2 ^ 31) n), (Z.ltb_spec n (2 ^ 31)); try lia.
  - intros [m e|b|] n; cbn; [|done..]. destruct (Z.eqb_spec (vnum m e mod vden e) 0) as [E|]; [|done].
    cbn [andb]. destruct (int4 _); [|done]. intros [= <-]. exists m, e. split; [done|].
    pose proof (Z.div_mod (vnum m e) (vden e)). pose proof (vden_pos e). lia.
  - intros R T w d t H. by rewrite decide_True.
  - intros R T w d t H. rewrite decide_False by done. by do 2 eexists.
  - intros R t. apply ref_uuid_fresh.
  - intros R T r t H. by rewrite decide_True.
  - intros R T r t _ _ H. rewrite decide_False by done. by eexists.
  - intros R T r t H. rewrite decide_False by done. by do 2 eexists.
Qed.

#[local] Instance ref_bullmq : BullMQ := {|
  queue_add J id d q :=
    match id with
    | Some j => match q !! j with Some _ => q | None => <[j := d]> q end
    | None => <[ref_uuid q := d]> q
    end |}.

#[local] Instance ref_bullmq_laws : BullMQLaws ref_bullmq.
Proof.
  split; simpl.
  - intros J j d x q H. by rewrite H.
  - intros J j d q H. by rewrite H.
  - intros J d q. exists (ref_uuid q). split; [apply ref_uuid_fresh|done].
Qed.

(** A node that answers from a script; [next_hash] is what the next broadcast
    returns, and [None] makes it fail. *)
Record Script := mkScript {
  receipts : gmap string EvmReceipt;
  btc_txs : gmap string BitcoinTransaction;
  btc_heights : gmap string Z;
  sol_statuses : gmap string SolanaStatus;
  head_block : Z;
  logs : list TransferLog;
  balances : gmap string Z;
  unspent : gmap string (list double);
  next_hash : option string;
  sent : list (string * (Z + double)) }.

Definition not_found : err :=
  PlainError "Transaction receipt with hash could not be found".

Definition node_down : err := PlainError "fetch failed".

Definition answer {A} (o : option A) (e : err) : A + err :=
  match o with Some a => inl a | None => inr e end.

Definition broadcast (to_ : string) (a : Z + double) (c : Script) : (string + err) * Script :=
  match next_hash c with
  | Some h =>
      (inl h, mkScript (receipts c) (btc_txs c) (btc_heights c) (sol_statuses c)
                (head_block c) (logs c) (balances c) (unspent c) (next_hash c) ((to_, a) :: sent c))
  | None => (inr node_down, c)
  end.

#[local] Instance ref_nodes : ChainNodes := {|
  Chain := Script;
  evm_getTransactionReceipt h c := answer (receipts c !! h) not_found;
  evm_transfer key_ tok to_ a c := broadcast to_ (inl a) c;
  evm_mint key_ tok to_ a c := broadcast to_ (inl a) c;
  evm_waitForTransactionReceipt h c :=
    match receipts c !! h with Some r => inl (h, r) | None => inr not_found end;
  evm_balanceOf tok a b c := answer (balances c !! a) node_down;
  evm_getBlockNumber c := inl (head_block c);
  evm_getLogs a f t c :=
    inl (List.filter (fun l => (f <=? log_blockNumber l) && (log_blockNumber l <=? t)) (logs c));
  btc_getrawtransaction h c :=
    answer (btc_txs c !! h) (PlainError "Bitcoin RPC -5: No such mempool or blockchain transaction");
  btc_getblockheader_height h c := answer (btc_heights c !! h) node_down;
  btc_getblockchaininfo_blocks c := inl (head_block c);
  btc_listunspent_amounts a c :=
    inl (default [] (unspent c !! a));
  btc_sendtoaddress to_ a c := broadcast to_ (inr a) c;
  sol_getSignatureStatus h c := inl (sol_statuses c !! h);
  sol_computeUnits h c := inl None;
  sol_getLatestBlockhash c := inl "blockhash";
  sol_sendTransfer key_ blockhash_ to_ a c := broadcast to_ (inl a) c;
  sol_getBalanceAndContext a b c := inl (default 0 (balances c !! a), head_block c) |}.

#[local] Instance ref_prom : PromClient := {|
  prom_accepts names labels := forallb (fun l => bool_decide (l.1 ∈ names)) labels |}.

#[local] Instance ref_prom_laws : PromLaws ref_prom.
Proof.
  split. intros names labels. simpl. rewrite forallb_forall, List.Forall_forall.
  split; intros H x Hx; specialize (H x Hx); by apply bool_decide_eq_true in H || apply bool_decide_eq_true.
Qed.

#[local] Instance ref_platform : Platform := {|
  platform_prisma := ref_prisma; platform_bullmq := ref_bullmq; platform_nodes := ref_nodes;
  platform_prom := ref_prom |}.

#[local] Instance ref_platform_laws : PlatformLaws ref_platform.
Proof. split; simpl; apply _. Qed.

Definition quiet : Script := mkScript ∅ ∅ ∅ ∅ 0 [] ∅ ∅ (Some "0xabc") [].

(** An empty deployment at time [t] in front of node [c]. *)
Definition fresh_world (t : Z) (c : Script) : World :=
  mkWorld _ ∅ ∅ ∅ ∅ ∅ ∅ ∅ ∅ ∅ ∅ ∅ ∅ ∅ ∅ ∅ ∅ t c [] ∅ None.

(** A decidable fact about concrete data, by evaluation. *)
Ltac decided := apply (bool_decide_unpack _); vm_compute; exact I.

(** An equation between closed terms, left to the kernel's virtual machine. *)
Ltac by_vm := match goal with |- ?a = _ => vm_cast_no_check (eq_refl a) end.
