(* ===== verification/StateMachine.v ===== *)
(** * The transaction state machine

    [src/domain/transaction]: the allow-list of status transitions, the guard
    that enforces it, and the confirmation deadline.  The lifecycle is also
    given as a relation, whose paths are the possible histories of a
    transaction. *)

From S2P Require Import Prelude JsString Schema.

Definition ALLOWED_TRANSITIONS (from : TransactionStatus) : list TransactionStatus :=
  match from with
  | PENDING => [SUBMITTED; FAILED]
  | SUBMITTED => [CONFIRMING; EXPIRED]
  | CONFIRMING => [CONFIRMED; FAILED; EXPIRED]
  | CONFIRMED => []
  | FAILED => []
  | EXPIRED => []
  end.

Definition canTransition (from to : TransactionStatus) : bool :=
  bool_decide (to ∈ ALLOWED_TRANSITIONS from).

Definition assertTransition {W} (from to : TransactionStatus) : prog W err unit :=
  if canTransition from to then Ret tt
  else Throw (InvalidTransactionTransitionError from to).

Definition getAllowedTransitions (from : TransactionStatus) : list TransactionStatus :=
  ALLOWED_TRANSITIONS from.

Definition canExpire (s : TransactionStatus) : bool :=
  bool_decide (s = SUBMITTED) || bool_decide (s = CONFIRMING).

Definition CONFIRMATION_TIMEOUT_MS : Z := 5 * 60 * 1000.

Definition isTransactionExpired (submittedAt_ now_ timeoutMs : Z) : bool :=
  timeoutMs <=? now_ - submittedAt_.

Definition getTransactionExpirationTime (submittedAt_ timeoutMs : Z) : Z :=
  submittedAt_ + timeoutMs.

(** ** The lifecycle as a relation *)

(** A non-empty sequence of allowed transitions, and its length. *)
Inductive path : nat -> TransactionStatus -> TransactionStatus -> Prop :=
| path_one s t : canTransition s t = true -> path 1 s t
| path_step n s t u : canTransition s t = true -> path n t u -> path (S n) s u.

Definition later (s t : TransactionStatus) : Prop := exists n, path n s t.

Definition terminal (s : TransactionStatus) : bool :=
  match s with CONFIRMED | FAILED | EXPIRED => true | _ => false end.

(** Progress through the lifecycle. *)
Definition rank (s : TransactionStatus) : nat :=
  match s with PENDING => 0 | SUBMITTED => 1 | CONFIRMING => 2 | _ => 3 end.

Lemma canTransition_rank s t : canTransition s t = true -> (rank s < rank t)%nat.
Proof. destruct s, t; vm_compute; (discriminate || lia). Qed.

Lemma path_rank n s t : path n s t -> (n + rank s <= rank t)%nat.
Proof.
  induction 1 as [s t H|n s t u H _ IH]; apply canTransition_rank in H; lia.
Qed.

Lemma path_trans n m s t u : path n s t -> path m t u -> path (n + m) s u.
Proof. induction 1; intros; simpl; econstructor; eauto. Qed.

#[global] Instance later_trans : Transitive later.
Proof. intros s t u [n Hn] [m Hm]. exists (n + m)%nat. by eapply path_trans. Qed.

Lemma later_one s t : canTransition s t = true -> later s t.
Proof. exists 1%nat. by constructor. Qed.

Lemma later_rank s t : later s t -> (rank s < rank t)%nat.
Proof.
  intros [n H]. pose proof (path_rank _ _ _ H). destruct H; lia.
Qed.

Lemma terminal_not_later s t : terminal s = true -> ~ later s t.
Proof.
  intros Hs H%later_rank. destruct s, t; simpl in *; (discriminate || lia).
Qed.

Lemma assertTransition_spec {W} from to (w : W) :
  exec (assertTransition from to) w =
  (if canTransition from to then inl tt
   else inr (InvalidTransactionTransitionError from to), w).
Proof. unfold assertTransition. by destruct (canTransition from to). Qed.

(** The state machine is closed and finite.  A sequence of allowed
    transitions has at most three steps, never returns to a status it left, and
    can be extended exactly when the status it reached is not terminal. *)
Theorem lifecycle_closed n s t :
  path n s t ->
  (n <= 3)%nat /\ s <> t /\ (terminal t = false <-> exists u, canTransition t u = true).
Proof.
  intros H. pose proof (path_rank _ _ _ H) as Hr.
  assert (1 <= n)%nat by (destruct H; lia).
  split; [|split].
  - destruct t; simpl in *; lia.
  - intros ->. lia.
  - split.
    + intros Ht. destruct t; try discriminate; [exists SUBMITTED|exists CONFIRMING|exists CONFIRMED];
        reflexivity.
    + intros [u Hu]. by destruct t, u.
Qed.

(** The happy path of a transfer is such a sequence. *)
Lemma lifecycle_closed_witness :
  (3 <= 3)%nat /\ PENDING <> CONFIRMED /\
  (terminal CONFIRMED = false <-> exists u, canTransition CONFIRMED u = true).
Proof.
  apply (lifecycle_closed 3 PENDING CONFIRMED).
  apply (path_step 2 _ SUBMITTED); [reflexivity|].
  apply (path_step 1 _ CONFIRMING); [reflexivity|].
  apply path_one. reflexivity.
Defined.

(** [canExpire] agrees with the transition table, and the deadline test of
    [isTransactionExpired] agrees with [getTransactionExpirationTime]. *)
Theorem expiration_agrees s submitted now_ timeout :
  canExpire s = canTransition s EXPIRED /\
  isTransactionExpired submitted now_ timeout =
    (getTransactionExpirationTime submitted timeout <=? now_).
Proof.
  split; [by destruct s|].
  unfold isTransactionExpired, getTransactionExpirationTime.
  destruct (Z.leb_spec timeout (now_ - submitted)), (Z.leb_spec (submitted + timeout) now_); lia.
Qed.
