(* ===== verification/TransactionRepository.v ===== *)
(** * The transaction repository

    [src/repositories/transaction.repository.ts]: every status change is one
    conditional [updateMany] guarded by the expected status.  The file defines
    the operations, the guarantee they give to every other component
    ([lifecycle], [rows_consistent]) and proves each of them keeps it. *)

From S2P Require Import Prelude Double JsString Schema Platform StateMachine.

Section Setters.
Context (t : Transaction).

Definition with_status (s : TransactionStatus) : Transaction :=
  mkTransaction (tenantId t) (tokenId t) (fromWalletId t) (toWalletId t) (txHash t)
    (amount t) (nonce t) (gasUsed t) (blockNumber t) s (createdAt t) (submittedAt t)
    (confirmationStartedAt t) (confirmedAt t) (failureReason t) (failedAt t).
Definition with_submission (h : string) (at_ : Z) : Transaction :=
  mkTransaction (tenantId t) (tokenId t) (fromWalletId t) (toWalletId t) (Some h)
    (amount t) (nonce t) (gasUsed t) (blockNumber t) (status t) (createdAt t) (Some at_)
    (confirmationStartedAt t) (confirmedAt t) (failureReason t) (failedAt t).
Definition with_confirmationStartedAt (at_ : Z) : Transaction :=
  mkTransaction (tenantId t) (tokenId t) (fromWalletId t) (toWalletId t) (txHash t)
    (amount t) (nonce t) (gasUsed t) (blockNumber t) (status t) (createdAt t) (submittedAt t)
    (Some at_) (confirmedAt t) (failureReason t) (failedAt t).
Definition with_confirmation (b g : option Z) (at_ : Z) : Transaction :=
  mkTransaction (tenantId t) (tokenId t) (fromWalletId t) (toWalletId t) (txHash t)
    (amount t) (nonce t) g b (status t) (createdAt t) (submittedAt t)
    (confirmationStartedAt t) (Some at_) (failureReason t) (failedAt t).
Definition with_failure (reason : string) (at_ : Z) : Transaction :=
  mkTransaction (tenantId t) (tokenId t) (fromWalletId t) (toWalletId t) (txHash t)
    (amount t) (nonce t) (gasUsed t) (blockNumber t) (status t) (createdAt t) (submittedAt t)
    (confirmationStartedAt t) (confirmedAt t) (Some reason) (Some at_).
End Setters.

(** SQL ordering of a nullable column: ascending, nulls last. *)
Definition opt_le (a b : option Z) : bool :=
  match a, b with
  | Some x, Some y => x <=? y
  | _, None => true
  | None, Some _ => false
  end.

(** [lte] on a nullable column: null never matches. *)
Definition opt_lte (a : option Z) (b : Z) : bool :=
  match a with Some x => x <=? b | None => false end.

Definition is_some {A} (o : option A) : bool := match o with Some _ => true | None => false end.

Definition has_status (s : TransactionStatus) (t : Transaction) : bool :=
  bool_decide (status t = s).

Definition status_in (from : list TransactionStatus) (t : Transaction) : bool :=
  bool_decide (status t ∈ from).

Definition not_found_error (id : string) : err :=
  PlainError ("Transaction " +:+ id +:+ " not found").

Section Repository.
Context `{P : Platform}.

Definition create (data : Transaction) : prog' (string * Transaction) :=
  call Transactions (Platform.create data).

Definition find_by_id (id : string) : prog' (option (string * Transaction)) :=
  query Transactions (findUnique (at_id id (fun _ => true))).

Definition transition (transactionId : string) (from to : TransactionStatus)
    (data : Transaction -> Transaction) : prog' (string * Transaction) :=
  do! assertTransition from to in
  let! count := call Transactions
    (updateMany (at_id transactionId (has_status from)) (fun t => data (with_status t to))) in
  if Nat.eqb count 1 then
    let! found := find_by_id transactionId in
    match found with
    | Some t => Ret t
    | None => Throw P2025
    end
  else
    let! transaction := find_by_id transactionId in
    match transaction with
    | None => Throw (not_found_error transactionId)
    | Some _ => Throw (TransactionStateConflictError transactionId from)
    end.

Definition transitionFromAny (transactionId : string) (from : list TransactionStatus)
    (to : TransactionStatus) (data : Transaction -> Transaction)
  : prog' (string * Transaction) :=
  do! for_each from (fun source => assertTransition source to) in
  let! count := call Transactions
    (updateMany (at_id transactionId (status_in from))
       (fun t => data (with_status t to))) in
  if Nat.eqb count 1 then
    let! found := find_by_id transactionId in
    match found with
    | Some t => Ret t
    | None => Throw P2025
    end
  else
    let! transaction := find_by_id transactionId in
    match transaction with
    | None => Throw (not_found_error transactionId)
    | Some t => Throw (TransactionStateConflictError transactionId (status t.2))
    end.

Definition markSubmitted (transactionId hash : string) : prog' (string * Transaction) :=
  let! date := now in
  transition transactionId PENDING SUBMITTED (fun t => with_submission t hash date).

Definition markConfirming (transactionId : string) : prog' (string * Transaction) :=
  let! date := now in
  transition transactionId SUBMITTED CONFIRMING (fun t => with_confirmationStartedAt t date).

Definition has_hash (h : string) (t : Transaction) : bool :=
  match txHash t with Some h' => String.eqb h' h | None => false end.

Definition findByHash (hash : string) : prog' (option (string * Transaction)) :=
  query Transactions (findUnique (fun _ t => has_hash hash t)).

Definition confirm (hash : string) (blockNumber_ gasUsed_ : option Z)
  : prog' (string * Transaction) :=
  let! transaction := findByHash hash in
  match transaction with
  | None => Throw (PlainError ("Transaction with hash " +:+ hash +:+ " not found"))
  | Some t =>
      let! date := now in
      transition t.1 CONFIRMING CONFIRMED
        (fun r => with_confirmation r blockNumber_ gasUsed_ date)
  end.

Definition markFailed (id reason : string) : prog' (string * Transaction) :=
  let! date := now in
  transitionFromAny id [PENDING; CONFIRMING] FAILED (fun t => with_failure t reason date).

Definition expire (transactionId reason : string) : prog' (string * Transaction) :=
  let! date := now in
  transition transactionId CONFIRMING EXPIRED (fun t => with_failure t reason date).

Definition findPending : prog' (list (string * Transaction)) :=
  query Transactions
    (findMany (fun _ t => has_status PENDING t && is_some (txHash t)) any_order 0 None).

Definition countPending : prog' nat :=
  query Transactions
    (fun t => length (findMany (fun _ r => has_status PENDING r) any_order 0 None t)).

(** A transaction with its relations: the token it moves, the wallet it moves it from
    and the wallet it moves it to. *)
Definition TransactionWithRelations : Type := string * Transaction * (Token * Wallet * Wallet).

Definition relations (w : World) (t : Transaction) : option (Token * Wallet * Wallet) :=
  match tokens w !! tokenId t, wallets w !! fromWalletId t, wallets w !! toWalletId t with
  | Some tok, Some from, Some to => Some (tok, from, to)
  | _, _, _ => None
  end.

Lemma relations_same w w' t t' :
  tokens w' = tokens w -> wallets w' = wallets w -> tokenId t' = tokenId t ->
  fromWalletId t' = fromWalletId t -> toWalletId t' = toWalletId t ->
  relations w' t' = relations w t.
Proof. unfold relations. by intros -> -> -> -> ->. Qed.

(** [include: { token: true, fromWallet: true, toWallet: true }] *)
Definition join_relations (w : World) (kt : string * Transaction) : option TransactionWithRelations :=
  pair kt <$> relations w kt.2.

Definition findById (id tenant : string) : prog' (option TransactionWithRelations) :=
  act (fun w =>
    match findUnique (at_id id (fun t => String.eqb (tenantId t) tenant)) (transactions w) with
    | None => (inl None, w)
    | Some kt =>
        match join_relations w kt with
        | Some r => (inl (Some r), w)
        | None => (inr inconsistent_query, w)
        end
    end).

Definition of_tenant (tenant : string) (_ : string) (t : Transaction) : bool :=
  String.eqb (tenantId t) tenant.

(** [orderBy: createdAt desc] *)
Definition newest_first (a b : Transaction) : bool := createdAt b <=? createdAt a.

Definition findAll (tenant : string) (page_ limit : double)
  : prog' (list TransactionWithRelations) :=
  findSlice Transactions join_relations (of_tenant tenant) newest_first
    (mul (sub page_ (of_Z 1)) limit) limit.

Definition findExpiredCandidates (expirationBefore : Z) (limit : nat)
  : prog' (list (string * Transaction)) :=
  query Transactions
    (findMany
       (fun _ t => has_status CONFIRMING t && opt_lte (confirmationStartedAt t) expirationBefore)
       (fun a b => opt_le (confirmationStartedAt a) (confirmationStartedAt b)) 0 (Some limit)).

Definition findSubmittedCandidates (limit : nat) : prog' (list (string * Transaction)) :=
  query Transactions
    (findMany (fun _ t => has_status SUBMITTED t && is_some (txHash t))
       (fun a b => opt_le (submittedAt a) (submittedAt b)) 0 (Some limit)).

(** A transaction with its two wallets. *)
Definition OrphanedTransaction : Type := string * Transaction * Wallet * Wallet.

Definition join_wallets (w : World) (kt : string * Transaction) : option OrphanedTransaction :=
  match wallets w !! fromWalletId kt.2, wallets w !! toWalletId kt.2 with
  | Some f, Some t => Some (kt, f, t)
  | _, _ => None
  end.

Definition findOrphanedPendingCandidates (olderThan : Z) (limit : nat)
  : prog' (list OrphanedTransaction) :=
  act (fun w =>
    match mapM (join_wallets w)
            (findMany (fun _ t => has_status PENDING t && (createdAt t <=? olderThan))
               (fun a b => createdAt a <=? createdAt b) 0 (Some limit) (transactions w)) with
    | Some l => (inl l, w)
    | None => (inr inconsistent_query, w)
    end).
End Repository.

(** ** What the repository guarantees to the rest of the system *)

(** One row, at two moments: either nothing happened to it, or its status moved
    forward along the state machine; who transfers what to whom never changes,
    and neither does the hash once the transaction has left PENDING. *)
Definition evolves (t t' : Transaction) : Prop :=
  t = t' \/
  (later (status t) (status t') /\
   (tenantId t', tokenId t', fromWalletId t', toWalletId t', amount t', createdAt t') =
   (tenantId t, tokenId t, fromWalletId t, toWalletId t, amount t, createdAt t) /\
   (status t <> PENDING -> txHash t' = txHash t)).

(** A row as it is created. *)
Definition newborn (t : Transaction) : Prop :=
  status t = PENDING /\ txHash t = None /\ submittedAt t = None /\
  confirmationStartedAt t = None /\ confirmedAt t = None /\ failedAt t = None /\
  failureReason t = None /\ blockNumber t = None.

(** The whole table, at two moments: no row disappears, every row evolves, and
    a row that was not there was created PENDING. *)
Definition lifecycle_table (m m' : gmap string Transaction) : Prop :=
  forall id,
    match m !! id with
    | Some t => exists t', m' !! id = Some t' /\ evolves t t'
    | None => forall t', m' !! id = Some t' -> exists t, newborn t /\ evolves t t'
    end.

Definition lifecycle `{ChainNodes} (w w' : World) : Prop :=
  lifecycle_table (transactions w) (transactions w').

(** The data a row must carry in each status. *)
Definition row_consistent (t : Transaction) : Prop :=
  match status t with
  | PENDING => newborn t
  | SUBMITTED => is_Some (txHash t) /\ is_Some (submittedAt t) /\
      confirmationStartedAt t = None /\ confirmedAt t = None /\ blockNumber t = None /\
      failedAt t = None /\ failureReason t = None
  | CONFIRMING => is_Some (txHash t) /\ is_Some (submittedAt t) /\
      is_Some (confirmationStartedAt t) /\ confirmedAt t = None /\ blockNumber t = None /\
      failedAt t = None /\ failureReason t = None
  | CONFIRMED => is_Some (txHash t) /\ is_Some (submittedAt t) /\
      is_Some (confirmationStartedAt t) /\ is_Some (confirmedAt t) /\
      is_Some (blockNumber t) /\ failedAt t = None /\ failureReason t = None
  | FAILED => confirmedAt t = None /\ blockNumber t = None /\
      is_Some (failedAt t) /\ is_Some (failureReason t) /\
      (txHash t = None <-> submittedAt t = None)
  | EXPIRED => is_Some (txHash t) /\ is_Some (submittedAt t) /\
      is_Some (confirmationStartedAt t) /\ confirmedAt t = None /\ blockNumber t = None /\
      is_Some (failedAt t) /\ is_Some (failureReason t)
  end.

Definition rows_consistent (m : gmap string Transaction) : Prop :=
  table_ok m /\ map_Forall (fun _ t => row_consistent t) m.

#[global] Instance evolves_preorder : PreOrder evolves.
Proof.
  split; [by left|].
  intros a b c [->|(H1 & I1 & K1)]; [done|].
  intros [<-|(H2 & I2 & K2)]; [by right|].
  right. split; [by etransitivity|]. split; [congruence|].
  intros Ha. rewrite K2, K1; [done..|].
  intros Hb. apply later_rank in H1. rewrite Hb in H1. simpl in H1. lia.
Qed.

#[global] Instance lifecycle_table_preorder : PreOrder lifecycle_table.
Proof.
  split.
  - intros m id. destruct (m !! id) as [t|] eqn:E; [by exists t|]. congruence.
  - intros m1 m2 m3 H1 H2 id. specialize (H1 id); specialize (H2 id).
    destruct (m1 !! id) as [t|].
    + destruct H1 as (t' & E & H1). rewrite E in H2. destruct H2 as (t'' & E' & H2).
      exists t''. split; [done|]. by etransitivity.
    + intros t'' E'. destruct (m2 !! id) as [t'|].
      * destruct H2 as (u & E'' & H2). destruct (H1 t' eq_refl) as (t & Hn & H1').
        exists t. split; [done|]. etransitivity; [done|]. by simplify_eq.
      * by apply H2.
Qed.

#[global] Instance lifecycle_preorder `{ChainNodes} : PreOrder lifecycle.
Proof. split; red; unfold lifecycle; [reflexivity|]. intros ???. apply transitivity. Qed.

(** A terminal row never changes again. *)
Lemma evolves_terminal t t' : terminal (status t) = true -> evolves t t' -> t' = t.
Proof. intros H [->|(Hl & _)]; [done|]. by apply terminal_not_later in Hl. Qed.

(** Rewriting one row to a later state of itself. *)
Lemma updated_lifecycle id c d m :
  (forall t, c t = true -> evolves t (d t)) ->
  lifecycle_table m (updated (at_id id c) d m).
Proof.
  intros H k. rewrite lookup_updated. destruct (m !! k) as [t|]; simpl; [|done].
  eexists. split; [done|]. unfold at_id.
  destruct (String.eqb k id); simpl; [|done]. destruct (c t) eqn:E; [by apply H|done].
Qed.

Lemma inserted_lifecycle id r m :
  m !! id = None -> newborn r -> lifecycle_table m (<[id := r]> m).
Proof.
  intros Hid Hr k. destruct (decide (k = id)) as [->|Hne].
  - rewrite Hid, lookup_insert_eq. intros t' [= <-]. by exists r.
  - rewrite lookup_insert_ne by done. destruct (m !! k) as [t|]; [by exists t|done].
Qed.

(** The fields a transition may write, and how. *)
Definition forward (from to : TransactionStatus) (data : Transaction -> Transaction) : Prop :=
  canTransition from to = true /\
  forall t, status t = from ->
    evolves t (data (with_status t to)) /\ status (data (with_status t to)) = to /\
    (row_consistent t -> row_consistent (data (with_status t to))).

Section Exec.
Context `{P : Platform} `{!PlatformLaws P}.

Lemma find_by_id_exec id w :
  exec (find_by_id id) w = (inl ((fun t => (id, t)) <$> transactions w !! id), w).
Proof.
  unfold find_by_id, query. rewrite exec_act, findUnique_at_id.
  simpl. by destruct (transactions w !! id).
Qed.

(** What [transition] does when nobody interferes: on every branch. *)
Lemma transition_exec id from to d w :
  table_ok (transactions w) ->
  exec (transition id from to d) w =
  if canTransition from to then
    match transactions w !! id with
    | None => (inr (not_found_error id), w)
    | Some t =>
        if has_status from t then
          match updateMany (at_id id (has_status from)) (fun r => d (with_status r to))
                  (transactions w) with
          | (inl _, m) => (inl (id, d (with_status t to)), put Transactions m w)
          | (inr e, m) => (inr e, w)
          end
        else (inr (TransactionStateConflictError id from), w)
    end
  else (inr (InvalidTransactionTransitionError from to), w).
Proof.
  intros Hwf. unfold transition. rewrite exec_bind, assertTransition_spec.
  destruct (canTransition from to); [|done].
  unfold call. step. unfold on. simpl.
  set (cond := at_id id (has_status from)).
  pose proof (rows_at_id id (has_status from) (transactions w)) as Hrows. fold cond in Hrows.
  destruct (updateMany_cases cond (fun r => d (with_status r to)) (transactions w))
    as [[Hok ->]|[Hbad [c ->]]]; simpl.
  - destruct (transactions w !! id) as [t|] eqn:E; [destruct (has_status from t) eqn:S|];
      rewrite Hrows; simpl; step; rewrite findUnique_at_id; simpl;
      rewrite ?(updated_none _ _ _ Hrows), ?lookup_updated, E; simpl; try (by destruct w).
    unfold cond, at_id. by rewrite String.eqb_refl, S.
  - destruct (transactions w !! id) as [t|] eqn:E; [destruct (has_status from t) eqn:S|].
    + by destruct w.
    + by rewrite (updated_none _ _ _ Hrows) in Hbad.
    + by rewrite (updated_none _ _ _ Hrows) in Hbad.
Qed.

(** The same for [transitionFromAny], when its guard accepts every source. *)
Lemma transitionFromAny_exec id from to d w :
  table_ok (transactions w) ->
  Forall (fun s => canTransition s to = true) from ->
  exec (transitionFromAny id from to d) w =
  match transactions w !! id with
  | None => (inr (not_found_error id), w)
  | Some t =>
      if status_in from t then
        match updateMany (at_id id (status_in from)) (fun r => d (with_status r to))
                (transactions w) with
        | (inl _, m) => (inl (id, d (with_status t to)), put Transactions m w)
        | (inr e, m) => (inr e, w)
        end
      else (inr (TransactionStateConflictError id (status t)), w)
  end.
Proof.
  intros Hwf Hall. unfold transitionFromAny. rewrite exec_bind.
  assert (Hfe : exec (for_each from (fun s => assertTransition s to)) w = (inl tt, w)).
  { induction Hall as [|s l Hs _ IH]; [done|].
    rewrite exec_for_each_cons, assertTransition_spec, Hs. done. }
  rewrite Hfe. unfold call. step. unfold on. simpl.
  set (cond := at_id id (status_in from)).
  pose proof (rows_at_id id (status_in from) (transactions w)) as Hrows. fold cond in Hrows.
  destruct (updateMany_cases cond (fun r => d (with_status r to)) (transactions w))
    as [[Hok ->]|[Hbad [e ->]]]; simpl.
  - destruct (transactions w !! id) as [t|] eqn:E; [destruct (status_in from t) eqn:S|];
      rewrite Hrows; simpl; step; rewrite findUnique_at_id; simpl;
      rewrite ?(updated_none _ _ _ Hrows), ?lookup_updated, E; simpl; try (by destruct w).
    unfold cond, at_id. by rewrite String.eqb_refl, S.
  - destruct (transactions w !! id) as [t|] eqn:E; [destruct (status_in from t) eqn:S|].
    + by destruct w.
    + by rewrite (updated_none _ _ _ Hrows) in Hbad.
    + by rewrite (updated_none _ _ _ Hrows) in Hbad.
Qed.
End Exec.

(** ** When an update is accepted by the database *)

Lemma updated_at_id {R} id c d (m : gmap string R) r :
  m !! id = Some r -> c r = true -> updated (at_id id c) d m = <[id := d r]> m.
Proof.
  intros Hr Hc. apply map_eq. intros k. rewrite lookup_updated. unfold at_id.
  destruct (decide (k = id)) as [->|Hne].
  - rewrite Hr, lookup_insert_eq. simpl. by rewrite String.eqb_refl, Hc.
  - rewrite lookup_insert_ne by done. destruct (m !! k); [|done]. simpl.
    by destruct (String.eqb_spec k id).
Qed.

(** Replacing (or adding) a row that conflicts with no other row. *)
Lemma table_ok_insert {R} `{Table R} (m : gmap string R) id r :
  table_ok m -> fits r = true ->
  (forall k r', k <> id -> m !! k = Some r' -> conflicts r r' = false /\ conflicts r' r = false) ->
  table_ok (<[id := r]> m).
Proof.
  intros [Hf Hc] Hr Hn. split; [by apply map_Forall_insert_2|].
  intros k1 r1 E1 k2 r2 E2. destruct (decide (k1 = k2)) as [->|Hne]; [by left|]. right.
  apply lookup_insert_Some in E1 as [[<- <-]|[N1 E1]], E2 as [[<- <-]|[N2 E2]].
  - done.
  - by destruct (Hn k2 r2 (not_eq_sym N2) E2).
  - by destruct (Hn k1 r1 (not_eq_sym N1) E1).
  - by destruct (Hc k1 r1 E1 k2 r2 E2).
Qed.

Definition fresh_hash (h : string) (m : gmap string Transaction) : Prop :=
  forall k t, m !! k = Some t -> txHash t <> Some h.

Lemma same_some_false a b : same_some a b = false <-> forall x, a = Some x -> b <> Some x.
Proof.
  destruct a as [x|], b as [y|]; simpl; try naive_solver.
  rewrite String.eqb_neq. naive_solver.
Qed.

(** A row whose hash did not change, or is new to the table. *)
Lemma table_ok_transaction m id t t' :
  table_ok m -> m !! id = Some t -> fits t' = true ->
  txHash t' = txHash t \/ (exists h, txHash t' = Some h /\ fresh_hash h m) ->
  table_ok (<[id := t']> m).
Proof.
  intros Hok Ht Hf Hh. apply table_ok_insert; [done..|]. intros k r Hk Hr. simpl.
  rewrite !same_some_false. destruct Hh as [->|(h & -> & Hfr)].
  - destruct Hok as [_ Hc]. destruct (Hc k r Hr id t Ht) as [|H1]; [done|].
    destruct (Hc id t Ht k r Hr) as [|H2]; [done|]. simpl in *. by rewrite !same_some_false in *.
  - specialize (Hfr k r Hr). naive_solver.
Qed.

Section Accepted.
Context `{P : Platform} `{!PlatformLaws P}.

(** [transition] on a row in the expected status, when the new row fits. *)
Lemma transition_applies id from to d w t :
  let t' := d (with_status t to) in
  table_ok (transactions w) -> canTransition from to = true ->
  transactions w !! id = Some t -> status t = from -> fits t' = true ->
  txHash t' = txHash t \/ (exists h, txHash t' = Some h /\ fresh_hash h (transactions w)) ->
  exec (transition id from to d) w =
    (inl (id, t'), put Transactions (<[id := t']> (transactions w)) w).
Proof.
  cbv zeta. intros Hok Hc Ht Hs Hf Hh. rewrite transition_exec, Hc, Ht by done.
  assert (E : has_status from t = true) by (unfold has_status; by rewrite bool_decide_eq_true).
  rewrite E, updateMany_ok; rewrite (updated_at_id _ _ _ _ t) by done; [done|].
  by eapply table_ok_transaction.
Qed.

Lemma transitionFromAny_applies id from to d w t :
  let t' := d (with_status t to) in
  table_ok (transactions w) -> Forall (fun s => canTransition s to = true) from ->
  transactions w !! id = Some t -> status t ∈ from -> fits t' = true ->
  txHash t' = txHash t ->
  exec (transitionFromAny id from to d) w =
    (inl (id, t'), put Transactions (<[id := t']> (transactions w)) w).
Proof.
  cbv zeta. intros Hok Hc Ht Hs Hf Hh. rewrite transitionFromAny_exec, Ht by done.
  assert (E : status_in from t = true) by (unfold status_in; by rewrite bool_decide_eq_true).
  rewrite E, updateMany_ok; rewrite (updated_at_id _ _ _ _ t) by done; [done|].
  eapply table_ok_transaction; eauto.
Qed.

(** Creating a row that has no hash yet. *)
Lemma create_applies t w :
  table_ok (transactions w) -> fits t = true -> txHash t = None ->
  exec (create t) w =
    (inl (uuid (transactions w), t),
     put Transactions (<[uuid (transactions w) := t]> (transactions w)) w).
Proof.
  intros Hok Hf Hh. unfold create. rewrite exec_call. unfold on. cbn [view Transactions].
  rewrite create_ok; [done|]. apply table_ok_insert; [done..|].
  intros k r _ _. simpl. rewrite Hh. by destruct (txHash r).
Qed.

Lemma markFailed_applies id reason_ w t :
  table_ok (transactions w) -> transactions w !! id = Some t ->
  status t = PENDING \/ status t = CONFIRMING -> fits t = true ->
  exec (markFailed id reason_) w =
    (inl (id, with_failure (with_status t FAILED) reason_ (clock w)),
     put Transactions
       (<[id := with_failure (with_status t FAILED) reason_ (clock w)]> (transactions w)) w).
Proof.
  intros Hok Ht Hs Hf. unfold markFailed. rewrite exec_bind, exec_now.
  apply (transitionFromAny_applies id [PENDING; CONFIRMING] FAILED
           (fun t => with_failure t reason_ (clock w)) w t); [done| |done| |done|done].
  - by repeat constructor.
  - set_solver.
Qed.

Lemma markSubmitted_applies id h w t :
  table_ok (transactions w) -> transactions w !! id = Some t -> status t = PENDING ->
  fits t = true -> fresh_hash h (transactions w) ->
  exec (markSubmitted id h) w =
    (inl (id, with_submission (with_status t SUBMITTED) h (clock w)),
     put Transactions
       (<[id := with_submission (with_status t SUBMITTED) h (clock w)]> (transactions w)) w).
Proof.
  intros Hok Ht Hs Hf Hh. unfold markSubmitted. rewrite exec_bind, exec_now.
  apply (transition_applies id PENDING SUBMITTED (fun t => with_submission t h (clock w)) w t);
    try done. right. by exists h.
Qed.
End Accepted.
