(* ===== verification/Outbox.v ===== *)
(** * The transactional outbox

    [src/repositories/outbox-event.repository.ts],
    [src/services/outbox-event.service.ts] and [src/queues/outbox-relay.queue.ts]:
    events are written in the database transaction of the business change and
    relayed to the queue in the order enqueue, then mark as published. *)

From S2P Require Import Prelude JsString Schema Platform Reference.

Record OutboxEventData := mkEventData {
  d_aggregateId : string; d_type : string; d_payload : list (string * json) }.

Definition set_published (date : Z) (e : OutboxEvent) : OutboxEvent :=
  mkOutbox (aggregateId e) (ev_type e) (payload e) true (Some date) (ev_createdAt e).

Section Outbox.
Context `{P : Platform}.

(** The [createdAt @default(now())] column is the database's clock. *)
Definition createInTransaction (data : OutboxEventData) : prog' (string * OutboxEvent) :=
  let! date := now in
  call Outbox (Platform.create
    (mkOutbox (d_aggregateId data) (d_type data) (d_payload data) false None date)).

Definition claimUnpublished (limit : nat) : prog' (list (string * OutboxEvent)) :=
  query Outbox
    (findMany (fun _ e => negb (published e)) (fun a b => ev_createdAt a <=? ev_createdAt b)
       0 (Some limit)).

Definition markPublished (ids : list string) : prog' unit :=
  match ids with
  | [] => Ret tt
  | _ =>
      let! date := now in
      do! call Outbox (updateMany (fun k _ => bool_decide (k ∈ ids)) (set_published date)) in
      Ret tt
  end.

(** The job of an event; its id is the event's id. *)
Definition relay_job (e : string * OutboxEvent) : OutboxRelayJob :=
  mkRelayJob e.1 (aggregateId e.2) (ev_type e.2) (payload e.2).

Definition addBulk (es : list (string * OutboxEvent)) (q : gmap string OutboxRelayJob)
  : gmap string OutboxRelayJob :=
  fold_left (fun q e => queue_add (Some e.1) (relay_job e) q) es q.

Definition relay (limit : nat) : prog' nat :=
  let! events := claimUnpublished limit in
  match events with
  | [] => Ret 0%nat
  | _ =>
      do! call RelayQueue (fun q => (inl tt, addBulk events q)) in
      do! markPublished events.*1 in
      Ret (length events)
  end.
End Outbox.

Section Facts.
Context `{P : Platform} `{!PlatformLaws P}.

Lemma addBulk_keeps es q k j : q !! k = Some j -> addBulk es q !! k = Some j.
Proof.
  revert q. induction es as [|[id e] es IH]; intros q H; simpl; [done|].
  apply IH. destruct (q !! id) as [x|] eqn:E.
  - by rewrite (queue_add_known _ _ _ _ _ E).
  - rewrite (queue_add_new _ _ _ _ E). rewrite lookup_insert_ne; [done|]. congruence.
Qed.

Lemma addBulk_known es q k : k ∈ es.*1 -> is_Some (addBulk es q !! k).
Proof.
  revert q. induction es as [|[id e] es IH]; intros q H; simpl in *.
  - by apply not_elem_of_nil in H.
  - apply elem_of_cons in H as [->|H]; [|by apply IH].
    destruct (q !! id) as [x|] eqn:E.
    + rewrite (queue_add_known _ _ _ _ _ E). exists x. by apply addBulk_keeps.
    + rewrite (queue_add_new _ _ _ _ E). eexists. apply addBulk_keeps.
      apply lookup_insert_eq.
Qed.

(** Only the claimed rows are marked. *)
Lemma updateMany_published (ids : list string) date m k e e' :
  (updateMany (fun k (_ : OutboxEvent) => bool_decide (k ∈ ids)) (set_published date) m).2 !! k
    = Some e' ->
  m !! k = Some e -> published e = false -> published e' = true -> k ∈ ids.
Proof.
  destruct (updateMany_cases (fun k (_ : OutboxEvent) => bool_decide (k ∈ ids))
              (set_published date) m) as [[_ ->]|[_ [c ->]]]; simpl; [|congruence].
  rewrite lookup_updated. intros H E Hf Ht. rewrite E in H. simpl in H.
  case_bool_decide; [done|]. congruence.
Qed.

Lemma markPublished_faults ids outs w :
  exists r w' outs', run (markPublished ids) (faults outs) w = (r, w', faults outs') /\
    relayQueue w' = relayQueue w /\
    (forall k e e', outbox w !! k = Some e -> outbox w' !! k = Some e' ->
       published e = false -> published e' = true -> k ∈ ids).
Proof.
  destruct ids as [|id ids]; simpl.
  { do 3 eexists. rewrite run_ret. split; [done|]. split; [done|]. congruence. }
  rewrite run_bind. unfold now. rewrite run_gets, run_bind.
  destruct (run_call Outbox (updateMany (fun k _ => bool_decide (k ∈ id :: ids))
    (set_published (clock w))) outs w) as (r & w1 & outs1 & -> & Hr).
  assert (H : exists r', run (match r with inl _ => Ret tt | inr e => Throw e end) (faults outs1) w1
            = (r', w1, faults outs1)) by (destruct r; eauto).
  exists (match r with inl _ => inl tt | inr e => inr e end), w1, outs1.
  split; [by destruct r|]. destruct Hr as [[-> _]|[-> _]]; simpl.
  - split; [done|]. congruence.
  - split; [done|]. intros k e e' E E' Hf Ht. by eapply updateMany_published.
Qed.
End Facts.

Lemma relay_enqueues_first `{P : Platform} `{!PlatformLaws P} limit outs w k e e' :
  outbox w !! k = Some e -> published e = false ->
  let w' := (run (relay limit) (faults outs) w).1.2 in
  outbox w' !! k = Some e' -> published e' = true ->
  is_Some (relayQueue w' !! k).
Proof.
  intros Hk Hf. cbv zeta. unfold relay, claimUnpublished. rewrite run_bind.
  destruct (run_query Outbox (findMany (fun _ e => negb (published e))
     (fun a b => ev_createdAt a <=? ev_createdAt b) 0 (Some limit)) outs w)
    as (r & outs1 & -> & [->|[x ->]]); [|simpl; congruence].
  destruct (findMany _ _ _ _ _) as [|ev evs]; [rewrite run_ret; simpl; congruence|].
  rewrite run_bind.
  destruct (run_call RelayQueue (fun q => (inl tt, addBulk (ev :: evs) q)) outs1 w)
    as (r & w1 & outs2 & -> & [[-> [x ->]]|[-> [->|[x ->]]]]); [simpl; congruence| |simpl; congruence].
  cbn [fst snd on]. rewrite run_bind.
  destruct (markPublished_faults ((ev :: evs).*1) outs2
    (put RelayQueue (addBulk (ev :: evs) (relayQueue w)) w)) as (r & w2 & outs3 & E & Hq & Hp).
  unfold on. cbn [fst snd view RelayQueue]. rewrite E.
  intros Hk' Ht. assert (Hw2 : is_Some (relayQueue w2 !! k)).
  { rewrite Hq. simpl. apply (addBulk_known (ev :: evs)).
    apply (Hp k e e'); [done| |done..]. by destruct r. }
  by destruct r.
Qed.

(** Enqueue before mark.  Whatever calls fail, are lost, or never happen
    (which is also what a crash at that point leaves behind), an event that the
    relay marks as published has its job in the relay queue. *)
Theorem relay_never_loses_events `{P : Platform} `{!PlatformLaws P} limit outs w k e e' :
  outbox w !! k = Some e -> published e = false ->
  let w' := (run (relay limit) (faults outs) w).1.2 in
  outbox w' !! k = Some e' -> published e' = true ->
  is_Some (relayQueue w' !! k).
Proof. apply relay_enqueues_first. Qed.

(** ** The relay drains the outbox *)
Section Drain.
Context `{P : Platform} `{!PlatformLaws P} (limit : nat).

Definition waiting (_ : string) (e : OutboxEvent) : bool := negb (published e).

(** The events that still wait to be published. *)
Definition backlog (m : gmap string OutboxEvent) : gset string := list_to_set (rows waiting m).*1.

Lemma elem_of_backlog m k :
  k ∈ backlog m <-> exists e, m !! k = Some e /\ published e = false.
Proof.
  unfold backlog. rewrite elem_of_list_to_set, list_elem_of_fmap. split.
  - intros ([k' e] & -> & Hin). apply elem_of_rows in Hin as [E Hw]. exists e. split; [done|].
    by apply negb_true_iff.
  - intros (e & E & Hp). exists (k, e). split; [done|]. apply elem_of_rows. split; [done|].
    unfold waiting. by rewrite Hp.
Qed.

Lemma outbox_table_ok (m : gmap string OutboxEvent) : table_ok m.
Proof. split; [by intros k r _|]. intros k1 r1 _ k2 r2 _. by right. Qed.

(** What a tick claims: [limit] waiting events, or all of them. *)
Lemma claimed_size m :
  let claimed := findMany waiting (fun a b => ev_createdAt a <=? ev_createdAt b) 0 (Some limit) m in
  (list_to_set claimed.*1 : gset string) ⊆ backlog m /\
  size (list_to_set claimed.*1 : gset string) = min limit (size (backlog m)) /\
  length claimed = min limit (size (backlog m)).
Proof.
  cbv zeta. rewrite findMany_page. cbn [page]. rewrite drop_0.
  set (all := findMany waiting _ 0 None m).
  assert (Hp : Permutation all.*1 (rows waiting m).*1) by apply Permutation_map, findMany_all.
  pose proof (NoDup_rows waiting m) as Hnd. rewrite <- Hp in Hnd.
  assert (Hs : size (backlog m) = length all).
  { unfold backlog. rewrite size_list_to_set by (by rewrite <- Hp). by rewrite <- Hp, length_fmap. }
  rewrite fmap_take. split_and!.
  - intros k. rewrite elem_of_list_to_set. unfold backlog. rewrite elem_of_list_to_set, <- Hp.
    intros Hk. by eapply elem_of_sublist; [exact Hk|apply sublist_take].
  - rewrite size_list_to_set by (by eapply sublist_NoDup; [exact Hnd|apply sublist_take]).
    rewrite length_take, length_fmap, Hs. done.
  - by rewrite length_take, Hs.
Qed.

Lemma backlog_published date ids m :
  backlog (updated (fun k (_ : OutboxEvent) => bool_decide (k ∈ ids)) (set_published date) m)
  = backlog m ∖ list_to_set ids.
Proof.
  apply leibniz_equiv. intros k.
  rewrite elem_of_difference, !elem_of_backlog, elem_of_list_to_set. rewrite lookup_updated. split.
  - intros (e & E & Hp). apply fmap_Some in E as (e0 & E0 & ->).
    case_bool_decide as Hk; [done|]. split; [by exists e0|done].
  - intros [(e & E & Hp) Hk]. exists e. rewrite E. cbn. by rewrite bool_decide_eq_false_2.
Qed.

(** An undisturbed tick takes [limit] events off the backlog. *)
Lemma tick_progress w :
  size (backlog (outbox (exec (relay limit) w).2)) = (size (backlog (outbox w)) - limit)%nat.
Proof.
  unfold relay, claimUnpublished. rewrite exec_bind, exec_query. cbn [view Outbox].
  change (fun (_ : string) (e : OutboxEvent) => negb (published e)) with waiting.
  destruct (claimed_size (outbox w)) as (Hsub & Hsize & Hlen).
  destruct (findMany waiting _ 0 (Some limit) (outbox w)) as [|e es] eqn:F.
  - rewrite exec_ret. cbn [snd]. cbn in Hlen. lia.
  - rewrite exec_bind, exec_call. unfold on. cbn [fst snd]. rewrite exec_bind.
    unfold markPublished. rewrite fmap_cons. rewrite exec_bind, exec_now, exec_bind, exec_call.
    unfold on. cbn [view Outbox put RelayQueue outbox].
    rewrite updateMany_ok by apply outbox_table_ok. cbn [fst snd]. rewrite !exec_ret. cbn [snd outbox put Outbox].
    rewrite <- fmap_cons, backlog_published, size_difference by done. lia.
Qed.

(** The message of an event, whatever its publication. *)
Definition message (e : OutboxEvent) : string * string * list (string * json) :=
  (aggregateId e, ev_type e, payload e).

(** No tick loses or rewrites an event, un-publishes one, or drops a job. *)
Definition shrinks (w w' : World) : Prop :=
  (forall k e, outbox w !! k = Some e -> exists e', outbox w' !! k = Some e' /\
     (published e = true -> published e' = true) /\ message e' = message e) /\
  backlog (outbox w') ⊆ backlog (outbox w) /\
  (forall k, is_Some (relayQueue w !! k) -> is_Some (relayQueue w' !! k)) /\
  transactions w' = transactions w.

#[local] Instance shrinks_preorder : PreOrder shrinks.
Proof.
  split.
  - intros w. split_and!; [intros k e E; by exists e|done..].
  - intros a b c (A1 & B1 & C1 & D1) (A2 & B2 & C2 & D2). split_and!; [|set_solver|auto|congruence].
    intros k e E. destruct (A1 k e E) as (e1 & E1 & H1 & M1). destruct (A2 k e1 E1) as (e2 & E2 & H2 & M2).
    exists e2. split_and!; [done|auto|congruence].
Qed.

Lemma guards_shrinks : guards shrinks (relay limit).
Proof.
  unfold relay, claimUnpublished. apply guards_bind; [apply guards_act; reflexivity|].
  intros [|e es]; [done|]. apply guards_bind.
  - apply guards_act. intros w. split_and!; [intros k x E; by exists x|done| |done].
    intros k [j Hj]. exists j. cbn. by apply (addBulk_keeps (e :: es)).
  - intros _. apply guards_bind; [|done]. unfold markPublished. rewrite fmap_cons.
    apply guards_bind; [apply guards_gets; apply _|]. intros date.
    apply guards_bind; [|done]. apply guards_act. intros w. unfold on. cbn [view Outbox].
    rewrite updateMany_ok by apply outbox_table_ok. split_and!; [|cbn|done..].
    + intros k x E. cbn. eexists. rewrite lookup_updated, E. split; [done|]. cbn. by case_bool_decide.
    + rewrite backlog_published. set_solver.
Qed.

Lemma tick_shrinks outs w : shrinks w (run (relay limit) (faults outs) w).1.2.
Proof.
  apply (guards_run shrinks); [apply guards_shrinks|]. unfold faults. apply Forall_fmap, Forall_true.
  intros o w0. reflexivity.
Qed.

(** The scheduler's ticks, each with the fate of its calls. *)
Fixpoint ticks (schedule : list (list (outcome err))) (w : World) : World :=
  match schedule with
  | [] => w
  | outs :: rest => ticks rest (run (relay limit) (faults outs) w).1.2
  end.

Definition undisturbed (schedule : list (list (outcome err))) : nat :=
  length (List.filter (fun outs => match outs with [] => true | _ => false end) schedule).

Lemma ticks_shrink schedule w : shrinks w (ticks schedule w).
Proof.
  revert w. induction schedule as [|outs rest IH]; intros w; [reflexivity|].
  etransitivity; [apply tick_shrinks|apply IH].
Qed.

Lemma ticks_enqueue schedule w k e e' :
  outbox w !! k = Some e -> published e = false ->
  outbox (ticks schedule w) !! k = Some e' -> published e' = true ->
  is_Some (relayQueue (ticks schedule w) !! k).
Proof.
  revert w e. induction schedule as [|outs rest IH]; intros w e E Hf; cbn [ticks]; [congruence|].
  intros E' Ht. destruct (tick_shrinks outs w) as (Hkeep & _).
  destruct (Hkeep k e E) as (e1 & E1 & _). destruct (published e1) eqn:H1.
  - apply (ticks_shrink rest). by apply (relay_enqueues_first limit outs w k e e1).
  - by apply (IH _ e1).
Qed.

Lemma ticks_progress schedule w :
  (size (backlog (outbox (ticks schedule w))) <= size (backlog (outbox w)) - limit * undisturbed schedule)%nat.
Proof.
  revert w. induction schedule as [|outs rest IH]; intros w; cbn [ticks]; [unfold undisturbed; cbn; lia|].
  specialize (IH (run (relay limit) (faults outs) w).1.2). destruct outs as [|o outs].
  - change (faults []) with (@nil (envstep World err)) in *. rewrite run_nil in *. cbn [fst] in *.
    pose proof (tick_progress w). unfold undisturbed in *. cbn [List.filter length]. nia.
  - destruct (tick_shrinks (o :: outs) w) as (_ & Hsub & _). apply subseteq_size in Hsub.
    unfold undisturbed in *. cbn [List.filter]. lia.
Qed.
End Drain.

(** A drained backlog: everything that waited is published and queued. *)
Lemma ticks_drain `{P : Platform} `{!PlatformLaws P} limit schedule w :
  (size (backlog (outbox w)) <= limit * undisturbed schedule)%nat ->
  let w' := ticks limit schedule w in
  backlog (outbox w') = ∅ /\
  forall k e, outbox w !! k = Some e -> published e = false ->
    exists e', outbox w' !! k = Some e' /\ published e' = true /\ message e' = message e /\
      is_Some (relayQueue w' !! k).
Proof.
  intros Hn w'. assert (Hb : backlog (outbox w') = ∅).
  { apply leibniz_equiv, size_empty_iff. pose proof (ticks_progress limit schedule w).
    fold w' in H. lia. }
  split; [done|]. intros k e E Hf. destruct (ticks_shrink limit schedule w) as (Hkeep & _).
  destruct (Hkeep k e E) as (e' & E' & _ & Hm). fold w' in E'. exists e'. split; [done|].
  assert (Hp : published e' = true).
  { destruct (published e') eqn:Hp; [done|]. exfalso. apply (not_elem_of_empty (C:=gset string) k).
    rewrite <- Hb. apply elem_of_backlog. by exists e'. }
  split_and!; [done..|]. by apply (ticks_enqueue limit schedule w k e e').
Qed.

(** C13: every event is relayed in the end.  Over any sequence of ticks, some failing
    at any point: as soon as enough of them were undisturbed for the events that
    waited at the start, none waits any more; each has been published and its
    job is in the queue. *)
Theorem relay_drains `{P : Platform} `{!PlatformLaws P} limit schedule w :
  (size (backlog (outbox w)) <= limit * undisturbed schedule)%nat ->
  let w' := ticks limit schedule w in
  backlog (outbox w') = ∅ /\
  forall k e, outbox w !! k = Some e -> published e = false ->
    exists e', outbox w' !! k = Some e' /\ published e' = true /\ message e' = message e /\
      is_Some (relayQueue w' !! k).
Proof. apply ticks_drain. Qed.

Section Witness.
#[local] Existing Instance ref_platform.
#[local] Existing Instance ref_platform_laws.

Definition one_event : World :=
  put Outbox {["e1" := mkOutbox "tx1" "transaction.confirmed" [] false None 5]}
    (fresh_world 10 quiet).

(** One pending event, relayed without faults. *)
Lemma relay_never_loses_events_witness :
  is_Some (relayQueue (run (relay 50) (faults []) one_event).1.2 !! "e1").
Proof.
  apply (relay_never_loses_events 50 [] one_event "e1"
    (mkOutbox "tx1" "transaction.confirmed" [] false None 5)
    (mkOutbox "tx1" "transaction.confirmed" [] true (Some 10) 5)); vm_compute; reflexivity.
Defined.

(** A refused tick and a good one. *)
Lemma relay_drains_witness :
  backlog (outbox (ticks 50 [[Refuse (PlainError "down")]; []] one_event)) = ∅.
Proof.
  apply (relay_drains 50 [[Refuse (PlainError "down")]; []] one_event).
  apply Nat.leb_le. vm_compute. reflexivity.
Defined.
End Witness.
