(* ===== verification/Guarantee.v ===== *)
(** * The guarantee every task gives to every other task

    [steady w w'] relates the worlds before and after any single step the
    program's own tasks may take: transaction rows only move forward, they stay
    consistent with their status, and the outbox holds exactly one
    [transaction.confirmed] event per confirmed transaction; API keys keep their
    identity and a revoked key stays revoked.  The file proves it
    for each primitive operation and registers the results in the [guards]
    database, so that a whole handler is checked by walking its text. *)

From S2P Require Import Prelude JsString Schema Platform Addresses Envelope Encoding StateMachine TransactionRepository Outbox.

Definition CONFIRMED_EVENT : string := "transaction.confirmed".

(** Exactly one event per confirmed transaction. *)
Definition outbox_sound (m : gmap string Transaction) (ev : gmap string OutboxEvent) : Prop :=
  (forall k e, ev !! k = Some e -> ev_type e = CONFIRMED_EVENT ->
     exists t, m !! aggregateId e = Some t /\ status t = CONFIRMED) /\
  (forall k1 k2 e1 e2, ev !! k1 = Some e1 -> ev !! k2 = Some e2 ->
     ev_type e1 = CONFIRMED_EVENT -> ev_type e2 = CONFIRMED_EVENT ->
     aggregateId e1 = aggregateId e2 -> k1 = k2) /\
  (forall id t, m !! id = Some t -> status t = CONFIRMED ->
     exists k e, ev !! k = Some e /\ ev_type e = CONFIRMED_EVENT /\ aggregateId e = id).

Definition ledger_ok `{ChainNodes} (w : World) : Prop :=
  rows_consistent (transactions w) /\ outbox_sound (transactions w) (outbox w).

(** ** API keys *)

(** What never changes in a key, and that a revocation is final. *)
Definition key_evolves (r r' : ApiKey) : Prop :=
  key_tenantId r' = key_tenantId r /\ keyHash r' = keyHash r /\ keyPrefix r' = keyPrefix r /\
  key_expiresAt r' = key_expiresAt r /\
  (revokedAt r <> None -> revokedAt r' = revokedAt r /\ active r' = active r).

Definition keys_evolve (m m' : gmap string ApiKey) : Prop :=
  forall id r, m !! id = Some r -> exists r', m' !! id = Some r' /\ key_evolves r r'.

(** Hashes are unique and in the form [digest('hex')] writes. *)
Definition keys_ok (m : gmap string ApiKey) : Prop :=
  table_ok m /\ map_Forall (fun _ r => exists b, keyHash r = to_hex b) m.

Definition keys_steady (m m' : gmap string ApiKey) : Prop :=
  keys_evolve m m' /\ (keys_ok m -> keys_ok m').

#[global] Instance keys_steady_preorder : PreOrder keys_steady.
Proof.
  split.
  - intros m. split; [|done]. intros id r E. exists r. by split.
  - intros a b c [E1 K1] [E2 K2]. split; [|auto]. intros id r Hr.
    destruct (E1 id r Hr) as (r1 & Hr1 & T1 & H1 & P1 & X1 & R1).
    destruct (E2 id r1 Hr1) as (r2 & Hr2 & T2 & H2 & P2 & X2 & R2).
    exists r2. split; [done|]. split_and!; [congruence..|]. intros Hn.
    destruct (R1 Hn) as [Er Ea]. rewrite <- Er in Hn. destruct (R2 Hn). split; congruence.
Qed.

Definition ledger_steady `{ChainNodes} (w w' : World) : Prop :=
  lifecycle w w' /\ (ledger_ok w -> ledger_ok w').

Definition steady `{ChainNodes} (w w' : World) : Prop :=
  ledger_steady w w' /\ keys_steady (apiKeys w) (apiKeys w').

#[global] Instance steady_preorder `{ChainNodes} : PreOrder steady.
Proof.
  split; [by split|].
  intros a b c [[L1 K1] Y1] [[L2 K2] Y2]. split; [|by etransitivity].
  split; [by etransitivity|auto].
Qed.

(** A component whose replacement touches neither the ledger nor the outbox nor
    the API keys. *)
Class Unrelated `{ChainNodes} {T} (l : lens World T) : Prop :=
  unrelated : forall x w, transactions (put l x w) = transactions w /\
                          outbox (put l x w) = outbox w /\
                          apiKeys (put l x w) = apiKeys w.

Section Unrelated.
Context `{C : ChainNodes}.
#[global] Instance unrelated_tokens : Unrelated Tokens. Proof. done. Qed.
#[global] Instance unrelated_wallets : Unrelated Wallets. Proof. done. Qed.
#[global] Instance unrelated_transfers : Unrelated Transfers. Proof. done. Qed.
#[global] Instance unrelated_cursors : Unrelated Cursors. Proof. done. Qed.
#[global] Instance unrelated_snapshots : Unrelated Snapshots. Proof. done. Qed.
#[global] Instance unrelated_leases : Unrelated Leases. Proof. done. Qed.
#[global] Instance unrelated_idempotency : Unrelated IdempotencyKeys. Proof. done. Qed.
#[global] Instance unrelated_tenants : Unrelated Tenants. Proof. done. Qed.
#[global] Instance unrelated_users : Unrelated Users. Proof. done. Qed.
#[global] Instance unrelated_refresh : Unrelated RefreshTokens. Proof. done. Qed.
#[global] Instance unrelated_audit : Unrelated AuditLogs. Proof. done. Qed.
#[global] Instance unrelated_confirmation : Unrelated ConfirmationQueue. Proof. done. Qed.
#[global] Instance unrelated_relay : Unrelated RelayQueue. Proof. done. Qed.
#[global] Instance unrelated_node : Unrelated Node. Proof. done. Qed.
#[global] Instance unrelated_metrics : Unrelated Metrics. Proof. done. Qed.
#[global] Instance unrelated_clock : Unrelated Clock. Proof. done. Qed.
#[global] Instance unrelated_processing : Unrelated ProcessingTokens. Proof. done. Qed.
#[global] Instance unrelated_learned : Unrelated LearnedMaxBlockRange. Proof. done. Qed.
End Unrelated.

Section Steady.
Context `{C : ChainNodes}.

Lemma steady_same w w' :
  transactions w' = transactions w -> outbox w' = outbox w -> apiKeys w' = apiKeys w ->
  steady w w'.
Proof.
  intros Ht Ho Hk. unfold steady, ledger_steady, lifecycle, ledger_ok. rewrite Ht, Ho, Hk. by split.
Qed.

Lemma steady_ledger w w' : ledger_steady w w' -> apiKeys w' = apiKeys w -> steady w w'.
Proof. intros H Hk. split; [done|]. by rewrite Hk. Qed.

(** Replacing the transaction table, without confirming anything. *)
Lemma steady_transactions m' w :
  lifecycle_table (transactions w) m' ->
  (rows_consistent (transactions w) -> rows_consistent m') ->
  (forall id t', m' !! id = Some t' -> status t' = CONFIRMED ->
     transactions w !! id = Some t') ->
  steady w (put Transactions m' w).
Proof.
  intros HL HR HC. apply steady_ledger; [|done]. split; [done|]. intros [Hrows (Ha & Hb & Hc)]. split; [by apply HR|].
  split; [|split; [done|]]; simpl.
  - intros k e He Ht. destruct (Ha k e He Ht) as (t & Et & St). exists t.
    specialize (HL (aggregateId e)). rewrite Et in HL. destruct HL as (t' & Et' & Ev).
    apply evolves_terminal in Ev; [by subst|]. by rewrite St.
  - intros id t Et St. by apply (Hc id t); [apply HC|].
Qed.

Lemma guards_query {T R} (l : lens World T) (f : T -> R) : guards steady (query l f).
Proof. apply guards_act. intros w. reflexivity. Qed.

Lemma guards_ask {T R} (l : lens World T) (f : T -> R + err) : guards steady (ask l f).
Proof. apply guards_act. intros w. reflexivity. Qed.

Lemma guards_read {R} (f : World -> R + err) :
  guards steady (act (fun w => (f w, w)) : prog' R).
Proof. apply guards_act. intros w. reflexivity. Qed.

Lemma guards_call_unrelated {T R} (l : lens World T) `{!Unrelated l}
    (f : T -> (R + err) * T) : guards steady (call l f).
Proof.
  apply guards_act. intros w. unfold on. simpl.
  destruct (unrelated (l:=l) (f (view l w)).2 w) as (?&?&?). by apply steady_same.
Qed.

Lemma guards_now : guards steady now.
Proof. apply guards_gets. apply _. Qed.

Lemma guards_gets' {R} (f : World -> R) : guards steady (gets f : prog' R).
Proof. apply guards_gets. apply _. Qed.

Lemma guards_put_unrelated {T} (l : lens World T) `{!Unrelated l} (f : World -> T) :
  guards steady (modify (fun w => put l (f w) w) : prog' unit).
Proof.
  apply guards_modify. intros w. destruct (unrelated (l:=l) (f w) w) as (?&?&?). by apply steady_same.
Qed.

Lemma guards_sleep ms : guards steady (sleep ms).
Proof. apply (guards_put_unrelated Clock). Qed.

Lemma guards_assertTransition from to : guards steady (assertTransition from to : prog' unit).
Proof. unfold assertTransition. by destruct (canTransition from to). Qed.
End Steady.

#[export] Hint Resolve guards_query guards_ask guards_read guards_call_unrelated guards_now
  guards_gets' guards_put_unrelated guards_sleep guards_assertTransition : guards.
#[export] Hint Extern 0 (Unrelated _) => apply _ : guards.

(** ** Repository operations *)
Section Operations.
Context `{P : Platform} `{!PlatformLaws P}.

(** An update of one guarded row that moves it forward. *)
Lemma guards_forward_update id (c : Transaction -> bool) to data :
  to <> CONFIRMED ->
  (forall t, c t = true -> forward (status t) to data) ->
  guards steady (call Transactions
    (updateMany (at_id id c) (fun t => data (with_status t to)))).
Proof.
  intros Hto Hd. apply guards_act. intros w. unfold on. cbn [view Transactions].
  destruct (updateMany_cases (at_id id c) (fun t => data (with_status t to))
              (transactions w)) as [[Hok ->]|[_ [e ->]]]; simpl; [|by apply steady_same].
  apply steady_transactions.
  - apply updated_lifecycle. intros t Ht. by apply (Hd t Ht).
  - intros [_ HR]. split; [done|]. intros k t. rewrite lookup_updated, fmap_Some.
    intros (r & Er & ->). specialize (HR k r Er). unfold at_id.
    destruct (String.eqb k id); [|done]. simpl. destruct (c r) eqn:S; [|done].
    by apply (Hd r S).
  - intros k t. rewrite lookup_updated, fmap_Some. intros (r & Er & ->). unfold at_id.
    destruct (String.eqb k id); [|done]. simpl. destruct (c r) eqn:S; [|done].
    destruct (Hd r S) as [_ H]. destruct (H r eq_refl) as (_ & -> & _). congruence.
Qed.

Lemma guards_find_by_id id : guards steady (find_by_id id).
Proof. apply guards_query. Qed.
#[local] Hint Resolve guards_find_by_id : guards.

Lemma guards_transition id from to data :
  to <> CONFIRMED -> forward from to data -> guards steady (transition id from to data).
Proof.
  intros Hto Hf. unfold transition. apply guards_bind; [by apply guards_assertTransition|].
  intros _. apply guards_bind; [|intros n; destruct (Nat.eqb n 1); solve_guards].
  apply guards_forward_update; [done|].
  intros t Ht. unfold has_status in Ht. by apply bool_decide_eq_true_1 in Ht as ->.
Qed.

Lemma guards_transitionFromAny id from to data :
  to <> CONFIRMED -> Forall (fun s => forward s to data) from ->
  guards steady (transitionFromAny id from to data).
Proof.
  intros Hto Hf. unfold transitionFromAny. apply guards_bind; [solve_guards|].
  intros _. apply guards_bind; [|intros n; destruct (Nat.eqb n 1); solve_guards].
  apply guards_forward_update; [done|]. intros t Ht.
  unfold status_in in Ht. apply bool_decide_eq_true_1 in Ht.
  rewrite Forall_forall in Hf. by apply Hf.
Qed.

Lemma forward_submitted h d : forward PENDING SUBMITTED (fun t => with_submission t h d).
Proof.
  split; [done|]. intros t Ht. split; [|split; [done|]].
  - right. split; [rewrite Ht; by apply later_one|]. split; [done|]. by rewrite Ht.
  - unfold row_consistent. rewrite Ht. unfold newborn. simpl. naive_solver.
Qed.

Lemma forward_confirming d :
  forward SUBMITTED CONFIRMING (fun t => with_confirmationStartedAt t d).
Proof.
  split; [done|]. intros t Ht. split; [|split; [done|]].
  - right. split; [rewrite Ht; by apply later_one|]. done.
  - unfold row_consistent. rewrite Ht. simpl. naive_solver.
Qed.

Lemma forward_confirmed b g d :
  is_Some b -> forward CONFIRMING CONFIRMED (fun t => with_confirmation t b g d).
Proof.
  intros Hb. split; [done|]. intros t Ht. split; [|split; [done|]].
  - right. split; [rewrite Ht; by apply later_one|]. done.
  - unfold row_consistent. rewrite Ht. simpl. naive_solver.
Qed.

Lemma forward_expired r d : forward CONFIRMING EXPIRED (fun t => with_failure t r d).
Proof.
  split; [done|]. intros t Ht. split; [|split; [done|]].
  - right. split; [rewrite Ht; by apply later_one|]. done.
  - unfold row_consistent. rewrite Ht. simpl. naive_solver.
Qed.

Lemma forward_failed s r d :
  s = PENDING \/ s = CONFIRMING -> forward s FAILED (fun t => with_failure t r d).
Proof.
  intros Hs. split; [by destruct Hs as [->| ->]|]. intros t Ht. split; [|split; [done|]].
  - right. split; [rewrite Ht; apply later_one; by destruct Hs as [->| ->]|].
    split; [done|]. done.
  - unfold row_consistent. rewrite Ht. destruct Hs as [->| ->]; simpl.
    + unfold newborn. naive_solver.
    + intros (Hh & Hs & _ & Hc & Hb & _). split_and!; [done..|].
      destruct Hh as [? ->], Hs as [? ->]. done.
Qed.

Lemma guards_markSubmitted id h : guards steady (markSubmitted id h).
Proof.
  unfold markSubmitted. solve_guards. apply guards_transition; [done|].
  apply forward_submitted.
Qed.

Lemma guards_markConfirming id : guards steady (markConfirming id).
Proof.
  unfold markConfirming. solve_guards. apply guards_transition; [done|].
  apply forward_confirming.
Qed.

Lemma guards_markFailed id r : guards steady (markFailed id r).
Proof.
  unfold markFailed. solve_guards. apply guards_transitionFromAny; [done|].
  repeat apply Forall_cons_2; [apply forward_failed; auto..|constructor].
Qed.

Lemma guards_expire id r : guards steady (expire id r).
Proof.
  unfold expire. solve_guards. apply guards_transition; [done|]. apply forward_expired.
Qed.

Lemma guards_create t : newborn t -> guards steady (TransactionRepository.create t).
Proof.
  intros Hn. apply guards_act. intros w. unfold on. cbn [view Transactions].
  destruct (create_cases t (transactions w)) as [[Hok ->]|[c ->]]; simpl;
    [|by apply steady_same].
  assert (Hnew : transactions w !! uuid (transactions w) = None) by apply uuid_fresh.
  apply steady_transactions.
  - by apply inserted_lifecycle.
  - intros [_ HR]. split; [done|]. apply map_Forall_insert_2; [|done].
    unfold row_consistent. by rewrite (proj1 Hn).
  - intros id t'. destruct (decide (id = uuid (transactions w))) as [->|Hne].
    + rewrite lookup_insert_eq. intros [= <-] Hs. by rewrite (proj1 Hn) in Hs.
    + by rewrite lookup_insert_ne.
Qed.

Lemma guards_findById id tenant : guards steady (findById id tenant).
Proof.
  apply guards_act. intros w. destruct (findUnique _ _) as [kt|]; [|reflexivity].
  by destruct (join_relations w kt).
Qed.

Lemma guards_findOrphaned d n : guards steady (findOrphanedPendingCandidates d n).
Proof. apply guards_act. intros w. by destruct (mapM _ _). Qed.

Lemma guards_findSlice {R X} (l : lens World (gmap string R)) (join : World -> string * R -> option X) w o s n :
  guards steady (findSlice l join w o s n).
Proof.
  unfold findSlice. destruct (int_arg s); [|done]. destruct (int_arg n); [|done].
  destruct (_ <? 0); [done|]. apply guards_act. intros x. cbv zeta. by destruct (mapM _ _).
Qed.

(** Marking events as published keeps the outbox sound. *)
Lemma guards_markPublished ids : guards steady (markPublished ids).
Proof.
  unfold markPublished. destruct ids as [|i ids]; [done|]. solve_guards.
  apply guards_act. intros w. unfold on. cbn [view Outbox].
  destruct (updateMany_cases (fun k (_ : OutboxEvent) => bool_decide (k ∈ i :: ids))
              (set_published a) (outbox w)) as [[_ ->]|[_ [c ->]]]; simpl;
    [|by apply steady_same].
  apply steady_ledger; [|done]. split; [unfold lifecycle; simpl; reflexivity|]. intros [HR (Ha & Hb & Hc)].
  split; [done|]. simpl.
  assert (Hup : forall k e, updated (fun k (_ : OutboxEvent) => bool_decide (k ∈ i :: ids))
    (set_published a) (outbox w) !! k = Some e ->
    exists e0, outbox w !! k = Some e0 /\ ev_type e0 = ev_type e /\ aggregateId e0 = aggregateId e).
  { intros k e. rewrite lookup_updated, fmap_Some. intros (e0 & E & ->).
    exists e0. by case_bool_decide. }
  split; [|split].
  - intros k e (e0 & E & T & A)%Hup Ht. rewrite <- A. apply (Ha k e0 E). congruence.
  - intros k1 k2 e1 e2 (x & Ex & Tx & Ax)%Hup (y & Ey & Ty & Ay)%Hup H1 H2 Hag.
    apply (Hb k1 k2 x y); congruence.
  - intros id t Et St. destruct (Hc id t Et St) as (k & e & Ek & Te & Ae). exists k.
    rewrite lookup_updated, Ek. eexists. split; [done|]. simpl. by case_bool_decide.
Qed.
End Operations.

#[export] Hint Resolve guards_find_by_id guards_markSubmitted guards_markConfirming
  guards_markFailed guards_expire guards_create guards_findById guards_findOrphaned
  guards_markPublished guards_findSlice : guards.
