(* ===== verification/Ledger.v ===== *)
(** * The ledger, as a specification

    What the whole program promises about transfers, without tables, queues,
    workers or chains: a transfer is opened, broadcast under a hash, observed
    and settled, and announced at the moment it is settled; or it fails or
    expires.  [Simulation] relates the database to it. *)

From S2P Require Import Prelude JsString Schema Platform StateMachine TransactionRepository Outbox Addresses Envelope Encoding Guarantee.

(** Who transfers what to whom, and when it was asked for. *)
Definition terms : Type := string * string * string * string * Z * Z.

Record entry := mkEntryOf { agreed : terms; state : TransactionStatus; hash_ : option string }.

Record ledger := mkLedger { entries : gmap string entry; announced : gset string }.

Inductive ledger_step : ledger -> ledger -> Prop :=
| step_open id t l :
    entries l !! id = None ->
    ledger_step l (mkLedger (<[id := mkEntryOf t PENDING None]> (entries l)) (announced l))
| step_broadcast id t h l :
    entries l !! id = Some (mkEntryOf t PENDING None) ->
    ledger_step l (mkLedger (<[id := mkEntryOf t SUBMITTED (Some h)]> (entries l)) (announced l))
| step_reject id t l :
    entries l !! id = Some (mkEntryOf t PENDING None) ->
    ledger_step l (mkLedger (<[id := mkEntryOf t FAILED None]> (entries l)) (announced l))
| step_observe id t h l :
    entries l !! id = Some (mkEntryOf t SUBMITTED h) ->
    ledger_step l (mkLedger (<[id := mkEntryOf t CONFIRMING h]> (entries l)) (announced l))
| step_settle id t h l :
    entries l !! id = Some (mkEntryOf t CONFIRMING h) ->
    ledger_step l (mkLedger (<[id := mkEntryOf t CONFIRMED h]> (entries l)) ({[id]} ∪ announced l))
| step_give_up id t h s l :
    entries l !! id = Some (mkEntryOf t CONFIRMING h) -> s = FAILED \/ s = EXPIRED ->
    ledger_step l (mkLedger (<[id := mkEntryOf t s h]> (entries l)) (announced l)).

(** ** What the specification implies *)

(** Exactly the settled transfers are announced. *)
Definition announced_ok (l : ledger) : Prop :=
  forall id, id ∈ announced l <-> exists e, entries l !! id = Some e /\ state e = CONFIRMED.

Lemma ledger_step_announced l l' : ledger_step l l' -> announced_ok l -> announced_ok l'.
Proof.
  assert (Hset : forall (m : gmap string entry) id e k,
    (exists x, <[id := e]> m !! k = Some x /\ state x = CONFIRMED) <->
    (k = id /\ state e = CONFIRMED) \/ (k <> id /\ exists x, m !! k = Some x /\ state x = CONFIRMED)).
  { intros m id e k. destruct (decide (k = id)) as [->|Hne].
    - rewrite lookup_insert_eq. naive_solver.
    - rewrite lookup_insert_ne by done. naive_solver. }
  unfold announced_ok. intros Hs Hok k. destruct Hs as [id t l E|id t h l E|id t l E|id t h l E|id t h l E|id t h s l E Hc];
    cbn [entries announced]; rewrite Hset; rewrite ?elem_of_union, ?elem_of_singleton, Hok; cbn [state].
  all: destruct (decide (k = id)) as [->|Hne]; [rewrite E|]; naive_solver.
Qed.

(** ** The database as a ledger *)

Definition entry_of (t : Transaction) : entry :=
  mkEntryOf (tenantId t, tokenId t, fromWalletId t, toWalletId t, amount t, createdAt t)
    (status t) (txHash t).

(** The transactions the outbox has an event for. *)
Definition announcements (ev : gmap string OutboxEvent) : gset string :=
  list_to_set (map (fun ke => aggregateId ke.2)
    (List.filter (fun ke => String.eqb (ev_type ke.2) CONFIRMED_EVENT) (map_to_list ev))).

Definition ledger_of `{ChainNodes} (w : World) : ledger :=
  mkLedger (entry_of <$> transactions w) (announcements (outbox w)).

Lemma elem_of_announcements ev id :
  id ∈ announcements ev <->
  exists k e, ev !! k = Some e /\ ev_type e = CONFIRMED_EVENT /\ aggregateId e = id.
Proof.
  unfold announcements. rewrite elem_of_list_to_set, list_elem_of_In, in_map_iff. split.
  - intros ([k e] & <- & Hin). apply filter_In in Hin as [Hin Ht].
    apply list_elem_of_In, elem_of_map_to_list in Hin. exists k, e. split_and!; [done| |done].
    by apply String.eqb_eq.
  - intros (k & e & E & Ht & <-). exists (k, e). split; [done|]. apply filter_In. split.
    + by apply list_elem_of_In, elem_of_map_to_list.
    + by apply String.eqb_eq.
Qed.

Lemma ledger_of_announced `{ChainNodes} w : ledger_ok w -> announced_ok (ledger_of w).
Proof.
  intros [_ (Ha & _ & Hc)] id. cbn [announced entries ledger_of]. rewrite elem_of_announcements.
  split.
  - intros (k & e & E & Ht & <-). destruct (Ha k e E Ht) as (t & Et & St).
    exists (entry_of t). by rewrite lookup_fmap, Et.
  - intros (x & Ex & Sx). rewrite lookup_fmap in Ex. apply fmap_Some in Ex as (t & Et & ->).
    by apply (Hc id t).
Qed.

(** ** Simulation *)

(** The entry becomes [e]; a settled one is announced. *)
Definition set_entry (id : string) (e : entry) (l : ledger) : ledger :=
  mkLedger (<[id := e]> (entries l))
    (if decide (state e = CONFIRMED) then {[id]} ∪ announced l else announced l).

Lemma set_entry_twice id e e' l :
  state e <> CONFIRMED -> set_entry id e' (set_entry id e l) = set_entry id e' l.
Proof.
  intros H. unfold set_entry. cbn [entries announced].
  rewrite (decide_False (P:=state e = CONFIRMED)) by done. by rewrite insert_insert_eq.
Qed.

Lemma set_entry_same id e l :
  entries l !! id = Some e -> (state e = CONFIRMED -> id ∈ announced l) -> set_entry id e l = l.
Proof.
  intros E H. unfold set_entry. rewrite insert_id by done.
  destruct (decide _) as [Hc|]; [|by destruct l].
  replace ({[id]} ∪ announced l) with (announced l); [by destruct l|].
  apply leibniz_equiv. specialize (H Hc). set_solver.
Qed.

Lemma lookup_set_entry id e l : entries (set_entry id e l) !! id = Some e.
Proof. apply lookup_insert_eq. Qed.

Lemma from_confirming id t h s l :
  entries l !! id = Some (mkEntryOf t CONFIRMING h) -> terminal s = true ->
  ledger_step l (set_entry id (mkEntryOf t s h) l).
Proof.
  intros E Hs. unfold set_entry. cbn [state]. destruct s; try done; cbn.
  - by apply step_settle.
  - eapply step_give_up; [exact E|by left].
  - eapply step_give_up; [exact E|by right].
Qed.

Lemma from_submitted id t h s l :
  entries l !! id = Some (mkEntryOf t SUBMITTED h) -> s = CONFIRMING \/ terminal s = true ->
  rtc ledger_step l (set_entry id (mkEntryOf t s h) l).
Proof.
  intros E Hs. apply rtc_l with (set_entry id (mkEntryOf t CONFIRMING h) l).
  - by apply step_observe.
  - destruct Hs as [->|Hs]; [done|]. apply rtc_once.
    rewrite <- (set_entry_twice id (mkEntryOf t CONFIRMING h) (mkEntryOf t s h) l) by done.
    apply from_confirming; [apply lookup_set_entry|done].
Qed.

Lemma from_pending id t h s l :
  entries l !! id = Some (mkEntryOf t PENDING None) -> s <> PENDING ->
  (h = None <-> s = FAILED /\ h = None) ->
  rtc ledger_step l (set_entry id (mkEntryOf t s h) l).
Proof.
  intros E Hs Hh. destruct h as [h|].
  - apply rtc_l with (set_entry id (mkEntryOf t SUBMITTED (Some h)) l); [by apply (step_broadcast id t h)|].
    destruct (decide (s = SUBMITTED)) as [->|Hn]; [done|].
    rewrite <- (set_entry_twice id (mkEntryOf t SUBMITTED (Some h)) (mkEntryOf t s (Some h)) l) by done.
    apply from_submitted; [apply lookup_set_entry|]. destruct s; auto; done.
  - destruct Hh as [Hh _]. destruct (Hh eq_refl) as [-> _]. apply rtc_once.
    by apply (step_reject id t).
Qed.

Lemma consistent_hash t : row_consistent t -> status t <> PENDING -> status t <> FAILED -> txHash t <> None.
Proof.
  unfold row_consistent. destruct (status t); try done; intros (Hh & _) _ _; by destruct Hh as [? ->].
Qed.

(** One row that evolved is a run of the ledger. *)
Lemma evolved_entry id t t' l :
  entries l !! id = Some (entry_of t) -> (status t = CONFIRMED -> id ∈ announced l) ->
  row_consistent t -> row_consistent t' -> evolves t t' ->
  rtc ledger_step l (set_entry id (entry_of t') l).
Proof.
  intros E Hann Rt Rt' [<-|(Hl & Hd & Hh)]; [by rewrite set_entry_same|].
  assert (He : entry_of t' = mkEntryOf (agreed (entry_of t)) (status t') (txHash t')).
  { unfold entry_of. cbn. by rewrite Hd. }
  rewrite He. pose proof (later_rank _ _ Hl) as Hr. pose proof (consistent_hash t' Rt') as Hc.
  destruct (status t) eqn:St; cbn in Hr.
  - apply from_pending.
    + rewrite E. unfold entry_of. rewrite St. unfold row_consistent in Rt. rewrite St in Rt.
      destruct Rt as (_ & -> & _). done.
    + by intros Hp; rewrite Hp in Hr; cbn in Hr; lia.
    + split; [|naive_solver]. intros Hn. split; [|done].
      destruct (status t') eqn:St'; cbn in Hr; try lia; try done; exfalso; by apply Hc.
  - apply from_submitted.
    + rewrite E. unfold entry_of. by rewrite St, Hh.
    + destruct (status t'); cbn in Hr; try lia; auto.
  - apply rtc_once, from_confirming.
    + rewrite E. unfold entry_of. by rewrite St, Hh.
    + destruct (status t'); cbn in Hr; try lia; auto.
  - by apply terminal_not_later in Hl.
  - by apply terminal_not_later in Hl.
  - by apply terminal_not_later in Hl.
Qed.

Lemma new_entry id t' l :
  entries l !! id = None -> row_consistent t' -> (exists t, newborn t /\ evolves t t') ->
  rtc ledger_step l (set_entry id (entry_of t') l).
Proof.
  intros E Rt' (t & Hn & Ev).
  assert (Rt : row_consistent t) by (unfold row_consistent; by rewrite (proj1 Hn)).
  assert (He : entry_of t = mkEntryOf (agreed (entry_of t)) PENDING None).
  { destruct Hn as (S & H & _). unfold entry_of. cbn. by rewrite S, H. }
  apply rtc_l with (set_entry id (entry_of t) l).
  - rewrite He. by apply step_open.
  - rewrite <- (set_entry_twice id (entry_of t) (entry_of t') l) by (rewrite He; done).
    apply (evolved_entry id t); [apply lookup_set_entry| |done|done|done].
    by rewrite (proj1 Hn).
Qed.

(** All rows of a table, one after the other. *)
Definition replay (rows_ : list (string * Transaction)) (l : ledger) : ledger :=
  foldr (fun kt l => set_entry kt.1 (entry_of kt.2) l) l rows_.

Lemma replay_other rows_ l id :
  id ∉ rows_.*1 -> entries (replay rows_ l) !! id = entries l !! id.
Proof.
  induction rows_ as [|[k t] r IH]; [done|]. rewrite fmap_cons, not_elem_of_cons. intros [Hne Hn].
  cbn. rewrite lookup_insert_ne by (cbn in Hne; congruence). by apply IH.
Qed.

Lemma replay_row rows_ l id t :
  NoDup rows_.*1 -> (id, t) ∈ rows_ -> entries (replay rows_ l) !! id = Some (entry_of t).
Proof.
  induction rows_ as [|[k x] r IH]; [by intros _ ?%not_elem_of_nil|].
  rewrite fmap_cons, NoDup_cons. intros [Hn Hnd] Hin. cbn.
  apply elem_of_cons in Hin as [[= -> ->]|Hin]; [apply lookup_insert_eq|].
  rewrite lookup_insert_ne; [by apply IH|]. intros ->. apply Hn. cbn.
  apply list_elem_of_fmap. by exists (id, t).
Qed.

Lemma replay_announced rows_ l id :
  id ∈ announced (replay rows_ l) <->
  id ∈ announced l \/ exists t, (id, t) ∈ rows_ /\ status t = CONFIRMED.
Proof.
  induction rows_ as [|[k x] r IH].
  - cbn. split; [by left|]. intros [|(t & Hin & _)]; [done|by apply not_elem_of_nil in Hin].
  - cbn [replay foldr]. unfold set_entry at 1. cbn [announced fst snd]. change (foldr _ l r) with (replay r l).
    destruct (decide (state (entry_of x) = CONFIRMED)) as [Hc|Hc];
      rewrite ?elem_of_union, ?elem_of_singleton, IH; cbn in Hc; split.
    + intros [->|[|(t & Hin & Ht)]]; [right; exists x; split; [left|done]|by left|].
      right. exists t. split; [by right|done].
    + intros [|(t & Hin & Ht)]; [by right; left|].
      apply elem_of_cons in Hin as [[= -> ->]|Hin]; [by left|]. right. right. by exists t.
    + intros [|(t & Hin & Ht)]; [by left|]. right. exists t. split; [by right|done].
    + intros [|(t & Hin & Ht)]; [by left|].
      apply elem_of_cons in Hin as [[= -> ->]|Hin]; [done|]. right. by exists t.
Qed.

Section Simulation.
Context `{C : ChainNodes} (w w' : World).
Context (Hok : ledger_ok w) (Hok' : ledger_ok w') (HL : lifecycle w w').

(** One row of the new table, in a ledger that has not taken it over yet. *)
Lemma row_run id t' l :
  transactions w' !! id = Some t' ->
  entries l !! id = entries (ledger_of w) !! id ->
  (id ∈ announced (ledger_of w) -> id ∈ announced l) ->
  rtc ledger_step l (set_entry id (entry_of t') l).
Proof.
  intros E' El Ha. assert (R' : row_consistent t') by (by apply (proj2 (proj1 Hok') id)).
  pose proof (HL id) as Hid. cbn [ledger_of entries] in El. rewrite lookup_fmap in El.
  destruct (transactions w !! id) as [t|] eqn:E.
  - destruct Hid as (t'' & E'' & Ev). assert (t'' = t') as -> by congruence.
    apply (evolved_entry id t); [done| |by apply (proj2 (proj1 Hok) id)|done|done].
    intros Hc. apply Ha, (ledger_of_announced w Hok). exists (entry_of t).
    cbn [ledger_of entries]. by rewrite lookup_fmap, E.
  - apply new_entry; [done|done|by apply Hid].
Qed.

Lemma replay_run rows_ :
  NoDup rows_.*1 -> (forall id t, (id, t) ∈ rows_ -> transactions w' !! id = Some t) ->
  rtc ledger_step (ledger_of w) (replay rows_ (ledger_of w)).
Proof.
  induction rows_ as [|[id t'] r IH]; [done|]. rewrite fmap_cons, NoDup_cons. intros [Hn Hnd] Hr.
  etransitivity; [apply IH; [done|]|].
  - intros k t Hin. apply Hr. by right.
  - apply row_run; [apply Hr; left|by apply replay_other|].
    intros Hin. apply replay_announced. by left.
Qed.

Lemma replay_all : replay (map_to_list (transactions w')) (ledger_of w) = ledger_of w'.
Proof.
  set (rows_ := map_to_list (transactions w')).
  assert (Hnd : NoDup rows_.*1) by apply NoDup_fst_map_to_list.
  assert (He : entries (replay rows_ (ledger_of w)) = entries (ledger_of w')).
  { apply map_eq. intros id. cbn [ledger_of entries]. rewrite lookup_fmap.
    destruct (transactions w' !! id) as [t'|] eqn:E'.
    - apply replay_row; [done|]. by apply elem_of_map_to_list.
    - rewrite replay_other.
      + cbn [ledger_of entries]. rewrite lookup_fmap. pose proof (HL id) as Hid.
        destruct (transactions w !! id) as [t|]; [|done].
        destruct Hid as (t' & Et' & _). congruence.
      + intros Hin. apply list_elem_of_fmap in Hin as ([k t] & -> & Hin).
        apply elem_of_map_to_list in Hin. cbn in E'. congruence. }
  assert (Ha : announced (replay rows_ (ledger_of w)) = announced (ledger_of w')).
  { apply leibniz_equiv. intros id. rewrite replay_announced.
    pose proof (ledger_of_announced w Hok id) as Hw. pose proof (ledger_of_announced w' Hok' id) as Hw'.
    rewrite Hw, Hw'. clear Hw Hw'. cbn [ledger_of entries]. rewrite !lookup_fmap. split.
    - intros [(x & Ex & Sx)|(t & Hin & St)].
      + apply fmap_Some in Ex as (t & Et & ->). pose proof (HL id) as Hid. rewrite Et in Hid.
        destruct Hid as (t' & Et' & Ev). cbn in Sx. apply evolves_terminal in Ev; [|by rewrite Sx].
        subst t'. exists (entry_of t). by rewrite Et'.
      + apply elem_of_map_to_list in Hin. exists (entry_of t). by rewrite Hin.
    - intros (x & Ex & Sx). apply fmap_Some in Ex as (t & Et & ->). right. exists t.
      split; [by apply elem_of_map_to_list|done]. }
  destruct (replay rows_ (ledger_of w)), (ledger_of w'). cbn in He, Ha. by subst.
Qed.

(** Sound databases related by the lifecycle are related by the specification. *)
Lemma lifecycle_simulates : rtc ledger_step (ledger_of w) (ledger_of w').
Proof.
  rewrite <- replay_all. apply replay_run; [apply NoDup_fst_map_to_list|].
  intros id t. apply elem_of_map_to_list.
Qed.
End Simulation.
