(* ===== verification/Tracing.v ===== *)
(** * Tracing

    [src/observability/tracing.ts]: spans around the business code.  The
    OpenTelemetry SDK is third-party code whose every call may throw; it keeps
    its own state, outside the world the programs act on. *)

From S2P Require Import Prelude JsString Schema Platform Reference Guarantee.
#[local] Open Scope Z_scope.

Inductive attribute := AString (s : string) | ANumber (z : Z) | ABool (b : bool).

(** [@opentelemetry/api] *)
Class Otel `{ChainNodes} := {
  OtelSpan : Type;
  otel_startSpan : string -> list (string * attribute) -> World -> OtelSpan + err;
  otel_end : OtelSpan -> World -> unit + err;
  otel_setAttribute : OtelSpan -> string -> attribute -> World -> unit + err;
  otel_addEvent : OtelSpan -> string -> list (string * attribute) -> World -> unit + err;
  otel_recordException : OtelSpan -> err -> World -> unit + err;
  (** [true] is [SpanStatusCode.OK]. *)
  otel_setStatus : OtelSpan -> bool -> World -> unit + err;
  (** Trace id, span id and [isSpanContextValid] of the active span, if any. *)
  otel_active : World -> option (string * string * bool) + err }.

(** The interface the business code sees. *)
Record Span `{ChainNodes} := mkSpan {
  span_end : prog' unit;
  setAttribute : string -> attribute -> prog' unit;
  addEvent : string -> list (string * attribute) -> prog' unit;
  recordException : err -> prog' unit;
  setStatus : bool -> prog' unit }.

Section Tracing.
Context `{C : ChainNodes} `{O : !Otel}.

(** A call to the SDK, which may throw. *)
Definition sdk {R} (f : World -> R + err) : prog' R := let! r := gets f in rethrow r.

(** [try { ... } catch (error) { getLogger().warn(...) }] *)
Definition defensively (p : prog' unit) : prog' unit := catch p (fun _ => Ret tt).

Definition OtelSpanAdapter (s : OtelSpan) : Span :=
  mkSpan _
    (defensively (sdk (otel_end s)))
    (fun k a => defensively (sdk (otel_setAttribute s k a)))
    (fun n l => defensively (sdk (otel_addEvent s n l)))
    (fun e => defensively (sdk (otel_recordException s e)))
    (fun ok => defensively (sdk (otel_setStatus s ok))).

Definition NoopSpan : Span :=
  mkSpan _ (Ret tt) (fun _ _ => Ret tt) (fun _ _ => Ret tt) (fun _ => Ret tt) (fun _ => Ret tt).

Definition startSpan (name : string) (attributes : list (string * attribute)) : prog' Span :=
  catch (let! s := sdk (otel_startSpan name attributes) in Ret (OtelSpanAdapter s))
        (fun _ => Ret NoopSpan).

(** The active context, which only the SDK reads, is not part of the world. *)
Definition withSpan {T} (name : string) (fn : Span -> prog' T)
    (attributes : list (string * attribute)) : prog' T :=
  let! otelSpan := sdk (otel_startSpan name attributes) in
  let span := OtelSpanAdapter otelSpan in
  finally
    (catch
       (let! result := fn span in
        do! setStatus span true in
        Ret result)
       (fun e =>
          do! recordException span e in
          do! setStatus span false in
          Throw e))
    (span_end span).

Definition getActiveTraceContext : prog' (option (string * string)) :=
  catch
    (let! s := sdk otel_active in
     match s with
     | Some (trace, span, true) => Ret (Some (trace, span))
     | _ => Ret None
     end)
    (fun _ => Ret None).

(** ** Tracing does not get in the way *)

Lemma run_sdk {R} (f : World -> R + err) env w : run (sdk f) env w = (f w, w, env).
Proof. unfold sdk. by rewrite run_bind, run_gets, run_rethrow. Qed.

(** A span's operations: they return, whatever the SDK does, and change nothing. *)
Definition silent (p : prog' unit) : Prop := forall env w, run p env w = (inl tt, w, env).

Lemma silent_defensively (f : World -> unit + err) : silent (defensively (sdk f)).
Proof.
  intros env w. unfold defensively. rewrite run_catch, run_sdk. by destruct (f w) as [[]|].
Qed.

Lemma run_finally {T} (p : prog' T) fin env w :
  silent fin -> run (finally p fin) env w = run p env w.
Proof.
  intros Hs. unfold finally. rewrite run_bind, run_attempt, run_bind, Hs, run_rethrow.
  by destruct (run p env w) as [[r w'] env'].
Qed.

Lemma run_then_silent {T} (p : prog' unit) (q : prog' T) env w :
  silent p -> run (bind p (fun _ => q)) env w = run q env w.
Proof. intros Hs. by rewrite run_bind, Hs. Qed.
End Tracing.

(** A traced task is the task.  Under any interference and any failures,
    running work inside a span has exactly the outcome of the work alone, result
    or exception, whatever the span's own operations throw, provided the span
    could be started. *)
Theorem withSpan_transparent `{C : ChainNodes} `{O : !Otel} {T} name (fn : Span -> prog' T)
    attributes s env w :
  otel_startSpan name attributes w = inl s ->
  run (withSpan name fn attributes) env w = run (fn (OtelSpanAdapter s)) env w.
Proof.
  intros Hs. unfold withSpan. rewrite run_bind, run_sdk, Hs.
  rewrite run_finally by apply silent_defensively. rewrite run_catch, run_bind.
  destruct (run (fn (OtelSpanAdapter s)) env w) as [[[a|e] w'] env'].
  - rewrite run_then_silent by apply silent_defensively. done.
  - rewrite run_then_silent by apply silent_defensively.
    rewrite run_then_silent by apply silent_defensively. done.
Qed.

(** Starting a span by [startSpan] never throws; inside [withSpan] it does, and the
    work is not done. *)
Lemma startSpan_returns `{C : ChainNodes} `{O : !Otel} name attributes env w :
  exists s, run (startSpan name attributes) env w = (inl s, w, env).
Proof.
  unfold startSpan. rewrite run_catch, run_bind, run_sdk.
  destruct (otel_startSpan name attributes w); by eexists.
Qed.

Lemma withSpan_start_failure `{C : ChainNodes} `{O : !Otel} {T} name (fn : Span -> prog' T)
    attributes e env w :
  otel_startSpan name attributes w = inr e ->
  run (withSpan name fn attributes) env w = (inr e, w, env).
Proof. intros Hs. unfold withSpan. by rewrite run_bind, run_sdk, Hs. Qed.

Section Witness.
#[local] Existing Instance ref_platform.

(** An SDK that starts spans and throws at everything else. *)
#[local] Instance broken_sdk : Otel := {|
  OtelSpan := unit;
  otel_startSpan n a w := inl tt;
  otel_end s w := inr (PlainError "exporter down");
  otel_setAttribute s k a w := inr (PlainError "exporter down");
  otel_addEvent s n a w := inr (PlainError "exporter down");
  otel_recordException s e w := inr (PlainError "exporter down");
  otel_setStatus s ok w := inr (PlainError "exporter down");
  otel_active w := inr (PlainError "no context") |}.

Definition traced (span : Span) : prog' Z := do! setAttribute span "attempt" (ANumber 1) in now.

Lemma withSpan_transparent_witness :
  run (withSpan "confirm" traced []) [] (fresh_world 42 quiet) = (inl 42, fresh_world 42 quiet, []).
Proof.
  etransitivity; [eapply (withSpan_transparent "confirm" traced [])|]; reflexivity.
Defined.
End Witness.
