(* ===== verification/Metrics.v ===== *)
(** * Metrics

    The counters, gauges and histograms of [src/observability] and
    [src/metrics] with their declared labels, and the helpers of
    [src/observability/metrics.ts], which never let a metrics problem reach the
    caller. *)

From S2P Require Import Prelude JsString Schema Platform Reference Guarantee.

Record Metric := mkMetric { metric_name : string; labelNames : list string }.

Definition transactionsCreatedTotal := mkMetric "transactions_created_total" ["tenantId"; "tokenId"].
Definition transactionsSubmittedTotal := mkMetric "transactions_submitted_total" ["tenantId"; "tokenId"].
Definition transactionsConfirmedTotal := mkMetric "transactions_confirmed_total" ["tenantId"; "tokenId"].
Definition transactionsFailedTotal :=
  mkMetric "transactions_failed_total" ["tenantId"; "tokenId"; "status"].
Definition transactionsRevertedTotal := mkMetric "transactions_reverted_total" ["tenantId"; "tokenId"].
Definition transactionSubmissionDurationSeconds :=
  mkMetric "transaction_submission_duration_seconds" ["tenantId"; "tokenId"].
Definition transactionConfirmationDurationSeconds :=
  mkMetric "transaction_confirmation_duration_seconds" ["tenantId"; "tokenId"].
Definition workerCyclesTotal := mkMetric "worker_cycles_total" ["worker_name"].
Definition workerFailuresTotal := mkMetric "worker_failures_total" ["worker_name"].
Definition workerDurationSeconds := mkMetric "worker_duration_seconds" ["worker_name"].
Definition workerReady := mkMetric "worker_ready" ["worker_name"].
Definition confirmationWorkerPendingTransactions :=
  mkMetric "confirmation_worker_pending_transactions" [].
Definition rpcRequestsTotal := mkMetric "blockchain_rpc_requests_total" ["method"; "status"].
Definition rpcFailuresTotal := mkMetric "blockchain_rpc_failures_total" ["method"; "reason"].
Definition rpcRetriesTotal := mkMetric "blockchain_rpc_retries_total" ["method"].
Definition rpcDurationSeconds := mkMetric "blockchain_rpc_duration_seconds" ["method"].
Definition balanceReconciliationSnapshots :=
  mkMetric "balance_reconciliation_snapshots" ["blockchain"; "result"].
Definition balanceReconciliationLastSweepTimestamp :=
  mkMetric "balance_reconciliation_last_sweep_timestamp_seconds" [].
Definition eventListenerCyclesTotal := mkMetric "event_listener_cycles_total" [].
Definition eventListenerFailuresTotal := mkMetric "event_listener_failures_total" [].
Definition eventListenerEventsProcessedTotal :=
  mkMetric "event_listener_events_processed_total" [].
Definition eventListenerEventsSkippedTotal := mkMetric "event_listener_events_skipped_total" [].
Definition eventListenerDuration := mkMetric "event_listener_processing_duration_seconds" [].
Definition eventListenerLagBlocks := mkMetric "event_listener_lag_blocks" ["token_id"].

Section Metrics.
Context `{P : Platform}.

(** prom-client's own check, then the sample. *)
Definition report (m : Metric) (labels : list (string * string)) (s : sample) : prog' unit :=
  if prom_accepts (labelNames m) labels
  then modify (fun w => put Metrics (s :: metrics w) w)
  else Throw (PlainError "Added label is not included in initial labelset").

(** [metric.inc(labels, by)], [metric.set(labels, v)], [metric.observe(labels, _)] *)
Definition inc (m : Metric) (labels : list (string * string)) (by_ : Z) : prog' unit :=
  report m labels (Inc (metric_name m) labels by_).
Definition set (m : Metric) (labels : list (string * string)) (v : Z) : prog' unit :=
  report m labels (SetGauge (metric_name m) labels v).

Definition incrementMetric (m : Metric) (labels : list (string * string)) : prog' unit :=
  catch (inc m labels 1) (fun _ => Ret tt).

Definition observeMetric (m : Metric) (labels : list (string * string)) : prog' unit :=
  catch (report m labels (Observe (metric_name m) labels)) (fun _ => Ret tt).

Definition recordRpcRetry (method : string) : prog' unit :=
  inc rpcRetriesTotal [("method", method)] 1.

Definition recordRpcFailure (method reason : string) : prog' unit :=
  inc rpcFailuresTotal [("method", method); ("reason", reason)] 1.

Lemma guards_report m ls s : guards steady (report m ls s).
Proof. unfold report. solve_guards. Qed.

Lemma guards_inc m ls b : guards steady (inc m ls b).
Proof. apply guards_report. Qed.
Lemma guards_set m ls b : guards steady (set m ls b).
Proof. apply guards_report. Qed.

Lemma guards_incrementMetric m ls : guards steady (incrementMetric m ls).
Proof. apply guards_catch; [apply guards_report|done]. Qed.
Lemma guards_observeMetric m ls : guards steady (observeMetric m ls).
Proof. apply guards_catch; [apply guards_report|done]. Qed.

Lemma incrementMetric_exec m ls w :
  exec (incrementMetric m ls) w =
  (inl tt, if prom_accepts (labelNames m) ls
           then put Metrics (Inc (metric_name m) ls 1 :: metrics w) w else w).
Proof.
  unfold incrementMetric, inc, report. rewrite exec_catch.
  by destruct (prom_accepts (labelNames m) ls).
Qed.

Lemma observeMetric_exec m ls w :
  exec (observeMetric m ls) w =
  (inl tt, if prom_accepts (labelNames m) ls
           then put Metrics (Observe (metric_name m) ls :: metrics w) w else w).
Proof.
  unfold observeMetric, report. rewrite exec_catch.
  by destruct (prom_accepts (labelNames m) ls).
Qed.
End Metrics.

#[export] Hint Resolve guards_report guards_inc guards_set guards_incrementMetric
  guards_observeMetric : guards.

(** Labels that match the declaration are accepted. *)
Ltac accepted := rewrite (proj2 (prom_accepts_spec _ _)) by (repeat constructor; set_solver).

(** Two worlds that differ at most in the recorded metrics. *)
Definition same_but_metrics `{ChainNodes} (w w' : World) : Prop :=
  w' = put Metrics (metrics w') w.

(** The value of a gauge series: its latest sample. *)
Fixpoint gauge_value (name : string) (labels : list (string * string)) (l : list sample) : option Z :=
  match l with
  | [] => None
  | SetGauge n ls v :: l' =>
      if bool_decide (n = name /\ ls = labels) then Some v else gauge_value name labels l'
  | _ :: l' => gauge_value name labels l'
  end.
