(* ===== verification/Rpc.v ===== *)
(** * RPC errors, retries and instrumentation

    [src/blockchain/rpc.errors.ts], [rpc.classifier.ts], [rpc.executor.ts],
    [rpc.instrumentation.ts] and [src/utils/retry.ts]. *)

From S2P Require Import Prelude JsString Schema Platform Reference Guarantee Metrics.

(** The [retryable] flag and the [reason] each error class passes to its base. *)
Definition retryable (k : RpcKind) : bool :=
  match k with
  | RpcTimeout | RpcNetwork | RpcRateLimit | RpcUnavailable => true
  | RpcReverted | RpcInvalidRequest | RpcUnknown => false
  end.

Definition reason (k : RpcKind) : string :=
  match k with
  | RpcTimeout => "timeout" | RpcNetwork => "network" | RpcRateLimit => "rate_limit"
  | RpcUnavailable => "unavailable" | RpcReverted => "reverted"
  | RpcInvalidRequest => "invalid_request" | RpcUnknown => "unknown"
  end.

Definition includes_any (ps : list string) (s : string) : bool :=
  existsb (fun p => includes p s) ps.

Definition timeout_words : list string := ["timeout"; "timed out"; "abort"].
Definition network_words : list string :=
  ["network"; "socket"; "fetch failed"; "failed to fetch"; "econnreset"; "econnrefused";
   "enetunreach"; "ehostunreach"].
Definition rate_limit_words : list string := ["429"; "rate limit"; "too many requests"].
Definition unavailable_words : list string :=
  ["503"; "502"; "504"; "service unavailable"; "temporarily unavailable"].
Definition reverted_words : list string := ["execution reverted"; "reverted"; "revert"].
Definition invalid_words : list string :=
  ["invalid params"; "invalid argument"; "invalid request"; "parse error"; "method not found"].

Definition classify_message (message : string) : RpcKind :=
  let m := toLowerCase message in
  if includes_any timeout_words m then RpcTimeout
  else if includes_any network_words m then RpcNetwork
  else if includes_any rate_limit_words m then RpcRateLimit
  else if includes_any unavailable_words m then RpcUnavailable
  else if includes_any reverted_words m then RpcReverted
  else if includes_any invalid_words m then RpcInvalidRequest
  else RpcUnknown.

Definition classifyRpcError (e : err) : err :=
  match e with
  | RpcError k m => RpcError k m
  | _ => RpcError (classify_message (err_message e)) (err_message e)
  end.

Definition shouldRetry (e : err) : bool :=
  match e with RpcError k _ => retryable k | _ => false end.

Section Retry.
Context {W : Type}.

(** [retry(fn, options, shouldRetry)]: [left] is the number of retries still
    allowed, i.e. [options.retries - attempt]. *)
Fixpoint retry {A} (fn : prog W err A) (left attempt_ : nat) (delay factor : Z)
    (onRetry : err -> nat -> Z -> prog W err unit) (sleep_ : Z -> prog W err unit)
    (should : err -> bool) : prog W err A :=
  let! r := attempt fn in
  match r with
  | inl a => Ret a
  | inr e =>
      match left with
      | O => Throw e
      | S left' =>
          if should e then
            do! onRetry e (S attempt_) delay in
            do! sleep_ delay in
            retry fn left' (S attempt_) (delay * factor) factor onRetry sleep_ should
          else Throw e
      end
  end.
End Retry.

Definition RPC_MAX_RETRIES : nat := 3.
Definition RPC_RETRY_DELAY_MS : Z := 500.

Section Executor.
Context `{P : Platform}.

(** The failure branch labels [rpcFailuresTotal] with [status], a label that
    metric does not declare. *)
Definition instrumentRpc {A} (method : string) (fn : prog' A) : prog' A :=
  finally
    (catch
       (let! result := fn in
        do! incrementMetric rpcRequestsTotal [("method", method); ("status", "success")] in
        Ret result)
       (fun e =>
          do! incrementMetric rpcFailuresTotal [("method", method); ("status", "error")] in
          Throw e))
    (observeMetric rpcDurationSeconds [("method", method)]).

(** One attempt; a time-out is one of the ways the awaited call can end. *)
Definition attempt_rpc {A} (fn : prog' A) : prog' A :=
  catch fn (fun e => Throw (classifyRpcError e)).

Definition executeRpc {A} (method : string) (fn : prog' A) : prog' A :=
  catch
    (instrumentRpc method
       (retry (attempt_rpc fn) RPC_MAX_RETRIES 0 RPC_RETRY_DELAY_MS 2
          (fun _ _ _ => recordRpcRetry method) sleep shouldRetry))
    (fun e =>
       match e with
       | RpcError k _ => do! recordRpcFailure method (reason k) in Throw e
       | _ => Throw e
       end).
End Executor.

(** ** Guarantees *)
Section Guards.
Context `{P : Platform}.

Lemma guards_retry {A} (fn : prog' A) left a d f onRetry should :
  guards steady fn -> (forall e n z, guards steady (onRetry e n z)) ->
  guards steady (retry fn left a d f onRetry sleep should).
Proof.
  intros Hfn Hon. revert a d. induction left as [|left IH]; intros a d; simpl; solve_guards.
Qed.

Lemma guards_executeRpc {A} m (fn : prog' A) : guards steady fn -> guards steady (executeRpc m fn).
Proof.
  intros H. unfold executeRpc, instrumentRpc, attempt_rpc, recordRpcRetry, recordRpcFailure.
  solve_guards. apply guards_retry; solve_guards.
Qed.
End Guards.

#[export] Hint Resolve guards_executeRpc : guards.

(** ** Termination and bounds *)

(** The attempts a run of [retry] makes when the call keeps failing, as the
    list of delays it sleeps between them. *)
Fixpoint delays (n : nat) (delay factor : Z) : list Z :=
  match n with O => [] | S n' => delay :: delays n' (delay * factor) factor end.

Section RetryFacts.
Context {W : Type} (sleep_ : Z -> prog W err unit) (on_retry : prog W err unit).
Context (slept : Z -> W -> W) (noted : W -> W).
Context (Hsleep : forall z w, exec (sleep_ z) w = (inl tt, slept z w)).
Context (Hretry : forall w, exec on_retry w = (inl tt, noted w)).

(** A call that always fails with a retryable error is attempted
    [left + 1] times, with the exponential delays in between, and its error
    is what the caller gets. *)
Lemma retry_exhausts {A} (fn : prog W err A) e left a d f should w :
  (forall w, exec fn w = (inr e, w)) -> should e = true ->
  exec (retry fn left a d f (fun _ _ _ => on_retry) sleep_ should) w =
  (inr e, fold_left (fun w d => slept d (noted w)) (delays left d f) w).
Proof.
  intros Hfn He. revert a d w. induction left as [|left IH]; intros a d w; simpl;
    rewrite exec_bind, exec_attempt, Hfn; simpl; [done|].
  rewrite He, exec_bind, Hretry, exec_bind, Hsleep. apply IH.
Qed.
End RetryFacts.

(** An error that must not be retried is passed on after one attempt. *)
Lemma retry_fatal {W A} (fn : prog W err A) e w w' left a d f onRetry sleep_ should :
  exec fn w = (inr e, w') -> should e = false ->
  exec (retry fn left a d f onRetry sleep_ should) w = (inr e, w').
Proof.
  intros Hfn He. destruct left; simpl; rewrite exec_bind, exec_attempt, Hfn; simpl;
    [done|]. by rewrite He.
Qed.

Lemma retry_success {W A} (fn : prog W err A) x w w' left a d f onRetry sleep_ should :
  exec fn w = (inl x, w') -> exec (retry fn left a d f onRetry sleep_ should) w = (inl x, w').
Proof. intros Hfn. destruct left; simpl; by rewrite exec_bind, exec_attempt, Hfn. Qed.

Lemma classify_is_rpc e : exists k, classifyRpcError e = RpcError k (err_message e).
Proof. destruct e; simpl; eauto. Qed.

(** Classification never loses the message the caller dispatches on. *)
Lemma classify_message_kept e : err_message (classifyRpcError e) = err_message e.
Proof. by destruct e. Qed.

Section ExecutorFacts.
Context `{P : Platform} `{!PlatformLaws P}.

Lemma recordRpcRetry_exec m w :
  exec (recordRpcRetry m) w =
  (inl tt, put Metrics (Inc "blockchain_rpc_retries_total" [("method", m)] 1 :: metrics w) w).
Proof. unfold recordRpcRetry, inc, report. simpl. accepted. done. Qed.

Lemma recordRpcFailure_exec m r w :
  exec (recordRpcFailure m r) w =
  (inl tt, put Metrics (Inc "blockchain_rpc_failures_total"
     [("method", m); ("reason", r)] 1 :: metrics w) w).
Proof. unfold recordRpcFailure, inc, report. simpl. accepted. done. Qed.

(** The label [status] is not declared, so this sample is dropped. *)
Lemma failure_status_dropped m w :
  exec (incrementMetric rpcFailuresTotal [("method", m); ("status", "error")]) w = (inl tt, w).
Proof.
  rewrite incrementMetric_exec. destruct (prom_accepts _ _) eqn:E; [|done]. exfalso.
  apply prom_accepts_spec in E. apply Forall_cons in E as [_ E].
  apply Forall_cons in E as [E _]. simpl in E. set_solver.
Qed.
End ExecutorFacts.

Definition after_outage `{ChainNodes} (m : string) (k : RpcKind) (w : World) : World :=
  put Clock (clock w + 3500)
    (put Metrics
       ([Inc "blockchain_rpc_failures_total" [("method", m); ("reason", reason k)] 1;
         Observe "blockchain_rpc_duration_seconds" [("method", m)];
         Inc "blockchain_rpc_retries_total" [("method", m)] 1;
         Inc "blockchain_rpc_retries_total" [("method", m)] 1;
         Inc "blockchain_rpc_retries_total" [("method", m)] 1] ++ metrics w) w).

(** The bounds of the RPC executor.  A node that keeps answering with a
    retryable error is tried four times over 500 + 1000 + 2000 ms; the
    classified error, with the original message, reaches the caller; three
    retries and exactly one failure are counted. *)
Theorem executeRpc_outage `{P : Platform} `{!PlatformLaws P} {A} m (fn : prog' A) e k w :
  (forall w, exec fn w = (inr e, w)) ->
  classifyRpcError e = RpcError k (err_message e) -> retryable k = true ->
  exec (executeRpc m fn) w = (inr (RpcError k (err_message e)), after_outage m k w).
Proof.
  intros Hfn Hk Hr. unfold executeRpc, instrumentRpc.
  assert (Hatt : forall w, exec (attempt_rpc fn) w = (inr (RpcError k (err_message e)), w)).
  { intros w0. unfold attempt_rpc. by rewrite exec_catch, Hfn, exec_throw, Hk. }
  rewrite exec_catch, exec_finally, exec_catch, exec_bind.
  rewrite (retry_exhausts sleep (recordRpcRetry m)
             (fun z w => put Clock (clock w + z) w) _ (fun _ _ => eq_refl)
             (recordRpcRetry_exec m) _ _ _ _ _ _ _ _ Hatt Hr).
  rewrite exec_bind, failure_status_dropped, exec_throw, observeMetric_exec.
  simpl. accepted. rewrite exec_bind, recordRpcFailure_exec, exec_throw.
  unfold after_outage. simpl. f_equal. f_equal. unfold RPC_RETRY_DELAY_MS. lia.
Qed.

Section Witness.
#[local] Existing Instance ref_platform.
#[local] Existing Instance ref_platform_laws.

Definition refused : prog' Z := Throw (PlainError "connect ECONNREFUSED").

(** A node that refuses connections. *)
Lemma executeRpc_outage_witness :
  exec (executeRpc "getTransactionReceipt" refused) (fresh_world 0 quiet) =
  (inr (RpcError RpcNetwork "connect ECONNREFUSED"),
   after_outage "getTransactionReceipt" RpcNetwork (fresh_world 0 quiet)).
Proof.
  apply (executeRpc_outage "getTransactionReceipt" refused (PlainError "connect ECONNREFUSED") RpcNetwork);
    [intros w; reflexivity|vm_compute; reflexivity..].
Defined.

(** A receipt that is not there yet is not retried and keeps its message,
    unless the transaction hash happens to contain an HTTP status code. *)
Example not_found_is_unknown :
  classifyRpcError (PlainError "Transaction receipt with hash 0xab could not be found.") =
  RpcError RpcUnknown "Transaction receipt with hash 0xab could not be found.".
Proof. reflexivity. Qed.

Example not_found_misread :
  classifyRpcError (PlainError "Transaction receipt with hash 0xa429b could not be found.") =
  RpcError RpcRateLimit "Transaction receipt with hash 0xa429b could not be found.".
Proof. reflexivity. Qed.
End Witness.
