(* ===== verification/Config.v ===== *)
(** * Settings

    [src/config/env.ts], the settings the worker process and the RPC executor read
    with [Number(process.env.X ?? default)] ([src/workers/confirmation.queue.runner.ts],
    [src/blockchain/rpc.executor.ts], [src/workers/worker-metrics.server.ts]), the viem
    chain of [src/blockchain/evm/chain.ts], and what a setting that is not a number
    does to the retries of [src/utils/retry.ts]. *)

From S2P Require Import Prelude JsString Double Schema Platform Addresses Envelope Rpc.
From Stdlib Require Import Ascii.
From stdpp Require Import pretty.
#[local] Open Scope Z_scope.

(** ** [Number(s)] *)

Fixpoint span_digits (s : string) : string * string :=
  match s with
  | String a s' => if is_digit a then let r := span_digits s' in (String a r.1, r.2) else ("", s)
  | EmptyString => ("", "")
  end.

(** The double nearest to [m * 10^e]. *)
Definition decimal_double (m e : Z) : double := of_ratio (m * 10 ^ Z.max 0 e) (10 ^ Z.max 0 (- e)).

(** A non-empty run of digits to the end. *)
Definition all_of_digits (s : string) : option Z :=
  match s with
  | EmptyString => None
  | _ => if all_chars is_digit s then Some (digits_value 0 s) else None
  end.

(** The optional exponent part. *)
Definition exponent (s : string) : option Z :=
  match s with
  | EmptyString => Some 0
  | String a s' =>
      if Ascii.eqb (lower_ascii a) "e" then
        match s' with
        | String "+" s'' => all_of_digits s''
        | String "-" s'' => Z.opp <$> all_of_digits s''
        | _ => all_of_digits s'
        end
      else None
  end.

Definition unsigned_decimal (s : string) : double :=
  if String.eqb s "Infinity" then Double.Infinite false
  else
    let i := span_digits s in
    let f := match i.2 with
             | String "." rest => span_digits rest
             | rest => ("", rest)
             end in
    match i.1 +:+ f.1, exponent f.2 with
    | String a l, Some e => decimal_double (digits_value 0 (String a l)) (e - Z.of_nat (String.length f.1))
    | _, _ => NaN
    end.

(** The value of a digit in a base up to sixteen. *)
Definition radix_digit (base : N) (a : ascii) : option N :=
  let n := N_of_ascii (lower_ascii a) in
  let v := (if is_digit a then n - 48 else n - 87)%N in
  if ((is_digit a || (97 <=? n) && (n <=? 102)) && (v <? base))%N then Some v else None.

Fixpoint radix_value (base : N) (acc : N) (s : string) : option N :=
  match s with
  | EmptyString => Some acc
  | String a s' => match radix_digit base a with
                   | Some v => radix_value base (acc * base + v)%N s'
                   | None => None
                   end
  end.

Definition radix_literal (base : N) (s : string) : double :=
  match s with
  | EmptyString => NaN
  | _ => match radix_value base 0 s with Some n => of_Z (Z.of_N n) | None => NaN end
  end.

(** [Number(s)] of a string: white space (ASCII) around it is ignored, the empty
    string is 0, and what is not a numeric literal is [NaN]. *)
Definition Number (s : string) : double :=
  match trim s with
  | EmptyString => Finite 0 0
  | String "0" (String "x" h) | String "0" (String "X" h) => radix_literal 16 h
  | String "0" (String "o" h) | String "0" (String "O" h) => radix_literal 8 h
  | String "0" (String "b" h) | String "0" (String "B" h) => radix_literal 2 h
  | String "+" r => unsigned_decimal r
  | String "-" r => negate (unsigned_decimal r)
  | t => unsigned_decimal t
  end.

Example number_examples :
  map Number ["15"; " 5e3 "; "0x10"; "1.5"; ""; "abc"; "-7"; "1e400"; "5s"; "."]
  = [of_Z 15; of_Z 5000; of_Z 16; of_ratio 3 2; Finite 0 0; NaN; of_Z (-7); Double.Infinite false; NaN; NaN].
Proof. reflexivity. Qed.

(** ** [configSchema.parse] *)

Record Config := mkConfig {
  NODE_ENV : string; PORT : double; API_PREFIX : string; JWT_SECRET : string;
  JWT_ACCESS_EXPIRES : string; JWT_REFRESH_EXPIRES : string; REDIS_URL : string;
  CONFIRMATION_BACKOFF_DELAY_MS : double; CONFIRMATION_LOCK_DURATION_MS : double;
  CONFIRMATION_STALLED_INTERVAL_MS : double; CONFIRMATION_MAX_STALLED_COUNT : double }.

(** [z.string().default(d)] *)
Definition z_string (env : Env) (name d : string) : string := default d (env name).

(** [z.coerce.number().default(d)]: only an absent variable gets the default; a
    number must be finite.  The rejected variable is reported. *)
Definition z_number (env : Env) (name : string) (d : Z) : double + string :=
  match env name with
  | None => inl (of_Z d)
  | Some s => if isFinite (Number s) then inl (Number s) else inr name
  end.

(** [.int().nonnegative()]: an integer of the safe range, not below 0. *)
Definition safe_integer (x : double) : bool :=
  match x with
  | Finite m e => (vnum m e mod vden e =? 0) && (Z.abs (vnum m e) <=? MAX_SAFE_INTEGER * vden e)
  | _ => false
  end.

Definition z_natural (env : Env) (name : string) (d : Z) : double + string :=
  match z_number env name d with
  | inl x => if safe_integer x && negb (ltb_Z x 0) then inl x else inr name
  | inr n => inr n
  end.

(** The variables a parse rejects, in the order of the schema. *)
Definition issues (l : list (double + string)) : list string :=
  omap (fun r => match r with inr n => Some n | inl _ => None end) l.

Definition configSchema_parse (env : Env) : Config + list string :=
  let port := z_number env "PORT" 3000 in
  let backoff := z_number env "CONFIRMATION_BACKOFF_DELAY_MS" 5000 in
  let lock := z_number env "CONFIRMATION_LOCK_DURATION_MS" 30000 in
  let stalled := z_number env "CONFIRMATION_STALLED_INTERVAL_MS" 10000 in
  let count := z_natural env "CONFIRMATION_MAX_STALLED_COUNT" 1 in
  match port, backoff, lock, stalled, count with
  | inl p, inl b, inl l, inl s, inl c =>
      inl (mkConfig (z_string env "NODE_ENV" "development") p
             (z_string env "API_PREFIX" "/api/v1")
             (z_string env "JWT_SECRET" "development-secret")
             (z_string env "JWT_ACCESS_EXPIRES" "15m") (z_string env "JWT_REFRESH_EXPIRES" "7d")
             (z_string env "REDIS_URL" "redis://localhost:6379") b l s c)
  | _, _, _, _, _ => inr (issues [port; backoff; lock; stalled; count])
  end.

(** ** Settings read without a schema *)

(** [Number(process.env.X ?? d)] *)
Definition setting (env : Env) (name : string) (d : Z) : double :=
  match env name with None => of_Z d | Some s => Number s end.

Record RpcSettings := mkRpcSettings {
  set_RPC_TIMEOUT_MS : double; set_RPC_MAX_RETRIES : double; set_RPC_RETRY_DELAY_MS : double }.

Definition rpc_settings (env : Env) : RpcSettings :=
  mkRpcSettings (setting env "RPC_TIMEOUT_MS" 10000) (setting env "RPC_MAX_RETRIES" 3)
    (setting env "RPC_RETRY_DELAY_MS" 500).

(** [createPendingTransactionsSampler]: the sampling interval. *)
Definition createPendingTransactionsSampler (env : Env) : double :=
  setting env "PENDING_TRANSACTIONS_SAMPLE_INTERVAL_MS" 15000.

Record PendingRecoverySettings := mkPendingRecoverySettings {
  set_graceMs : double; set_failAfterMs : double; set_listenerStalenessMs : double;
  set_pendingRecoveryIntervalMs : double }.

Definition createPendingRecoveryScheduler (env : Env) : PendingRecoverySettings :=
  mkPendingRecoverySettings (setting env "PENDING_RECOVERY_GRACE_MS" 120000)
    (setting env "PENDING_RECOVERY_FAIL_AFTER_MS" 900000)
    (setting env "PENDING_RECOVERY_LISTENER_STALENESS_MS" 60000)
    (setting env "PENDING_RECOVERY_INTERVAL_MS" 30000).

Record BalanceDriftSettings := mkBalanceDriftSettings {
  set_pageSize : double; set_concurrency : double; set_driftIntervalMs : double }.

Definition createBalanceDriftScheduler (env : Env) : BalanceDriftSettings :=
  mkBalanceDriftSettings (setting env "BALANCE_DRIFT_PAGE_SIZE" 200)
    (setting env "BALANCE_DRIFT_CONCURRENCY" 5) (setting env "BALANCE_DRIFT_INTERVAL_MS" 300000).

Definition event_listener_interval (env : Env) : double :=
  setting env "EVENT_LISTENER_INTERVAL_MS" 5000.

Definition metrics_port (env : Env) : double := setting env "WORKER_METRICS_PORT" 3001.

(** ** The retry loop as it is written *)

(** [attempt >= retries] *)
Definition reached (attempt_ : nat) (retries : double) : bool :=
  match retries with
  | Finite m e => vnum m e <=? Z.of_nat attempt_ * vden e
  | Double.Infinite negative => negative
  | NaN => false
  end.

Section Loop.
Context {W A : Type} (fn : prog W err A) (retries : double) (factor : Z)
  (onRetry : err -> nat -> Z -> prog W err unit) (sleep_ : Z -> prog W err unit)
  (should : err -> bool).

Fixpoint retry_loop (fuel attempt_ : nat) (delay : Z) : prog W err A :=
  match fuel with
  | O => Throw OutOfFuel
  | S fuel' =>
      let! r := attempt fn in
      match r with
      | inl a => Ret a
      | inr e =>
          if negb (should e) || reached attempt_ retries then Throw e
          else
            do! onRetry e (S attempt_) delay in
            do! sleep_ delay in
            retry_loop fuel' (S attempt_) (delay * factor)
      end
  end.
End Loop.

(** ** A chain definition *)

(** The part of a viem [Chain] the clients use. *)
Record ViemChain := mkViemChain { vc_id : Z; vc_name : string; vc_http : list string }.

(** [getEvmChain]; [known] are viem's own definitions. *)
Definition getEvmChain (known : Z -> option ViemChain) (env : Env) : ViemChain + err :=
  match getEvmChainId env with
  | inr e => inr e
  | inl c =>
      inl (default (mkViemChain c ("EVM chain " +:+ pretty c)
                      (if falsy (env "RPC_URL") then [] else [default "" (env "RPC_URL")])) (known c))
  end.

(** ** Reading decimals *)

Definition decimal_numeral (s : string) : Prop := s <> "" /\ all_chars is_digit s = true.

#[global] Instance decimal_numeral_dec s : Decision (decimal_numeral s).
Proof. unfold decimal_numeral. apply _. Defined.

Lemma digit_not_space a : is_digit a = true -> is_space a = false.
Proof. by destruct a as [[] [] [] [] [] [] [] []]. Qed.

Lemma trim_digits s : all_chars is_digit s = true -> trim s = s.
Proof.
  intros H. unfold trim. assert (trimStart s = s) as ->.
  { destruct s as [|a s]; [done|]. cbn in H. apply andb_true_iff in H as [H _]. cbn.
    by rewrite digit_not_space. }
  induction s as [|a s IH]; [done|]. cbn in H. apply andb_true_iff in H as [Ha H]. cbn.
  rewrite IH by done. destruct s; [by rewrite digit_not_space|done].
Qed.

Lemma span_all_digits s : all_chars is_digit s = true -> span_digits s = (s, "").
Proof.
  induction s as [|a s IH]; [done|]. cbn. intros [-> H]%andb_true_iff. by rewrite IH.
Qed.

Lemma append_empty (s : string) : s +:+ "" = s.
Proof.
  induction s as [|a s IH]; [done|]. change (String a (s +:+ "") = String a s). by rewrite IH.
Qed.

Lemma unsigned_digits s : decimal_numeral s -> unsigned_decimal s = of_Z (digits_value 0 s).
Proof.
  intros [Hne H]. unfold unsigned_decimal. destruct (String.eqb_spec s "Infinity") as [->|_]; [done|].
  rewrite span_all_digits by done. cbv zeta. cbn [fst snd exponent String.length]. rewrite append_empty.
  destruct s as [|a s]; [done|]. change (0 - Z.of_nat 0) with 0. unfold decimal_double, of_Z.
  by rewrite Z.mul_1_r.
Qed.

(** A string of digits is read as the number it denotes. *)
Lemma Number_decimal s : decimal_numeral s -> Number s = of_Z (digits_value 0 s).
Proof.
  intros H. rewrite <- unsigned_digits by done. destruct H as [Hne H]. unfold Number.
  rewrite trim_digits by done. destruct s as [|a s]; [done|]. clear Hne. cbn [all_chars] in H.
  apply andb_true_iff in H as [Ha H].
  destruct a as [[] [] [] [] [] [] [] []]; try discriminate Ha; try reflexivity.
  destruct s as [|b s]; [reflexivity|]. cbn [all_chars] in H. apply andb_true_iff in H as [Hb _].
  by destruct b as [[] [] [] [] [] [] [] []].
Qed.

Lemma setting_decimal env name d s :
  env name = Some s -> decimal_numeral s -> digits_value 0 s < 2 ^ 53 ->
  reads (setting env name d) (digits_value 0 s).
Proof.
  intros E Hs Hv. unfold setting. rewrite E, Number_decimal by done. apply of_Z_reads.
  split; [|done]. apply (digits_value_bound 0 s); [lia|apply Hs].
Qed.

(** The settings the schema checks. *)
Definition checked : list (string * Z) :=
  [("PORT", 3000); ("CONFIRMATION_BACKOFF_DELAY_MS", 5000); ("CONFIRMATION_LOCK_DURATION_MS", 30000);
   ("CONFIRMATION_STALLED_INTERVAL_MS", 10000); ("CONFIRMATION_MAX_STALLED_COUNT", 1)].

(** What the schema asks of a number. *)
Definition acceptable (name : string) (x : double) : bool :=
  isFinite x &&
  (negb (String.eqb name "CONFIRMATION_MAX_STALLED_COUNT") || (safe_integer x && negb (ltb_Z x 0))).

Section Schema.
Context (env : Env).

Lemma z_number_spec name d :
  0 <= d < 2 ^ 53 ->
  z_number env name d =
  if isFinite (setting env name d) then inl (setting env name d) else inr name.
Proof.
  intros Hd. unfold z_number, setting. destruct (env name) as [s|]; [done|].
  by destruct (of_Z_reads d Hd) as (m & e & -> & _).
Qed.

(** One checked variable: its value, or its name when it is rejected. *)
Definition check (c : string * Z) : double + string :=
  if acceptable c.1 (setting env c.1 c.2) then inl (setting env c.1 c.2) else inr c.1.

Lemma check_number name d :
  0 <= d < 2 ^ 53 -> String.eqb name "CONFIRMATION_MAX_STALLED_COUNT" = false ->
  z_number env name d = check (name, d).
Proof.
  intros Hd Hn. rewrite z_number_spec by done. unfold check, acceptable. cbn [fst snd].
  rewrite Hn. cbn [negb orb]. by rewrite andb_true_r.
Qed.

Lemma check_natural d :
  0 <= d < 2 ^ 53 ->
  z_natural env "CONFIRMATION_MAX_STALLED_COUNT" d = check ("CONFIRMATION_MAX_STALLED_COUNT", d).
Proof.
  intros Hd. unfold z_natural. rewrite z_number_spec by done. unfold check, acceptable. cbn [fst snd].
  rewrite String.eqb_refl. cbn [negb orb]. by destruct (isFinite _).
Qed.

Lemma parse_checks :
  [z_number env "PORT" 3000; z_number env "CONFIRMATION_BACKOFF_DELAY_MS" 5000;
   z_number env "CONFIRMATION_LOCK_DURATION_MS" 30000;
   z_number env "CONFIRMATION_STALLED_INTERVAL_MS" 10000;
   z_natural env "CONFIRMATION_MAX_STALLED_COUNT" 1] = map check checked.
Proof. by rewrite !check_number, check_natural by (lia || done). Qed.

Lemma elem_of_issues n :
  n ∈ issues (map check checked) <->
  exists d, (n, d) ∈ checked /\ acceptable n (setting env n d) = false.
Proof.
  unfold issues. rewrite list_elem_of_omap. split.
  - intros (r & Hr & E). apply list_elem_of_In, in_map_iff in Hr as ([k d] & <- & Hk).
    unfold check in E. cbn in E. destruct (acceptable k _) eqn:Ea; simplify_eq.
    exists d. split; [by apply list_elem_of_In|done].
  - intros (d & Hd & Ha). exists (inr n). split; [|done].
    apply list_elem_of_In, in_map_iff. exists (n, d). split; [|by apply list_elem_of_In].
    unfold check. cbn. by rewrite Ha.
Qed.
End Schema.

(** The configuration is taken exactly or not at all.  Parsing the environment
    either yields every setting (an absent variable its default, a present one the
    number it denotes, the strings as they are), all numbers finite and the stalled
    count a safe integer not below 0; or it names exactly the variables that break
    these rules.  A run of digits below 2^53 is read as the very integer it denotes. *)
Theorem config_parse_exact env :
  match configSchema_parse env with
  | inl c =>
      PORT c = setting env "PORT" 3000 /\
      CONFIRMATION_BACKOFF_DELAY_MS c = setting env "CONFIRMATION_BACKOFF_DELAY_MS" 5000 /\
      CONFIRMATION_LOCK_DURATION_MS c = setting env "CONFIRMATION_LOCK_DURATION_MS" 30000 /\
      CONFIRMATION_STALLED_INTERVAL_MS c = setting env "CONFIRMATION_STALLED_INTERVAL_MS" 10000 /\
      CONFIRMATION_MAX_STALLED_COUNT c = setting env "CONFIRMATION_MAX_STALLED_COUNT" 1 /\
      JWT_SECRET c = default "development-secret" (env "JWT_SECRET") /\
      forall n d, (n, d) ∈ checked -> acceptable n (setting env n d) = true
  | inr rejected =>
      rejected <> [] /\
      forall n, n ∈ rejected <->
        exists d, (n, d) ∈ checked /\ acceptable n (setting env n d) = false
  end /\
  forall n d s, env n = Some s -> decimal_numeral s -> digits_value 0 s < 2 ^ 53 ->
    reads (setting env n d) (digits_value 0 s).
Proof.
  split; [|intros; by apply setting_decimal].
  pose proof (parse_checks env) as E. pose proof (elem_of_issues env) as Hi.
  unfold configSchema_parse. rewrite E. cbn [map checked] in E. injection E as -> -> -> -> ->.
  assert (Hok : Forall (fun c => acceptable c.1 (setting env c.1 c.2) = true) checked ->
    forall n d, (n, d) ∈ checked -> acceptable n (setting env n d) = true).
  { intros H n d Hnd. rewrite Forall_forall in H. by apply (H (n, d)). }
  assert (Hbad : forall n d, In (n, d) checked -> acceptable n (setting env n d) = false ->
    issues (map (check env) checked) <> [] /\ forall n, n ∈ issues (map (check env) checked) <->
      exists d, (n, d) ∈ checked /\ acceptable n (setting env n d) = false).
  { intros n d Hn Ha. split; [|done]. intros E. apply (not_elem_of_nil n). rewrite <- E.
    apply Hi. exists d. split; [by apply list_elem_of_In|done]. }
  unfold check at 1 2 3 4 5. cbn [fst snd].
  repeat match goal with
  | |- context [if acceptable ?n ?x then inl ?y else _] =>
      destruct (acceptable n x) eqn:?; [|eapply Hbad; [|eassumption]; cbn; tauto]
  end.
  cbv iota beta. split_and!; try done. apply Hok. by repeat constructor.
Qed.

Lemma config_parse_exact_witness :
  reads (setting (fun n => if String.eqb n "PORT" then Some "08080" else None) "PORT" 3000) 8080.
Proof.
  apply (proj2 (config_parse_exact (fun n => if String.eqb n "PORT" then Some "08080" else None))
    "PORT" 3000 "08080").
  - reflexivity.
  - split; [discriminate|reflexivity].
  - reflexivity.
Defined.

(** ** Retries *)

Lemma reached_reads x n k : reads x n -> reached k x = (n <=? Z.of_nat k).
Proof.
  intros (m & e & -> & E). cbn. rewrite E. pose proof (vden_pos e).
  destruct (Z.leb_spec n (Z.of_nat k)), (Z.leb_spec (n * vden e) (Z.of_nat k * vden e)); try done; nia.
Qed.

Section Retries.
Context {W A : Type} (fn : prog W err A) (factor : Z)
  (onRetry : err -> nat -> Z -> prog W err unit) (sleep_ : Z -> prog W err unit)
  (should : err -> bool).

(** With an integer bound the loop is the structural recursion of [Rpc.retry]. *)
Lemma retry_loop_bounded retries left attempt_ delay fuel env w :
  reads retries (Z.of_nat (attempt_ + left)) -> (left < fuel)%nat ->
  run (retry_loop fn retries factor onRetry sleep_ should fuel attempt_ delay) env w =
  run (retry fn left attempt_ delay factor onRetry sleep_ should) env w.
Proof.
  intros Hr. revert attempt_ delay fuel env w Hr.
  induction left as [|left IH]; intros k delay [|fuel] env w Hr Hf; try lia;
    cbn [retry_loop retry]; rewrite !run_bind, run_attempt; destruct (run fn env w) as [[[a|e] w1] env1];
    try done; cbn [fst snd]; rewrite (reached_reads _ _ _ Hr).
  - rewrite Nat.add_0_r, Z.leb_refl, orb_true_r. done.
  - destruct (Z.leb_spec (Z.of_nat (k + S left)) (Z.of_nat k)); [lia|]. rewrite orb_false_r.
    destruct (should e); [|done]. cbn [negb]. rewrite !run_bind.
    destruct (run (onRetry e (S k) delay) env1 w1) as [[[[]|e1] w2] env2]; [|done].
    rewrite !run_bind. destruct (run (sleep_ delay) env2 w2) as [[[[]|e2] w3] env3]; [|done].
    apply IH; [|lia]. by rewrite Nat.add_succ_comm.
Qed.

(** Without a number there is no bound: an operation that keeps failing is retried
    for ever. *)
Lemma retry_loop_unbounded e fuel attempt_ delay w :
  (forall w, exists w', exec fn w = (inr e, w')) -> should e = true ->
  (forall e n d w, exists w', exec (onRetry e n d) w = (inl tt, w')) ->
  (forall d w, exists w', exec (sleep_ d) w = (inl tt, w')) ->
  exists w', exec (retry_loop fn NaN factor onRetry sleep_ should fuel attempt_ delay) w
    = (inr OutOfFuel, w').
Proof.
  intros Hfn He Hon Hs. revert attempt_ delay w.
  induction fuel as [|fuel IH]; intros k delay w; [by exists w|]. cbn [retry_loop].
  rewrite exec_bind, exec_attempt. destruct (Hfn w) as [w1 ->]. cbn [fst snd reached].
  rewrite He. cbn [negb orb]. rewrite exec_bind. destruct (Hon e (S k) delay w1) as [w2 ->].
  rewrite exec_bind. destruct (Hs delay w2) as [w3 ->]. apply IH.
Qed.
End Retries.

(** C29: retries are bounded by a proper setting, and only by one.  If RPC_MAX_RETRIES
    is a run of digits (below 2^53), the loop of [retry] gives up after exactly that
    many retries: with any fuel above that number it is the bounded recursion, whatever
    the calls do.  If it is not a number, an operation that keeps failing with a
    retryable error is retried for ever. *)
Theorem retries_need_a_number {W A} (fn : prog W err A) delay factor onRetry sleep_ should env :
  (forall s fuel steps w,
     env "RPC_MAX_RETRIES" = Some s -> decimal_numeral s -> digits_value 0 s < 2 ^ 53 ->
     (Z.to_nat (digits_value 0 s) < fuel)%nat ->
     run (retry_loop fn (set_RPC_MAX_RETRIES (rpc_settings env)) factor onRetry sleep_ should fuel 0 delay)
       steps w =
     run (retry fn (Z.to_nat (digits_value 0 s)) 0 delay factor onRetry sleep_ should) steps w) /\
  (forall e fuel w,
     set_RPC_MAX_RETRIES (rpc_settings env) = NaN ->
     (forall w, exists w', exec fn w = (inr e, w')) -> should e = true ->
     (forall e n d w, exists w', exec (onRetry e n d) w = (inl tt, w')) ->
     (forall d w, exists w', exec (sleep_ d) w = (inl tt, w')) ->
     exists w', exec (retry_loop fn (set_RPC_MAX_RETRIES (rpc_settings env)) factor onRetry sleep_ should
       fuel 0 delay) w = (inr OutOfFuel, w')).
Proof.
  split.
  - intros s fuel steps w E Hs Hv Hf. apply retry_loop_bounded; [|done].
    pose proof (digits_value_bound 0 s ltac:(lia) (proj2 Hs)).
    cbn [plus]. rewrite Z2Nat.id by lia. by apply setting_decimal.
  - intros e fuel w E. rewrite E. apply retry_loop_unbounded.
Qed.

(** [RPC_MAX_RETRIES=three] and a node that is down. *)
Lemma retries_need_a_number_witness :
  exists w' : unit, exec (retry_loop (Throw (RpcError RpcTimeout "") : prog unit err unit)
    (Number "three") 2 (fun _ _ _ => Ret tt) (fun _ => Ret tt) shouldRetry 1000 0 500) tt
    = (inr OutOfFuel, w').
Proof.
  destruct (retries_need_a_number (Throw (RpcError RpcTimeout "") : prog unit err unit) 500 2
    (fun _ _ _ => Ret tt) (fun _ => Ret tt) shouldRetry (fun _ => Some "three")) as [_ H].
  apply (H (RpcError RpcTimeout "") 1000%nat tt); [reflexivity|..].
  - intros w. by exists w.
  - reflexivity.
  - intros _ _ _ w. by exists w.
  - intros _ w. by exists w.
Defined.
