(* ===== verification/Adapters.v ===== *)
(** * Blockchain adapters

    [src/blockchain/blockchain-adapter.ts] (the interface),
    [blockchain-adapter.registry.ts], the three adapters
    ([evm/evm.adapter.ts], [bitcoin/bitcoin.adapter.ts],
    [solana/solana.adapter.ts]) and the two signer services. *)

From S2P Require Import Prelude JsString Double Schema Platform Reference Guarantee Metrics Rpc Addresses Envelope Bitcoin.
From stdpp Require Import pretty.

#[local] Open Scope Z_scope.

Inductive ConfirmationStatus := pending | confirmed | failed.

#[global] Instance ConfirmationStatus_eq_dec : EqDecision ConfirmationStatus.
Proof. solve_decision. Defined.

Record BlockchainTransaction := mkBlockchainTransaction {
  bt_txHash : string; bt_blockNumber : option Z; bt_confirmations : Z;
  bt_status : ConfirmationStatus; bt_gasUsed : option Z; confirmationLevel : option string }.

Record TransferRequest := mkTransferRequest {
  rq_tenantId : string; rq_walletId : string; toAddress : string; rq_amount : Z;
  assetIdentifier : option string }.

Record WalletCustodyStatus := mkCustody { cs_custodyType : CustodyType; hasCustodyKey : bool }.

Record TokenBalanceRequest := mkBalanceRequest {
  br_assetIdentifier : option string; walletAddress : string; br_blockNumber : option Z }.

Record TokenBalance := mkTokenBalance { tb_balance : Z; tb_blockNumber : Z }.

Record MintRequest := mkMintRequest {
  mr_assetIdentifier : string; mr_toAddress : string; mr_amount : Z }.

Record CustodialWalletMaterial := mkMaterial { cm_address : string; cm_secret : string }.

Record OwnershipVerificationRequest := mkOwnershipRequest {
  or_address : string; or_message : string; or_signature : string }.

(** The interface.  Optional methods are [option]s, as the callers test for
    their presence. *)
Record BlockchainAdapter `{ChainNodes} := mkAdapter {
  chain_ : string;
  canSign : WalletCustodyStatus -> bool;
  submitTransfer : TransferRequest -> prog' string;
  getTransaction : string -> prog' BlockchainTransaction;
  validateAssetIdentifier : string -> bool;
  getTokenBalance : option (TokenBalanceRequest -> prog' TokenBalance);
  verifyOwnership : option (OwnershipVerificationRequest -> prog' bool);
  createCustodialWallet : option (prog' CustodialWalletMaterial);
  mint : option (MintRequest -> prog' string) }.

(** What a client may rely on: an adapter leaves the ledger alone. *)
Class AdapterSteady `{ChainNodes} (a : BlockchainAdapter) : Prop := {
  submitTransfer_steady : forall r, guards steady (submitTransfer a r);
  getTransaction_steady : forall h, guards steady (getTransaction a h);
  getTokenBalance_steady : forall f r, getTokenBalance a = Some f -> guards steady (f r);
  verifyOwnership_steady : forall f r, verifyOwnership a = Some f -> guards steady (f r);
  createCustodialWallet_steady : forall p, createCustodialWallet a = Some p -> guards steady p;
  mint_steady : forall f r, mint a = Some f -> guards steady (f r) }.

(** viem's and Solana's key handling, and Node's random bytes.  A random value is
    a function of the state of the world it is drawn in. *)
Class Keys `{ChainNodes} := {
  verifyMessage : OwnershipVerificationRequest -> bool + err;
  generatePrivateKey : World -> string;
  privateKeyToAddress : string -> string;
  (** The base58 public key and the hex of the secret key. *)
  generateKeypair : World -> string * string;
  (** [Keypair.fromSecretKey(Buffer.from(secretKeyHex, 'hex'))]: a keypair is named by
      the hex of its secret key; a buffer that is no secret key is rejected. *)
  fromSecretKey : string -> string + err;
  (** [new PublicKey(address)]: the key, or the rejection of a text that is none. *)
  newPublicKey : string -> string + err;
  randomBytes : nat -> World -> bytes }.

Section Registry.
Context `{C : ChainNodes}.

Definition registry_get (adapters : list BlockchainAdapter) (name : string)
  : prog' BlockchainAdapter :=
  match List.find (fun a => String.eqb (chain_ a) (toUpperCase name)) adapters with
  | Some a => Ret a
  | None => Throw (PlainError ("No blockchain adapter registered for chain: " +:+ name))
  end.
End Registry.

Definition walletNotFound (walletId : option string) : err :=
  AppError 404 "WALLET_NOT_FOUND" "Wallet not found" (id_details "walletId" walletId).
Definition walletNotCustodial (walletId : option string) : err :=
  AppError 409 "WALLET_NOT_CUSTODIAL" "Wallet not custodial" (id_details "walletId" walletId).

Section Adapters.
Context `{P : Platform} `{K : Crypto} `{KS : !Keys} (env : Env) (isEvmAddress : string -> bool).

(** *** Signers *)

Definition findByIdForTenantWithCustody (id tenant : string)
  : prog' (option (string * Wallet)) :=
  query Wallets (findFirst (at_id id (fun r => String.eqb (wal_tenantId r) tenant)) any_order).

(** The wallet's decrypted secret, for its own tenant only. *)
Definition signing_key (walletId tenant : string) : prog' string :=
  let! wallet := findByIdForTenantWithCustody walletId tenant in
  match wallet with
  | None => Throw (walletNotFound None)
  | Some (_, r) =>
      match custodyType r, custodyKey r with
      | CUSTODIAL, Some k => rethrow (decryptWalletKey env (encryptedKey k) (kmsKeyId k))
      | _, _ => Throw (walletNotCustodial None)
      end
  end.

Definition getWalletClientFor (walletId tenant : string) : prog' string :=
  let! privateKey := signing_key walletId tenant in
  match privateKey with
  | EmptyString => Throw (PlainError "Private key required")
  | _ => Ret privateKey
  end.

Definition getKeypairFor (walletId tenant : string) : prog' string :=
  let! secretKeyHex := signing_key walletId tenant in
  rethrow (fromSecretKey secretKeyHex).

(** *** EVM *)

Definition evm_canSign (s : WalletCustodyStatus) : bool :=
  bool_decide (cs_custodyType s = CUSTODIAL) && hasCustodyKey s.

Definition evm_submitTransfer (r : TransferRequest) : prog' string :=
  if falsy (assetIdentifier r) then
    Throw (PlainError "EVM transfer requires an asset contract address")
  else
    let! walletClient := getWalletClientFor (rq_walletId r) (rq_tenantId r) in
    call Node (evm_transfer walletClient (default "" (assetIdentifier r)) (toAddress r)
                 (rq_amount r)).

Definition evm_getTransaction (hash : string) : prog' BlockchainTransaction :=
  let! receipt := executeRpc "getTransactionReceipt" (ask Node (evm_getTransactionReceipt hash)) in
  Ret (mkBlockchainTransaction hash (Some (rcpt_blockNumber receipt)) 1
         (if rcpt_success receipt then confirmed else failed)
         (Some (rcpt_gasUsed receipt)) None).

Definition evm_getTokenBalance (r : TokenBalanceRequest) : prog' TokenBalance :=
  if falsy (br_assetIdentifier r) then
    Throw (PlainError "EVM token balance requires an asset contract address")
  else
    let! b := ask Node (evm_balanceOf (default "" (br_assetIdentifier r)) (walletAddress r)
                          (br_blockNumber r)) in
    match br_blockNumber r with
    | Some n => Ret (mkTokenBalance b n)
    | None =>
        let! n := ask Node evm_getBlockNumber in
        Ret (mkTokenBalance b n)
    end.

Definition evm_verifyOwnership (r : OwnershipVerificationRequest) : prog' bool :=
  Ret (match verifyMessage r with inl b => b | inr _ => false end).

Definition evm_createCustodialWallet : prog' CustodialWalletMaterial :=
  let! privateKey := gets generatePrivateKey in
  Ret (mkMaterial (privateKeyToAddress privateKey) privateKey).

(** [MintService] *)
Definition getMinterPrivateKey : prog' string :=
  if falsy (env "PRIVATE_KEY") then
    Throw (PlainError "PRIVATE_KEY is not configured — required to sign mint transactions")
  else Ret (default "" (env "PRIVATE_KEY")).

Definition mintService_mint (tokenAddress receiver : string) (a : Z)
  : prog' (string * EvmReceipt) :=
  let! minter := getMinterPrivateKey in
  let! hash := call Node (evm_mint minter tokenAddress receiver a) in
  ask Node (evm_waitForTransactionReceipt hash).

Definition evm_mint_op (r : MintRequest) : prog' string :=
  let! receipt := mintService_mint (mr_assetIdentifier r) (mr_toAddress r) (mr_amount r) in
  Ret receipt.1.

Definition EvmAdapter : BlockchainAdapter :=
  mkAdapter _ "EVM" evm_canSign evm_submitTransfer evm_getTransaction isEvmAddress
    (Some evm_getTokenBalance) (Some evm_verifyOwnership) (Some evm_createCustodialWallet)
    (Some evm_mint_op).

(** *** Bitcoin *)

(** [utxos.reduce((total, utxo) => total + btcToSatoshis(utxo.amount), 0n)] *)
Fixpoint sum_satoshis (total : Z) (utxos : list double) : Z + err :=
  match utxos with
  | [] => inl total
  | u :: rest => match btcToSatoshis u with inl s => sum_satoshis (total + s) rest | inr e => inr e end
  end.

Definition btc_getTokenBalance (r : TokenBalanceRequest) : prog' TokenBalance :=
  if negb (falsy (br_assetIdentifier r)) then
    Throw (PlainError "Bitcoin balance reads support the native BTC asset only")
  else
    let! observedBlock := ask Node btc_getblockchaininfo_blocks in
    let read :=
      let! utxos := ask Node (btc_listunspent_amounts (walletAddress r)) in
      let! balance := rethrow (sum_satoshis 0 utxos) in
      Ret (mkTokenBalance balance observedBlock) in
    match br_blockNumber r with
    | Some n =>
        if observedBlock <? n then
          Throw (PlainError ("Requested Bitcoin observation at height " +:+ pretty n
                   +:+ " is ahead of chain tip " +:+ pretty observedBlock))
        else read
    | None => read
    end.

Definition btc_submitTransfer (r : TransferRequest) : prog' string :=
  let! a := rethrow (satoshisToBtc (rq_amount r)) in
  call Node (btc_sendtoaddress (toAddress r) a).

Definition btc_getTransaction (hash : string) : prog' BlockchainTransaction :=
  let! transaction := ask Node (btc_getrawtransaction hash) in
  let confirmations := default 0 (btc_confirmations transaction) in
  let! height :=
    match blockhash transaction with
    | Some (String a s) =>
        if 0 <? confirmations then
          let! h := ask Node (btc_getblockheader_height (String a s)) in Ret (Some h)
        else Ret None
    | _ => Ret None
    end in
  Ret (mkBlockchainTransaction hash height confirmations
         (if 0 <? confirmations then confirmed else pending) None None).

Definition BitcoinAdapter : BlockchainAdapter :=
  mkAdapter _ "BITCOIN" (fun _ => true) btc_submitTransfer btc_getTransaction
    (fun _ => false) (Some btc_getTokenBalance) None None None.

(** *** Solana *)

Definition sol_canSign : WalletCustodyStatus -> bool := evm_canSign.

Definition sol_submitTransfer (r : TransferRequest) : prog' string :=
  if rq_amount r <? 0 then Throw (PlainError "Solana transfer amount cannot be negative")
  else
    let! fromKeypair := getKeypairFor (rq_walletId r) (rq_tenantId r) in
    let! toPublicKey := rethrow (newPublicKey (toAddress r)) in
    let! blockhash_ := ask Node sol_getLatestBlockhash in
    call Node (sol_sendTransfer fromKeypair blockhash_ toPublicKey (rq_amount r)).

Definition sol_getTransaction (hash : string) : prog' BlockchainTransaction :=
  let! status_ := ask Node (sol_getSignatureStatus hash) in
  match status_ with
  | None => Ret (mkBlockchainTransaction hash None 0 pending None None)
  | Some s =>
      if sol_err s then
        Ret (mkBlockchainTransaction hash (Some (slot s)) (default 0 (sol_confirmations s))
               failed None (Some (confirmationStatus s)))
      else
        let isConfirmedOrFinalized :=
          String.eqb (confirmationStatus s) "confirmed"
          || String.eqb (confirmationStatus s) "finalized" in
        let! gas :=
          (if isConfirmedOrFinalized then ask Node (sol_computeUnits hash) else Ret None) in
        Ret (mkBlockchainTransaction hash (Some (slot s)) (default 0 (sol_confirmations s))
               (if isConfirmedOrFinalized then confirmed else pending) gas
               (Some (confirmationStatus s)))
  end.

Definition toSafeSolanaSlot (n : Z) : prog' Z :=
  if (n <? 0) || (MAX_SAFE_INTEGER <? n) then
    Throw (PlainError "Solana observation slot exceeds JavaScript safe integer range")
  else Ret (toNumber n).

Definition sol_getTokenBalance (r : TokenBalanceRequest) : prog' TokenBalance :=
  if negb (falsy (br_assetIdentifier r)) then
    Throw (PlainError "Solana balance reads support the native SOL asset only")
  else
    let! minContextSlot :=
      match br_blockNumber r with
      | None => Ret None
      | Some n => let! s := toSafeSolanaSlot n in Ret (Some s)
      end in
    let! publicKey := rethrow (newPublicKey (walletAddress r)) in
    let! result := ask Node (sol_getBalanceAndContext publicKey minContextSlot) in
    Ret (mkTokenBalance result.1 result.2).

Definition sol_createCustodialWallet : prog' CustodialWalletMaterial :=
  let! keypair := gets generateKeypair in
  Ret (mkMaterial keypair.1 keypair.2).

Definition SolanaAdapter : BlockchainAdapter :=
  mkAdapter _ "SOLANA" sol_canSign sol_submitTransfer sol_getTransaction
    (fun _ => false) (Some sol_getTokenBalance) None (Some sol_createCustodialWallet) None.

(** [blockchainAdapterRegistry] *)
Definition blockchainAdapterRegistry : list BlockchainAdapter :=
  [EvmAdapter; BitcoinAdapter; SolanaAdapter].
End Adapters.

(** ** The adapters honour the interface *)
Section Steady.
Context `{P : Platform} `{K : Crypto} `{KS : !Keys} (env : Env) (isEvmAddress : string -> bool).

Lemma guards_signing_key i t : guards steady (signing_key env i t).
Proof. unfold signing_key, findByIdForTenantWithCustody. solve_guards. Qed.
#[local] Hint Resolve guards_signing_key : guards.

#[global] Instance EvmAdapter_steady : AdapterSteady (EvmAdapter env isEvmAddress).
Proof.
  split; simpl.
  - intros r. unfold evm_submitTransfer, getWalletClientFor. solve_guards.
  - intros h. unfold evm_getTransaction. solve_guards.
  - intros f r [= <-]. unfold evm_getTokenBalance. solve_guards.
  - intros f r [= <-]. exact I.
  - intros p [= <-]. unfold evm_createCustodialWallet. solve_guards.
  - intros f r [= <-]. unfold evm_mint_op, mintService_mint, getMinterPrivateKey. solve_guards.
Qed.

#[global] Instance BitcoinAdapter_steady : AdapterSteady BitcoinAdapter.
Proof.
  split; simpl.
  - intros r. unfold btc_submitTransfer. solve_guards.
  - intros h. unfold btc_getTransaction. solve_guards.
  - intros f r [= <-]. unfold btc_getTokenBalance. solve_guards.
  - done.
  - done.
  - done.
Qed.

#[global] Instance SolanaAdapter_steady : AdapterSteady (SolanaAdapter env).
Proof.
  split; simpl.
  - intros r. unfold sol_submitTransfer, getKeypairFor. solve_guards.
  - intros h. unfold sol_getTransaction. solve_guards.
  - intros f r [= <-]. unfold sol_getTokenBalance, toSafeSolanaSlot. solve_guards.
  - done.
  - intros p [= <-]. unfold sol_createCustodialWallet. solve_guards.
  - done.
Qed.
End Steady.

(** Every adapter a registry hands out. *)
Lemma guards_registry_get `{C : ChainNodes} adapters name :
  guards steady (registry_get adapters name).
Proof. unfold registry_get. solve_guards. Qed.

#[export] Hint Resolve guards_registry_get : guards.

(** ** Tri-state confirmation *)

(** A Bitcoin node reports a block hash with every confirmed transaction. *)
Definition btc_node_consistent `{ChainNodes} (c : Chain) : Prop :=
  forall h t, btc_getrawtransaction h c = inl t -> 0 < default 0 (btc_confirmations t) ->
    exists a s, blockhash t = Some (String a s).

(** The three adapters never mistake "not final yet" for an outcome.  EVM
    only reports final outcomes, Bitcoin never reports a failure, Solana reports
    success only at commitment confirmed or finalized, and a final outcome
    always carries the block (height, slot) the ledger will record. *)
Theorem adapters_report_finality `{P : Platform} `{K : Crypto} `{KS : !Keys}
    env isEvm h w r w' :
  btc_node_consistent (chain w) ->
  (exec (getTransaction (EvmAdapter env isEvm) h) w = (inl r, w') ->
     bt_status r <> pending /\ is_Some (bt_blockNumber r)) /\
  (exec (getTransaction BitcoinAdapter h) w = (inl r, w') ->
     bt_status r <> failed /\ (bt_status r = confirmed <-> 0 < bt_confirmations r) /\
     (bt_status r = confirmed -> is_Some (bt_blockNumber r))) /\
  (exec (getTransaction (SolanaAdapter env) h) w = (inl r, w') ->
     (bt_status r = confirmed ->
        confirmationLevel r = Some "confirmed" \/ confirmationLevel r = Some "finalized") /\
     (bt_status r <> pending -> is_Some (bt_blockNumber r))).
Proof.
  intros Hbtc. split; [|split]; simpl.
  - unfold evm_getTransaction. rewrite exec_bind.
    destruct (exec (executeRpc _ _) w) as [[rc|e] w1]; [|done].
    rewrite exec_ret. intros [= <- <-]. simpl. by destruct (rcpt_success rc).
  - unfold btc_getTransaction. rewrite exec_bind, exec_ask. simpl.
    destruct (btc_getrawtransaction h (chain w)) as [t|e] eqn:E; [|done].
    pose proof (Hbtc h t E) as Hbh. rewrite exec_bind.
    destruct (Z.ltb_spec 0 (default 0 (btc_confirmations t))) as [Hc|Hc].
    + destruct (Hbh Hc) as (a & s & ->). rewrite exec_bind, exec_ask. simpl.
      destruct (btc_getblockheader_height (String a s) (chain w)) as [n|e]; [|done].
      rewrite !exec_ret. intros [= <- <-]. simpl. split_and!; done.
    + destruct (blockhash t) as [[|a s]|]; rewrite !exec_ret; intros [= <- <-]; simpl;
        split_and!; try done; split; (done || lia).
  - unfold sol_getTransaction. rewrite exec_bind, exec_ask. simpl.
    destruct (sol_getSignatureStatus h (chain w)) as [[s|]|e]; [| |done].
    + destruct (sol_err s); [rewrite exec_ret; intros [= <- <-]; simpl; split; done|].
      rewrite exec_bind.
      destruct (String.eqb_spec (confirmationStatus s) "confirmed") as [->|N1];
        [|destruct (String.eqb_spec (confirmationStatus s) "finalized") as [->|N2]]; simpl;
        rewrite ?exec_ask; simpl; try destruct (sol_computeUnits h (chain w)) as [g|e]; try done;
        rewrite ?exec_ret; intros [= <- <-]; simpl; split; try done; auto.
    + rewrite exec_ret. intros [= <- <-]. simpl. split; done.
Qed.

(** ** Amounts of Bitcoin *)

(** What the node's JSON numbers stand for: the decimals it prints, parsed. *)
Definition node_amounts (satoshis : list Z) : list double :=
  map (fun n => of_ratio n (10 ^ 8)) satoshis.

Definition in_supply (n : Z) : Prop := 0 <= n <= MAX_SATOSHIS.

Lemma sum_satoshis_exact satoshis total :
  Forall in_supply satoshis ->
  sum_satoshis total (node_amounts satoshis) = inl (total + foldr Z.add 0 satoshis).
Proof.
  intros H. revert total. induction H as [|n l Hn _ IH]; intros total; simpl.
  - by rewrite Z.add_0_r.
  - rewrite node_amount_read by done. rewrite IH. f_equal. lia.
Qed.

Lemma satoshisToBtc_read n : in_supply n -> exists x, satoshisToBtc n = inl x /\ scaled 8 x = n.
Proof.
  intros Hn. unfold in_supply in Hn. destruct (decide (n = 0)) as [->|]; [by eexists|].
  destruct (satoshisToBtc_denotes n) as (x & E & m & e & -> & Hm & Hc); [lia|].
  eexists. split; [exact E|]. unfold MAX_SATOSHIS in Hn. apply scaled_close; [lia..|done].
Qed.

(** C19: although a Bitcoin node speaks binary floating point, the adapter moves and
    reports exact satoshis.  Every amount up to the whole supply is handed to the
    node as a double that reads, at the protocol's eight decimals, as that very
    amount; and a balance at or behind the tip is the exact sum of the unspent
    outputs, whatever their number, observed at the tip. *)
Theorem bitcoin_amounts_exact `{P : Platform} w satoshis tip q r :
  in_supply (rq_amount q) ->
  Forall in_supply satoshis ->
  btc_getblockchaininfo_blocks (chain w) = inl tip ->
  btc_listunspent_amounts (walletAddress r) (chain w) = inl (node_amounts satoshis) ->
  falsy (br_assetIdentifier r) = true ->
  (forall n, br_blockNumber r = Some n -> n <= tip) ->
  (exists x, exec (btc_submitTransfer q) w = on Node (btc_sendtoaddress (toAddress q) x) w
     /\ scaled 8 x = rq_amount q) /\
  exec (btc_getTokenBalance r) w = (inl (mkTokenBalance (foldr Z.add 0 satoshis) tip), w).
Proof.
  intros Hq Hs Ht Hu Ha Hn. split.
  - destruct (satoshisToBtc_read _ Hq) as (x & E & Hx). exists x. split; [|done].
    unfold btc_submitTransfer. by rewrite E, exec_bind, exec_rethrow, exec_call.
  - unfold btc_getTokenBalance. rewrite Ha. simpl negb. cbv iota.
    rewrite exec_bind, exec_ask. simpl view. rewrite Ht. cbv beta iota zeta.
    assert (E : exec (let! utxos := ask Node (btc_listunspent_amounts (walletAddress r)) in
                      let! balance := rethrow (sum_satoshis 0 utxos) in
                      Ret (mkTokenBalance balance tip)) w
                = (inl (mkTokenBalance (foldr Z.add 0 satoshis) tip), w)).
    { rewrite exec_bind, exec_ask. simpl view. rewrite Hu, exec_bind, exec_rethrow.
      by rewrite sum_satoshis_exact. }
    destruct (br_blockNumber r) as [n|]; [|exact E].
    destruct (Z.ltb_spec tip n) as [H|_]; [|exact E]. specialize (Hn n eq_refl). lia.
Qed.

Section Witness.
#[local] Existing Instance ref_platform.
#[local] Instance no_crypto : Crypto := {|
  gcm_encrypt k iv p := (p, p); gcm_decrypt k iv t c := None;
  kms_encrypt k p := inl None; kms_decrypt k p := inl None |}.
#[local] Instance no_keys : Keys := {|
  verifyMessage r := inl true; generatePrivateKey w := "0xkey"; privateKeyToAddress k := "0xADDR";
  generateKeypair w := ("pub", "secret"); fromSecretKey s := inl s; newPublicKey a := inl a;
  randomBytes n w := repeat Ascii.zero n |}.

(** A Bitcoin transaction still in the mempool. *)
Definition mempool : World :=
  fresh_world 0 (mkScript ∅ {["h" := mkBtcTx None None]} ∅ ∅ 0 [] ∅ ∅ None []).

Lemma adapters_report_finality_witness :
  pending <> failed /\ (pending = confirmed <-> 0 < 0) /\ (pending = confirmed -> is_Some (None : option Z)).
Proof.
  assert (Hc : btc_node_consistent (chain mempool)).
  { intros h t. unfold mempool. simpl. rewrite lookup_singleton. case_decide; simpl.
    - intros [= <-]. simpl. lia.
    - done. }
  destruct (adapters_report_finality (fun _ => None) (fun _ => true)
    "h" mempool
    (mkBlockchainTransaction "h" None 0 pending None None) mempool Hc) as (_ & H & _).
  apply H. vm_compute. reflexivity.
Defined.

(** Outputs of 0.1 and 0.2 BTC, whose sum of doubles is not 0.3. *)
Definition savings : World :=
  fresh_world 0 (mkScript ∅ ∅ ∅ ∅ 812000 [] ∅
    {["bc1q" := [of_ratio 10000000 (10 ^ 8); of_ratio 20000000 (10 ^ 8)]]} (Some "h") []).

Lemma bitcoin_amounts_exact_witness :
  (exists x, exec (btc_submitTransfer (mkTransferRequest "t1" "w1" "bc1p" 2099999999999999 None)) savings
      = on Node (btc_sendtoaddress "bc1p" x) savings /\ scaled 8 x = 2099999999999999) /\
  exec (btc_getTokenBalance (mkBalanceRequest None "bc1q" (Some 812000))) savings
    = (inl (mkTokenBalance 30000000 812000), savings).
Proof.
  apply (bitcoin_amounts_exact savings [10000000; 20000000] 812000
    (mkTransferRequest "t1" "w1" "bc1p" 2099999999999999 None)
    (mkBalanceRequest None "bc1q" (Some 812000))).
  - split; vm_compute; discriminate.
  - repeat constructor; vm_compute; discriminate.
  - reflexivity.
  - vm_compute. reflexivity.
  - reflexivity.
  - intros n [= <-]. vm_compute. discriminate.
Defined.
End Witness.

(** A continuation only ever receives an adapter of the registry. *)
Lemma guards_registry_bind `{C : ChainNodes} {A} (G : World -> World -> Prop) adapters name
    (k : BlockchainAdapter -> prog' A) :
  (forall a, a ∈ adapters -> guards G (k a)) ->
  guards G (bind (registry_get adapters name) k).
Proof.
  intros H. unfold registry_get.
  destruct (List.find _ adapters) as [a|] eqn:E; [|done].
  apply find_some in E as [E _]. by apply H, list_elem_of_In.
Qed.

Lemma registry_get_exec `{C : ChainNodes} adapters name a (w : World) :
  List.find (fun a => String.eqb (chain_ a) (toUpperCase name)) adapters = Some a ->
  exec (registry_get adapters name) w = (inl a, w).
Proof. intros H. unfold registry_get. by rewrite H. Qed.
