(* ===== verification/EvmClient.v ===== *)
(** * The EVM wallet clients of the process

    [src/blockchain/client.ts]: one nonce manager per account, kept in a module-level
    map, so that transfers signed concurrently for one account draw their nonces from
    one sequence. *)

From S2P Require Import Prelude Schema Platform Reference Envelope Adapters.
#[local] Open Scope Z_scope.

(** A nonce manager is an object: what matters is which one. *)
Record WalletClient := mkWalletClient { account : string; nonceManager : nat }.

(** [nonceManagers], and the next object to be created. *)
Record Clients := mkClients { nonceManagers : gmap string nat; created : nat }.

Section Client.
Context `{C : ChainNodes} `{KS : !Keys}.

Definition getWalletClient (privateKey : string) (s : Clients) : (WalletClient + err) * Clients :=
  if String.eqb privateKey "" then (inr (PlainError "Private key required"), s)
  else
    let address := privateKeyToAddress privateKey in
    match nonceManagers s !! address with
    | Some m => (inl (mkWalletClient address m), s)
    | None =>
        (inl (mkWalletClient address (created s)),
         mkClients (<[address := created s]> (nonceManagers s)) (S (created s)))
    end.

Definition resetNonceManagers (s : Clients) : Clients := mkClients ∅ (created s).

(** The clients handed out for a sequence of keys. *)
Fixpoint clients (keys : list string) (s : Clients) : list WalletClient * Clients :=
  match keys with
  | [] => ([], s)
  | k :: rest =>
      let r := getWalletClient k s in
      let q := clients rest r.2 in
      (match r.1 with inl c => c :: q.1 | inr _ => q.1 end, q.2)
  end.

(** Distinct accounts have distinct managers, all of them created before. *)
Definition managers_ok (s : Clients) : Prop :=
  (forall a m, nonceManagers s !! a = Some m -> (m < created s)%nat) /\
  (forall a b m, nonceManagers s !! a = Some m -> nonceManagers s !! b = Some m -> a = b).

Lemma getWalletClient_ok k s :
  managers_ok s ->
  let s' := (getWalletClient k s).2 in
  managers_ok s' /\ nonceManagers s ⊆ nonceManagers s' /\
  (forall c, (getWalletClient k s).1 = inl c ->
     account c = privateKeyToAddress k /\ nonceManagers s' !! account c = Some (nonceManager c)).
Proof.
  intros [Hlt Hinj]. unfold getWalletClient. destruct (String.eqb k ""); [done|].
  set (a := privateKeyToAddress k). destruct (nonceManagers s !! a) as [m|] eqn:E; cbn.
  - split_and!; try done. by intros c [= <-].
  - split_and!.
    + split; cbn.
      * intros b m. rewrite lookup_insert. case_decide; [intros [= <-]; lia|]. intros Hb%Hlt. lia.
      * intros b c m. rewrite !lookup_insert. repeat case_decide; try congruence.
        -- intros [= <-] Hc%Hlt. lia.
        -- intros Hb%Hlt [= <-]. lia.
        -- apply Hinj.
    + by apply insert_subseteq.
    + intros c [= <-]. split; [done|]. cbn. apply lookup_insert_eq.
Qed.

Lemma clients_ok keys s :
  managers_ok s ->
  managers_ok (clients keys s).2 /\ nonceManagers s ⊆ nonceManagers (clients keys s).2 /\
  Forall (fun c => nonceManagers (clients keys s).2 !! account c = Some (nonceManager c))
    (clients keys s).1.
Proof.
  revert s. induction keys as [|k keys IH]; intros s Hs; cbn [clients].
  - by split_and!.
  - destruct (getWalletClient_ok k s Hs) as (H1 & H2 & H3).
    destruct (IH _ H1) as (I1 & I2 & I3). split; [done|]. split; [by etransitivity|].
    destruct (getWalletClient k s).1 as [c|e] eqn:E; [|done]. constructor; [|done].
    destruct (H3 c eq_refl) as [_ Hc]. by eapply lookup_weaken.
Qed.
End Client.

(** One nonce sequence per account.  Over any sequence of requests for a signing
    client, two clients share their nonce manager exactly when they sign for the same
    account, and no client is handed out without a key. *)
Theorem nonce_manager_per_account `{C : ChainNodes} `{KS : !Keys} keys s c d :
  managers_ok s -> c ∈ (clients keys s).1 -> d ∈ (clients keys s).1 ->
  (nonceManager c = nonceManager d <-> account c = account d) /\
  (getWalletClient "" s) = (inr (PlainError "Private key required"), s).
Proof.
  intros Hs Hc Hd. destruct (clients_ok keys s Hs) as ((_ & Hinj) & _ & HF).
  rewrite Forall_forall in HF. apply HF in Hc, Hd. split; [|done]. split.
  - intros E. rewrite <- E in Hd. by eapply Hinj.
  - intros E. congruence.
Qed.

Section Witness.
#[local] Existing Instance ref_nodes.
#[local] Instance account_keys : Keys := {|
  verifyMessage r := inl true; generatePrivateKey w := "0xkey"; privateKeyToAddress k := "0xA" +:+ k;
  generateKeypair w := ("pub", "secret"); fromSecretKey s := inl s; newPublicKey a := inl a;
  randomBytes n w := repeat Ascii.zero n |}.

(** Two transfers of one account and one of another. *)
Lemma nonce_manager_per_account_witness :
  (0%nat = 0%nat <-> "0xA1" = "0xA1") /\
  (getWalletClient "" (mkClients ∅ 0)) = (inr (PlainError "Private key required"), mkClients ∅ 0).
Proof.
  apply (nonce_manager_per_account ["1"; "2"; "1"] (mkClients ∅ 0)
    (mkWalletClient "0xA1" 0) (mkWalletClient "0xA1" 0)).
  - split; [intros a m E|intros a b m E]; discriminate E.
  - by left.
  - by right; right; left.
Defined.
End Witness.
