(* ===== verification/Transfer.v ===== *)
(** * Submitting a transfer

    [src/services/ledger.service.ts] and [src/services/transfer.service.ts] with
    the lookups they use ([token.service.ts], [wallet.service.ts] and their
    repositories): the checks made before anything is written, the PENDING row,
    the broadcast, the SUBMITTED mark and the confirmation job. *)

From S2P Require Import Prelude JsString Schema Platform Reference StateMachine TransactionRepository Guarantee Metrics Addresses Envelope Adapters.

(** [CONFIRM_TRANSACTION] jobs. *)
Definition tokenNotFound (tokenId : option string) : err :=
  AppError 404 "TOKEN_NOT_FOUND" "Token not found" (id_details "tokenId" tokenId).

(** A request as the route validates it. *)
Record TransferInput := mkTransferInput {
  in_tenantId : string; in_userId : string; in_tokenId : string;
  in_fromWalletId : string; in_toWalletId : string; in_amount : Z }.

Definition transaction_labels (t : Transaction) : list (string * string) :=
  [("tenantId", tenantId t); ("tokenId", tokenId t)].

(** A row as the API creates it. *)
Definition pending_row (tenant token from to : string) (a date : Z) : Transaction :=
  mkTransaction tenant token from to None a None None None PENDING date None None None None None.

Section Lookups.
Context `{P : Platform}.

Definition token_findById (id : string) : prog' (option (string * Token)) :=
  query Tokens (findUnique (at_id id (fun _ => true))).

Definition getToken (id : string) : prog' (string * Token) :=
  let! token := token_findById id in
  match token with
  | None => Throw (tokenNotFound (Some id))
  | Some t => Ret t
  end.

Definition getWalletById (id : string) : prog' (option (string * Wallet)) :=
  query Wallets (findUnique (at_id id (fun _ => true))).

Definition getCustodyStatus (walletId : string) : prog' WalletCustodyStatus :=
  let! wallet := query Wallets (findUnique (at_id walletId (fun _ => true))) in
  match wallet with
  | None => Throw (walletNotFound (Some walletId))
  | Some (_, r) => Ret (mkCustody (custodyType r) (is_some (custodyKey r)))
  end.
End Lookups.

Section Ledger.
Context `{P : Platform}.

Definition createPending (tenant token from to : string) (a : Z)
  : prog' (string * Transaction) :=
  let! date := now in
  let! transaction := TransactionRepository.create (pending_row tenant token from to a date) in
  do! incrementMetric transactionsCreatedTotal (transaction_labels transaction.2) in
  Ret transaction.

Definition ledger_markSubmitted (id hash : string) : prog' (string * Transaction) :=
  markSubmitted id hash.

Definition ledger_confirm (hash : string) (block gas : Z) : prog' (string * Transaction) :=
  confirm hash (Some (toNumber block)) (Some gas).

Definition ledger_markFailed (id reason : string) : prog' (string * Transaction) :=
  markFailed id reason.

(** [transactionConfirmationQueue.add(...)] *)
Definition enqueue_confirmation (jobId : option string) (t : string * Transaction) : prog' unit :=
  call ConfirmationQueue (fun q => (inl tt, queue_add jobId (mkJob t.1 (tenantId t.2)) q)).
End Ledger.

Section Transfer.
Context `{P : Platform} (adapters : list BlockchainAdapter).

(** The body of the [try] block after the PENDING row exists. *)
Definition submit (adapter : BlockchainAdapter) (request : TransferInput)
    (token : string * Token) (fromWallet toWallet : string * Wallet)
    (transaction : string * Transaction) : prog' (string * Transaction) :=
  let! hash := submitTransfer adapter
    (mkTransferRequest (in_tenantId request) fromWallet.1 (address toWallet.2)
       (in_amount request) (contractAddress token.2)) in
  do! incrementMetric transactionsSubmittedTotal (transaction_labels transaction.2) in
  do! observeMetric transactionSubmissionDurationSeconds (transaction_labels transaction.2) in
  let! submitted := ledger_markSubmitted transaction.1 hash in
  do! enqueue_confirmation None submitted in
  Ret submitted.

Definition transfer (request : TransferInput) : prog' (string * Transaction) :=
  let! token := getToken (in_tokenId request) in
  let! from := getWalletById (in_fromWalletId request) in
  match from with
  | None => Throw (walletNotFound None)
  | Some fromWallet =>
      if negb (String.eqb (wal_tenantId fromWallet.2) (in_tenantId request))
         || negb (String.eqb (ownerId fromWallet.2) (in_userId request))
      then Throw (walletNotFound None)
      else
        let! to := getWalletById (in_toWalletId request) in
        match to with
        | None => Throw (walletNotFound None)
        | Some toWallet =>
            let! adapter := registry_get adapters (Blockchain_name (blockchain token.2)) in
            let! custody := getCustodyStatus fromWallet.1 in
            if negb (canSign adapter custody) then Throw (walletNotCustodial (Some fromWallet.1))
            else
              let! transaction :=
                createPending (in_tenantId request) (in_tokenId request) fromWallet.1
                  toWallet.1 (in_amount request) in
              catch (submit adapter request token fromWallet toWallet transaction)
                (fun e => ledger_markFailed transaction.1 (err_message e))
        end
  end.
End Transfer.

(** ** Guarantees *)
Section Guards.
Context `{P : Platform} `{!PlatformLaws P}.

Lemma guards_createPending te tk f t a : guards steady (createPending te tk f t a).
Proof.
  unfold createPending. solve_guards. by apply guards_create.
Qed.

Lemma guards_transfer adapters r :
  Forall AdapterSteady adapters -> guards steady (transfer adapters r).
Proof.
  intros Ha. unfold transfer, getToken, token_findById, getWalletById, getCustodyStatus.
  repeat first [solve [eauto 3 with guards]
               |apply guards_registry_bind; intros ad Had|guard_split].
  all: try apply guards_createPending.
  rewrite Forall_forall in Ha. specialize (Ha ad Had).
  unfold submit, ledger_markSubmitted, enqueue_confirmation.
  pose proof (submitTransfer_steady (a:=ad)). solve_guards.
Qed.
End Guards.

#[export] Hint Resolve guards_createPending guards_transfer : guards.

(** ** Behaviour *)
Section Exec.
Context `{P : Platform} `{!PlatformLaws P}.

Lemma getToken_exec id w :
  exec (getToken id) w =
  match tokens w !! id with Some t => (inl (id, t), w) | None => (inr (tokenNotFound (Some id)), w) end.
Proof.
  unfold getToken, token_findById. rewrite exec_bind, exec_query, findUnique_at_id. simpl.
  by destruct (tokens w !! id).
Qed.

Lemma getWalletById_exec id w :
  exec (getWalletById id) w = (inl ((fun r => (id, r)) <$> wallets w !! id), w).
Proof.
  unfold getWalletById. rewrite exec_query, findUnique_at_id. simpl.
  by destruct (wallets w !! id).
Qed.

Lemma getCustodyStatus_exec id w :
  exec (getCustodyStatus id) w =
  match wallets w !! id with
  | Some r => (inl (mkCustody (custodyType r) (is_some (custodyKey r))), w)
  | None => (inr (walletNotFound (Some id)), w)
  end.
Proof.
  unfold getCustodyStatus. rewrite exec_bind, exec_query, findUnique_at_id. simpl.
  by destruct (wallets w !! id).
Qed.
End Exec.

(** The request passes every check made before the ledger is written. *)
Definition accepted_request `{P : Platform} adapters (r : TransferInput) (w : World)
    (tok : Token) (f t : Wallet) (a : BlockchainAdapter) : Prop :=
  tokens w !! in_tokenId r = Some tok /\
  wallets w !! in_fromWalletId r = Some f /\
  wal_tenantId f = in_tenantId r /\ ownerId f = in_userId r /\
  wallets w !! in_toWalletId r = Some t /\
  List.find (fun a => String.eqb (chain_ a) (toUpperCase (Blockchain_name (blockchain tok))))
    adapters = Some a /\
  canSign a (mkCustody (custodyType f) (is_some (custodyKey f))) = true.

Section Behaviour.
Context `{P : Platform} `{!PlatformLaws P} (adapters : list BlockchainAdapter).

(** An accepted request reaches the ledger. *)
Lemma transfer_accepted_exec r w tok f t a :
  accepted_request adapters r w tok f t a ->
  exec (transfer adapters r) w =
  exec (let! transaction := createPending (in_tenantId r) (in_tokenId r) (in_fromWalletId r)
                              (in_toWalletId r) (in_amount r) in
        catch (submit a r (in_tokenId r, tok) (in_fromWalletId r, f) (in_toWalletId r, t) transaction)
          (fun e => ledger_markFailed transaction.1 (err_message e))) w.
Proof.
  intros (Ht & Hf & Hten & Hown & Hto & Ha & Hsign). unfold transfer.
  rewrite exec_bind, getToken_exec, Ht. rewrite exec_bind, getWalletById_exec, Hf.
  cbn [fmap option_fmap option_map snd fst]. rewrite Hten, Hown, !String.eqb_refl.
  cbn [negb orb]. rewrite exec_bind, getWalletById_exec, Hto.
  cbn [fmap option_fmap option_map snd fst].
  rewrite exec_bind, (registry_get_exec _ _ _ _ Ha).
  rewrite exec_bind, getCustodyStatus_exec, Hf, Hsign. done.
Qed.
End Behaviour.

(** C16: no ledger side effect without authority.  A request that fails any of
    the preconditions (unknown token, a source wallet that does not exist or
    belongs to another tenant or user, an unknown destination, a chain without
    adapter, a wallet the platform cannot sign for) is rejected and the world is
    exactly what it was: no row, no job, nothing broadcast. *)
Theorem transfer_rejected_leaves_no_trace `{P : Platform} `{!PlatformLaws P} adapters r w :
  (forall tok f t a, ~ accepted_request adapters r w tok f t a) ->
  exists e, exec (transfer adapters r) w = (inr e, w).
Proof.
  intros H. unfold transfer. rewrite exec_bind, getToken_exec.
  destruct (tokens w !! in_tokenId r) as [tok|] eqn:Ht; [|by eexists].
  rewrite exec_bind, getWalletById_exec.
  destruct (wallets w !! in_fromWalletId r) as [f|] eqn:Hf; [|by eexists].
  cbn [fmap option_fmap option_map snd fst].
  destruct (String.eqb_spec (wal_tenantId f) (in_tenantId r)) as [Hten|]; [|by eexists].
  destruct (String.eqb_spec (ownerId f) (in_userId r)) as [Hown|]; [|by eexists].
  cbn [negb orb]. rewrite exec_bind, getWalletById_exec.
  destruct (wallets w !! in_toWalletId r) as [t|] eqn:Hto; [|by eexists].
  cbn [fmap option_fmap option_map snd fst]. rewrite exec_bind. unfold registry_get.
  destruct (List.find _ adapters) as [a|] eqn:Ha; [|by eexists].
  rewrite exec_ret, exec_bind, getCustodyStatus_exec, Hf.
  destruct (canSign a (mkCustody (custodyType f) (is_some (custodyKey f)))) eqn:Hs;
    [|by eexists].
  exfalso. by apply (H tok f t a).
Qed.

(** The world right after the PENDING row was created and counted. *)
Definition with_pending `{P : Platform} (r : TransferInput) (w : World) : World :=
  let m := transactions w in
  let row := pending_row (in_tenantId r) (in_tokenId r) (in_fromWalletId r) (in_toWalletId r)
               (in_amount r) (clock w) in
  put Metrics (Inc "transactions_created_total"
                 [("tenantId", in_tenantId r); ("tokenId", in_tokenId r)] 1 :: metrics w)
    (put Transactions (<[uuid m := row]> m) w).

(** The request as the adapter receives it. *)
Definition chain_request (r : TransferInput) (tok : Token) (t : Wallet) : TransferRequest :=
  mkTransferRequest (in_tenantId r) (in_fromWalletId r) (address t) (in_amount r)
    (contractAddress tok).

Section Branches.
Context `{P : Platform} `{!PlatformLaws P}.

Lemma createPending_exec r w :
  table_ok (transactions w) -> int8 (in_amount r) = true ->
  exec (createPending (in_tenantId r) (in_tokenId r) (in_fromWalletId r) (in_toWalletId r)
          (in_amount r)) w =
  (inl (uuid (transactions w),
        pending_row (in_tenantId r) (in_tokenId r) (in_fromWalletId r) (in_toWalletId r)
          (in_amount r) (clock w)), with_pending r w).
Proof.
  intros Hok Ha. unfold createPending. rewrite exec_bind, exec_now, exec_bind.
  rewrite create_applies; [|done|simpl; by rewrite Ha|done].
  rewrite exec_bind, incrementMetric_exec. unfold transaction_labels. simpl. accepted.
  by rewrite exec_ret.
Qed.
End Branches.

(** The exact row and world after a successful submission. *)
Definition submitted_row (r : TransferInput) (h : string) (created submitted : Z) : Transaction :=
  with_submission (with_status (pending_row (in_tenantId r) (in_tokenId r) (in_fromWalletId r)
    (in_toWalletId r) (in_amount r) created) SUBMITTED) h submitted.

Lemma transfer_submitted `{P : Platform} `{!PlatformLaws P} adapters r w tok f t a h w1 :
  accepted_request adapters r w tok f t a ->
  table_ok (transactions w) -> int8 (in_amount r) = true -> fresh_hash h (transactions w) ->
  exec (submitTransfer a (chain_request r tok t)) (with_pending r w) = (inl h, w1) ->
  transactions w1 = transactions (with_pending r w) ->
  let id := uuid (transactions w) in
  let row := submitted_row r h (clock w) (clock w1) in
  exists ms j,
    exec (transfer adapters r) w =
      (inl (id, row),
       put ConfirmationQueue (<[j := mkJob id (in_tenantId r)]> (confirmationQueue w1))
         (put Transactions (<[id := row]> (transactions w)) (put Metrics ms w1))) /\
    confirmationQueue w1 !! j = None.
Proof.
  intros Hacc Hok Ha Hh Hsub Htx id. rewrite (transfer_accepted_exec _ _ _ _ _ _ _ Hacc).
  rewrite exec_bind, createPending_exec by done. rewrite exec_catch. unfold submit.
  rewrite exec_bind. cbn [fst snd]. fold (chain_request r tok t). rewrite Hsub.
  rewrite exec_bind, incrementMetric_exec, exec_bind, observeMetric_exec.
  unfold transaction_labels. simpl. accepted.
  rewrite exec_bind. unfold ledger_markSubmitted.
  set (row0 := pending_row (in_tenantId r) (in_tokenId r) (in_fromWalletId r) (in_toWalletId r)
                 (in_amount r) (clock w)).
  simpl in Htx. fold row0 id in Htx.
  erewrite (markSubmitted_applies id h _ row0); cycle 1.
  - simpl. rewrite Htx. apply table_ok_insert; [done|simpl; by rewrite Ha|].
    intros k r' _ _. simpl. by destruct (txHash r').
  - simpl. rewrite Htx. apply lookup_insert_eq.
  - done.
  - simpl. by rewrite Ha.
  - simpl. rewrite Htx. intros k x. rewrite lookup_insert. case_decide; [|apply Hh].
    by intros [= <-].
  - unfold enqueue_confirmation. rewrite exec_bind, exec_call. unfold on. simpl.
    destruct (queue_add_anonymous _ (mkJob id (in_tenantId r))
      (confirmationQueue w1)) as (j & Hj & ->).
    do 2 eexists. split; [|exact Hj]. cbn. by rewrite Htx, insert_insert_eq.
Qed.

(** A successful submission.  If the checks pass and the node accepts the
    transfer under a hash no other transaction has, the caller gets the SUBMITTED
    row with that hash, the table holds exactly that row on top of the others,
    and a confirmation job for it is in the queue. *)
Theorem transfer_submits `{P : Platform} `{!PlatformLaws P} adapters r w tok f t a h w1 :
  accepted_request adapters r w tok f t a ->
  table_ok (transactions w) -> int8 (in_amount r) = true -> fresh_hash h (transactions w) ->
  exec (submitTransfer a (chain_request r tok t)) (with_pending r w) = (inl h, w1) ->
  transactions w1 = transactions (with_pending r w) ->
  let id := uuid (transactions w) in
  exists row w',
    exec (transfer adapters r) w = (inl (id, row), w') /\
    transactions w' = <[id := row]> (transactions w) /\
    status row = SUBMITTED /\ txHash row = Some h /\ amount row = in_amount r /\
    fromWalletId row = in_fromWalletId r /\ toWalletId row = in_toWalletId r /\
    exists j, confirmationQueue w' !! j = Some (mkJob id (in_tenantId r)).
Proof.
  intros Hacc Hok Ha Hh Hsub Htx id.
  destruct (transfer_submitted adapters r w tok f t a h w1) as (ms & j & E & _); [done..|].
  do 2 eexists. split; [exact E|]. split_and!; try done. exists j. apply lookup_insert_eq.
Qed.

(** C15: a failed submission.  If the adapter reports an error, the transaction
    ends FAILED with that error as its reason, no confirmation job is created,
    and the caller gets the FAILED row instead of an exception. *)
Theorem transfer_records_failure `{P : Platform} `{!PlatformLaws P} adapters r w tok f t a e w1 :
  accepted_request adapters r w tok f t a ->
  table_ok (transactions w) -> int8 (in_amount r) = true ->
  exec (submitTransfer a (chain_request r tok t)) (with_pending r w) = (inr e, w1) ->
  transactions w1 = transactions (with_pending r w) ->
  let id := uuid (transactions w) in
  exists row,
    exec (transfer adapters r) w =
      (inl (id, row), put Transactions (<[id := row]> (transactions w)) w1) /\
    status row = FAILED /\ failureReason row = Some (err_message e) /\ txHash row = None.
Proof.
  intros Hacc Hok Ha Hsub Htx id. rewrite (transfer_accepted_exec _ _ _ _ _ _ _ Hacc).
  rewrite exec_bind, createPending_exec by done. rewrite exec_catch. unfold submit.
  rewrite exec_bind. cbn [fst snd]. fold (chain_request r tok t). rewrite Hsub.
  unfold ledger_markFailed. cbn [fst].
  set (row0 := pending_row (in_tenantId r) (in_tokenId r) (in_fromWalletId r) (in_toWalletId r)
                 (in_amount r) (clock w)).
  simpl in Htx. fold row0 id in Htx.
  erewrite (markFailed_applies id _ _ row0); cycle 1.
  - rewrite Htx. apply table_ok_insert; [done|simpl; by rewrite Ha|].
    intros k r' _ _. simpl. by destruct (txHash r').
  - rewrite Htx. apply lookup_insert_eq.
  - by left.
  - simpl. by rewrite Ha.
  - eexists. rewrite Htx, insert_insert_eq. split; [done|]. done.
Qed.

Section Witness.
#[local] Existing Instance ref_platform.
#[local] Existing Instance ref_platform_laws.
#[local] Existing Instance no_crypto.
#[local] Existing Instance no_keys.

(** A Bitcoin deployment: two wallets of one tenant and the native token. *)
Definition alice : Wallet := mkWallet "t1" "u1" 18444 "bcrt1alice" EXTERNAL ACTIVE None 0.
Definition bob : Wallet := mkWallet "t1" "u2" 18444 "bcrt1bob" EXTERNAL ACTIVE None 0.
Definition btc : Token := mkToken "Bitcoin" "BTC" None BITCOIN true 8 0 0.

Definition deployment (c : Script) : World :=
  put Tokens {["tok" := btc]}
    (put Wallets {["wa" := alice; "wb" := bob]} (fresh_world 1000 c)).

Definition registry : list BlockchainAdapter :=
  blockchainAdapterRegistry (fun _ => None) (fun _ => true).

Definition pay : TransferInput := mkTransferInput "t1" "u1" "tok" "wa" "wb" 5.

(** Somebody else's wallet. *)
Definition steal : TransferInput := mkTransferInput "t1" "u2" "tok" "wa" "wb" 5.

Lemma deployment_accepts c :
  accepted_request registry pay (deployment c) btc alice bob
    BitcoinAdapter.
Proof. unfold accepted_request. split_and!; reflexivity. Qed.

Lemma transfer_rejected_leaves_no_trace_witness :
  exists e, exec (transfer registry steal) (deployment quiet) = (inr e, deployment quiet).
Proof.
  apply transfer_rejected_leaves_no_trace.
  intros tok f t a (_ & Hf & _ & Hown & _). vm_compute in Hf. simplify_eq.
Defined.

Lemma transfer_submits_witness :
  exists row w',
    exec (transfer registry pay) (deployment quiet) = (inl ("x", row), w') /\
    transactions w' = <["x" := row]> ∅ /\ status row = SUBMITTED /\
    txHash row = Some "0xabc" /\ amount row = 5 /\ fromWalletId row = "wa" /\
    toWalletId row = "wb" /\
    exists j, confirmationQueue w' !! j = Some (mkJob "x" "t1").
Proof.
  eapply (transfer_submits registry pay (deployment quiet) btc alice bob _ "0xabc");
    [apply deployment_accepts|decided|reflexivity| |
     vm_compute; reflexivity|reflexivity].
  intros k t Hk. vm_compute in Hk. discriminate.
Defined.

Definition outage : Script := mkScript ∅ ∅ ∅ ∅ 0 [] ∅ ∅ None [].

Lemma transfer_records_failure_witness :
  exists row w1,
    exec (transfer registry pay) (deployment outage) =
      (inl ("x", row), put Transactions (<["x" := row]> ∅) w1) /\
    status row = FAILED /\ failureReason row = Some "fetch failed" /\ txHash row = None.
Proof.
  edestruct (transfer_records_failure registry pay (deployment outage) btc alice bob)
    as (row & H);
    [apply deployment_accepts|decided|reflexivity|
     vm_compute; reflexivity|reflexivity|].
  exists row. eexists. exact H.
Defined.
End Witness.
