(* ===== verification/Confirmation.v ===== *)
(** * Confirming a transaction

    [src/workers/confirmation.processor.ts]: one delivery of a confirmation job.
    The chain is asked, the row is claimed (SUBMITTED to CONFIRMING), and the
    confirmation and its outbox event are persisted in one database
    transaction.  Logging, tracing spans and the logging context are not
    modelled: they do not influence the control flow. *)

From S2P Require Import Prelude JsString Schema Platform Reference StateMachine TransactionRepository Outbox Guarantee Metrics Addresses Envelope Adapters Transfer.
From stdpp Require Import pretty.
#[local] Open Scope Z_scope.

Definition isTerminal (s : TransactionStatus) : bool :=
  bool_decide (s = CONFIRMED) || bool_decide (s = FAILED) || bool_decide (s = EXPIRED).

Definition nullable {A} (f : A -> json) (o : option A) : json :=
  match o with Some a => f a | None => JNull end.

(** The event written with the confirmation. *)
Definition confirmed_event (c : string * Transaction) : OutboxEventData :=
  mkEventData c.1 CONFIRMED_EVENT
    [("transactionId", JString c.1); ("tenantId", JString (tenantId c.2));
     ("tokenId", JString (tokenId c.2)); ("txHash", nullable JString (txHash c.2));
     ("blockNumber", nullable (fun b => JString (pretty b)) (blockNumber c.2));
     ("amount", JString (pretty (amount c.2)));
     ("confirmedAt", nullable JIsoDate (confirmedAt c.2))].

(** Errors that only mean "not there yet". *)
Definition not_there_yet (e : err) : bool :=
  match e with TransactionPendingError _ => true | _ => false end
  || includes "could not be found" (err_message e)
  || includes "No such mempool or blockchain transaction" (err_message e).

Section Processor.
Context `{P : Platform} (adapters : list BlockchainAdapter).

Definition tx_id (tx : TransactionWithRelations) : string := tx.1.1.
Definition tx_row (tx : TransactionWithRelations) : Transaction := tx.1.2.
Definition tx_token (tx : TransactionWithRelations) : Token := tx.2.1.1.

(** [tx.txHash!]: only reached with a hash. *)
Definition tx_hash (tx : TransactionWithRelations) : string := default "" (txHash (tx_row tx)).

Definition tx_labels (tx : TransactionWithRelations) : list (string * string) :=
  transaction_labels (tx_row tx).

Definition getBlockchainTransaction (tx : TransactionWithRelations) : prog' BlockchainTransaction :=
  let! adapter := registry_get adapters (Blockchain_name (blockchain (tx_token tx))) in
  getTransaction adapter (tx_hash tx).

(** The current status, as the conflict handlers read it. *)
Definition current_status (tx : TransactionWithRelations) : prog' TransactionStatus :=
  let! current := findById (tx_id tx) (tenantId (tx_row tx)) in
  match current with
  | None => Throw (not_found_error (tx_id tx))
  | Some c => Ret (status (tx_row c))
  end.

Definition handleStaleConfirmation (tx : TransactionWithRelations) (e : err) : prog' bool :=
  let! s := current_status tx in
  if isTerminal s then Ret false
  else if bool_decide (s = CONFIRMING) then Ret true
  else Throw e.

Definition is_conflict (e : err) : bool :=
  match e with TransactionStateConflictError _ _ => true | _ => false end.

Definition claimConfirmation (tx : TransactionWithRelations) : prog' bool :=
  catch (do! markConfirming (tx_id tx) in Ret true)
    (fun e => if is_conflict e then handleStaleConfirmation tx e else Throw e).

(** The body of [prisma.$transaction]. *)
Definition confirmation_body (tx : TransactionWithRelations) (bt : BlockchainTransaction)
  : prog' unit :=
  match bt_blockNumber bt with
  | None =>
      Throw (PlainError ("Confirmed transaction " +:+ tx_hash tx +:+ " has no block number"))
  | Some b =>
      let! confirmed := confirm (tx_hash tx) (Some (toNumber b)) (bt_gasUsed bt) in
      do! createInTransaction (confirmed_event confirmed) in
      Ret tt
  end.

Definition persistConfirmation (tx : TransactionWithRelations) (bt : BlockchainTransaction)
  : prog' unit :=
  catch (transaction (confirmation_body tx bt))
    (fun e =>
       if is_conflict e then
         let! s := current_status tx in
         if isTerminal s then Ret tt else Throw e
       else Throw e).

Definition handleSuccessfulTransaction (tx : TransactionWithRelations) (bt : BlockchainTransaction)
  : prog' unit :=
  let! claimed := claimConfirmation tx in
  if claimed then
    do! persistConfirmation tx bt in
    incrementMetric transactionsConfirmedTotal (tx_labels tx)
  else Ret tt.

Definition markTransactionFailed (tx : TransactionWithRelations) : prog' bool :=
  catch (do! markFailed (tx_id tx) "FAILED" in Ret true)
    (fun e =>
       if is_conflict e then
         let! s := current_status tx in
         if isTerminal s then Ret false else Throw e
       else Throw e).

Definition handleRevertedTransaction (tx : TransactionWithRelations) : prog' unit :=
  let! failed_ := markTransactionFailed tx in
  if failed_ then incrementMetric transactionsRevertedTotal (tx_labels tx) else Ret tt.

Definition handleConfirmationError (tx : TransactionWithRelations) (e : err) : prog' unit :=
  if not_there_yet e then Throw e
  else
    do! incrementMetric transactionsFailedTotal
          (tx_labels tx ++ [("status", "CONFIRMATION_ERROR")]) in
    Throw e.

Definition confirmTransaction (tx : TransactionWithRelations) : prog' unit :=
  finally
    (catch
       (let! bt := getBlockchainTransaction tx in
        match bt_status bt with
        | confirmed => handleSuccessfulTransaction tx bt
        | failed => handleRevertedTransaction tx
        | pending => Throw (TransactionPendingError (tx_hash tx))
        end)
       (handleConfirmationError tx))
    (observeMetric transactionConfirmationDurationSeconds (tx_labels tx)).

Definition processTransaction (transactionId tenant : string) : prog' unit :=
  let! transaction := findById transactionId tenant in
  match transaction with
  | None => Throw (not_found_error transactionId)
  | Some tx => if falsy (txHash (tx_row tx)) then Ret tt else confirmTransaction tx
  end.
End Processor.

(** ** The guarantee *)

(** Confirming a row together with its event keeps the ledger sound. *)
Lemma ledger_confirm_row `{ChainNodes} w k t t' u e :
  ledger_ok w -> transactions w !! k = Some t -> status t = CONFIRMING ->
  table_ok (<[k := t']> (transactions w)) -> row_consistent t' -> status t' = CONFIRMED ->
  outbox w !! u = None -> ev_type e = CONFIRMED_EVENT -> aggregateId e = k ->
  ledger_ok (put Outbox (<[u := e]> (outbox w)) (put Transactions (<[k := t']> (transactions w)) w)).
Proof.
  intros [[_ HR] (Ha & Hb & Hc)] Et St Hok Hr St' Hu He Hk.
  assert (Hno : forall k' e', outbox w !! k' = Some e' -> ev_type e' = CONFIRMED_EVENT ->
            aggregateId e' <> k).
  { intros k' e' E' T' A. destruct (Ha k' e' E' T') as (x & Ex & Sx). congruence. }
  split; [split; [done|by apply map_Forall_insert_2]|]. simpl. split; [|split].
  - intros k' e'. rewrite lookup_insert_Some. intros [[<- <-]|[_ E']] T'.
    + exists t'. subst k. by rewrite lookup_insert_eq.
    + destruct (Ha k' e' E' T') as (x & Ex & Sx). exists x.
      rewrite lookup_insert_ne; [done|]. intros ->. by apply (Hno k' e').
  - intros k1 k2 e1 e2. rewrite !lookup_insert_Some.
    intros [[<- <-]|[_ E1]] [[<- <-]|[_ E2]] T1 T2 A; [done|..].
    + exfalso. apply (Hno k2 e2); congruence.
    + exfalso. apply (Hno k1 e1); congruence.
    + by apply (Hb k1 k2 e1 e2).
  - intros id x. rewrite lookup_insert_Some. intros [[<- <-]|[Hne Ex]] Sx.
    + exists u, e. by rewrite lookup_insert_eq.
    + destruct (Hc id x Ex Sx) as (k' & e' & Ek & Te & Ae). exists k', e'.
      rewrite lookup_insert_ne; [done|]. congruence.
Qed.

Section Guards.
Context `{P : Platform} `{!PlatformLaws P}.

Lemma createInTransaction_exec d w :
  exec (createInTransaction d) w =
  (inl (uuid (outbox w), mkOutbox (d_aggregateId d) (d_type d) (d_payload d) false None (clock w)),
   put Outbox (<[uuid (outbox w) :=
     mkOutbox (d_aggregateId d) (d_type d) (d_payload d) false None (clock w)]> (outbox w)) w).
Proof.
  unfold createInTransaction. rewrite exec_bind, exec_now, exec_call. unfold on.
  cbn [view Outbox]. by rewrite create_ok by apply outbox_table_ok.
Qed.

(** The hash lookup inside [confirm]. *)
Lemma findByHash_exec h w :
  exists o, exec (findByHash h) w = (inl o, w) /\
    match o with
    | Some (k, t) => transactions w !! k = Some t /\ txHash t = Some h
    | None => forall k t, transactions w !! k = Some t -> txHash t <> Some h
    end.
Proof.
  unfold findByHash. rewrite exec_query. eexists. split; [done|]. cbn [view Transactions].
  unfold findUnique. destruct (findFirst _ _ _) as [[k t]|] eqn:E.
  - apply findFirst_Some in E as [Et Hh]. split; [done|]. unfold has_hash in Hh.
    destruct (txHash t) as [h'|]; [|done]. by apply String.eqb_eq in Hh as ->.
  - intros k t Et Hh. apply (proj1 (findFirst_None _ _ _) E) in Et.
    unfold has_hash in Et. by rewrite Hh, String.eqb_refl in Et.
Qed.

(** The database transaction as a whole: nothing, or the confirmed row and
    its event. *)
Lemma confirmation_body_exec tx bt w :
  table_ok (transactions w) ->
  (exists e, exec (transaction (confirmation_body tx bt)) w = (inr e, w)) \/
  exists k t b,
    transactions w !! k = Some t /\ txHash t = Some (tx_hash tx) /\ status t = CONFIRMING /\
    bt_blockNumber bt = Some b /\
    let t' := with_confirmation (with_status t CONFIRMED) (Some (toNumber b)) (bt_gasUsed bt)
                (clock w) in
    let d := confirmed_event (k, t') in
    table_ok (<[k := t']> (transactions w)) /\
    exec (transaction (confirmation_body tx bt)) w =
      (inl tt, put Outbox (<[uuid (outbox w) :=
           mkOutbox k CONFIRMED_EVENT (d_payload d) false None (clock w)]> (outbox w))
         (put Transactions (<[k := t']> (transactions w)) w)).
Proof.
  intros Hok. rewrite exec_transaction. unfold confirmation_body.
  destruct (bt_blockNumber bt) as [b|]; [|left; by eexists].
  rewrite exec_bind. unfold confirm. rewrite exec_bind.
  destruct (findByHash_exec (tx_hash tx) w) as ([[k t]|] & -> & H); [|left; by eexists].
  destruct H as [Et Hh]. rewrite exec_bind, exec_now. cbn [fst].
  rewrite transition_exec, Et by done. cbn -[has_status updateMany exec].
  destruct (has_status CONFIRMING t) eqn:S; [|left; by eexists].
  destruct (updateMany_cases (at_id k (has_status CONFIRMING))
    (fun r => with_confirmation (with_status r CONFIRMED) (Some (toNumber b)) (bt_gasUsed bt)
       (clock w)) (transactions w)) as [[Hok' ->]|[_ [c ->]]]; [|left; by eexists].
  right. exists k, t, b. rewrite (updated_at_id _ _ _ _ t) in * by done.
  unfold has_status in S. apply bool_decide_eq_true_1 in S.
  split_and!; try done.
  change (canTransition CONFIRMING CONFIRMED) with true. cbn iota beta.
  by rewrite exec_bind, createInTransaction_exec.
Qed.

(** Rows move forward and the API keys are left alone. *)
Definition advance (w w' : World) : Prop := lifecycle w w' /\ apiKeys w' = apiKeys w.

#[local] Instance advance_preorder : PreOrder advance.
Proof.
  split; [by split|]. intros a b c [L1 K1] [L2 K2]. split; [by etransitivity|congruence].
Qed.

Lemma guards_lifecycle_confirm h b g : is_Some b -> guards advance (confirm h b g).
Proof.
  intros Hb. unfold confirm, findByHash. apply guards_bind; [apply guards_act; reflexivity|].
  intros [[k t]|]; [|done]. apply guards_bind; [apply guards_gets; apply _|]. intros date.
  unfold transition. apply guards_bind; [done|]. intros _. apply guards_bind.
  - apply guards_act. intros w. unfold on. cbn [view Transactions fst].
    destruct (updateMany_cases (at_id k (has_status CONFIRMING))
      (fun r => with_confirmation (with_status r CONFIRMED) b g date) (transactions w))
      as [[_ ->]|[_ [c ->]]]; [|by destruct w].
    split; [|done]. unfold lifecycle. cbn. apply updated_lifecycle. intros r Hr. unfold has_status in Hr.
    apply bool_decide_eq_true_1 in Hr. by apply (forward_confirmed b g date Hb).
  - intros n. destruct (Nat.eqb n 1); (apply guards_bind; [apply guards_act; reflexivity|]);
      by intros [?|].
Qed.

Lemma guards_confirmation_body tx bt : guards steady (transaction (confirmation_body tx bt)).
Proof.
  apply guards_act. intros w.
  assert (L : advance w (exec (transaction (confirmation_body tx bt)) w).2).
  { assert (H : guards advance (confirmation_body tx bt)).
    { unfold confirmation_body. destruct (bt_blockNumber bt); [|done].
      apply guards_bind; [by apply guards_lifecycle_confirm|]. intros c.
      apply guards_bind; [|done]. unfold createInTransaction.
      apply guards_bind; [apply guards_gets; apply _|]. intros d. apply guards_act.
      intros w0. split; [|done]. unfold lifecycle. reflexivity. }
    pose proof (guards_exec advance _ w H) as L. rewrite exec_transaction.
    by destruct (exec _ w) as [[?|?] ?]. }
  rewrite exec_transaction in L. destruct L as [L Lk]. apply steady_ledger; [|done].
  split; [done|]. intros HL.
  - pose proof (confirmation_body_exec tx bt w (proj1 (proj1 HL))) as H.
    rewrite exec_transaction in H.
    destruct H as [[e H]|(k & t & b & Et & Hh & St & Hb & Hok & H)].
    + destruct (exec (confirmation_body tx bt) w) as [[?|?] ?]; by simplify_eq.
    + destruct (exec (confirmation_body tx bt) w) as [[?|?] ?]; simplify_eq. cbn.
      apply (ledger_confirm_row w k t); try done.
      * pose proof HL as [[_ HR] _].
        apply (forward_confirmed (Some (toNumber b)) (bt_gasUsed bt) (clock w) ltac:(done)); [done|].
        by apply (HR k).
      * apply uuid_fresh.
Qed.
End Guards.

#[export] Hint Resolve guards_confirmation_body : guards.

Section ProcessorGuards.
Context `{P : Platform} `{!PlatformLaws P} (adapters : list BlockchainAdapter).

Lemma guards_current_status tx : guards steady (current_status tx).
Proof. unfold current_status. solve_guards. Qed.
#[local] Hint Resolve guards_current_status : guards.

Lemma guards_handleSuccessful tx bt : guards steady (handleSuccessfulTransaction tx bt).
Proof.
  unfold handleSuccessfulTransaction, claimConfirmation, handleStaleConfirmation,
    persistConfirmation. solve_guards.
Qed.

Lemma guards_handleReverted tx : guards steady (handleRevertedTransaction tx).
Proof. unfold handleRevertedTransaction, markTransactionFailed. solve_guards. Qed.
#[local] Hint Resolve guards_handleSuccessful guards_handleReverted : guards.

Lemma guards_processTransaction id tenant :
  Forall AdapterSteady adapters -> guards steady (processTransaction adapters id tenant).
Proof.
  intros Ha. rewrite Forall_forall in Ha.
  unfold processTransaction, confirmTransaction, getBlockchainTransaction,
    handleConfirmationError.
  repeat first [solve [eauto 3 with guards]
               |apply guards_registry_bind; intros ad Had; by apply (Ha ad Had)
               |guard_split].
Qed.
End ProcessorGuards.

#[export] Hint Resolve guards_processTransaction : guards.

(** ** Behaviour *)

(** A row the processor can load: it exists for the tenant, with its relations and
    a hash. *)
Definition loaded `{P : Platform} (w : World) (tx : TransactionWithRelations) : Prop :=
  transactions w !! tx_id tx = Some (tx_row tx) /\
  relations w (tx_row tx) = Some tx.2 /\
  falsy (txHash (tx_row tx)) = false.

(** The chain's answer; asking moves clocks and metrics, not the database. *)
Definition answers `{P : Platform} adapters (w : World) (tx : TransactionWithRelations)
    (bt : BlockchainTransaction) (w1 : World) : Prop :=
  exec (getBlockchainTransaction adapters tx) w = (inl bt, w1) /\
  transactions w1 = transactions w /\ outbox w1 = outbox w /\
  tokens w1 = tokens w /\ wallets w1 = wallets w.

Section Behaviour.
Context `{P : Platform} `{!PlatformLaws P} (adapters : list BlockchainAdapter).

Lemma findById_exec id tenant w :
  exec (findById id tenant) w =
  match transactions w !! id with
  | Some t =>
      if String.eqb (tenantId t) tenant then
        match relations w t with
        | Some r => (inl (Some (id, t, r)), w)
        | None => (inr inconsistent_query, w)
        end
      else (inl None, w)
  | None => (inl None, w)
  end.
Proof.
  unfold findById. rewrite exec_act, findUnique_at_id.
  destruct (transactions w !! id) as [t|]; [|done].
  destruct (String.eqb (tenantId t) tenant); [|done]. unfold join_relations. simpl.
  by destruct (relations w t).
Qed.

Lemma loaded_hash w tx : loaded w tx -> txHash (tx_row tx) = Some (tx_hash tx).
Proof.
  intros (_ & _ & H). unfold tx_hash. by destruct (txHash (tx_row tx)).
Qed.

Lemma current_status_exec tx w t :
  transactions w !! tx_id tx = Some t -> tenantId t = tenantId (tx_row tx) ->
  is_Some (relations w t) ->
  exec (current_status tx) w = (inl (status t), w).
Proof.
  intros Ht Hten [tok Htok]. unfold current_status.
  by rewrite exec_bind, findById_exec, Ht, Hten, String.eqb_refl, Htok.
Qed.

(** [processTransaction] on a row that can be loaded. *)
Lemma processTransaction_exec w tx :
  loaded w tx ->
  exec (processTransaction adapters (tx_id tx) (tenantId (tx_row tx))) w =
  exec (confirmTransaction adapters tx) w.
Proof.
  intros (Ht & Htok & Hh). unfold processTransaction.
  rewrite exec_bind, findById_exec, Ht, String.eqb_refl, Htok.
  destruct tx as [[id t] rel]. cbn in *. by rewrite Hh.
Qed.

(** The chain answered: only the switch and the error handler remain. *)
Lemma confirmTransaction_exec w tx bt w1 :
  answers adapters w tx bt w1 ->
  exec (confirmTransaction adapters tx) w =
  exec (finally
    (catch (match bt_status bt with
            | confirmed => handleSuccessfulTransaction tx bt
            | failed => handleRevertedTransaction tx
            | pending => Throw (TransactionPendingError (tx_hash tx))
            end) (handleConfirmationError tx))
    (observeMetric transactionConfirmationDurationSeconds (tx_labels tx))) w1.
Proof.
  intros [H _]. unfold confirmTransaction. rewrite !exec_finally, !exec_catch, exec_bind, H.
  done.
Qed.

Lemma claim_terminal tx w t :
  table_ok (transactions w) -> transactions w !! tx_id tx = Some t ->
  tenantId t = tenantId (tx_row tx) -> is_Some (relations w t) ->
  isTerminal (status t) = true ->
  exec (claimConfirmation tx) w = (inl false, w).
Proof.
  intros Hok Ht Hten Htok Hs. unfold claimConfirmation. rewrite exec_catch, exec_bind.
  unfold markConfirming. rewrite exec_bind, exec_now, transition_exec, Ht by done.
  change (canTransition SUBMITTED CONFIRMING) with true. cbn iota beta.
  assert (has_status SUBMITTED t = false) as -> by (unfold has_status; by destruct (status t)).
  unfold handleStaleConfirmation. cbn [is_conflict].
  by rewrite exec_bind, (current_status_exec _ _ t), Hs.
Qed.

(** A live row is claimed, or found already claimed. *)
Lemma claim_live tx w t :
  table_ok (transactions w) -> transactions w !! tx_id tx = Some t ->
  tenantId t = tenantId (tx_row tx) -> is_Some (relations w t) ->
  status t = SUBMITTED \/ status t = CONFIRMING ->
  exists t1, status t1 = CONFIRMING /\ txHash t1 = txHash t /\ amount t1 = amount t /\
    fits t1 = fits t /\ tenantId t1 = tenantId t /\ tokenId t1 = tokenId t /\
    exec (claimConfirmation tx) w =
      (inl true, put Transactions (<[tx_id tx := t1]> (transactions w)) w).
Proof.
  intros Hok Ht Hten Htok [Hs|Hs]; unfold claimConfirmation.
  - exists (with_confirmationStartedAt (with_status t CONFIRMING) (clock w)).
    split_and!; try done. rewrite exec_catch, exec_bind. unfold markConfirming.
    rewrite exec_bind, exec_now.
    pose proof (proj1 Hok _ _ Ht) as Hf.
    rewrite (transition_applies _ SUBMITTED CONFIRMING
               (fun t => with_confirmationStartedAt t (clock w)) w t); try done. by left.
  - exists t. split_and!; try done. rewrite exec_catch, exec_bind. unfold markConfirming.
    rewrite exec_bind, exec_now, transition_exec, Ht by done.
    change (canTransition SUBMITTED CONFIRMING) with true. cbn iota beta.
    unfold has_status. rewrite Hs, bool_decide_eq_false_2 by done.
    unfold handleStaleConfirmation. cbn [is_conflict].
    rewrite exec_bind, (current_status_exec _ _ t), Hs by done. cbn.
    rewrite insert_id by done. by destruct w.
Qed.

(** Two rows never share a hash. *)
Lemma hash_unique m h k1 k2 t1 t2 :
  table_ok m -> m !! k1 = Some t1 -> m !! k2 = Some t2 ->
  txHash t1 = Some h -> txHash t2 = Some h -> k1 = k2.
Proof.
  intros [_ Hc] E1 E2 H1 H2. destruct (Hc k1 t1 E1 k2 t2 E2) as [|H]; [done|].
  cbn in H. by rewrite H1, H2, same_some_false in H; specialize (H h eq_refl).
Qed.

(** The row and the event as they are persisted. *)
Definition confirmed_row (t : Transaction) (b : Z) (bt : BlockchainTransaction) (date : Z) :=
  with_confirmation (with_status t CONFIRMED) (Some (toNumber b)) (bt_gasUsed bt) date.
Definition event_row (id : string) (t : Transaction) (date : Z) : OutboxEvent :=
  mkOutbox id CONFIRMED_EVENT (d_payload (confirmed_event (id, t))) false None date.

Lemma fits_confirmed_row t b bt date :
  fits t = true -> int8 (toNumber b) = true -> opt_int8 (bt_gasUsed bt) = true ->
  fits (confirmed_row t b bt date) = true.
Proof.
  intros Ha Hb Hg. unfold confirmed_row. cbn [fits Transaction_table] in Ha.
  apply andb_true_iff in Ha as [[[Ha Hn]%andb_true_iff _]%andb_true_iff _].
  cbn [fits Transaction_table amount nonce gasUsed blockNumber with_confirmation with_status opt_int8].
  by rewrite Ha, Hn, Hb, Hg.
Qed.

Lemma persist_applies tx bt b w t :
  table_ok (transactions w) -> transactions w !! tx_id tx = Some t ->
  txHash t = Some (tx_hash tx) -> status t = CONFIRMING ->
  bt_blockNumber bt = Some b -> fits (confirmed_row t b bt (clock w)) = true ->
  let t' := confirmed_row t b bt (clock w) in
  exec (persistConfirmation tx bt) w =
    (inl tt, put Outbox (<[uuid (outbox w) := event_row (tx_id tx) t' (clock w)]> (outbox w))
       (put Transactions (<[tx_id tx := t']> (transactions w)) w)).
Proof.
  intros Hok Ht Hh Hs Hb Hf t'. unfold persistConfirmation. rewrite exec_catch.
  rewrite exec_transaction. unfold confirmation_body. rewrite Hb, exec_bind.
  unfold confirm. rewrite exec_bind.
  destruct (findByHash_exec (tx_hash tx) w) as ([[k x]|] & -> & H).
  2: { by destruct (H _ _ Ht). }
  destruct H as [Ex Hx]. rewrite exec_bind, exec_now. cbn [fst].
  assert (k = tx_id tx) as -> by (by eapply hash_unique). simplify_eq.
  rewrite (transition_applies (tx_id tx) CONFIRMING CONFIRMED
    (fun r => with_confirmation r (Some (toNumber b)) (bt_gasUsed bt) (clock w)) w t);
    try done; [|by left].
  by rewrite exec_bind, createInTransaction_exec.
Qed.
End Behaviour.

(** The delivery that sees the transaction confirmed. *)
Lemma confirmation_persists `{P : Platform} `{!PlatformLaws P} adapters w tx bt b w1 :
  table_ok (transactions w) -> loaded w tx ->
  status (tx_row tx) = SUBMITTED \/ status (tx_row tx) = CONFIRMING ->
  answers adapters w tx bt w1 -> bt_status bt = confirmed ->
  bt_blockNumber bt = Some b -> int8 (toNumber b) = true -> opt_int8 (bt_gasUsed bt) = true ->
  exists t' w',
    exec (processTransaction adapters (tx_id tx) (tenantId (tx_row tx))) w = (inl tt, w') /\
    transactions w' = <[tx_id tx := t']> (transactions w) /\
    status t' = CONFIRMED /\ blockNumber t' = Some (toNumber b) /\
    gasUsed t' = bt_gasUsed bt /\ txHash t' = Some (tx_hash tx) /\
    amount t' = amount (tx_row tx) /\
    outbox w' = <[uuid (outbox w) := event_row (tx_id tx) t' (clock w1)]> (outbox w) /\
    outbox w !! uuid (outbox w) = None.
Proof.
  intros Hok HL Hs Hans Hconf Hb Hb8 Hg8. rewrite (processTransaction_exec _ _ _ HL).
  rewrite (confirmTransaction_exec _ _ _ _ _ Hans), Hconf.
  destruct Hans as (_ & Ht & Ho & Htok & Hwal). pose proof (loaded_hash _ _ HL) as Hh.
  destruct HL as (Hrow & Htk & _). pose proof (proj1 Hok _ _ Hrow) as Hf.
  rewrite exec_finally, exec_catch. unfold handleSuccessfulTransaction. rewrite exec_bind.
  destruct (claim_live tx w1 (tx_row tx)) as (t1 & S1 & H1 & A1 & F1 & T1 & K1 & ->);
    [by rewrite Ht..|done|rewrite (relations_same w w1 _ (tx_row tx)) by done; by eexists|done|].
  rewrite Ht. rewrite exec_bind. erewrite (persist_applies tx bt b _ t1); cycle 1.
  - cbn. apply (table_ok_transaction _ _ (tx_row tx)); [done..|congruence|]. left. congruence.
  - apply lookup_insert_eq.
  - congruence.
  - done.
  - done.
  - apply fits_confirmed_row; [congruence|done..].
  - rewrite incrementMetric_exec, observeMetric_exec. unfold tx_labels, transaction_labels.
    cbn -[toNumber confirmed_row]. accepted. cbn -[toNumber confirmed_row].
    exists (confirmed_row t1 b bt (clock w1)). eexists. split; [done|].
    cbn -[toNumber]. rewrite insert_insert_eq, Ho. split_and!; try done; [congruence|].
    apply uuid_fresh.
Qed.

(** C14: a confirmed transaction.  A SUBMITTED (or already claimed) transaction
    the chain reports as confirmed in block [b] ends CONFIRMED with that block
    and gas, and in the same database transaction exactly one new, unpublished
    [transaction.confirmed] event appears in the outbox, carrying the row's
    data.  No other row and no other event changes. *)
Theorem confirmation_confirms `{P : Platform} `{!PlatformLaws P} adapters w tx bt b w1 :
  table_ok (transactions w) -> loaded w tx ->
  status (tx_row tx) = SUBMITTED \/ status (tx_row tx) = CONFIRMING ->
  answers adapters w tx bt w1 -> bt_status bt = confirmed ->
  bt_blockNumber bt = Some b -> int8 (toNumber b) = true -> opt_int8 (bt_gasUsed bt) = true ->
  exists t' w',
    exec (processTransaction adapters (tx_id tx) (tenantId (tx_row tx))) w = (inl tt, w') /\
    transactions w' = <[tx_id tx := t']> (transactions w) /\
    status t' = CONFIRMED /\ blockNumber t' = Some (toNumber b) /\
    gasUsed t' = bt_gasUsed bt /\ txHash t' = Some (tx_hash tx) /\
    amount t' = amount (tx_row tx) /\
    outbox w' = <[uuid (outbox w) := event_row (tx_id tx) t' (clock w1)]> (outbox w) /\
    outbox w !! uuid (outbox w) = None.
Proof. apply confirmation_persists. Qed.

(** C38: redelivery is harmless.  A job for a transaction that is already
    CONFIRMED, FAILED or EXPIRED completes, whether the chain now reports it as
    confirmed or as failed, and leaves every row and every event as it was. *)
Theorem confirmation_redelivery `{P : Platform} `{!PlatformLaws P} adapters w tx bt w1 :
  table_ok (transactions w) -> loaded w tx -> isTerminal (status (tx_row tx)) = true ->
  answers adapters w tx bt w1 -> bt_status bt <> pending ->
  exists w',
    exec (processTransaction adapters (tx_id tx) (tenantId (tx_row tx))) w = (inl tt, w') /\
    transactions w' = transactions w /\ outbox w' = outbox w.
Proof.
  intros Hok HL Hs Hans Hp. rewrite (processTransaction_exec _ _ _ HL).
  rewrite (confirmTransaction_exec _ _ _ _ _ Hans). destruct Hans as (_ & Ht & Ho & Htok & Hwal).
  destruct HL as (Hrow & Htk & _). rewrite exec_finally, exec_catch.
  assert (E : exec (match bt_status bt with
     | pending => Throw (TransactionPendingError (tx_hash tx))
     | confirmed => handleSuccessfulTransaction tx bt
     | failed => handleRevertedTransaction tx end) w1 = (inl tt, w1)).
  { destruct (bt_status bt); [done|..].
    - unfold handleSuccessfulTransaction. rewrite exec_bind.
      rewrite (claim_terminal tx w1 (tx_row tx)); rewrite ?Ht, ?(relations_same w w1 _ (tx_row tx)) by done; done.
    - unfold handleRevertedTransaction. rewrite exec_bind. unfold markTransactionFailed.
      rewrite exec_catch, exec_bind. unfold markFailed. rewrite exec_bind, exec_now.
      rewrite transitionFromAny_exec, Ht, Hrow; [|by rewrite Ht|by repeat constructor].
      assert (status_in [PENDING; CONFIRMING] (tx_row tx) = false) as ->.
      { unfold status_in. by destruct (status (tx_row tx)). }
      cbn [is_conflict]. rewrite exec_bind, (current_status_exec _ _ (tx_row tx)), Hs;
        rewrite ?Ht, ?(relations_same w w1 _ (tx_row tx)) by done; done. }
  rewrite E, observeMetric_exec. destruct (prom_accepts _ _); by eexists.
Qed.

(** Polling is not a failure.  While the chain reports the transaction as
    pending, the job fails with [TransactionPendingError] (so that the queue
    retries it), the database is untouched, and the only metric reported is the
    duration of the attempt: nothing is counted as a failure. *)
Theorem confirmation_pending `{P : Platform} `{!PlatformLaws P} adapters w tx bt w1 :
  loaded w tx -> answers adapters w tx bt w1 -> bt_status bt = pending ->
  exec (processTransaction adapters (tx_id tx) (tenantId (tx_row tx))) w =
    (inr (TransactionPendingError (tx_hash tx)),
     put Metrics (Observe "transaction_confirmation_duration_seconds" (tx_labels tx)
                  :: metrics w1) w1).
Proof.
  intros HL Hans Hp. rewrite (processTransaction_exec _ _ _ HL).
  rewrite (confirmTransaction_exec _ _ _ _ _ Hans), Hp, exec_finally, exec_catch, exec_throw.
  unfold handleConfirmationError, not_there_yet. cbn [orb].
  rewrite exec_throw, observeMetric_exec. unfold tx_labels, transaction_labels. cbn.
  by accepted.
Qed.

(** C40: a reverted transaction is not failed by its confirmation job.  When the
    chain reports a SUBMITTED transaction as failed, the repository refuses the
    change (a transaction may only fail from PENDING or CONFIRMING), the job
    throws the conflict, and every row and event is as before: the transaction
    is still SUBMITTED. *)
Theorem reverted_stays_submitted `{P : Platform} `{!PlatformLaws P} adapters w tx bt w1 :
  table_ok (transactions w) -> loaded w tx -> status (tx_row tx) = SUBMITTED ->
  answers adapters w tx bt w1 -> bt_status bt = failed ->
  exists w',
    exec (processTransaction adapters (tx_id tx) (tenantId (tx_row tx))) w =
      (inr (TransactionStateConflictError (tx_id tx) SUBMITTED), w') /\
    transactions w' = transactions w /\ outbox w' = outbox w.
Proof.
  intros Hok HL Hs Hans Hf. rewrite (processTransaction_exec _ _ _ HL).
  rewrite (confirmTransaction_exec _ _ _ _ _ Hans), Hf.
  destruct Hans as (_ & Ht & Ho & Htok & Hwal). destruct HL as (Hrow & Htk & _).
  rewrite exec_finally, exec_catch. unfold handleRevertedTransaction, markTransactionFailed.
  rewrite exec_bind, exec_catch, exec_bind. unfold markFailed. rewrite exec_bind, exec_now.
  rewrite transitionFromAny_exec, Ht, Hrow; [|by rewrite Ht|by repeat constructor].
  unfold status_in. rewrite Hs, bool_decide_eq_false_2 by set_solver. cbn [is_conflict].
  rewrite exec_bind, (current_status_exec _ _ (tx_row tx)), Hs; rewrite ?Ht, ?(relations_same w w1 _ (tx_row tx)) by done; try done.
  change (isTerminal SUBMITTED) with false. cbn iota beta. rewrite exec_throw.
  unfold handleConfirmationError. set (e := TransactionStateConflictError _ _).
  destruct (not_there_yet e); rewrite ?exec_bind, ?incrementMetric_exec, ?exec_throw,
    observeMetric_exec; repeat destruct (prom_accepts _ _); by eexists.
Qed.

Section Witness.
#[local] Existing Instance ref_platform.
#[local] Existing Instance ref_platform_laws.
#[local] Existing Instance no_crypto.
#[local] Existing Instance no_keys.

(** A submitted Bitcoin transfer, and nodes that know it in several states. *)
Definition sent_row (s : TransactionStatus) : Transaction :=
  mkTransaction "t1" "tok" "wa" "wb" (Some "h1") 5 None None None s 900 (Some 950) None None None None.

Definition btc_node (tx : BitcoinTransaction) : Script :=
  mkScript ∅ {["h1" := tx]} {["b1" := 77]} ∅ 80 [] ∅ ∅ (Some "h2") [].

Definition mined : Script := btc_node (mkBtcTx (Some 2) (Some "b1")).
Definition in_mempool : Script := btc_node (mkBtcTx None None).

Definition submitted_world (s : TransactionStatus) (c : Script) : World :=
  put Transactions {["x1" := sent_row s]} (deployment c).

Definition sent_tx (s : TransactionStatus) : TransactionWithRelations := ("x1", sent_row s, (btc, alice, bob)).

Definition mined_answer : BlockchainTransaction :=
  mkBlockchainTransaction "h1" (Some 77) 2 confirmed None None.

Lemma confirmation_confirms_witness :
  exists t' w',
    exec (processTransaction registry "x1" "t1") (submitted_world SUBMITTED mined)
      = (inl tt, w') /\
    transactions w' = <["x1" := t']> (transactions (submitted_world SUBMITTED mined)) /\
    status t' = CONFIRMED /\ blockNumber t' = Some 77 /\ gasUsed t' = None /\
    txHash t' = Some "h1" /\ amount t' = 5 /\
    outbox w' = <["x" := event_row "x1" t' 1000]> ∅ /\ (∅ : gmap string OutboxEvent) !! "x" = None.
Proof.
  apply (confirmation_confirms registry (submitted_world SUBMITTED mined) (sent_tx SUBMITTED)
           mined_answer 77 (submitted_world SUBMITTED mined));
    [decided|done|by left|done..].
Defined.

Lemma confirmation_redelivery_witness :
  exists w',
    exec (processTransaction registry "x1" "t1") (submitted_world CONFIRMED mined)
      = (inl tt, w') /\
    transactions w' = transactions (submitted_world CONFIRMED mined) /\ outbox w' = ∅.
Proof.
  apply (confirmation_redelivery registry (submitted_world CONFIRMED mined) (sent_tx CONFIRMED)
           mined_answer (submitted_world CONFIRMED mined));
    [decided|done..].
Defined.

Lemma confirmation_pending_witness :
  exec (processTransaction registry "x1" "t1") (submitted_world SUBMITTED in_mempool) =
    (inr (TransactionPendingError "h1"),
     put Metrics [Observe "transaction_confirmation_duration_seconds"
                    [("tenantId", "t1"); ("tokenId", "tok")]]
       (submitted_world SUBMITTED in_mempool)).
Proof.
  apply (confirmation_pending registry (submitted_world SUBMITTED in_mempool)
           (sent_tx SUBMITTED) (mkBlockchainTransaction "h1" None 0 pending None None)
           (submitted_world SUBMITTED in_mempool)); done.
Defined.

(** A Solana node that reports the signature as failed on chain. *)
Definition sol_token : Token := mkToken "Solana" "SOL" None SOLANA true 9 0 0.
Definition sol_failed : Script :=
  mkScript ∅ ∅ ∅ {["h1" := mkSolStatus 70 (Some 1) true "confirmed"]} 80 [] ∅ ∅ None [].
Definition reverted_world : World :=
  put Tokens {["tok" := sol_token]} (submitted_world SUBMITTED sol_failed).

(** The world after the node was asked. *)
Definition reverted_asked : World :=
  (exec (getBlockchainTransaction registry ("x1", sent_row SUBMITTED, (sol_token, alice, bob)))
     reverted_world).2.

Lemma reverted_stays_submitted_witness :
  exists w',
    exec (processTransaction registry "x1" "t1") reverted_world =
      (inr (TransactionStateConflictError "x1" SUBMITTED), w') /\
    transactions w' = transactions reverted_world /\ outbox w' = ∅.
Proof.
  eapply (reverted_stays_submitted registry reverted_world
            ("x1", sent_row SUBMITTED, (sol_token, alice, bob))
            (mkBlockchainTransaction "h1" (Some 70) 1 failed None (Some "confirmed"))
            reverted_asked);
    [decided|done|done|split_and!; vm_compute; reflexivity|done].
Defined.

(** Another delivery of the same job runs to its end just before this one
    persists its confirmation. *)
Definition rival : list (envstep World err) :=
  replicate 5 (EnvStep id Commit) ++
  [EnvStep (fun w => (exec (processTransaction registry "x1" "t1") w).2) Commit].

Definition confirmed_sample (s : sample) : bool :=
  match s with Inc m _ _ => String.eqb m "transactions_confirmed_total" | _ => false end.

(** The confirmation counter can count one confirmation twice.  Two
    deliveries of the same job race: the second to persist finds the row already
    CONFIRMED and returns normally, and its caller counts a confirmation all
    the same, although the row was confirmed once and one event exists. *)
Example confirmation_counted_twice :
  let r := run (processTransaction registry "x1" "t1") rival (submitted_world SUBMITTED mined) in
  r.1.1 = inl tt /\ size (outbox r.1.2) = 1%nat /\
  status <$> transactions r.1.2 !! "x1" = Some CONFIRMED /\
  length (List.filter confirmed_sample (metrics r.1.2)) = 2%nat.
Proof. vm_compute. done. Qed.
End Witness.
