(* ===== verification/LogWindows.v ===== *)
(** * Scanning logs in bounded windows

    [src/blockchain/evm/log-windows.ts]: the text of an error, whether it means
    "rate limited" or "range too large", and the scan that walks a block range in
    windows, halving the window when the provider rejects it. *)

From S2P Require Import Prelude JsString RegExp Schema.
From Stdlib Require Import Ascii.
From stdpp Require Import pretty.
#[local] Open Scope Z_scope.

Definition any_char : regexp := Chr (fun a => negb (N_of_ascii a =? 10)%N).
Definition digit : regexp := Chr is_digit.
Definition not_dot : regexp := Chr (fun a => negb (Ascii.eqb a "."%char)).

Definition RATE_LIMIT_PATTERN : regexp :=
  alts [ seqs [lit "rate"; Opt any_char; lit "limit"];
         lit "too many requests";
         seqs [lit "request"; Opt (lit "s"); lit " "; alts [lit "count"; lit "per"]];
         lit "throttl";
         seqs [Boundary; lit "429"; Boundary] ].

Definition RANGE_LIMIT_PATTERN : regexp :=
  alts [ lit "block range";
         seqs [lit "range "; Opt (lit "is "); lit "too "; alts [lit "large"; lit "wide"; lit "big"]];
         seqs [alts [lit "exceed"; lit "exceeds"; lit "exceeded"]; upto 40 not_dot;
               alts [lit "range"; lit "limit"; lit "results"; lit "size"]];
         seqs [lit "more than "; Plus digit; lit " results"];
         seqs [lit "too many "; alts [lit "results"; lit "logs"]];
         lit "response size";
         seqs [lit "query "; alts [lit "returned"; lit "exceeds"]];
         lit "limit exceeded";
         seqs [lit "max"; Opt (lit "imum"); lit " "; Opt (lit "block "); lit "range"];
         seqs [lit "log"; Opt (lit "s"); lit " "; alts [lit "response"; lit "result"];
               Opt (lit "s"); lit " "; Opt (lit "is "); lit "too"] ].

(** The objects of the cause chain.  The client's errors carry their layers;
    every other exception has only its message. *)
Definition layers (e : err) : list ErrorLayer :=
  match e with
  | NodeError top causes => top :: causes
  | _ => [mkLayer (Some (err_message e)) None None None]
  end.

Definition layer_parts (l : ErrorLayer) : list string :=
  option_list (layer_message l) ++ option_list (shortMessage l) ++ option_list (details l) ++
  option_list ((fun z => "status " +:+ pretty z) <$> layer_status l).

(** The walk stops once ten parts were collected. *)
Fixpoint collect (parts : list string) (ls : list ErrorLayer) : list string :=
  match ls with
  | [] => parts
  | l :: ls' =>
      if Nat.ltb (length parts) 10 then collect (parts ++ layer_parts l) ls' else parts
  end.

Definition collectErrorText (e : err) : string := String.concat " | " (collect [] (layers e)).

Definition isRateLimitError (e : err) : bool := test RATE_LIMIT_PATTERN (collectErrorText e).

Definition isBlockRangeLimitError (e : err) : bool :=
  let text := collectErrorText e in
  if test RATE_LIMIT_PATTERN text then false else test RANGE_LIMIT_PATTERN text.

Record ScanLogWindowsResult := mkScanResult {
  lastProcessed : option Z; complete : bool; windows : Z; maxRange : Z }.

Section Scan.
Context {W TLog : Type}.
#[local] Abbreviation prog := (prog W err).
Context (to : Z) (maxWindows : Z).
Context (fetch : Z -> Z -> prog (list TLog)).
Context (onWindow : list TLog -> Z -> Z -> prog unit).
Context (onShrink : Z -> err -> prog unit).

Definition window_end (from size : Z) : Z :=
  if from + size - 1 <? to then from + size - 1 else to.

(** The loop; each iteration completes a window or halves the size. *)
Fixpoint scan_loop (fuel : nat) (from size done_ : Z) (last_ : option Z)
  : prog ScanLogWindowsResult :=
  match fuel with
  | O => Throw OutOfFuel
  | S fuel' =>
      if (from <=? to) && (done_ <? maxWindows) then
        let end_ := window_end from size in
        let! logs := attempt (fetch from end_) in
        match logs with
        | inr e =>
            if (1 <? size) && isBlockRangeLimitError e then
              do! onShrink (size / 2) e in
              scan_loop fuel' from (size / 2) done_ last_
            else Throw e
        | inl logs =>
            do! onWindow logs from end_ in
            scan_loop fuel' (end_ + 1) size (done_ + 1) (Some end_)
        end
      else Ret (mkScanResult last_ (to <? from) done_ size)
  end.

Definition scan_fuel (size done_ : Z) : nat :=
  S (Z.to_nat (maxWindows - done_) + Z.to_nat (Z.log2 size)).

Definition scanLogWindows (from size : Z) : prog ScanLogWindowsResult :=
  scan_loop (scan_fuel size 0) from size 0 None.

(** ** The fuel is enough *)

Lemma scan_fuel_shrink size done_ :
  1 < size -> scan_fuel size done_ = S (scan_fuel (size / 2) done_).
Proof.
  intros Hs. unfold scan_fuel.
  assert (E : Z.log2 size = Z.log2 (size / 2) + 1).
  { rewrite <- Z.div2_div, Z.div2_spec, Z.log2_shiftr by lia.
    assert (1 <= Z.log2 size) by (apply (Z.log2_le_mono 2); lia). lia. }
  pose proof (Z.log2_nonneg (size / 2)). rewrite E. lia.
Qed.

Lemma scan_fuel_window size done_ :
  done_ < maxWindows -> scan_fuel size done_ = S (scan_fuel size (done_ + 1)).
Proof. intros H. unfold scan_fuel. lia. Qed.

(** ** A rule for the scan

    [I k w]: everything before block [k] has been handled in [w].  If fetching
    and handling a window moves the frontier behind it, the scan as a whole
    moves the frontier to its [lastProcessed], and reaches [to] exactly when it
    reports completion; when it throws, [E] holds. *)
Section Rule.
Context (I : Z -> W -> Prop) (E : err -> W -> Prop) (size0 : Z).
Context (Hwindow : forall f e w, f <= e <= to -> e < f + size0 -> I f w ->
  match exec (fetch f e) w with
  | (inl logs, w1) =>
      match exec (onWindow logs f e) w1 with
      | (inl _, w2) => I (e + 1) w2
      | (inr x, w2) => E x w2
      end
  | (inr x, w1) => I f w1 /\ E x w1
  end).
Context (Hshrink : forall k n x w, 1 <= n <= size0 -> I k w ->
  exists w', exec (onShrink n x) w = (inl tt, w') /\ I k w').

Lemma scan_rule fuel from size done_ last_ w start :
  fuel = scan_fuel size done_ -> 1 <= size <= size0 ->
  default start ((fun l => l + 1) <$> last_) = from -> start <= from ->
  (from <= to + 1 \/ from = start) -> I from w ->
  match exec (scan_loop fuel from size done_ last_) w with
  | (inl r, w') =>
      let next := default start ((fun l => l + 1) <$> lastProcessed r) in
      I next w' /\ from <= next /\ (next <= to + 1 \/ next = start) /\
      complete r = (to <? next) /\ done_ <= windows r /\
      windows r <= Z.max done_ maxWindows /\ 1 <= maxRange r <= size
  | (inr x, w') => E x w'
  end.
Proof.
  revert from size done_ last_ w.
  induction fuel as [|fuel IH]; intros from size done_ last_ w Hfuel Hsize Hlast Hst Hto HI;
    [discriminate|]. cbn [scan_loop].
  destruct (Z.leb_spec from to) as [Hle|Hgt]; cbn [andb].
  2: { rewrite exec_ret. cbn [lastProcessed complete windows maxRange]. rewrite Hlast.
       split_and!; try done; try lia. }
  destruct (Z.ltb_spec done_ maxWindows) as [Hd|Hd].
  2: { rewrite exec_ret. cbn [lastProcessed complete windows maxRange]. rewrite Hlast.
       split_and!; try done; lia. }
  rewrite exec_bind, exec_attempt.
  assert (Hend : from <= window_end from size <= to /\ window_end from size < from + size).
  { unfold window_end. destruct (Z.ltb_spec (from + size - 1) to); lia. }
  pose proof (Hwindow from (window_end from size) w (proj1 Hend) ltac:(lia) HI) as Hw.
  destruct (exec (fetch from (window_end from size)) w) as [[logs|x] w1]; cbn [fst snd].
  - rewrite exec_bind. destruct (exec (onWindow logs from _) w1) as [[[]|x] w2]; [|done].
    rewrite scan_fuel_window in Hfuel by done.
    specialize (IH (window_end from size + 1) size (done_ + 1) (Some (window_end from size)) w2).
    destruct (exec (scan_loop fuel _ _ _ _) w2) as [[r|x] w3]; [|apply IH; try done; lia].
    cbn zeta in IH |- *.
    destruct IH as (H1 & H2 & H3 & H4 & H5 & H6 & H7); try done; try lia.
    split_and!; try done; lia.
  - destruct Hw as [HI1 HE]. destruct (Z.ltb_spec 1 size) as [H1|H1]; cbn [andb]; [|done].
    destruct (isBlockRangeLimitError x); [|done].
    assert (Hhalf : 1 <= size / 2 <= size).
    { split; [apply Z.div_le_lower_bound; lia|apply Z.div_le_upper_bound; lia]. }
    rewrite exec_bind.
    destruct (Hshrink from (size / 2) x w1 ltac:(lia) HI1) as (w2 & -> & HI2).
    rewrite scan_fuel_shrink in Hfuel by done.
    specialize (IH from (size / 2) done_ last_ w2).
    destruct (exec (scan_loop fuel _ _ _ _) w2) as [[r|y] w3]; [|apply IH; try done; lia].
    cbn zeta in IH |- *.
    destruct IH as (G1 & G2 & G3 & G4 & G5 & G6 & G7); try done; try lia.
    split_and!; try done; lia.
Qed.
End Rule.
End Scan.

(** ** What the scan hands out *)

(** A list of windows that tiles the blocks from [a] up to, not including, [b]. *)
Fixpoint tiles {L} (size a b : Z) (hs : list (Z * Z * L)) : Prop :=
  match hs with
  | [] => a = b
  | (f, e, _) :: hs' => f = a /\ f <= e < f + size /\ tiles size (e + 1) b hs'
  end.

Lemma tiles_snoc {L} size a b e (x : L) hs :
  tiles size a b hs -> b <= e < b + size -> tiles size a (e + 1) (hs ++ [(b, e, x)]).
Proof.
  revert a. induction hs as [|[[f g] y] hs IH]; intros a; simpl.
  - intros -> H. auto.
  - intros (-> & Hg & Hts) H. split_and!; try done; try lia. by apply IH.
Qed.

Section Tape.
Context {L : Type} (oracle : nat -> Z -> Z -> list L + err).

(** The number of requests so far, and the windows handed to the caller. *)
Definition Tape : Type := nat * list (Z * Z * list L).

Definition tape_fetch (f e : Z) : prog Tape err (list L) :=
  act (fun t => (oracle t.1 f e, (S t.1, t.2))).
Definition tape_window (logs : list L) (f e : Z) : prog Tape err unit :=
  modify (fun t => (t.1, t.2 ++ [(f, e, logs)])).
Definition tape_shrink (n : Z) (x : err) : prog Tape err unit := Ret tt.

Definition genuine (hs : list (Z * Z * list L)) : Prop :=
  Forall (fun h => exists n, oracle n h.1.1 h.1.2 = inl h.2) hs.
End Tape.

(** C35: the scan neither skips nor repeats a block, whatever the provider
    answers.  With a window size of at least 1, the windows handed to the caller
    tile the range from [from] to the block before [next] (the one behind
    [lastProcessed]): consecutive, disjoint, none larger than the configured
    range, each with the logs the provider returned for exactly that window.  The
    scan reports completion exactly when it went past [to].  It always ends: if it
    throws, the exception is one the provider raised, and the windows handed out
    until then still tile a prefix of the range. *)
Theorem scan_tiles_the_range {L} (oracle : nat -> Z -> Z -> list L + err) to maxW from size :
  1 <= size ->
  match exec (scanLogWindows to maxW (tape_fetch oracle) tape_window tape_shrink from size)
          (0%nat, []) with
  | (inl r, (_, hs)) =>
      let next := default from ((fun l => l + 1) <$> lastProcessed r) in
      tiles size from next hs /\ genuine oracle hs /\
      complete r = (to <? next) /\ (next <= to + 1 \/ next = from) /\
      windows r <= Z.max 0 maxW /\ 1 <= maxRange r <= size
  | (inr x, (_, hs)) =>
      (exists k, tiles size from k hs) /\ genuine oracle hs /\
      exists n f e, oracle n f e = inr x
  end.
Proof.
  intros Hs.
  set (I := fun k (t : Tape) => tiles size from k t.2 /\ genuine oracle t.2).
  set (E := fun x (t : Tape) => (exists k, tiles size from k t.2) /\ genuine oracle t.2 /\
              exists n f e, oracle n f e = inr x).
  assert (H1 : forall f e w, f <= e <= to -> e < f + size -> I f w ->
    match exec (tape_fetch oracle f e) w with
    | (inl logs, w1) =>
        match exec (tape_window logs f e) w1 with
        | (inl _, w2) => I (e + 1) w2
        | (inr x, w2) => E x w2
        end
    | (inr x, w1) => I f w1 /\ E x w1
    end).
  { intros f e [n hs] He Hsz [Ht Hg]. unfold tape_fetch, tape_window. rewrite exec_act. cbn.
    destruct (oracle n f e) as [logs|x] eqn:Ho; cbn.
    - rewrite exec_modify. split; [apply tiles_snoc; [done|lia]|].
      apply Forall_app_2; [done|]. constructor; [|constructor].
      by exists n.
    - split; [exact (conj Ht Hg)|]. split; [by exists f|]. eauto. }
  pose proof (scan_rule to maxW (tape_fetch oracle) tape_window tape_shrink I E size H1
    ltac:(eauto) (scan_fuel maxW size 0) from size 0 None (0%nat, []) from) as H.
  specialize (H eq_refl ltac:(lia) eq_refl ltac:(lia) ltac:(by right) ltac:(by split; [|constructor])).
  unfold scanLogWindows. destruct (exec (scan_loop _ _ _ _ _ _ _ _ _ _) _) as [[r|x] [n hs]]; [|done].
  destruct H as ((Ha & Hb) & _ & Hc & Hd & _ & He & Hf). split_and!; try done; lia.
Qed.

(** A provider that rejects spans above four blocks. *)
Definition picky (n : nat) (f e : Z) : list Z + err :=
  if e - f <? 4 then inl [f; e] else inr (PlainError "block range is too large").

Lemma scan_tiles_the_range_witness :
  1 <= 10 /\
  let '(r, t) := exec (scanLogWindows 20 25 (tape_fetch picky) tape_window tape_shrink 0 10)
                   (0%nat, []) in
  exists x, r = inl x /\ tiles 10 0 21 t.2 /\ complete x = true /\ maxRange x = 2.
Proof.
  split; [lia|].
  pose proof (scan_tiles_the_range picky 20 25 0 10 ltac:(lia)) as H.
  vm_compute in H. vm_compute. eexists. split; [done|]. naive_solver.
Defined.
