(* ===== verification/Index.v ===== *)
(** * The indexed view of the chain

    [src/repositories/transfer.repository.ts],
    [src/repositories/token-event-cursor.repository.ts] and
    [src/repositories/balance.repository.ts]: recorded transfers, the position
    of the indexer for each token, and the balance snapshots, which only ever
    move to later blocks. *)

From S2P Require Import Prelude JsString Schema Platform Reference TransactionRepository Guarantee.

(** [upsert] on a unique key with an empty [update]. *)
Definition upsert_keep `{Prisma} {R} `{Table R} (w : string -> R -> bool) (r : R)
    (t : gmap string R) : ((string * R) + err) * gmap string R :=
  match findUnique w t with
  | Some kr => (inl kr, t)
  | None => Platform.create r t
  end.

Definition orThrow `{P : Platform} {A} (o : option A) : prog' A :=
  match o with Some a => Ret a | None => Throw P2025 end.

Section Transfers.
Context `{P : Platform}.

(** [@@unique([transactionHash, logIndex])] *)
Definition transfer_key (hash : string) (index : Z) (_ : string) (r : TokenTransfer) : bool :=
  String.eqb (transactionHash r) hash && (logIndex r =? index).

Definition transfer_create (tokenId from to : string) (amount : Z) (hash : string)
    (index block : Z) : prog' (string * TokenTransfer) :=
  let! date := now in
  call Transfers (upsert_keep (transfer_key hash index)
    (mkTransfer tokenId from to amount hash index block date)).

Definition findByTransactionHashAndLogIndex (hash : string) (index : Z)
  : prog' (option (string * TokenTransfer)) :=
  query Transfers (findUnique (transfer_key hash index)).

Definition matching_transfer (tokenId from to : string) (amount notBefore : Z) (_ : string)
    (r : TokenTransfer) : bool :=
  String.eqb (tr_tokenId r) tokenId && String.eqb (tr_from r) from
  && String.eqb (tr_to r) to && (tr_amount r =? amount) && (notBefore <=? tr_createdAt r).

Definition findMatchingTransfer (tokenId from to : string) (amount notBefore : Z)
  : prog' (option (string * TokenTransfer)) :=
  query Transfers (findFirst (matching_transfer tokenId from to amount notBefore)
    (fun a b => tr_createdAt a <=? tr_createdAt b)).
End Transfers.

Section Cursors.
Context `{P : Platform}.

Definition cursor_of (tokenId : string) (_ : string) (c : TokenEventCursor) : bool :=
  String.eqb (cur_tokenId c) tokenId.

Definition getOrCreate (tokenId : string) : prog' (string * TokenEventCursor) :=
  call Cursors (upsert_keep (cursor_of tokenId) (mkCursor tokenId 0 0 None None 0)).

Definition markSuccess (tokenId : string) (block : Z) : prog' unit :=
  let! date := now in
  call Cursors (update (cursor_of tokenId) (fun c =>
    mkCursor (cur_tokenId c) block (lastProcessedLogIndex c) (Some date) (lastFailedSync c) 0)).

Definition markFailure (tokenId : string) : prog' unit :=
  let! date := now in
  call Cursors (update (cursor_of tokenId) (fun c =>
    mkCursor (cur_tokenId c) (lastProcessedBlock c) (lastProcessedLogIndex c)
      (lastSuccessfulSync c) (Some date) (failureCount c + 1))).

Definition updateCursor (tokenId : string) (block index : Z) : prog' unit :=
  call Cursors (update (cursor_of tokenId) (fun c =>
    mkCursor (cur_tokenId c) block index (lastSuccessfulSync c) (lastFailedSync c)
      (failureCount c))).

Definition findByTokenId (tokenId : string) : prog' (option (string * TokenEventCursor)) :=
  query Cursors (findUnique (cursor_of tokenId)).
End Cursors.

Section Balances.
Context `{P : Platform}.

Definition snapshot_of (walletId tokenId : string) (_ : string) (s : BalanceSnapshot) : bool :=
  String.eqb (snap_walletId s) walletId && String.eqb (snap_tokenId s) tokenId.

Definition balance_find (walletId tokenId : string) : prog' (option (string * BalanceSnapshot)) :=
  query Snapshots (findUnique (snapshot_of walletId tokenId)).

Definition balance_findOrThrow (walletId tokenId : string) : prog' (string * BalanceSnapshot) :=
  let! s := balance_find walletId tokenId in orThrow s.

Definition set_balance (b block date : Z) (s : BalanceSnapshot) : BalanceSnapshot :=
  mkSnapshot (snap_walletId s) (snap_tokenId s) b block date.

Definition older_snapshot (walletId tokenId : string) (block : Z) (k : string)
    (s : BalanceSnapshot) : bool :=
  snapshot_of walletId tokenId k s && (snap_blockNumber s <? block).

Definition balance_upsert (walletId tokenId : string) (b block : Z)
  : prog' (string * BalanceSnapshot) :=
  let! date := now in
  let! count := call Snapshots
    (updateMany (older_snapshot walletId tokenId block) (set_balance b block date)) in
  if Nat.ltb 0 count then balance_findOrThrow walletId tokenId
  else
    let! date := now in
    catch (call Snapshots (Platform.create (mkSnapshot walletId tokenId b block date)))
      (fun e => if is_P2002 e then balance_findOrThrow walletId tokenId else Throw e).
End Balances.

(** ** Guarantees *)

Section Guards.
Context `{P : Platform}.

Lemma guards_transfer_create t f o a h i b : guards steady (transfer_create t f o a h i b).
Proof. unfold transfer_create. solve_guards. Qed.
Lemma guards_getOrCreate t : guards steady (getOrCreate t).
Proof. unfold getOrCreate. solve_guards. Qed.
Lemma guards_markSuccess t b : guards steady (markSuccess t b).
Proof. unfold markSuccess. solve_guards. Qed.
Lemma guards_markFailure t : guards steady (markFailure t).
Proof. unfold markFailure. solve_guards. Qed.
Lemma guards_balance_upsert w t b n : guards steady (balance_upsert w t b n).
Proof. unfold balance_upsert, balance_findOrThrow, balance_find, orThrow. solve_guards. Qed.
End Guards.

#[export] Hint Resolve guards_transfer_create guards_getOrCreate guards_markSuccess
  guards_markFailure guards_balance_upsert : guards.

(** Snapshots at two moments: none disappears or changes owner, and one that
    changed is of a strictly later block. *)
Definition snapshots_advance `{ChainNodes} (w w' : World) : Prop :=
  forall k s, snapshots w !! k = Some s ->
    exists s', snapshots w' !! k = Some s' /\
      snap_walletId s' = snap_walletId s /\ snap_tokenId s' = snap_tokenId s /\
      (s' = s \/ snap_blockNumber s < snap_blockNumber s').

#[global] Instance snapshots_advance_preorder `{ChainNodes} : PreOrder snapshots_advance.
Proof.
  split; [intros w k s E; by exists s; auto|].
  intros a b c H1 H2 k s E. destruct (H1 k s E) as (s1 & E1 & W1 & T1 & C1).
  destruct (H2 k s1 E1) as (s2 & E2 & W2 & T2 & C2). exists s2.
  split_and!; [done|congruence..|].
  destruct C1 as [->|C1], C2 as [->|C2]; auto. right. lia.
Qed.

(** Snapshots never move backwards.  As long as other workers respect it too, whatever
    they do between its calls and however its calls fail, a balance update changes an existing
    snapshot only to a strictly later block, and never removes one or hands it to
    another wallet or token. *)
Lemma balance_upsert_monotone `{P : Platform} `{!PlatformLaws P} wallet token b block env w :
  Forall (fun s : envstep World err => forall w, snapshots_advance w (interfere s w)) env ->
  snapshots_advance w (run (balance_upsert wallet token b block) env w).1.2.
Proof.
  apply guards_run; [apply _|]. unfold balance_upsert, balance_findOrThrow, balance_find, orThrow.
  assert (Hread : forall x, guards snapshots_advance (query Snapshots
    (findUnique (snapshot_of wallet x)))) by (intros x; apply guards_act; reflexivity).
  apply guards_bind; [apply (guards_gets snapshots_advance)|]. intros date. apply guards_bind.
  - apply guards_act. intros w0. unfold on. cbn [view Snapshots].
    destruct (updateMany_cases (older_snapshot wallet token block) (set_balance b block date)
      (snapshots w0)) as [[_ ->]|[_ [c ->]]]; [|by destruct w0].
    intros k s E. cbn. rewrite lookup_updated, E. eexists. split; [done|].
    unfold older_snapshot. destruct (snapshot_of wallet token k s); cbn; [|auto].
    destruct (Z.ltb_spec (snap_blockNumber s) block); cbn; auto.
  - intros n. destruct (Nat.ltb 0 n); [solve_guards|]. apply guards_bind; [apply (guards_gets snapshots_advance)|].
    intros date'. apply guards_catch; [|solve_guards].
    apply guards_act. intros w0. unfold on. cbn [view Snapshots].
    destruct (create_cases (mkSnapshot wallet token b block date') (snapshots w0))
      as [[_ ->]|[c ->]]; [|by destruct w0].
    intros k s E. cbn. exists s. split; [|auto]. rewrite lookup_insert_ne; [done|].
    intros <-. by rewrite uuid_fresh in E.
Qed.

Section Newest.
Context `{P : Platform} `{!PlatformLaws P}.

(** A unique key finds its row. *)
Lemma findUnique_the {R} (w : string -> R -> bool) t k r :
  t !! k = Some r -> w k r = true ->
  (forall k' r', t !! k' = Some r' -> w k' r' = true -> k' = k) ->
  findUnique w t = Some (k, r).
Proof.
  intros E Hw Hu. unfold findUnique. destruct (findFirst w any_order t) as [[k' r']|] eqn:F.
  - apply findFirst_Some in F as [E' W']. assert (k' = k) as -> by by apply (Hu k' r').
    by simplify_eq.
  - pose proof (proj1 (findFirst_None w any_order t) F k r E). congruence.
Qed.

Lemma rows_empty {R} (w : string -> R -> bool) (t : gmap string R) :
  (forall k r, t !! k = Some r -> w k r = false) -> rows w t = [].
Proof.
  intros H. destruct (rows w t) as [|[k r] l] eqn:E; [done|]. exfalso.
  assert (Hin : (k, r) ∈ rows w t) by (rewrite E; left).
  apply elem_of_rows in Hin as [Er Hr]. by rewrite (H k r Er) in Hr.
Qed.

Lemma rows_nonempty {R} (w : string -> R -> bool) (t : gmap string R) k r :
  t !! k = Some r -> w k r = true -> Nat.ltb 0 (length (rows w t)) = true.
Proof.
  intros E Hw. assert (Hin : (k, r) ∈ rows w t) by by apply elem_of_rows.
  destruct (rows w t); [by apply not_elem_of_nil in Hin|done].
Qed.

Lemma snapshot_unique m wal tok k1 k2 s1 s2 :
  table_ok m -> m !! k1 = Some s1 -> m !! k2 = Some s2 ->
  snapshot_of wal tok k1 s1 = true -> snapshot_of wal tok k2 s2 = true -> k1 = k2.
Proof.
  unfold snapshot_of. intros [_ Hc] E1 E2 H1 H2.
  destruct (Hc k1 s1 E1 k2 s2 E2) as [|H]; [done|]. cbn in H.
  apply andb_true_iff in H1 as [A1%String.eqb_eq B1%String.eqb_eq].
  apply andb_true_iff in H2 as [A2%String.eqb_eq B2%String.eqb_eq].
  by rewrite A1, A2, B1, B2, !String.eqb_refl in H.
Qed.

Lemma table_ok_set_balance w b block date (m : gmap string BalanceSnapshot) :
  table_ok m -> int8 b = true -> int8 block = true ->
  table_ok (updated w (set_balance b block date) m).
Proof.
  intros [Hf Hc] Hb Hn. split.
  - intros k s. rewrite lookup_updated, fmap_Some. intros (s0 & E & ->).
    destruct (w k s0); [|by apply (Hf k)].
    cbn [fits BalanceSnapshot_table set_balance balance snap_blockNumber]. by rewrite Hb, Hn.
  - intros k1 r1 E1 k2 r2 E2. rewrite lookup_updated, fmap_Some in E1, E2.
    destruct E1 as (s1 & E1 & ->), E2 as (s2 & E2 & ->).
    destruct (Hc k1 s1 E1 k2 s2 E2) as [|H]; [by left|]. right.
    by destruct (w k1 s1), (w k2 s2).
Qed.

Lemma balance_findOrThrow_exec wal tok w k s :
  table_ok (snapshots w) -> snapshots w !! k = Some s -> snapshot_of wal tok k s = true ->
  exec (balance_findOrThrow wal tok) w = (inl (k, s), w).
Proof.
  intros Hok E Hs. unfold balance_findOrThrow, balance_find. rewrite exec_bind, exec_query.
  cbn [view Snapshots]. rewrite (findUnique_the _ _ k s); [done..|].
  intros k' s' E' H'. by eapply snapshot_unique.
Qed.

Lemma fits_snapshot wal tok b block date :
  int8 b = true -> int8 block = true -> fits (mkSnapshot wal tok b block date) = true.
Proof.
  intros Hb Hn. cbn [fits BalanceSnapshot_table balance snap_blockNumber]. by rewrite Hb, Hn.
Qed.

Lemma snapshot_of_self wal tok k b block date :
  snapshot_of wal tok k (mkSnapshot wal tok b block date) = true.
Proof. unfold snapshot_of. cbn. by rewrite !String.eqb_refl. Qed.

(** There is an older snapshot: it is replaced. *)
Lemma balance_upsert_newer wal tok b block w k0 s0 :
  table_ok (snapshots w) -> int8 b = true -> int8 block = true ->
  snapshots w !! k0 = Some s0 -> snapshot_of wal tok k0 s0 = true ->
  snap_blockNumber s0 < block ->
  exec (balance_upsert wal tok b block) w =
    (inl (k0, set_balance b block (clock w) s0),
     put Snapshots (<[k0 := set_balance b block (clock w) s0]> (snapshots w)) w).
Proof.
  intros Hok Hb Hn E0 S0 L. apply Z.ltb_lt in L. unfold balance_upsert.
  rewrite exec_bind, exec_now, exec_bind, exec_call. unfold on. cbn [view Snapshots].
  rewrite updateMany_ok by by apply table_ok_set_balance.
  cbn [fst snd].
  rewrite (rows_nonempty _ _ k0 s0); [|done|unfold older_snapshot; by rewrite S0, L].
  assert (Hup : updated (older_snapshot wal tok block) (set_balance b block (clock w)) (snapshots w) =
            <[k0 := set_balance b block (clock w) s0]> (snapshots w)).
  { apply map_eq. intros k. rewrite lookup_updated. unfold older_snapshot.
    destruct (decide (k = k0)) as [->|Hne].
    - rewrite E0, lookup_insert_eq. cbn. by rewrite S0, L.
    - rewrite lookup_insert_ne by done. destruct (snapshots w !! k) as [s|] eqn:E; [|done].
      cbn. destruct (snapshot_of wal tok k s) eqn:S; [|done].
      destruct Hne. by eapply snapshot_unique. }
  rewrite Hup. apply balance_findOrThrow_exec; cbn [snapshots put Snapshots].
  - rewrite <- Hup. by apply table_ok_set_balance.
  - apply lookup_insert_eq.
  - done.
Qed.

(** No snapshot is older: the update leaves everything to the creation. *)
Lemma balance_upsert_create wal tok b block w :
  table_ok (snapshots w) ->
  (forall k s, snapshots w !! k = Some s -> older_snapshot wal tok block k s = false) ->
  exec (balance_upsert wal tok b block) w =
  exec (catch (call Snapshots (Platform.create (mkSnapshot wal tok b block (clock w))))
          (fun e => if is_P2002 e then balance_findOrThrow wal tok else Throw e)) w.
Proof.
  intros Hok Hno. apply rows_empty in Hno. unfold balance_upsert.
  rewrite exec_bind, exec_now, exec_bind, exec_call. unfold on. cbn [view Snapshots].
  rewrite updateMany_ok by by rewrite (updated_none _ _ _ Hno).
  rewrite Hno, (updated_none _ _ _ Hno). by destruct w.
Qed.

(** The snapshot is of the same or a later block: it stays. *)
Lemma balance_upsert_stale wal tok b block w k0 s0 :
  table_ok (snapshots w) -> int8 b = true -> int8 block = true ->
  snapshots w !! k0 = Some s0 -> snapshot_of wal tok k0 s0 = true ->
  block <= snap_blockNumber s0 ->
  exec (balance_upsert wal tok b block) w = (inl (k0, s0), w).
Proof.
  intros Hok Hb Hn E0 S0 L. rewrite balance_upsert_create; [|done|].
  2: { intros k s E. unfold older_snapshot. destruct (snapshot_of wal tok k s) eqn:S; [|done].
       assert (k = k0) as -> by by eapply snapshot_unique. simplify_eq. by apply Z.ltb_ge. }
  rewrite exec_catch, exec_call. unfold on. cbn [view Snapshots].
  destruct (create_duplicate _ (mkSnapshot wal tok b block (clock w)) (snapshots w)) as [m ->];
    [done|by apply fits_snapshot| |].
  { intros Hbad. pose proof (uuid_fresh _ (snapshots w)) as Hfr.
       assert (k0 = uuid (snapshots w)); [|congruence].
       eapply (snapshot_unique _ wal tok _ _ s0 (mkSnapshot wal tok b block (clock w)) Hbad);
         [|apply lookup_insert_eq|done|apply snapshot_of_self].
       rewrite lookup_insert_ne; [done|]. congruence. }
  cbn [fst snd is_P2002]. rewrite String.eqb_refl.
  replace (put Snapshots _ w) with w by by destruct w. by apply balance_findOrThrow_exec.
Qed.

(** There is none: it is created. *)
Lemma balance_upsert_first wal tok b block w :
  table_ok (snapshots w) -> int8 b = true -> int8 block = true ->
  (forall k s, snapshots w !! k = Some s -> snapshot_of wal tok k s = false) ->
  let k := uuid (snapshots w) in
  exec (balance_upsert wal tok b block) w =
    (inl (k, mkSnapshot wal tok b block (clock w)),
     put Snapshots (<[k := mkSnapshot wal tok b block (clock w)]> (snapshots w)) w).
Proof.
  intros Hok Hb Hn Hno. cbv zeta. rewrite balance_upsert_create; [|done|].
  2: { intros k s E. unfold older_snapshot. by rewrite (Hno k s E). }
  rewrite exec_catch, exec_call. unfold on. cbn [view Snapshots]. rewrite create_ok; [done|].
  apply table_ok_insert; [done|by apply fits_snapshot|].
  intros k r _ E. pose proof (Hno k r E) as S. unfold snapshot_of in S. cbn.
  rewrite (String.eqb_sym wal), (String.eqb_sym tok). done.
Qed.
End Newest.

(** A balance update installs the newest observation.  In a run without
    interference the update succeeds for values that fit their columns and
    returns the snapshot of exactly this wallet and token: the new observation
    if there was none or only one of an earlier block, the existing snapshot,
    unchanged, if that one is of the same or a later block. *)
Lemma balance_upsert_newest `{P : Platform} `{!PlatformLaws P} wal tok b block w :
  table_ok (snapshots w) -> int8 b = true -> int8 block = true ->
  exists k s,
    exec (balance_upsert wal tok b block) w =
      (inl (k, s), put Snapshots (<[k := s]> (snapshots w)) w) /\
    match findUnique (snapshot_of wal tok) (snapshots w) with
    | Some (k0, s0) =>
        k = k0 /\ s = if snap_blockNumber s0 <? block then set_balance b block (clock w) s0 else s0
    | None => snapshots w !! k = None /\ s = mkSnapshot wal tok b block (clock w)
    end.
Proof.
  intros Hok Hb Hn.
  destruct (findUnique (snapshot_of wal tok) (snapshots w)) as [[k0 s0]|] eqn:F.
  - apply findFirst_Some in F as [E0 S0].
    destruct (Z.ltb_spec (snap_blockNumber s0) block) as [L|L].
    + do 2 eexists. split; [by apply balance_upsert_newer|done].
    + exists k0, s0. rewrite insert_id by done. split; [|done].
      rewrite (balance_upsert_stale _ _ _ _ _ k0 s0) by done. by destruct w.
  - do 2 eexists. split; [|split; [apply uuid_fresh|done]].
    apply balance_upsert_first; [done..|]. exact (proj1 (findFirst_None _ _ _) F).
Qed.

(** C25: a balance snapshot is a monotonic projection of the chain.  Whatever other
    workers that respect it too do between the calls of an update, and however its calls
    fail, an existing snapshot changes only to a strictly later block and is neither
    removed nor handed to another wallet or token; and undisturbed, an update with values
    that fit their columns installs its observation, dated now, unless the snapshot of
    that wallet and token is of the same or a later block, which is then returned
    unchanged. *)
Theorem balance_snapshots_monotonic `{P : Platform} `{!PlatformLaws P} wal tok b block env w :
  Forall (fun s : envstep World err => forall w, snapshots_advance w (interfere s w)) env ->
  table_ok (snapshots w) -> int8 b = true -> int8 block = true ->
  snapshots_advance w (run (balance_upsert wal tok b block) env w).1.2 /\
  exists k s,
    exec (balance_upsert wal tok b block) w =
      (inl (k, s), put Snapshots (<[k := s]> (snapshots w)) w) /\
    match findUnique (snapshot_of wal tok) (snapshots w) with
    | Some (k0, s0) =>
        k = k0 /\
        s = if snap_blockNumber s0 <? block
            then mkSnapshot (snap_walletId s0) (snap_tokenId s0) b block (clock w) else s0
    | None => snapshots w !! k = None /\ s = mkSnapshot wal tok b block (clock w)
    end.
Proof.
  intros He Hok Hb Hn. split; [by apply balance_upsert_monotone|].
  exact (balance_upsert_newest wal tok b block w Hok Hb Hn).
Qed.

Section Witness.
#[local] Existing Instance ref_platform.
#[local] Existing Instance ref_platform_laws.

Definition observed : World :=
  put Snapshots {["s1" := mkSnapshot "w1" "tok" 100 50 0]} (fresh_world 0 quiet).

Lemma balance_snapshots_monotonic_witness :
  snapshots_advance observed (run (balance_upsert "w1" "tok" 90 55) [EnvStep id Commit] observed).1.2 /\
  exists k s,
    exec (balance_upsert "w1" "tok" 90 55) observed =
      (inl (k, s), put Snapshots (<[k := s]> (snapshots observed)) observed) /\
    k = "s1" /\ s = mkSnapshot "w1" "tok" 90 55 0.
Proof.
  apply (balance_snapshots_monotonic "w1" "tok" 90 55 [EnvStep id Commit] observed);
    [|decided|reflexivity..].
  repeat constructor. intros w. cbn. reflexivity.
Defined.
End Witness.
