(* ===== verification/EventListener.v ===== *)
(** * The event indexer

    [src/blockchain/evm/indexer-config.ts], [src/services/balance-sync.service.ts],
    [src/services/transfer-event.service.ts], [src/workers/event.listener.ts] and
    [src/workers/event-listener.worker.ts]: the ERC-20 transfers of every
    registered token are copied into the database window by window, behind a
    cursor that moves only after a window was stored. *)

From S2P Require Import Prelude JsString RegExp Schema Platform Reference StateMachine TransactionRepository Guarantee Metrics Addresses Envelope Adapters LogWindows Index.
From stdpp Require Import pretty.
#[local] Open Scope Z_scope.

(** ** Configuration *)

Record EvmIndexerConfig := mkIndexerConfig {
  startBlock : Z; confirmations_ : Z; maxBlockRange : Z; maxWindowsPerRun : Z }.

Definition DEFAULT_MAX_BLOCK_RANGE : Z := 2000.
Definition DEFAULT_MAX_WINDOWS_PER_RUN : Z := 25.

(** [/^\d+$/] *)
Definition decimal (s : string) : bool :=
  match s with EmptyString => false | _ => all_chars is_digit s end.

Definition parseInteger (env : Env) (name : string) (fallback minimum : Z) : Z + err :=
  match trim <$> env name with
  | None | Some EmptyString => inl fallback
  | Some raw =>
      if negb (decimal raw) || (digits_value 0 raw <? minimum) then
        inr (PlainError ("Invalid " +:+ name +:+ " " +:+ in_quotes raw +:+ ": expected an integer >= "
                         +:+ pretty minimum))
      else inl (digits_value 0 raw)
  end.

Definition loadEvmIndexerConfig (env : Env) : EvmIndexerConfig + err :=
  match parseInteger env "EVM_INDEX_MAX_WINDOWS_PER_RUN" DEFAULT_MAX_WINDOWS_PER_RUN 1 with
  | inr e => inr e
  | inl w =>
      match parseInteger env "EVM_INDEX_START_BLOCK" 0 0 with
      | inr e => inr e
      | inl s =>
          match parseInteger env "EVM_INDEX_CONFIRMATIONS" 0 0 with
          | inr e => inr e
          | inl c =>
              match parseInteger env "EVM_LOGS_MAX_BLOCK_RANGE" DEFAULT_MAX_BLOCK_RANGE 1 with
              | inr e => inr e
              | inl m => inl (mkIndexerConfig s c m (toNumber w))
              end
          end
      end
  end.

(** ** Balances and transfer events *)
Section Events.
Context `{P : Platform} (env : Env).

(** [{ equals: a, mode: 'insensitive' }] *)
Definition equals_insensitive (a b : string) : bool :=
  String.eqb (toLowerCase a) (toLowerCase b).

Definition findByContractAddress (a : string) : prog' (option (string * Token)) :=
  query Tokens (findFirst (fun _ t =>
    match contractAddress t with
    | Some c => equals_insensitive c (toLowerCase a)
    | None => false
    end) any_order).

Definition findByAddress (evm chain_id : Z) (a : string) : prog' (option (string * Wallet)) :=
  if isCaseInsensitiveWalletAddress evm chain_id a then
    query Wallets (findFirst (fun _ r => equals_insensitive (address r) a) any_order)
  else query Wallets (findFirst (fun _ r => String.eqb (address r) a) any_order).

(** [EvmTokenBalanceReader] *)
Definition reader_getTokenBalance (r : TokenBalanceRequest) : prog' TokenBalance :=
  match br_blockNumber r with
  | None => Throw (PlainError "EVM token balance requires a block number")
  | Some n =>
      if falsy (br_assetIdentifier r) then
        Throw (PlainError "EVM token balance requires an asset contract address")
      else
        let! b := ask Node (evm_balanceOf (default "" (br_assetIdentifier r))
                              (walletAddress r) (Some n)) in
        Ret (mkTokenBalance b n)
  end.

Definition sync (walletId wallet_address tokenId_ token_address : string) (block : Z)
  : prog' (string * BalanceSnapshot) :=
  let! result := reader_getTokenBalance
    (mkBalanceRequest (Some token_address) wallet_address (Some block)) in
  balance_upsert walletId tokenId_ (tb_balance result) (tb_blockNumber result).

Definition syncWalletBalance (a tokenId_ token_address : string) (block : Z) : prog' unit :=
  let! chain_id := rethrow (getEvmChainId env) in
  let! wallet := findByAddress chain_id chain_id a in
  match wallet with
  | None => Ret tt
  | Some (id, r) => do! sync id (address r) tokenId_ token_address block in Ret tt
  end.

Definition requireContractAddress (o : option string) : prog' string :=
  match o with
  | Some (String a s) => Ret (String a s)
  | _ => Throw (PlainError "Token contract address is required for EVM token operations")
  end.

(** The two balance updates at the end of [handleTransferEvent]. *)
Definition sync_both (id : string) (t : Token) (log : TransferLog) : prog' unit :=
  let! c1 := requireContractAddress (contractAddress t) in
  do! syncWalletBalance (toLowerCase (log_from log)) id c1 (log_blockNumber log) in
  let! c2 := requireContractAddress (contractAddress t) in
  syncWalletBalance (toLowerCase (log_to log)) id c2 (log_blockNumber log).

Definition handleTransferEvent (log : TransferLog) : prog' unit :=
  let! token := findByContractAddress (log_address log) in
  match token with
  | None => Throw (PlainError "Token not registered")
  | Some (id, t) =>
      let index := toNumber (log_logIndex log) in
      let! existing := findByTransactionHashAndLogIndex (log_transactionHash log) index in
      do! (match existing with
           | None =>
               do! transfer_create id (log_from log) (log_to log) (log_value log)
                     (log_transactionHash log) index (log_blockNumber log) in
               Ret tt
           | Some _ => inc eventListenerEventsSkippedTotal [] 1
           end) in
      sync_both id t log
  end.
End Events.

(** ** The listener *)
Section Listener.
Context `{P : Platform} (env : Env).

Definition resetEvmIndexerState : prog' unit := modify (put LearnedMaxBlockRange None).

Definition setLag (id : string) (head lastIndexed : Z) : prog' unit :=
  let lag := if lastIndexed <? head then head - lastIndexed else 0 in
  set eventListenerLagBlocks [("token_id", id)] (toNumber lag).

(** The callbacks handed to the scan. *)
Definition fetch_logs (t : Token) (from to : Z) : prog' (list TransferLog) :=
  ask Node (evm_getLogs (contractAddress t) from to).

Definition store_window (id : string) (logs : list TransferLog) (from to : Z) : prog' unit :=
  do! for_each logs (handleTransferEvent env) in
  do! markSuccess id to in
  inc eventListenerEventsProcessedTotal [] (Z.of_nat (length logs)).

Definition learn_range (n : Z) (e : err) : prog' unit :=
  modify (put LearnedMaxBlockRange (Some n)).

(** From the loaded cursor to the end of the [try] block. *)
Definition index_token (id : string) (t : Token) (config : EvmIndexerConfig)
    (cursor : TokenEventCursor) : prog' unit :=
  let! currentBlock := ask Node evm_getBlockNumber in
  let indexableHead := currentBlock - confirmations_ config in
  let last_ := lastProcessedBlock cursor in
  let fromBlock := if last_ =? 0 then startBlock config else last_ - 1 in
  if indexableHead <? fromBlock then setLag id currentBlock last_
  else
    let! learned := gets learnedMaxBlockRange in
    let! result := scanLogWindows indexableHead (maxWindowsPerRun config)
      (fetch_logs t) (store_window id) learn_range fromBlock
      (default (maxBlockRange config) learned) in
    setLag id currentBlock (default last_ (lastProcessed result)).

Definition set_processing (f : gset string -> gset string) : prog' unit :=
  modify (fun w => put ProcessingTokens (f (processingTokens w)) w).

Definition processTokenEvents (id : string) : prog' unit :=
  let! busy := gets processingTokens in
  if bool_decide (id ∈ busy) then Ret tt
  else
    do! set_processing (fun s => {[id]} ∪ s) in
    finally
      (let! token := query Tokens (findUnique (at_id id (fun _ => true))) in
       match token with
       | None => Throw (PlainError ("Token " +:+ id +:+ " not found"))
       | Some (_, t) =>
           if negb (bool_decide (blockchain t = EVM)) then Ret tt
           else
             let! config := rethrow (loadEvmIndexerConfig env) in
             let! cursor := getOrCreate id in
             catch (index_token id t config cursor.2)
               (fun e => do! catch (markFailure id) (fun _ => Ret tt) in Throw e)
       end)
      (set_processing (fun s => s ∖ {[id]})).
End Listener.

(** ** The worker *)
Definition MAX_BACKOFF_MS : Z := 60000.

Definition backoffDelay (baseMs consecutiveFailures : Z) : Z :=
  if consecutiveFailures <=? 0 then baseMs
  else
    let doubled := baseMs * 2 ^ Z.min consecutiveFailures 10 in
    Z.min doubled (Z.max baseMs MAX_BACKOFF_MS).

Record EventListenerWorker := mkWorker { worker_running : bool; worker_stopping : bool }.

(** The interval is a number: its integer part from below, [None] when it is not
    finite. *)
Definition worker_start (interval : option Z) (env : Env) (w : EventListenerWorker)
  : EventListenerWorker + err :=
  if worker_running w then inr (PlainError "Event listener worker already running")
  else
    let invalid := PlainError ("Invalid EVENT_LISTENER_INTERVAL_MS: "
                     +:+ default "undefined" (env "EVENT_LISTENER_INTERVAL_MS")) in
    match interval with
    | None => inr invalid
    | Some ms => if ms <? 0 then inr invalid else inl (mkWorker true false)
    end.

Definition worker_stop (w : EventListenerWorker) : EventListenerWorker :=
  if negb (worker_running w) || worker_stopping w then w else mkWorker false true.

Section Worker.
Context `{P : Platform} (env : Env).

(** The tokens of one cycle; the number that failed. *)
Fixpoint process_all (ids : list string) (failedTokens : Z) : prog' Z :=
  match ids with
  | [] => Ret failedTokens
  | id :: ids' =>
      let! r := attempt (processTokenEvents env id) in
      match r with
      | inl _ => process_all ids' failedTokens
      | inr _ =>
          do! inc eventListenerFailuresTotal [] 1 in
          process_all ids' (failedTokens + 1)
      end
  end.

Definition processCycle : prog' Z :=
  do! inc eventListenerCyclesTotal [] 1 in
  finally
    (catch
       (let! tokens_ := query Tokens (findMany (fun _ _ => true) any_order 0 None) in
        process_all tokens_.*1 0)
       (fun e => do! inc eventListenerFailuresTotal [] 1 in Throw e))
    (report eventListenerDuration [] (Observe (metric_name eventListenerDuration) [])).

(** One turn of the [while] loop: the failures in a row and the delay. *)
Definition worker_turn (interval failures : Z) : prog' (Z * Z) :=
  let! r := attempt processCycle in
  let cycleFailed := match r with inl failedTokens => 0 <? failedTokens | inr _ => true end in
  let failures' := if cycleFailed then failures + 1 else 0 in
  Ret (failures', backoffDelay interval failures').
End Worker.

(** ** Guarantees *)
Lemma guards_scan {W L} (G : W -> W -> Prop) to maxW (fetch : Z -> Z -> prog W err (list L))
    onWindow onShrink fuel from size d l :
  (forall f e, guards G (fetch f e)) -> (forall ls f e, guards G (onWindow ls f e)) ->
  (forall n e, guards G (onShrink n e)) ->
  guards G (scan_loop to maxW fetch onWindow onShrink fuel from size d l).
Proof.
  intros Hf Hw Hs. revert from size d l.
  induction fuel as [|fuel IH]; intros from size d l; cbn [scan_loop]; [done|].
  destruct (_ && _); [|done]. apply guards_bind; [by apply guards_attempt|].
  intros [ls|e]; [by apply guards_bind|]. destruct (_ && _); [|done]. by apply guards_bind.
Qed.

Section Guards.
Context `{P : Platform} (env : Env).

Lemma guards_syncWalletBalance a t c n : guards steady (syncWalletBalance env a t c n).
Proof.
  unfold syncWalletBalance, sync, reader_getTokenBalance, findByAddress. solve_guards.
Qed.
#[local] Hint Resolve guards_syncWalletBalance : guards.

Lemma guards_handleTransferEvent log : guards steady (handleTransferEvent env log).
Proof.
  unfold handleTransferEvent, findByContractAddress, findByTransactionHashAndLogIndex,
    sync_both, requireContractAddress. solve_guards.
Qed.
#[local] Hint Resolve guards_handleTransferEvent : guards.

Lemma guards_setLag i h l : guards steady (setLag i h l).
Proof. unfold setLag. solve_guards. Qed.
#[local] Hint Resolve guards_setLag : guards.

Lemma guards_index_token i t c u : guards steady (index_token env i t c u).
Proof.
  unfold index_token, scanLogWindows. solve_guards.
  apply guards_scan; intros; unfold fetch_logs, store_window, learn_range; solve_guards.
Qed.
#[local] Hint Resolve guards_index_token : guards.

Lemma guards_processTokenEvents i : guards steady (processTokenEvents env i).
Proof.
  unfold processTokenEvents, set_processing. solve_guards.
Qed.

Lemma guards_worker_turn i f : guards steady (worker_turn env i f).
Proof.
  assert (Hall : forall ids n, guards steady (process_all env ids n)).
  { induction ids as [|id ids IH]; intros n; cbn [process_all]; [done|].
    pose proof guards_processTokenEvents. solve_guards. }
  unfold worker_turn, processCycle. solve_guards.
Qed.
End Guards.

#[export] Hint Resolve guards_processTokenEvents guards_worker_turn : guards.

(** ** No transfer is skipped *)

(** The node's logs for a contract: a query returns exactly those in the span. *)
Definition honest_logs `{ChainNodes} (c : Chain) (a : option string) (ls : list TransferLog) :=
  forall f t r, evm_getLogs a f t c = inl r ->
    forall l, l ∈ ls -> f <= log_blockNumber l <= t -> l ∈ r.

Definition recorded `{ChainNodes} (w : World) (l : TransferLog) : Prop :=
  exists k r, transfers w !! k = Some r /\ transactionHash r = log_transactionHash l /\
    logIndex r = toNumber (log_logIndex l).

(** Every log from the start block to the token's cursor is in the database.  A
    cursor at 0 has indexed nothing. *)
Definition no_gap `{ChainNodes} (start : Z) (ls : list TransferLog) (id : string) (w : World) :=
  forall k c, cursors w !! k = Some c -> cur_tokenId c = id -> lastProcessedBlock c <> 0 ->
    forall l, l ∈ ls -> start <= log_blockNumber l <= lastProcessedBlock c -> recorded w l.

(** What handling one event may change: it only adds transfers, and touches
    neither the cursors nor the node. *)
Definition grows `{ChainNodes} (w w' : World) : Prop :=
  transfers w ⊆ transfers w' /\ cursors w' = cursors w /\ chain w' = chain w.

#[global] Instance grows_preorder `{ChainNodes} : PreOrder grows.
Proof.
  split; [by split|]. intros a b c (A1 & A2 & A3) (B1 & B2 & B3).
  split_and!; [by etransitivity|congruence..].
Qed.

Lemma recorded_grows `{ChainNodes} w w' l : grows w w' -> recorded w l -> recorded w' l.
Proof. intros (Hs & _) (k & r & E & H1). exists k, r. split; [|done]. by eapply lookup_weaken. Qed.

Section NoGap.
Context `{P : Platform} `{!PlatformLaws P} (env : Env).

Lemma grows_read {T R} (l : lens World T) (f : T -> R) : guards grows (query l f).
Proof. apply guards_act. intros w. reflexivity. Qed.
Lemma grows_ask {T R} (l : lens World T) (f : T -> R + err) : guards grows (ask l f).
Proof. apply guards_act. intros w. reflexivity. Qed.
Lemma grows_inc m ls b : guards grows (inc m ls b).
Proof. unfold inc, report. destruct (prom_accepts _ _); [|done]. apply guards_modify. done. Qed.
Lemma grows_upsert wal tok b n : guards grows (balance_upsert wal tok b n).
Proof.
  unfold balance_upsert, balance_findOrThrow, balance_find, orThrow.
  apply guards_bind; [apply guards_gets; apply _|]. intros d.
  apply guards_bind; [by apply guards_act|]. intros c.
  destruct (Nat.ltb 0 c);
    [|apply guards_bind; [apply guards_gets; apply _|]; intros d'; apply guards_catch;
      [by apply guards_act|intros e; destruct (is_P2002 e); [|done]]];
    (apply guards_bind; [apply grows_read|]); by intros [x|].
Qed.
Lemma grows_transfer_create t f o a h i b : guards grows (transfer_create t f o a h i b).
Proof.
  unfold transfer_create. apply guards_bind; [apply guards_gets; apply _|]. intros d.
  apply guards_act. intros w. unfold on, upsert_keep. cbn [view Transfers].
  destruct (findUnique _ _) as [kr|]; [by destruct w|].
  destruct (create_cases (mkTransfer t f o a h i b d) (transfers w)) as [[_ ->]|[c ->]];
    [|by destruct w].
  split_and!; try done. apply insert_subseteq, uuid_fresh.
Qed.
#[local] Hint Resolve grows_read grows_ask grows_inc grows_upsert grows_transfer_create : guards.

Lemma grows_sync a t c n : guards grows (syncWalletBalance env a t c n).
Proof. unfold syncWalletBalance, sync, reader_getTokenBalance, findByAddress. solve_guards. Qed.
#[local] Hint Resolve grows_sync : guards.

Lemma grows_handleTransferEvent log : guards grows (handleTransferEvent env log).
Proof.
  unfold handleTransferEvent, findByContractAddress, findByTransactionHashAndLogIndex,
    sync_both, requireContractAddress. solve_guards.
Qed.

(** After the insertion (or the discovery of the row) the log is recorded. *)
Lemma transfer_create_records t f o a l w r w' :
  exec (transfer_create t f o a (log_transactionHash l) (toNumber (log_logIndex l))
          (log_blockNumber l)) w = (inl r, w') ->
  recorded w' l.
Proof.
  unfold transfer_create. rewrite exec_bind, exec_now, exec_call. unfold on, upsert_keep.
  cbn [view Transfers]. set (row := mkTransfer _ _ _ _ _ _ _ _).
  destruct (findUnique _ _) as [[k x]|] eqn:F.
  - apply findFirst_Some in F as [E Hk]. intros [= <- <-]. exists k, x. cbn. split; [done|].
    unfold transfer_key in Hk. apply andb_true_iff in Hk as [H1 H2].
    by apply String.eqb_eq in H1; apply Z.eqb_eq in H2.
  - destruct (create_cases row (transfers w)) as [[_ ->]|[c ->]]; [|done].
    intros [= <- <-]. exists (uuid (transfers w)), row. cbn. by rewrite lookup_insert_eq.
Qed.

Lemma handleTransferEvent_records l w w' :
  exec (handleTransferEvent env l) w = (inl tt, w') -> recorded w' l.
Proof.
  unfold handleTransferEvent, findByContractAddress. rewrite exec_bind, exec_query.
  destruct (findFirst _ _ _) as [[id t]|]; [|done].
  unfold findByTransactionHashAndLogIndex. rewrite exec_bind, exec_query.
  cbn [view Transfers]. rewrite exec_bind.
  assert (Hrest : guards grows (sync_both env id t l))
    by (unfold sync_both, requireContractAddress; solve_guards).
  destruct (findUnique _ _) as [[k x]|] eqn:F.
  - destruct (exec (inc _ _ _) w) as [[[]|e] w1] eqn:E1; [|done]. intros E2.
    pose proof (guards_exec grows _ w1 Hrest) as H. rewrite E2 in H.
    apply (recorded_grows w); [|].
    + etransitivity; [|exact H].
      pose proof (guards_exec grows _ w (grows_inc eventListenerEventsSkippedTotal [] 1)) as H'.
      by rewrite E1 in H'.
    + apply findFirst_Some in F as [E Hk]. exists k, x. split; [done|].
      unfold transfer_key in Hk. apply andb_true_iff in Hk as [H1 H2].
      by apply String.eqb_eq in H1; apply Z.eqb_eq in H2.
  - rewrite exec_bind. destruct (exec (transfer_create _ _ _ _ _ _ _) w) as [[r|e] w1] eqn:E1;
      [|done]. rewrite exec_ret. intros E2.
    pose proof (guards_exec grows _ w1 Hrest) as H. rewrite E2 in H.
    by eapply recorded_grows, transfer_create_records.
Qed.

(** All the logs of a window, in order. *)
Lemma handle_all_records ls w :
  let '(r, w') := exec (for_each ls (handleTransferEvent env)) w in
  grows w w' /\ (r = inl tt -> forall l, l ∈ ls -> recorded w' l).
Proof.
  revert w. induction ls as [|l ls IH]; intros w.
  - cbn [for_each]. rewrite exec_ret. split; [reflexivity|]. intros _ l Hl.
    by apply not_elem_of_nil in Hl.
  - rewrite exec_for_each_cons.
    pose proof (guards_exec grows _ w (grows_handleTransferEvent l)) as Hg.
    destruct (exec (handleTransferEvent env l) w) as [[[]|e] w1] eqn:E; [|by split].
    specialize (IH w1). destruct (exec (for_each ls _) w1) as [r w2]. destruct IH as [Hg2 IH].
    split; [by etransitivity|]. intros Hr x [->|Hx]%elem_of_cons; [|by apply IH].
    eapply recorded_grows; [done|]. by eapply handleTransferEvent_records.
Qed.

Lemma no_gap_grows start ls id w w' : grows w w' -> no_gap start ls id w -> no_gap start ls id w'.
Proof.
  intros Hg H k c. destruct Hg as (Hs & Hc & Hn). rewrite Hc. intros E Hid Hz l Hl Hb.
  by eapply recorded_grows, H.
Qed.

(** [update] on the cursor table, as a whole. *)
Lemma cursor_update_exec id d w :
  exists r m, exec (call Cursors (update (cursor_of id) d)) w = (r, put Cursors m w) /\
    (m = cursors w \/ m = updated (cursor_of id) d (cursors w)) /\
    (r = inl tt -> m = updated (cursor_of id) d (cursors w)).
Proof.
  rewrite exec_call. unfold on, update. cbn [view Cursors].
  destruct (updateMany_cases (cursor_of id) d (cursors w)) as [[_ ->]|[_ [c ->]]].
  - destruct (length _); do 2 eexists; (split; [done|]); auto.
  - do 2 eexists. split; [done|]. split; [by left|done].
Qed.

Lemma no_gap_cursors start ls id w m :
  (forall k c, m !! k = Some c -> cur_tokenId c = id -> lastProcessedBlock c <> 0 ->
     forall l, l ∈ ls -> start <= log_blockNumber l <= lastProcessedBlock c -> recorded w l) ->
  no_gap start ls id (put Cursors m w).
Proof. intros H k c E Hid Hz l Hl Hb. exact (H k c E Hid Hz l Hl Hb). Qed.

(** Marking a block as indexed, once every log up to it is recorded. *)
Lemma markSuccess_no_gap start ls id b w :
  no_gap start ls id w ->
  (forall l, l ∈ ls -> start <= log_blockNumber l <= b -> recorded w l) ->
  exists r m, exec (markSuccess id b) w = (r, put Cursors m w) /\
    no_gap start ls id (put Cursors m w).
Proof.
  intros Hn Hb. unfold markSuccess. rewrite exec_bind, exec_now.
  match goal with |- context [update _ ?d] =>
    destruct (cursor_update_exec id d w) as (r & m & -> & Hm & _) end.
  exists r, m. split; [done|]. apply no_gap_cursors. intros k c E Hid Hz l Hl Hle.
  destruct Hm as [-> | ->]; [by apply (Hn k c)|].
  rewrite lookup_updated, fmap_Some in E. destruct E as (c0 & E & ->).
  destruct (cursor_of id k c0) eqn:Hc; [by apply Hb|by apply (Hn k c0)].
Qed.

Lemma markFailure_no_gap start ls id w :
  no_gap start ls id w -> no_gap start ls id (exec (markFailure id) w).2.
Proof.
  intros Hn. unfold markFailure. rewrite exec_bind, exec_now.
  match goal with |- context [update _ ?d] =>
    destruct (cursor_update_exec id d w) as (r & m & -> & Hm & _) end.
  apply no_gap_cursors. intros k c E Hid Hz l Hl Hle.
  destruct Hm as [-> | ->]; [by apply (Hn k c)|].
  rewrite lookup_updated, fmap_Some in E. destruct E as (c0 & E & ->).
  by destruct (cursor_of id k c0); apply (Hn k c0).
Qed.

(** Loading the cursor: an existing row, or a new one at block 0. *)
Lemma getOrCreate_no_gap start ls id w :
  no_gap start ls id w ->
  exists r m, exec (getOrCreate id) w = (r, put Cursors m w) /\
    no_gap start ls id (put Cursors m w) /\
    forall k c, r = inl (k, c) -> m !! k = Some c /\ cur_tokenId c = id.
Proof.
  intros Hn. unfold getOrCreate. rewrite exec_call. unfold on, upsert_keep. cbn [view Cursors].
  destruct (findUnique _ _) as [[k c]|] eqn:F.
  - apply findFirst_Some in F as [E Hc]. do 2 eexists. split; [done|].
    split; [by destruct w|]. intros k' c' [= <- <-]. split; [done|]. by apply String.eqb_eq.
  - destruct (create_cases (mkCursor id 0 0 None None 0) (cursors w)) as [[_ ->]|[x ->]];
      cbn [fst snd].
    + do 2 eexists. split; [done|]. split.
      * apply no_gap_cursors. intros k c. rewrite lookup_insert_Some.
        intros [[<- <-]|[_ E]]; [done|]. by apply (Hn k c).
      * intros k c [= <- <-]. by rewrite lookup_insert_eq.
    + do 2 eexists. split; [done|]. split; [by destruct w|done].
Qed.

(** The scan with the listener's callbacks. *)
Lemma scan_no_gap id t start ls to maxW from size w :
  1 <= size -> honest_logs (chain w) (contractAddress t) ls -> no_gap start ls id w ->
  (forall l, l ∈ ls -> start <= log_blockNumber l < from -> recorded w l) ->
  no_gap start ls id
    (exec (scanLogWindows to maxW (fetch_logs t) (store_window env id) learn_range from size) w).2.
Proof.
  intros Hs Hh Hn Hfrom.
  set (I := fun k w' => chain w' = chain w /\ no_gap start ls id w' /\
              forall l, l ∈ ls -> start <= log_blockNumber l < k -> recorded w' l).
  set (E := fun (x : err) w' => no_gap start ls id w').
  assert (Hw : forall f e w, f <= e <= to -> e < f + size -> I f w ->
    match exec (fetch_logs t f e) w with
    | (inl logs, w1) =>
        match exec (store_window env id logs f e) w1 with
        | (inl _, w2) => I (e + 1) w2 | (inr x, w2) => E x w2
        end
    | (inr x, w1) => I f w1 /\ E x w1
    end).
  { intros f e w0 He _ (Hc & Hn0 & Hr). unfold fetch_logs. rewrite exec_ask. cbn [view Node].
    destruct (evm_getLogs _ f e (chain w0)) as [logs|x] eqn:EL; [|split; [by split_and!|done]].
    unfold store_window. rewrite exec_bind. pose proof (handle_all_records logs w0) as HA.
    destruct (exec (for_each logs _) w0) as [[[]|x] w1]; destruct HA as [Hg HA];
      [|by eapply no_gap_grows].
    assert (Hall : forall l, l ∈ ls -> start <= log_blockNumber l <= e -> recorded w1 l).
    { intros l Hl Hb. destruct (decide (log_blockNumber l < f)).
      - eapply recorded_grows; [exact Hg|]. apply Hr; [done|lia].
      - apply HA; [done|]. rewrite Hc in EL. apply (Hh f e logs EL l Hl). lia. }
    rewrite exec_bind.
    destruct (markSuccess_no_gap start ls id e w1) as (r & m & -> & Hm);
      [by eapply no_gap_grows|done|].
    destruct r as [[]|x]; [|done].
    pose proof (guards_exec grows _ (put Cursors m w1)
      (grows_inc eventListenerEventsProcessedTotal [] (Z.of_nat (length logs)))) as Hi.
    destruct (exec (inc _ _ _) _) as [[[]|x] w2]; cbn [snd] in Hi; [|by eapply no_gap_grows].
    split_and!.
    - destruct Hi as (_ & _ & ->). destruct Hg as (_ & _ & Hg). cbn. congruence.
    - by eapply no_gap_grows.
    - intros l Hl Hb. eapply recorded_grows; [exact Hi|].
      assert (recorded w1 l) as (k & r & H) by (apply Hall; [done|lia]). by exists k, r. }
  pose proof (scan_rule to maxW (fetch_logs t) (store_window env id) learn_range I E size Hw
    ltac:(intros k n x w0 _ (A & B & C); eexists; split; [reflexivity|by split_and!])
    (scan_fuel maxW size 0) from size 0 None w from eq_refl ltac:(lia) eq_refl ltac:(lia)
    ltac:(by right) ltac:(by split_and!)) as H.
  unfold scanLogWindows. destruct (exec (scan_loop _ _ _ _ _ _ _ _ _ _) w) as [[r|x] w'].
  - by destruct H as [(_ & Hn' & _) _].
  - exact H.
Qed.
End NoGap.

(** The configuration is always usable. *)
Lemma parseInteger_min env name fallback minimum v :
  minimum <= fallback -> parseInteger env name fallback minimum = inl v -> minimum <= v.
Proof.
  unfold parseInteger. intros Hf. destruct (trim <$> env name) as [[|a s]|];
    [by intros [= <-]| |by intros [= <-]].
  destruct (negb _ || _) eqn:E; [done|]. intros [= <-].
  apply orb_false_iff in E as [_ E]. by apply Z.ltb_ge in E.
Qed.

Lemma config_range env config :
  loadEvmIndexerConfig env = inl config ->
  1 <= maxBlockRange config /\ 0 <= startBlock config /\ 0 <= confirmations_ config.
Proof.
  unfold loadEvmIndexerConfig. repeat case_match; intros; simplify_eq; cbn.
  repeat match goal with H : parseInteger _ _ _ _ = inl _ |- _ =>
    apply parseInteger_min in H; [|by vm_compute] end. lia.
Qed.

Lemma grows_set_processing `{P : Platform} f : guards grows (set_processing f).
Proof. apply guards_modify. done. Qed.

Lemma grows_setLag `{P : Platform} i h l : guards grows (setLag i h l).
Proof.
  unfold setLag, set, report. destruct (prom_accepts _ _); [|done]. by apply guards_modify.
Qed.

Lemma index_token_no_gap `{P : Platform} `{!PlatformLaws P} env id t config ls w k c :
  1 <= maxBlockRange config ->
  honest_logs (chain w) (contractAddress t) ls ->
  (forall n, learnedMaxBlockRange w = Some n -> 1 <= n) ->
  cursors w !! k = Some c -> cur_tokenId c = id ->
  no_gap (startBlock config) ls id w ->
  no_gap (startBlock config) ls id (exec (index_token env id t config c) w).2.
Proof.
  intros Hc Hh Hl E Hid Hn. unfold index_token. rewrite exec_bind, exec_ask. cbn [view Node].
  destruct (evm_getBlockNumber (chain w)) as [head|x]; [|done].
  destruct (_ <? _).
  { eapply no_gap_grows; [|done]. apply guards_exec; [apply _|apply grows_setLag]. }
  rewrite exec_bind, exec_gets, exec_bind.
  set (from := if lastProcessedBlock c =? 0 then _ else _).
  set (size := default (maxBlockRange config) (learnedMaxBlockRange w)).
  assert (Hs : 1 <= size).
  { unfold size. destruct (learnedMaxBlockRange w) as [n|] eqn:L; [by apply Hl|done]. }
  pose proof (scan_no_gap env id t (startBlock config) ls (head - confirmations_ config)
    (maxWindowsPerRun config) from size w Hs Hh Hn) as H.
  destruct (exec (scanLogWindows _ _ _ _ _ _ _) w) as [[r|x] w'].
  - eapply no_gap_grows; [apply guards_exec; [apply _|apply grows_setLag]|]. apply H.
    intros l Hin Hb. unfold from in Hb. destruct (Z.eqb_spec (lastProcessedBlock c) 0); [lia|].
    apply (Hn k c); [done..|lia].
  - apply H. intros l Hin Hb. unfold from in Hb.
    destruct (Z.eqb_spec (lastProcessedBlock c) 0); [lia|]. apply (Hn k c); [done..|lia].
Qed.

(** C10: the indexer leaves no gap.  If every transfer the node has for the
    token's contract, from the configured start block up to the token's cursor,
    is in the database, then this still holds after a run of the listener,
    whether the run succeeds, stops half-way through a catch-up, or fails because the
    node, a constraint or a service it calls does: the cursor is never moved past a transfer that was not stored. *)
Theorem indexing_leaves_no_gap `{P : Platform} `{!PlatformLaws P} env id t config ls w :
  loadEvmIndexerConfig env = inl config -> tokens w !! id = Some t ->
  honest_logs (chain w) (contractAddress t) ls ->
  (forall n, learnedMaxBlockRange w = Some n -> 1 <= n) ->
  no_gap (startBlock config) ls id w ->
  no_gap (startBlock config) ls id (exec (processTokenEvents env id) w).2.
Proof.
  intros Hcfg Ht Hh Hl Hn. pose proof (config_range _ _ Hcfg) as [Hr _].
  unfold processTokenEvents. rewrite exec_bind, exec_gets. case_bool_decide; [done|].
  rewrite exec_bind. unfold set_processing at 1. rewrite exec_modify.
  set (w0 := put ProcessingTokens _ w).
  assert (Hn0 : no_gap (startBlock config) ls id w0) by done.
  rewrite exec_finally, exec_bind, exec_query, findUnique_at_id. cbn [view Tokens].
  change (tokens w0) with (tokens w). rewrite Ht.
  set (body := exec (if negb _ then _ else _) w0).
  assert (Hbody : no_gap (startBlock config) ls id body.2).
  { unfold body. destruct (negb _); [done|]. rewrite Hcfg, exec_bind, exec_rethrow, exec_bind.
    destruct (getOrCreate_no_gap _ _ _ _ Hn0) as (r & m & -> & Hm & Hrow).
    destruct r as [[k c]|x]; [|done]. destruct (Hrow k c eq_refl) as [Hk Hid].
    rewrite exec_catch.
    pose proof (index_token_no_gap env id t config ls (put Cursors m w0) k c Hr Hh Hl Hk Hid Hm) as H1.
    destruct (exec (index_token _ _ _ _ _) _) as [[[]|x] w1]; [done|].
    rewrite exec_bind, exec_catch. cbn [snd] in H1.
    pose proof (markFailure_no_gap _ _ id w1 H1) as H2.
    by destruct (exec (markFailure id) w1) as [[?|?] ?]. }
  destruct body as [r w1]. unfold set_processing. rewrite exec_modify. exact Hbody.
Qed.

Section Witness.
#[local] Existing Instance ref_platform.
#[local] Existing Instance ref_platform_laws.

Definition usd : Token := mkToken "Dollar" "USD" (Some "0xt") EVM true 6 0 0.

Definition log_at (b : Z) (h : string) : TransferLog :=
  mkLog "0xT" "0xA" "0xB" 7 h 0 b.

Definition chain_logs : list TransferLog := [log_at 3 "h3"; log_at 12 "h12"].

Definition evm_node (head : Z) : Script :=
  mkScript ∅ ∅ ∅ ∅ head chain_logs {["0xa" := 1; "0xb" := 2]} ∅ None [].

Definition no_env : Env := fun _ => None.

Definition unindexed (head : Z) : World :=
  put Tokens {["tok" := usd]} (fresh_world 5000 (evm_node head)).

Lemma indexing_leaves_no_gap_witness :
  no_gap 0 chain_logs "tok" (exec (processTokenEvents no_env "tok") (unindexed 20)).2.
Proof.
  apply (indexing_leaves_no_gap no_env "tok" usd (mkIndexerConfig 0 0 2000 25) chain_logs
           (unindexed 20)); [reflexivity|reflexivity| |done|].
  - intros f t r Hr l Hl Hb.
    assert (r = List.filter (fun l => (f <=? log_blockNumber l) && (log_blockNumber l <=? t))
              chain_logs) as -> by (symmetry; exact (f_equal (fun x => match x with inl a => a | inr _ => r end) Hr)).
    apply list_elem_of_In, filter_In. split; [by apply list_elem_of_In|]. apply andb_true_iff. split; apply Z.leb_le; lia.
  - intros k c E. vm_compute in E. discriminate.
Defined.

(** The run above stores both transfers and moves the cursor to the head. *)
Example indexed_to_head :
  let w := (exec (processTokenEvents no_env "tok") (unindexed 20)).2 in
  size (transfers w) = 2%nat /\
  ((fun kc : string * TokenEventCursor => lastProcessedBlock kc.2) <$> map_to_list (cursors w)) = [20].
Proof. vm_compute. done. Qed.

(** A configuration the parser accepts: one window of [n] blocks per run. *)
Definition tiny_windows (n : string) : Env := fun name =>
  if String.eqb name "EVM_LOGS_MAX_BLOCK_RANGE" then Some n
  else if String.eqb name "EVM_INDEX_MAX_WINDOWS_PER_RUN" then Some "1" else None.

Definition indexed_to (b : Z) : World :=
  put Cursors {["c" := mkCursor "tok" b 0 (Some 1) None 0]} (unindexed 100).

Definition cursor_after (n : string) (b : Z) : option Z :=
  lastProcessedBlock <$>
    cursors (exec (processTokenEvents (tiny_windows n) "tok") (indexed_to b)).2 !! "c".

(** A small window budget stops the indexer.  The parser accepts one
    window of one or two blocks per run, but a run starts one block before the
    cursor: with two blocks the cursor stays where it is on every run, and with
    one block every run moves it one block back, although the head is far
    ahead. *)
Example small_windows_never_progress :
  cursor_after "2" 10 = Some 10 /\ cursor_after "1" 10 = Some 9 /\
  cursor_after "1" 9 = Some 8 /\ cursor_after "3" 10 = Some 11.
Proof. vm_compute. done. Qed.
End Witness.
