(* ===== verification/Sweeps.v ===== *)
(** * The periodic sweeps over the ledger

    [src/workers/expiration.processor.ts],
    [src/workers/submission-recovery.processor.ts],
    [src/workers/pending-recovery.processor.ts] and
    [src/workers/pending-transactions-sampler.ts]: what each sweep selects and
    what it does to the rows it selects. *)

From S2P Require Import Prelude JsString Schema Platform Reference StateMachine TransactionRepository Guarantee Metrics Addresses Envelope Adapters Transfer Confirmation Index LogWindows EventListener.

Definition SWEEP_LIMIT : nat := 100.
Definition EXPIRED_REASON : string := "Transaction confirmation timeout exceeded".
Definition ORPHANED_REASON : string :=
  "Orphaned in PENDING: no matching on-chain transfer found after the recovery window. Likely a process crash before submission completed.".

(** ** Expiration *)
Section Expiration.
Context `{P : Platform}.

Definition expire_one (t : string * Transaction) : prog' unit :=
  catch (do! expire t.1 EXPIRED_REASON in Ret tt)
    (fun e => if is_conflict e then Ret tt else Throw e).

Definition processExpiredTransactions (expirationBefore : Z) : prog' nat :=
  let! transactions_ := findExpiredCandidates expirationBefore SWEEP_LIMIT in
  do! for_each transactions_ expire_one in
  Ret (length transactions_).
End Expiration.

(** ** Recovery of submitted transactions *)
Definition confirm_job_id (id : string) : string := "confirm-" +:+ id.

Section SubmissionRecovery.
Context `{P : Platform}.

Definition recover_submitted (t : string * Transaction) : prog' unit :=
  catch (enqueue_confirmation (Some (confirm_job_id t.1)) t) (fun _ => Ret tt).

Definition processSubmittedTransactions : prog' unit :=
  let! transactions_ := findSubmittedCandidates SWEEP_LIMIT in
  for_each transactions_ recover_submitted.
End SubmissionRecovery.

(** ** Recovery of orphaned pending transactions *)
Section PendingRecovery.
Context `{P : Platform} (graceMs failAfterMs listenerStalenessMs : Z).

Definition isEventListenerHealthy (tokenId_ : string) : prog' bool :=
  let! cursor := findByTokenId tokenId_ in
  match cursor with
  | Some (_, c) =>
      match lastSuccessfulSync c with
      | Some s => let! date := now in Ret (date - s <=? listenerStalenessMs)
      | None => Ret false
      end
  | None => Ret false
  end.

Definition orphan_id (o : OrphanedTransaction) : string := o.1.1.1.
Definition orphan_row (o : OrphanedTransaction) : Transaction := o.1.1.2.
Definition orphan_from (o : OrphanedTransaction) : Wallet := o.1.2.
Definition orphan_to (o : OrphanedTransaction) : Wallet := o.2.

Definition adopt (o : OrphanedTransaction) (hash : string) : prog' unit :=
  do! markSubmitted (orphan_id o) hash in
  enqueue_confirmation (Some (confirm_job_id (orphan_id o))) (orphan_id o, orphan_row o).

Definition fail_orphan (o : OrphanedTransaction) : prog' unit :=
  do! markFailed (orphan_id o) ORPHANED_REASON in Ret tt.

Definition recover_body (o : OrphanedTransaction) : prog' unit :=
  let t := orphan_row o in
  let! match_ := findMatchingTransfer (tokenId t) (address (orphan_from o))
                   (address (orphan_to o)) (amount t) (createdAt t) in
  match match_ with
  | Some (_, r) => adopt o (transactionHash r)
  | None =>
      let! date := now in
      let ageMs := date - createdAt t in
      if ageMs <? failAfterMs then Ret tt
      else
        let! listenerHealthy := isEventListenerHealthy (tokenId t) in
        if listenerHealthy then fail_orphan o else Ret tt
  end.

Definition recoverOne (o : OrphanedTransaction) : prog' unit :=
  catch (recover_body o) (fun _ => Ret tt).

Definition processOrphanedPending : prog' unit :=
  let! date := now in
  let! candidates := findOrphanedPendingCandidates (date - graceMs) SWEEP_LIMIT in
  for_each candidates recoverOne.
End PendingRecovery.

(** ** Sampling *)
Section Sampler.
Context `{P : Platform}.

Definition sample_pending : prog' unit :=
  catch (let! count := countPending in
         set confirmationWorkerPendingTransactions [] (Z.of_nat count))
    (fun _ => Ret tt).
End Sampler.

Section Guards.
Context `{P : Platform} `{!PlatformLaws P}.

Lemma guards_processExpired d : guards steady (processExpiredTransactions d).
Proof. unfold processExpiredTransactions, findExpiredCandidates, expire_one. solve_guards. Qed.

Lemma guards_processSubmitted : guards steady processSubmittedTransactions.
Proof.
  unfold processSubmittedTransactions, findSubmittedCandidates, recover_submitted,
    enqueue_confirmation. solve_guards.
Qed.

Lemma guards_processOrphaned g f l : guards steady (processOrphanedPending g f l).
Proof.
  unfold processOrphanedPending, recoverOne, recover_body, findMatchingTransfer, adopt,
    fail_orphan, isEventListenerHealthy, findByTokenId, enqueue_confirmation. solve_guards.
Qed.

Lemma guards_sample_pending : guards steady sample_pending.
Proof. unfold sample_pending, countPending. solve_guards. Qed.
End Guards.

#[export] Hint Resolve guards_processExpired guards_processSubmitted guards_processOrphaned
  guards_sample_pending : guards.

(** ** Selecting a page *)

Lemma StronglySorted_app_rel {A} (R : A -> A -> Prop) l1 l2 x y :
  StronglySorted R (l1 ++ l2) -> x ∈ l1 -> y ∈ l2 -> R x y.
Proof.
  induction l1 as [|a l1 IH]; simpl; intros Hs Hx Hy; [by apply not_elem_of_nil in Hx|].
  apply StronglySorted_inv in Hs as [Hs Ha]. apply elem_of_cons in Hx as [->|Hx]; [|by apply IH].
  rewrite Forall_forall in Ha. apply Ha, elem_of_app. by right.
Qed.

(** The first [n] rows of an ordered query: matching rows, without repetition,
    all of them if there are fewer than [n], and otherwise none that comes after
    one that was left out. *)
Lemma findMany_first `{Pr : Prisma} `{!PrismaLaws Pr} {R} (w : string -> R -> bool)
    (o : R -> R -> bool) n (t : gmap string R) :
  (forall a b, o a b = true \/ o b a = true) ->
  (forall a b c, o a b = true -> o b c = true -> o a c = true) ->
  let cs := findMany w o 0 (Some n) t in
  NoDup cs.*1 /\ (length cs <= n)%nat /\
  (forall k r, (k, r) ∈ cs -> t !! k = Some r /\ w k r = true) /\
  (forall k r, t !! k = Some r -> w k r = true -> (k, r) ∉ cs ->
     length cs = n /\ forall k' r', (k', r') ∈ cs -> o r' r = true).
Proof.
  intros Htot Htr cs. unfold cs. rewrite findMany_page. cbn [page]. rewrite drop_0.
  set (all := findMany w o 0 None t).
  assert (Hp : all ≡ₚ rows w t) by apply findMany_all.
  split_and!.
  - rewrite fmap_take. eapply sublist_NoDup; [|apply sublist_take].
    rewrite Hp. apply NoDup_rows.
  - rewrite length_take. lia.
  - intros k r Hin. apply elem_of_rows. rewrite <- Hp.
    by eapply elem_of_submseteq, sublist_submseteq, sublist_take.
  - intros k r Er Hw Hno.
    assert (Hin : (k, r) ∈ all) by (rewrite Hp; by apply elem_of_rows).
    rewrite <- (take_drop n all) in Hin. apply elem_of_app in Hin as [|Hin]; [done|]. split.
    + rewrite length_take. assert (n < length all)%nat; [|lia].
      destruct (Nat.lt_ge_cases n (length all)) as [|Hge]; [done|].
      rewrite drop_ge in Hin by done. by apply not_elem_of_nil in Hin.
    + intros k' r' Hin'. pose proof (findMany_sorted _ w o t Htot Htr) as Hs. fold all in Hs.
      rewrite <- (take_drop n all) in Hs. exact (StronglySorted_app_rel _ _ _ _ _ Hs Hin' Hin).
Qed.

(** ** Expiration *)

Definition expirable (before : Z) (_ : string) (t : Transaction) : bool :=
  has_status CONFIRMING t && opt_lte (confirmationStartedAt t) before.

Definition expired_row (t : Transaction) (date : Z) : Transaction :=
  with_failure (with_status t EXPIRED) EXPIRED_REASON date.

Lemma expire_all `{P : Platform} `{!PlatformLaws P} cs w :
  NoDup cs.*1 -> table_ok (transactions w) ->
  (forall k t, (k, t) ∈ cs -> transactions w !! k = Some t /\ status t = CONFIRMING) ->
  exists m', exec (for_each cs expire_one) w = (inl tt, put Transactions m' w) /\
    (forall k t, (k, t) ∈ cs -> m' !! k = Some (expired_row t (clock w))) /\
    (forall k, k ∉ cs.*1 -> m' !! k = transactions w !! k).
Proof.
  revert w. induction cs as [|[k t] cs IH]; intros w Hnd Hok Hcs.
  - exists (transactions w). split; [by destruct w|]. split; [|done].
    intros k t Hin. by apply not_elem_of_nil in Hin.
  - destruct (Hcs k t ltac:(left)) as [Ek Sk]. apply NoDup_cons in Hnd as [Hk Hnd].
    pose proof (proj1 Hok _ _ Ek) as Hf.
    rewrite exec_for_each_cons. unfold expire_one at 1. rewrite exec_catch, exec_bind.
    unfold expire. rewrite exec_bind, exec_now. cbn [fst].
    rewrite (transition_applies k CONFIRMING EXPIRED
               (fun t => with_failure t EXPIRED_REASON (clock w)) w t); try done; [|by left].
    rewrite exec_ret. fold (expired_row t (clock w)).
    set (w1 := put Transactions _ w).
    destruct (IH w1 Hnd) as (m' & -> & H1 & H2).
    + cbn. eapply table_ok_transaction; eauto.
    + intros k' t' Hin. destruct (Hcs k' t' ltac:(by right)) as [E' S']. split; [|done].
      cbn. rewrite lookup_insert_ne; [done|]. intros <-. apply Hk.
      apply list_elem_of_fmap. by exists (k, t').
    + exists m'. split; [done|]. split.
      * intros k' t' [[= -> ->]|Hin]%elem_of_cons; [|by apply H1].
        rewrite H2 by done. cbn. apply lookup_insert_eq.
      * intros k' Hk'. cbn in Hk'. apply not_elem_of_cons in Hk' as [Hne Hk'].
        rewrite H2 by done. cbn. by rewrite lookup_insert_ne.
Qed.

(** C37: the expiration sweep.  It returns the number of rows it selected; each
    was CONFIRMING since [before] or earlier and is now EXPIRED with the reason
    and the time; every other row is untouched.  At most 100 rows are selected,
    all eligible ones if they are fewer, and otherwise those that have been
    confirming the longest. *)
Theorem expiration_sweep `{P : Platform} `{!PlatformLaws P} before w :
  table_ok (transactions w) ->
  exists cs m',
    exec (processExpiredTransactions before) w = (inl (length cs), put Transactions m' w) /\
    (length cs <= SWEEP_LIMIT)%nat /\
    (forall k t, (k, t) ∈ cs -> transactions w !! k = Some t /\ expirable before k t = true /\
       m' !! k = Some (expired_row t (clock w))) /\
    (forall k, k ∉ cs.*1 -> m' !! k = transactions w !! k) /\
    (forall k t, transactions w !! k = Some t -> expirable before k t = true -> (k, t) ∉ cs ->
       length cs = SWEEP_LIMIT /\ forall k' t', (k', t') ∈ cs ->
         opt_le (confirmationStartedAt t') (confirmationStartedAt t) = true).
Proof.
  intros Hok. unfold processExpiredTransactions, findExpiredCandidates.
  rewrite exec_bind, exec_query. cbn [view Transactions].
  destruct (findMany_first (expirable before)
    (fun a b => opt_le (confirmationStartedAt a) (confirmationStartedAt b)) SWEEP_LIMIT
    (transactions w)) as (Hnd & Hlen & Hin & Hout).
  - intros a b. destruct (confirmationStartedAt a), (confirmationStartedAt b); cbn; auto.
    rewrite !Z.leb_le. lia.
  - intros a b c. destruct (confirmationStartedAt a), (confirmationStartedAt b),
      (confirmationStartedAt c); cbn; auto; try done. rewrite !Z.leb_le. lia.
  - change (fun (_ : string) t => has_status CONFIRMING t && opt_lte (confirmationStartedAt t) before)
      with (expirable before).
    set (cs := findMany (expirable before) _ 0 (Some SWEEP_LIMIT) (transactions w)) in *.
    destruct (expire_all cs w Hnd Hok) as (m' & E & H1 & H2).
    { intros k t Hkt. destruct (Hin k t Hkt) as [Et Ht]. split; [done|].
      apply andb_true_iff in Ht as [Ht _]. by apply bool_decide_eq_true in Ht. }
    exists cs, m'. rewrite exec_bind, E, exec_ret. split_and!; try done.
    intros k t Hkt. destruct (Hin k t Hkt). auto.
Qed.

(** ** Recovery of submitted transactions *)

Lemma confirm_job_id_inj a b : confirm_job_id a = confirm_job_id b -> a = b.
Proof. unfold confirm_job_id. intros H. by injection H. Qed.

Lemma recover_all `{P : Platform} `{!PlatformLaws P} cs w :
  NoDup cs.*1 ->
  exists q', exec (for_each cs recover_submitted) w = (inl tt, put ConfirmationQueue q' w) /\
    (forall k t, (k, t) ∈ cs -> q' !! confirm_job_id k =
       Some (default (mkJob k (tenantId t)) (confirmationQueue w !! confirm_job_id k))) /\
    (forall j, (forall k, k ∈ cs.*1 -> j <> confirm_job_id k) -> q' !! j = confirmationQueue w !! j).
Proof.
  revert w. induction cs as [|[k t] cs IH]; intros w Hnd.
  - exists (confirmationQueue w). split; [by destruct w|]. split; [|done].
    intros k t Hin. by apply not_elem_of_nil in Hin.
  - apply NoDup_cons in Hnd as [Hk Hnd]. rewrite exec_for_each_cons.
    unfold recover_submitted at 1. rewrite exec_catch. unfold enqueue_confirmation.
    rewrite exec_call. unfold on. cbn [view ConfirmationQueue fst snd].
    set (q1 := queue_add _ _ _). destruct (IH (put ConfirmationQueue q1 w) Hnd) as (q' & -> & H1 & H2).
    assert (Hq1 : q1 !! confirm_job_id k =
        Some (default (mkJob k (tenantId t)) (confirmationQueue w !! confirm_job_id k)) /\
      forall j, j <> confirm_job_id k -> q1 !! j = confirmationQueue w !! j).
    { unfold q1. destruct (confirmationQueue w !! confirm_job_id k) as [x|] eqn:E.
      - by rewrite (queue_add_known _ _ _ _ _ E).
      - rewrite (queue_add_new _ _ _ _ E), lookup_insert_eq. split; [done|].
        intros j Hj. by rewrite lookup_insert_ne. }
    destruct Hq1 as [Hq1 Hq2].
    assert (Hne : forall k', k' ∈ cs.*1 -> confirm_job_id k <> confirm_job_id k').
    { intros k' Hin E%confirm_job_id_inj. by subst. }
    exists q'. split; [done|]. split.
    + intros k' t' [[= -> ->]|Hin]%elem_of_cons; [by rewrite H2|].
      rewrite (H1 k' t' Hin). cbn. rewrite Hq2; [done|]. apply not_eq_sym, Hne.
      apply list_elem_of_fmap. by exists (k', t').
    + intros j Hj. cbn in Hj. rewrite H2 by (intros k' Hk'; apply Hj; by right). cbn.
      apply Hq2, Hj. by left.
Qed.

(** The submission sweep.  It never throws, changes no row, and afterwards a
    confirmation job named after the transaction is known to the queue for every
    selected SUBMITTED transaction: a new one if the queue did not know that name,
    and otherwise whatever job it had retained under it, unchanged.  Other jobs
    are untouched.  An eligible transaction is left out only when 100 others that
    were submitted no later were selected. *)
Theorem submission_sweep `{P : Platform} `{!PlatformLaws P} w :
  exists cs q',
    exec processSubmittedTransactions w = (inl tt, put ConfirmationQueue q' w) /\
    (forall k t, (k, t) ∈ cs -> transactions w !! k = Some t /\ status t = SUBMITTED /\
       q' !! confirm_job_id k =
         Some (default (mkJob k (tenantId t)) (confirmationQueue w !! confirm_job_id k))) /\
    (forall j, (forall k, k ∈ cs.*1 -> j <> confirm_job_id k) ->
       q' !! j = confirmationQueue w !! j) /\
    (forall k t, transactions w !! k = Some t -> status t = SUBMITTED -> is_Some (txHash t) ->
       (k, t) ∉ cs ->
       length cs = SWEEP_LIMIT /\ forall k' t', (k', t') ∈ cs ->
         opt_le (submittedAt t') (submittedAt t) = true).
Proof.
  unfold processSubmittedTransactions, findSubmittedCandidates.
  rewrite exec_bind, exec_query. cbn [view Transactions].
  set (f := fun (_ : string) t => has_status SUBMITTED t && is_some (txHash t)).
  destruct (findMany_first f (fun a b => opt_le (submittedAt a) (submittedAt b)) SWEEP_LIMIT
    (transactions w)) as (Hnd & _ & Hin & Hout).
  - intros a b. destruct (submittedAt a), (submittedAt b); cbn; auto. rewrite !Z.leb_le. lia.
  - intros a b c. destruct (submittedAt a), (submittedAt b), (submittedAt c); cbn; auto; try done.
    rewrite !Z.leb_le. lia.
  - set (cs := findMany f _ 0 (Some SWEEP_LIMIT) (transactions w)) in *.
    destruct (recover_all cs w Hnd) as (q' & E & H1 & H2). exists cs, q'.
    split; [exact E|]. split_and!; try done.
    + intros k t Hkt. destruct (Hin k t Hkt) as [Et Ht]. apply andb_true_iff in Ht as [Ht _].
      apply bool_decide_eq_true in Ht. auto.
    + intros k t Et St [h Hh] Hno. apply (Hout k t Et); [|done].
      unfold f, has_status. by rewrite St, Hh, bool_decide_eq_true_2.
Qed.

(** ** Recovery of orphaned transactions *)

Definition evidence `{P : Platform} (w : World) (o : OrphanedTransaction)
  : option (string * TokenTransfer) :=
  let t := orphan_row o in
  findFirst (matching_transfer (tokenId t) (address (orphan_from o)) (address (orphan_to o))
               (amount t) (createdAt t))
    (fun a b => tr_createdAt a <=? tr_createdAt b) (transfers w).

Definition listener_healthy `{P : Platform} (stale : Z) (tok : string) (w : World) : bool :=
  match findUnique (cursor_of tok) (cursors w) with
  | Some (_, c) =>
      match lastSuccessfulSync c with Some s => clock w - s <=? stale | None => false end
  | None => false
  end.

Section Recovery.
Context `{P : Platform} `{!PlatformLaws P} (failAfter stale : Z).

Lemma isEventListenerHealthy_exec tok w :
  exec (isEventListenerHealthy stale tok) w = (inl (listener_healthy stale tok w), w).
Proof.
  unfold isEventListenerHealthy, findByTokenId, listener_healthy. rewrite exec_bind, exec_query.
  cbn [view Cursors]. destruct (findUnique _ _) as [[k c]|]; [|done].
  by destruct (lastSuccessfulSync c).
Qed.

Lemma recoverOne_exec o w :
  exec (recoverOne failAfter stale o) w =
  match evidence w o with
  | Some (_, r) => exec (catch (adopt o (transactionHash r)) (fun _ => Ret tt)) w
  | None =>
      if (clock w - createdAt (orphan_row o) <? failAfter)
         || negb (listener_healthy stale (tokenId (orphan_row o)) w)
      then (inl tt, w)
      else exec (catch (fail_orphan o) (fun _ => Ret tt)) w
  end.
Proof.
  unfold recoverOne, recover_body, findMatchingTransfer. rewrite exec_catch, exec_bind, exec_query.
  cbn [view Transfers]. fold (evidence w o). destruct (evidence w o) as [[k r]|].
  - by rewrite exec_catch.
  - rewrite exec_bind, exec_now. destruct (_ <? failAfter); [done|]. cbn [orb].
    rewrite exec_bind, isEventListenerHealthy_exec.
    destruct (listener_healthy _ _ w); [by rewrite exec_catch|done].
Qed.
End Recovery.

(** What a transfer on the chain has to be to stand for an orphaned transaction. *)
Definition pays_orphan (o : OrphanedTransaction) (r : TokenTransfer) : Prop :=
  tr_tokenId r = tokenId (orphan_row o) /\
  tr_from r = address (orphan_from o) /\ tr_to r = address (orphan_to o) /\
  tr_amount r = amount (orphan_row o) /\ createdAt (orphan_row o) <= tr_createdAt r.

(** A stored transfer that stands for the orphan and than which none that does was
    stored earlier. *)
Definition oldest_payment `{P : Platform} (w : World) (o : OrphanedTransaction) (k : string)
    (r : TokenTransfer) : Prop :=
  transfers w !! k = Some r /\ pays_orphan o r /\
  forall k' r', transfers w !! k' = Some r' -> pays_orphan o r' -> tr_createdAt r <= tr_createdAt r'.

Lemma matching_transfer_pays o k r :
  matching_transfer (tokenId (orphan_row o)) (address (orphan_from o)) (address (orphan_to o))
    (amount (orphan_row o)) (createdAt (orphan_row o)) k r = true <-> pays_orphan o r.
Proof.
  unfold matching_transfer, pays_orphan.
  rewrite !andb_true_iff, !String.eqb_eq, Z.eqb_eq, Z.leb_le. tauto.
Qed.

Lemma evidence_oldest `{P : Platform} `{!PlatformLaws P} w o :
  match evidence w o with
  | Some (k, r) => oldest_payment w o k r
  | None => forall k r, transfers w !! k = Some r -> ~ pays_orphan o r
  end.
Proof.
  destruct (evidence w o) as [[k r]|] eqn:E; unfold evidence in E.
  - pose proof E as F. apply findFirst_Some in E as [Ek Hm]. split; [done|].
    split; [by apply (matching_transfer_pays o k)|]. intros k' r' Ek' Hp'.
    apply (matching_transfer_pays o k') in Hp'. unfold findFirst in F.
    match type of F with head (findMany ?f ?ord _ _ _) = _ =>
      destruct (findMany_first f ord 1 (transfers w)) as (_ & Hl & _ & Hout);
        [intros a b; rewrite !Z.leb_le; lia|intros a b c; rewrite !Z.leb_le; lia|] end.
    destruct (findMany _ _ 0 (Some 1%nat) (transfers w)) as [|x [|y l]]; [done| |cbn in Hl; lia].
    injection F as ->. destruct (decide (k' = k)) as [->|Hne].
    { rewrite Ek' in Ek. by injection Ek as ->. }
    apply Z.leb_le. apply (proj2 (Hout k' r' Ek' Hp' ltac:(rewrite list_elem_of_singleton; congruence)) k r).
    by apply list_elem_of_singleton.
  - intros k r Ek Hp%(matching_transfer_pays o k).
    by rewrite (proj1 (findFirst_None _ _ _) E k r Ek) in Hp.
Qed.

(** C32: an orphan that reached the chain is adopted.  When the index holds a transfer
    of the orphan's token from its sender's to its recipient's address, of its amount
    and stored no earlier than the orphan was created, and the oldest such transfers
    carry hashes no transaction has, the sweep makes the orphan SUBMITTED with the hash
    of an oldest such transfer, changes no other row, and its confirmation job is in the
    queue. *)
Theorem recovery_adopts `{P : Platform} `{!PlatformLaws P} failAfter stale o w :
  table_ok (transactions w) -> transactions w !! orphan_id o = Some (orphan_row o) ->
  status (orphan_row o) = PENDING ->
  (exists k r, transfers w !! k = Some r /\ pays_orphan o r) ->
  (forall k r, oldest_payment w o k r -> fresh_hash (transactionHash r) (transactions w)) ->
  exists k r w', oldest_payment w o k r /\
    exec (recoverOne failAfter stale o) w = (inl tt, w') /\
    transactions w' = <[orphan_id o :=
      with_submission (with_status (orphan_row o) SUBMITTED) (transactionHash r) (clock w)]>
        (transactions w) /\
    is_Some (confirmationQueue w' !! confirm_job_id (orphan_id o)).
Proof.
  intros Hok Et St (k0 & r0 & E0 & H0) Hfr. rewrite recoverOne_exec.
  pose proof (evidence_oldest w o) as Hev. destruct (evidence w o) as [[k r]|]; [|by destruct (Hev k0 r0)].
  exists k, r. rewrite exec_catch. unfold adopt.
  rewrite exec_bind, (markSubmitted_applies _ _ _ (orphan_row o));
    [|done..|by apply (proj1 Hok _ _ Et)|by apply (Hfr k)].
  unfold enqueue_confirmation. rewrite exec_call. unfold on.
  cbn [view ConfirmationQueue fst snd confirmationQueue put Transactions].
  eexists. split; [done|]. split; [done|]. cbn. split; [done|].
  destruct (confirmationQueue w !! confirm_job_id (orphan_id o)) as [x|] eqn:E.
  - rewrite (queue_add_known _ _ _ _ _ E), E. by eexists.
  - rewrite (queue_add_new _ _ _ _ E), lookup_insert_eq. by eexists.
Qed.

(** An orphan without evidence is failed only when that means something.
    Without a matching transfer the orphan is left as it is while it is younger
    than the failure window or while the token's event listener has not synced
    recently; otherwise it becomes FAILED with the recovery's reason. *)
Theorem recovery_without_evidence `{P : Platform} `{!PlatformLaws P} failAfter stale o w :
  table_ok (transactions w) -> transactions w !! orphan_id o = Some (orphan_row o) ->
  status (orphan_row o) = PENDING -> evidence w o = None ->
  exec (recoverOne failAfter stale o) w =
    if (clock w - createdAt (orphan_row o) <? failAfter)
       || negb (listener_healthy stale (tokenId (orphan_row o)) w)
    then (inl tt, w)
    else (inl tt, put Transactions
            (<[orphan_id o := with_failure (with_status (orphan_row o) FAILED) ORPHANED_REASON
                                (clock w)]> (transactions w)) w).
Proof.
  intros Hok Et St Hev. rewrite recoverOne_exec, Hev.
  destruct ((_ <? failAfter) || _); [done|]. rewrite exec_catch. unfold fail_orphan.
  rewrite exec_bind, (markFailed_applies _ _ _ (orphan_row o)); auto.
  by apply (proj1 Hok _ _ Et).
Qed.

(** Evidence that belongs to another transaction blocks the recovery.  If
    the oldest matching transfer carries the hash of another transaction, the
    adoption is rejected by the unique hash, the error is swallowed, and the
    orphan stays PENDING, whatever its age: it is neither adopted nor failed. *)
Theorem recovery_blocked_by_taken_hash `{P : Platform} `{!PlatformLaws P}
    failAfter stale o w k r id' t' :
  table_ok (transactions w) -> transactions w !! orphan_id o = Some (orphan_row o) ->
  status (orphan_row o) = PENDING -> evidence w o = Some (k, r) ->
  transactions w !! id' = Some t' -> id' <> orphan_id o -> txHash t' = Some (transactionHash r) ->
  exec (recoverOne failAfter stale o) w = (inl tt, w).
Proof.
  intros Hok Et St Hev E' Hne Hh. rewrite recoverOne_exec, Hev, exec_catch. unfold adopt.
  rewrite exec_bind. unfold markSubmitted. rewrite exec_bind, exec_now, transition_exec, Et by done.
  change (canTransition PENDING SUBMITTED) with true. cbn iota beta.
  assert (S : has_status PENDING (orphan_row o) = true) by by apply bool_decide_eq_true.
  rewrite S. set (d := fun r0 => with_submission _ _ _).
  destruct (updateMany_cases (at_id (orphan_id o) (has_status PENDING)) d (transactions w))
    as [[Hbad _]|[_ [c ->]]]; [|done].
  exfalso. rewrite (updated_at_id _ _ _ _ (orphan_row o)) in Hbad by done. apply Hne.
  eapply (hash_unique _ (transactionHash r) _ _ t' (d (orphan_row o)) Hbad);
    [by rewrite lookup_insert_ne|apply lookup_insert_eq|done|done].
Qed.

Section Witness.
#[local] Existing Instance ref_platform.
#[local] Existing Instance ref_platform_laws.

Definition confirming_row (since : Z) : Transaction :=
  mkTransaction "t1" "tok" "wa" "wb" (Some "h1") 5 None None None CONFIRMING 900 (Some 950)
    (Some since) None None None.

Definition confirming_world : World :=
  put Transactions {["x1" := confirming_row 100]} (fresh_world 5000 quiet).

Lemma expiration_sweep_witness :
  exists cs m',
    exec (processExpiredTransactions 200) confirming_world =
      (inl (length cs), put Transactions m' confirming_world) /\
    (length cs <= SWEEP_LIMIT)%nat /\
    (forall k t, (k, t) ∈ cs -> transactions confirming_world !! k = Some t /\
       expirable 200 k t = true /\ m' !! k = Some (expired_row t 5000)) /\
    (forall k, k ∉ cs.*1 -> m' !! k = transactions confirming_world !! k) /\
    (forall k t, transactions confirming_world !! k = Some t -> expirable 200 k t = true ->
       (k, t) ∉ cs -> length cs = SWEEP_LIMIT /\ forall k' t', (k', t') ∈ cs ->
         opt_le (confirmationStartedAt t') (confirmationStartedAt t) = true).
Proof. apply (expiration_sweep 200 confirming_world). decided. Defined.

(** The sweep above does expire the row. *)
Example expiration_expires :
  status <$> transactions (exec (processExpiredTransactions 200) confirming_world).2 !! "x1"
  = Some EXPIRED.
Proof. vm_compute. done. Qed.

(** A world with one SUBMITTED transaction and an empty queue. *)
Definition waiting_world : World :=
  put Transactions {["x1" := with_status (confirming_row 100) SUBMITTED]} (fresh_world 5000 quiet).

Lemma submission_sweep_witness :
  exists q', exec processSubmittedTransactions waiting_world
    = (inl tt, put ConfirmationQueue q' waiting_world) /\
    q' !! "confirm-x1" = Some (mkJob "x1" "t1").
Proof.
  destruct (submission_sweep waiting_world) as (cs & q' & E & Hin & _).
  exists q'. split; [exact E|].
  change q' with (confirmationQueue (put ConfirmationQueue q' waiting_world)).
  replace (put ConfirmationQueue q' waiting_world)
    with ((exec processSubmittedTransactions waiting_world).2) by (rewrite E; reflexivity).
  vm_compute. reflexivity.
Defined.

(** An EVM deployment with one orphaned transfer of 7 units from wa to wb. *)
Definition wallet_a : Wallet := mkWallet "t1" "u1" 31337 "0xa" CUSTODIAL ACTIVE None 0.
Definition wallet_b : Wallet := mkWallet "t1" "u2" 31337 "0xb" CUSTODIAL ACTIVE None 0.
Definition orphan_tx : Transaction := pending_row "t1" "tok" "wa" "wb" 7 100.
Definition the_orphan : OrphanedTransaction := ("x1", orphan_tx, wallet_a, wallet_b).

(** The node spells the two addresses as given. *)
Definition spelling (a b : string) : Script :=
  mkScript ∅ ∅ ∅ ∅ 20 [mkLog "0xt" a b 7 "h12" 0 12] {["0xa" := 1; "0xb" := 2]} ∅ None [].

Definition orphaned_world (a b : string) : World :=
  put Tokens {["tok" := usd]} (put Wallets {["wa" := wallet_a; "wb" := wallet_b]}
    (put Transactions {["x1" := orphan_tx]} (fresh_world 5000 (spelling a b)))).

(** One cycle of the indexer. *)
Definition indexed_world (a b : string) : World :=
  (exec (processTokenEvents no_env "tok") (orphaned_world a b)).2.

Definition stored : TokenTransfer := mkTransfer "tok" "0xa" "0xb" 7 "h12" 0 12 5000.

(** The index of that cycle holds one transfer. *)
Lemma indexed_transfers :
  map_to_list (transfers (indexed_world "0xa" "0xb")) = [("x", stored)].
Proof. by_vm. Qed.

Lemma recovery_adopts_witness :
  exists k r w', oldest_payment (indexed_world "0xa" "0xb") the_orphan k r /\
    exec (recoverOne 1000 10000 the_orphan) (indexed_world "0xa" "0xb") = (inl tt, w') /\
    transactions w' = <["x1" :=
      with_submission (with_status orphan_tx SUBMITTED) (transactionHash r)
        (clock (indexed_world "0xa" "0xb"))]> (transactions (indexed_world "0xa" "0xb")) /\
    is_Some (confirmationQueue w' !! confirm_job_id "x1").
Proof.
  apply (recovery_adopts 1000 10000 the_orphan (indexed_world "0xa" "0xb"));
    [decided|vm_compute; reflexivity|reflexivity| |].
  - exists "x", stored. split; [|vm_compute; split_and!; (reflexivity || discriminate)].
    apply elem_of_map_to_list. rewrite indexed_transfers. by left.
  - intros k0 r0 (Hk0 & _). apply elem_of_map_to_list in Hk0.
    rewrite indexed_transfers in Hk0. apply list_elem_of_singleton in Hk0 as [= -> ->].
    intros k t Hk. apply elem_of_map_to_list in Hk. vm_compute in Hk.
    apply elem_of_cons in Hk as [[= -> ->]|Hk]; [done|by apply not_elem_of_nil in Hk].
Defined.

Definition silent_world : World :=
  put Cursors {["c" := mkCursor "tok" 20 0 (Some 4900) None 0]} (orphaned_world "0xa" "0xb").

Lemma recovery_without_evidence_witness :
  exec (recoverOne 1000 10000 the_orphan) silent_world =
    (inl tt, put Transactions
       (<["x1" := with_failure (with_status orphan_tx FAILED) ORPHANED_REASON 5000]>
          (transactions silent_world)) silent_world).
Proof.
  rewrite (recovery_without_evidence 1000 10000 the_orphan silent_world);
    [vm_compute; reflexivity|decided|reflexivity|reflexivity
    |vm_compute; reflexivity].
Defined.

(** The same transfer, already recorded by a transaction of its own. *)
Definition taken_world : World :=
  put Transactions {["x1" := orphan_tx;
    "x2" := with_submission (with_status orphan_tx SUBMITTED) "h12" 200]}
    (indexed_world "0xa" "0xb").

Lemma recovery_blocked_by_taken_hash_witness :
  exec (recoverOne 1000 10000 the_orphan) taken_world = (inl tt, taken_world).
Proof.
  apply (recovery_blocked_by_taken_hash 1000 10000 the_orphan taken_world "x" stored "x2"
           (with_submission (with_status orphan_tx SUBMITTED) "h12" 200));
    [decided|vm_compute; reflexivity|reflexivity
    |vm_compute; reflexivity|vm_compute; reflexivity|discriminate|reflexivity].
Defined.

Definition recovered (a b : string) : option (TransactionStatus * option string) :=
  (fun t => (status t, txHash t)) <$>
    transactions (exec (processOrphanedPending 10 1000 10000) (indexed_world a b)).2 !! "x1".

(** The recovery overlooks a transfer whose addresses are spelled with
    other letter case.  The indexer stores the addresses of a log as the chain
    client spells them, wallets are stored in lower case, and the evidence query
    compares exactly.  For the same on-chain transfer, indexed in both runs, the
    orphan is adopted when the client reports lower-case addresses and marked
    FAILED when it reports the mixed-case spelling of the same addresses. *)
Example recovery_overlooks_letter_case :
  size (transfers (indexed_world "0xa" "0xb")) = 1%nat /\
  size (transfers (indexed_world "0xA" "0xB")) = 1%nat /\
  recovered "0xa" "0xb" = Some (SUBMITTED, Some "h12") /\
  recovered "0xA" "0xB" = Some (FAILED, None).
Proof. vm_compute. done. Qed.
End Witness.
