(* ===== verification/Payment.v ===== *)
(** * A payment from request to published event

    The composition of the transfer service, the confirmation queue and its worker
    ([src/queues/transaction.queue.ts], [src/workers/confirmation.queue.worker.ts]),
    the confirmation processor and the outbox relay.  BullMQ delivers the jobs: a
    parameter, with its documented retries as laws. *)

From S2P Require Import Prelude JsString Schema Platform Double Reference StateMachine TransactionRepository Outbox Guarantee Metrics Addresses Envelope Adapters Transfer Confirmation Sweeps.
From stdpp Require Import pretty.
#[local] Open Scope Z_scope.

(** ** The queue *)

(** The options a job is added with. *)
Record JobOptions := mkJobOptions {
  attempts : nat; backoff_delay : Z; removeOnComplete : bool; removeOnFail : bool }.

(** The defaults of the queue, which the transfer service relies on, and what the
    submission recovery passes. *)
Definition defaultJobOptions (CONFIRMATION_BACKOFF_DELAY_MS : Z) : JobOptions :=
  mkJobOptions 5 CONFIRMATION_BACKOFF_DELAY_MS true false.
Definition recovery_job_options : JobOptions := mkJobOptions 5 5000 true false.

Section Queue.
Context `{C : ChainNodes}.

(** [n] failed attempts of a handler lead from one world to another; [env] is what
    happens to the world before each attempt, the wait included. *)
Inductive failing (handler : World -> (unit + err) * World) (env : nat -> World -> World)
  : nat -> World -> World -> Prop :=
| failing_none w : failing handler env 0 w w
| failing_more n w w1 e w2 :
    failing handler env n w w1 -> handler (env n w1) = (inr e, w2) ->
    failing handler env (S n) w w2.

(** The worker's treatment of one job: whether it completed, and the world left. *)
Class BullWorker := {
  bull_process : JobOptions -> (World -> (unit + err) * World) -> (nat -> World -> World) ->
    World -> bool * World }.

(** Documented behaviour: a failed job is retried until its attempts are used up. *)
Class BullWorkerLaws (B : BullWorker) : Prop := {
  bull_completes o handler env n w w1 w2 :
    (n < attempts o)%nat -> failing handler env n w w1 -> handler (env n w1) = (inl tt, w2) ->
    bull_process o handler env w = (true, w2);
  bull_gives_up o handler env w w1 :
    failing handler env (attempts o) w w1 -> bull_process o handler env w = (false, w1) }.
End Queue.

Section Worker.
Context `{P : Platform} (adapters : list BlockchainAdapter).

(** The handler of [confirmationQueueWorker]. *)
Definition confirmation_job (job : ConfirmationJob) : prog' unit :=
  processTransaction adapters (job_transactionId job) (job_tenantId job).
End Worker.

(** ** Attempts *)

(** The row and its relations are as they were when the transfer was submitted; the
    rest of the world is free. *)
Definition untouched `{P : Platform} (tx : TransactionWithRelations) (w : World) : Prop :=
  table_ok (transactions w) /\ loaded w tx.

(** The chain has no outcome: the read fails, or reports the transaction as pending.
    The read itself leaves the database alone. *)
Definition unanswered `{P : Platform} adapters (tx : TransactionWithRelations) (w : World) : Prop :=
  exists res w1, exec (getBlockchainTransaction adapters tx) w = (res, w1) /\
    (forall bt, res = inl bt -> bt_status bt = pending) /\
    transactions w1 = transactions w /\ outbox w1 = outbox w /\ tokens w1 = tokens w /\
    wallets w1 = wallets w.

Section Attempts.
Context `{P : Platform} `{!PlatformLaws P} (adapters : list BlockchainAdapter).

Definition job_of (tx : TransactionWithRelations) : ConfirmationJob :=
  mkJob (tx_id tx) (tenantId (tx_row tx)).

(** An attempt without an outcome fails and leaves rows and events alone. *)
Lemma attempt_fails tx w :
  loaded w tx -> unanswered adapters tx w ->
  exists e w', exec (confirmation_job adapters (job_of tx)) w = (inr e, w') /\
    transactions w' = transactions w /\ outbox w' = outbox w /\ tokens w' = tokens w /\
    wallets w' = wallets w.
Proof.
  intros HL (res & w1 & E & Hp & Ht & Ho & Hk & Hwal). unfold confirmation_job. cbn [job_of job_transactionId job_tenantId].
  rewrite (processTransaction_exec adapters _ _ HL). unfold confirmTransaction.
  rewrite exec_finally, exec_catch, exec_bind, E.
  assert (Hh : forall e, exists w', exec (handleConfirmationError tx e) w1 = (inr e, w') /\
    transactions w' = transactions w /\ outbox w' = outbox w /\ tokens w' = tokens w /\
    wallets w' = wallets w).
  { intros e. unfold handleConfirmationError. destruct (not_there_yet e); [by exists w1|].
    rewrite exec_bind, incrementMetric_exec. destruct (prom_accepts _ _); by eexists. }
  assert (Hf : exists e w', (match exec (match res with inl bt => match bt_status bt with
        | pending => Throw (TransactionPendingError (tx_hash tx))
        | confirmed => handleSuccessfulTransaction tx bt
        | failed => handleRevertedTransaction tx end | inr e => Throw e end) w1 with
      | (inl a, w') => (inl a, w') | (inr e, w') => exec (handleConfirmationError tx e) w' end)
      = (inr e, w') /\
    transactions w' = transactions w /\ outbox w' = outbox w /\ tokens w' = tokens w /\
    wallets w' = wallets w).
  { destruct res as [bt|e0]; [rewrite (Hp bt eq_refl)|]; rewrite exec_throw.
    - destruct (Hh (TransactionPendingError (tx_hash tx))) as (w' & Ew & H). by eexists _, w'.
    - destruct (Hh e0) as (w' & Ew & H). by eexists _, w'. }
  destruct Hf as (e & w' & Ef & Ht' & Ho' & Hk' & Hwal'). exists e.
  destruct res as [bt|e0]; [|rewrite exec_throw in Ef]; rewrite Ef, observeMetric_exec;
    destruct (prom_accepts _ _); eexists; split; try reflexivity; done.
Qed.

Lemma untouched_same tx w w' :
  untouched tx w -> transactions w' = transactions w -> tokens w' = tokens w ->
  wallets w' = wallets w -> untouched tx w'.
Proof.
  unfold untouched, loaded. intros H -> Ht Hw. by rewrite (relations_same w w' (tx_row tx) (tx_row tx)).
Qed.

(** Any number of attempts without an outcome. *)
Lemma attempts_fail tx env n w :
  untouched tx w ->
  (forall m w, untouched tx w -> untouched tx (env m w)) ->
  (forall m w, (m < n)%nat -> untouched tx w -> unanswered adapters tx (env m w)) ->
  exists w', failing (exec (confirmation_job adapters (job_of tx))) env n w w' /\ untouched tx w'.
Proof.
  intros Hw Henv. induction n as [|n IH]; intros Hun; [by exists w; split; [constructor|]|].
  destruct IH as (w1 & Hf & Hw1); [intros m w2 Hm; apply Hun; lia|].
  destruct (attempt_fails tx (env n w1)) as (e & w2 & E & Ht & _ & Hk & Hwal).
  - by apply Henv.
  - apply Hun; [lia|done].
  - exists w2. split; [by econstructor|]. eapply untouched_same; [by apply (Henv n w1)|done..].
Qed.
End Attempts.

(** ** The whole way *)

(** The transfer as the queue's worker will load it. *)
Definition submitted_tx `{P : Platform} (r : TransferInput) (w w1 : World)
    (rel : Token * Wallet * Wallet) (h : string)
  : TransactionWithRelations :=
  (uuid (transactions w), submitted_row r h (clock w) (clock w1), rel).

Lemma submitted_untouched `{P : Platform} `{!PlatformLaws P} r w w1 tok f t h q ms :
  table_ok (transactions w) -> int8 (in_amount r) = true -> fresh_hash h (transactions w) ->
  h <> "" -> tokens w1 !! in_tokenId r = Some tok ->
  wallets w1 !! in_fromWalletId r = Some f -> wallets w1 !! in_toWalletId r = Some t ->
  untouched (submitted_tx r w w1 (tok, f, t) h)
    (put ConfirmationQueue q
      (put Transactions (<[uuid (transactions w) := submitted_row r h (clock w) (clock w1)]> (transactions w))
        (put Metrics ms w1))).
Proof.
  intros Hok Ha Hh Hne Htok Hf Ht. split.
  - cbn. apply table_ok_insert; [done|cbn; by rewrite Ha|]. intros k x _ Hx.
    cbn [conflicts Transaction_table]. rewrite !same_some_false. cbn. specialize (Hh k x Hx). naive_solver.
  - split_and!; [apply lookup_insert_eq|unfold relations; cbn; by rewrite Htok, Hf, Ht|]. cbn. by destruct h.
Qed.

(** C5: an accepted payment completes.  The node takes the transfer; until the chain
    knows its outcome, up to four attempts of the confirmation job may find nothing
    or fail to read the chain, with anything else happening in between that leaves
    this row, its token and its wallets alone; once an attempt sees the transaction confirmed, the
    job completes, and after enough undisturbed ticks of the relay the row is
    CONFIRMED with the hash, the amount and the block, and its event is published and
    queued. *)
Theorem payment_completes `{P : Platform} `{!PlatformLaws P} `{B : !BullWorker} `{!BullWorkerLaws B}
    adapters r w tok f t a h w1 delay env n bt b :
  let id := uuid (transactions w) in
  let tx := submitted_tx r w w1 (tok, f, t) h in
  accepted_request adapters r w tok f t a ->
  table_ok (transactions w) -> int8 (in_amount r) = true -> fresh_hash h (transactions w) ->
  h <> "" ->
  exec (submitTransfer a (chain_request r tok t)) (with_pending r w) = (inl h, w1) ->
  transactions w1 = transactions (with_pending r w) -> tokens w1 = tokens w ->
  wallets w1 = wallets w ->
  (forall m w, untouched tx w -> untouched tx (env m w)) ->
  (n < attempts (defaultJobOptions delay))%nat ->
  (forall m w, (m < n)%nat -> untouched tx w -> unanswered adapters tx (env m w)) ->
  (forall w, untouched tx w -> exists w2, answers adapters (env n w) tx bt w2) ->
  bt_status bt = confirmed -> bt_blockNumber bt = Some b ->
  int8 (toNumber b) = true -> opt_int8 (bt_gasUsed bt) = true ->
  exists w' j w2,
    exec (transfer adapters r) w = (inl (id, tx_row tx), w') /\
    confirmationQueue w' !! j = Some (job_of tx) /\
    bull_process (defaultJobOptions delay) (exec (confirmation_job adapters (job_of tx))) env w'
      = (true, w2) /\
    forall limit schedule,
      (size (backlog (outbox w2)) <= limit * undisturbed schedule)%nat ->
      let w3 := ticks limit schedule w2 in
      exists row k ev,
        transactions w3 !! id = Some row /\ status row = CONFIRMED /\ txHash row = Some h /\
        amount row = in_amount r /\ blockNumber row = Some (toNumber b) /\
        outbox w3 !! k = Some ev /\ published ev = true /\
        message ev = (id, CONFIRMED_EVENT, d_payload (confirmed_event (id, row))) /\
        is_Some (relayQueue w3 !! k).
Proof.
  intros id tx Hacc Hok Ha Hh Hne Hsub Htx Htok Hwal Henv Hn Hun Hans Hc Hb Hb8 Hg8.
  destruct (transfer_submitted adapters r w tok f t a h w1) as (ms & j & E & _); [done..|].
  fold id in E. set (w' := put ConfirmationQueue _ _) in E.
  assert (Hw' : untouched tx w').
  { apply submitted_untouched; try done; rewrite ?Htok, ?Hwal; apply Hacc. }
  destruct (attempts_fail adapters tx env n w' Hw' Henv Hun) as (wn & Hf & Hwn).
  destruct (Hans wn Hwn) as (wa & Hwa). destruct (Henv n wn Hwn) as [Hokn HLn].
  destruct (confirmation_persists adapters (env n wn) tx bt b wa Hokn HLn ltac:(by left) Hwa Hc Hb Hb8 Hg8)
    as (row & w2 & Ex & Ht & Hst & Hbn & _ & Hhash & Ham & Hout & _).
  exists w', j, w2. split; [exact E|]. split; [apply lookup_insert_eq|].
  split; [by eapply (bull_completes _ _ _ n w' wn)|].
  intros limit schedule Hs w3.
  destruct (ticks_drain limit schedule w2 Hs) as [_ Hd].
  destruct (Hd (uuid (outbox (env n wn))) (event_row id row (clock wa))) as (ev & Ev & Hp & Hm & Hq);
    [rewrite Hout; apply lookup_insert_eq|done|].
  destruct (ticks_shrink limit schedule w2) as (_ & _ & _ & Hrows).
  exists row, (uuid (outbox (env n wn))), ev. fold w3 in Ev, Hq, Hrows. rewrite Hrows, Ht.
  by split_and!; try done; apply lookup_insert_eq.
Qed.

(** ** When the attempts run out *)

(** Sweeps of the submission recovery, with anything in between that leaves the
    queue alone. *)
Inductive swept `{P : Platform} : World -> World -> Prop :=
| swept_none w : swept w w
| swept_more w w1 w2 :
    swept w w1 -> confirmationQueue w2 = confirmationQueue w1 ->
    swept w (exec processSubmittedTransactions w2).2.

(** A job of this transaction in the queue. *)
Definition job_for `{ChainNodes} (id j : string) (w : World) : Prop :=
  exists job, confirmationQueue w !! j = Some job /\ job_transactionId job = id.

Lemma sweep_adds_no_job `{P : Platform} `{!PlatformLaws P} id w :
  is_Some (confirmationQueue w !! confirm_job_id id) ->
  let w' := (exec processSubmittedTransactions w).2 in
  is_Some (confirmationQueue w' !! confirm_job_id id) /\
  (forall j, job_for id j w' -> job_for id j w).
Proof.
  intros [x Hx] w'. destruct (submission_sweep w) as (cs & q' & E & H1 & H2 & _).
  unfold w'. rewrite E. cbn.
  assert (H : forall j, (exists k t, (k, t) ∈ cs /\ j = confirm_job_id k /\
      q' !! j = Some (default (mkJob k (tenantId t)) (confirmationQueue w !! j))) \/
      q' !! j = confirmationQueue w !! j).
  { intros j. destruct (decide (Exists (fun c => j = confirm_job_id c.1) cs)) as [Hj|Hj].
    - left. apply Exists_exists in Hj as ([k t] & Hkt & ->). exists k, t.
      split_and!; [done..|]. by apply (H1 k t Hkt).
    - right. apply H2. intros k Hk ->. apply Hj, Exists_exists.
      apply list_elem_of_fmap in Hk as ([k' t] & -> & Hkt). by exists (k', t). }
  split.
  - destruct (H (confirm_job_id id)) as [(k & t & _ & _ & ->) | ->]; [by eexists|by exists x].
  - intros j (job & Hj & Hid). cbn in Hj. destruct (H j) as [(k & t & _ & -> & Ej)|Ej].
    + rewrite Hj in Ej. destruct (confirmationQueue w !! confirm_job_id k) as [y|] eqn:Ey;
        cbn in Ej; simplify_eq; [by exists y|]. cbn in *. congruence.
    + exists job. split; [|done]. congruence.
Qed.

(** C18: a payment the chain is slow to confirm is given up.  When none of the five
    attempts of its confirmation job sees an outcome, the job fails for good and the
    row is still SUBMITTED; and since a failed job is kept under its name, once the
    recovery's own job for the transaction has been added, no later sweep adds
    another one, however long the chain takes. *)
Theorem slow_payment_is_given_up `{P : Platform} `{!PlatformLaws P} `{B : !BullWorker} `{!BullWorkerLaws B}
    adapters tx w env o :
  o = recovery_job_options \/ (exists delay, o = defaultJobOptions delay) ->
  untouched tx w -> status (tx_row tx) = SUBMITTED ->
  (forall m w, untouched tx w -> untouched tx (env m w)) ->
  (forall m w, (m < 5)%nat -> untouched tx w -> unanswered adapters tx (env m w)) ->
  exists w',
    bull_process o (exec (confirmation_job adapters (job_of tx))) env w = (false, w') /\
    transactions w' !! tx_id tx = Some (tx_row tx) /\ removeOnFail o = false /\
    (is_Some (confirmationQueue w' !! confirm_job_id (tx_id tx)) ->
     forall w'', swept w' w'' -> forall j, job_for (tx_id tx) j w'' -> job_for (tx_id tx) j w').
Proof.
  intros Ho Hw Hs Henv Hun.
  assert (Hopt : attempts o = 5%nat /\ removeOnFail o = false) by (by destruct Ho as [-> | [d ->]]).
  destruct Hopt as [Hat Hrm].
  destruct (attempts_fail adapters tx env 5 w Hw Henv Hun) as (w' & Hf & Hw').
  exists w'. split; [apply bull_gives_up; by rewrite Hat|].
  split; [apply Hw'|]. split; [done|]. intros Hk w'' Hsw.
  assert (H : is_Some (confirmationQueue w'' !! confirm_job_id (tx_id tx)) /\
    forall j, job_for (tx_id tx) j w'' -> job_for (tx_id tx) j w').
  { induction Hsw as [w'|w' wa wb _ IH Hq]; [done|].
    destruct (IH Hf Hw' Hk) as [Ha Hb]. rewrite <- Hq in Ha.
    destruct (sweep_adds_no_job (tx_id tx) wb Ha) as [Hc Hd]. split; [done|].
    intros j Hj%Hd. apply Hb. destruct Hj as (job & E & Hid). exists job. by rewrite <- Hq. }
  apply H.
Qed.

Section Witness.
#[local] Existing Instance ref_platform.
#[local] Existing Instance ref_platform_laws.
#[local] Existing Instance no_crypto.
#[local] Existing Instance no_keys.

(** A worker that retries in a loop. *)
Fixpoint retrying (handler : World -> (unit + err) * World) (env : nat -> World -> World)
    (left n : nat) (w : World) : bool * World :=
  match left with
  | O => (false, w)
  | S left' =>
      match handler (env n w) with
      | (inl _, w') => (true, w')
      | (inr _, w') => retrying handler env left' (S n) w'
      end
  end.

#[local] Instance ref_bull : BullWorker := {|
  bull_process o handler env w := retrying handler env (attempts o) 0 w |}.

Lemma retrying_failed handler env n w w1 :
  failing handler env n w w1 ->
  forall left, retrying handler env (n + left) 0 w = retrying handler env left n w1.
Proof.
  induction 1 as [|n w w1 e w2 _ IH E]; intros left; [done|].
  rewrite Nat.add_succ_comm, IH. cbn [retrying]. by rewrite E.
Qed.

#[local] Instance ref_bull_laws : BullWorkerLaws ref_bull.
Proof.
  split.
  - intros o handler env n w w1 w2 Hn Hf E. cbn.
    replace (attempts o) with (n + S (attempts o - n - 1))%nat by lia.
    rewrite (retrying_failed _ _ _ _ _ Hf). cbn [retrying]. by rewrite E.
  - intros o handler env w w1 Hf. cbn. rewrite <- (Nat.add_0_r (attempts o)).
    by rewrite (retrying_failed _ _ _ _ _ Hf).
Qed.

(** Nothing is known of the transfer before the first attempt; before the second it
    is two blocks deep. *)
Definition found : Script :=
  mkScript ∅ {["0xabc" := mkBtcTx (Some 2) (Some "b1")]} {["b1" := 77]} ∅ 80 [] ∅ ∅ None [].

Definition wait (n : nat) (w : World) : World :=
  put Node (match n with O => quiet | _ => found end) w.

(** The node has taken the five satoshis. *)
Definition taken : World :=
  put Node (mkScript ∅ ∅ ∅ ∅ 0 [] ∅ ∅ (Some "0xabc") [("bcrt1bob", inr (Double.of_ratio 5 (10 ^ 8)))])
    (with_pending pay (deployment quiet)).

Lemma payment_completes_witness :
  exists w' j w2,
    exec (transfer registry pay) (deployment quiet)
      = (inl ("x", submitted_row pay "0xabc" 1000 1000), w') /\
    confirmationQueue w' !! j = Some (mkJob "x" "t1") /\
    bull_process (defaultJobOptions 5000)
      (exec (confirmation_job registry (mkJob "x" "t1"))) wait w' = (true, w2) /\
    forall limit schedule,
      (size (backlog (outbox w2)) <= limit * undisturbed schedule)%nat ->
      let w3 := ticks limit schedule w2 in
      exists row k ev,
        transactions w3 !! "x" = Some row /\ status row = CONFIRMED /\ txHash row = Some "0xabc" /\
        amount row = 5 /\ blockNumber row = Some (toNumber 77) /\
        outbox w3 !! k = Some ev /\ published ev = true /\
        message ev = ("x", CONFIRMED_EVENT, d_payload (confirmed_event ("x", row))) /\
        is_Some (relayQueue w3 !! k).
Proof.
  apply (payment_completes registry pay (deployment quiet) btc alice bob BitcoinAdapter "0xabc" taken 5000
    wait 1 (mkBlockchainTransaction "0xabc" (Some 77) 2 confirmed None None) 77);
    [apply deployment_accepts|decided|reflexivity| |done|vm_compute; reflexivity|reflexivity
    |reflexivity|reflexivity| |cbn; lia| | |reflexivity..].
  - intros k t Hk. vm_compute in Hk. discriminate.
  - intros m w [H1 H2]. by split.
  - intros m w Hm Hw. assert (m = 0%nat) as -> by lia.
    eexists (inr _), _. split; [reflexivity|]. done.
  - intros w Hw. eexists. split_and!; reflexivity.
Defined.

Lemma slow_payment_is_given_up_witness :
  exists w',
    bull_process recovery_job_options (exec (confirmation_job registry (mkJob "x1" "t1")))
      (fun _ => put Node in_mempool) (submitted_world SUBMITTED in_mempool) = (false, w') /\
    transactions w' !! "x1" = Some (sent_row SUBMITTED) /\ removeOnFail recovery_job_options = false /\
    (is_Some (confirmationQueue w' !! confirm_job_id "x1") ->
     forall w'', swept w' w'' -> forall j, job_for "x1" j w'' -> job_for "x1" j w').
Proof.
  apply (slow_payment_is_given_up registry (sent_tx SUBMITTED) (submitted_world SUBMITTED in_mempool)).
  - by left.
  - split; [decided|done].
  - done.
  - intros m w [H1 H2]. by split.
  - intros m w Hm Hw. eexists (inl _), _. split; [reflexivity|]. by split_and!; [intros bt [= <-]|..].
Defined.
End Witness.
