(* ===== verification/Reconcile.v ===== *)
(** * Balance reconciliation and the drift sweep

    [src/services/balance-reconciliation.service.ts],
    [src/repositories/balance.repository.ts] (the keyset page) and
    [src/workers/balance-drift.processor.ts]: every snapshot is compared with the
    chain at the block the indexer claims to have reached.  The reads of a batch
    run one after the other here; in the source they are awaited together. *)

From S2P Require Import Prelude JsString Schema Platform Reference TransactionRepository Guarantee Metrics Rpc Addresses Envelope Adapters Index LogWindows EventListener.
From stdpp Require Import pretty.
#[local] Open Scope Z_scope.

Inductive BalanceReconciliationStatus := MATCH | MISMATCH | STALE_OBSERVATION.

Record BalanceReconciliationRequest := mkReconciliationRequest {
  rr_walletId : string; rr_walletAddress : string; rr_walletChainId : Z; rr_tokenId : string;
  rr_blockchain : Blockchain; rr_assetIdentifier : option string; rr_blockNumber : option Z }.

Record BalanceReconciliationResult := mkReconciliation {
  rec_status : BalanceReconciliationStatus; rec_persisted : option (Z * Z);
  rec_chain : TokenBalance }.

Definition walletTokenChainMismatch (walletChainId : Z) (tokenBlockchain : string) : err :=
  AppError 400 "WALLET_TOKEN_CHAIN_MISMATCH"
    ("Wallet (chainId " +:+ pretty walletChainId +:+ ") is not on the same chain as the "
     +:+ tokenBlockchain +:+ " token")
    (Some [("walletChainId", DNumber walletChainId); ("tokenBlockchain", DString tokenBlockchain)]).
Definition unsupportedChainCapability (capability chain : string) : err :=
  AppError 400 "UNSUPPORTED_CHAIN_CAPABILITY" (chain +:+ " does not support " +:+ capability)
    (Some [("capability", DString capability); ("chain", DString chain)]).

Section Service.
Context `{P : Platform} (evm : Z) (adapters : list BlockchainAdapter).

Definition reconcile (r : BalanceReconciliationRequest) : prog' BalanceReconciliationResult :=
  if negb (bool_decide (blockchainForChainId evm (rr_walletChainId r) = Some (rr_blockchain r)))
  then Throw (walletTokenChainMismatch (rr_walletChainId r) (Blockchain_name (rr_blockchain r)))
  else
    let! adapter := registry_get adapters (Blockchain_name (rr_blockchain r)) in
    match getTokenBalance adapter with
    | None =>
        Throw (unsupportedChainCapability "balance reconciliation"
                 (Blockchain_name (rr_blockchain r)))
    | Some read =>
        let! persisted := balance_find (rr_walletId r) (rr_tokenId r) in
        let! chain := read (mkBalanceRequest (rr_assetIdentifier r) (rr_walletAddress r)
                              (rr_blockNumber r)) in
        match persisted with
        | None => Ret (mkReconciliation MISMATCH None chain)
        | Some (_, s) =>
            let view := Some (balance s, snap_blockNumber s) in
            if tb_blockNumber chain <? snap_blockNumber s
            then Ret (mkReconciliation STALE_OBSERVATION view chain)
            else Ret (mkReconciliation
                   (if balance s =? tb_balance chain then MATCH else MISMATCH) view chain)
        end
    end.
End Service.

Record SnapshotForReconciliation := mkSnapshotRow {
  sr_id : string; sr_walletId : string; sr_tokenId : string; sr_address : string;
  sr_chainId : Z; sr_blockchain : Blockchain; sr_contractAddress : option string }.

Inductive BalanceCheckResult := match_ | drift | stale_observation | unverified.

#[global] Instance BalanceCheckResult_eq_dec : EqDecision BalanceCheckResult.
Proof. solve_decision. Defined.

Definition BALANCE_CHECK_RESULTS : list BalanceCheckResult :=
  [match_; drift; stale_observation; unverified].

Definition result_name (r : BalanceCheckResult) : string :=
  match r with
  | match_ => "match" | drift => "drift" | stale_observation => "stale_observation"
  | unverified => "unverified"
  end.

Definition ResultCounts : Type := BalanceCheckResult -> Z.
Definition emptyCounts : ResultCounts := fun _ => 0.

Record BalanceDriftSweepSummary := mkSummary {
  checked : Z; byBlockchain : Blockchain -> option ResultCounts }.

Definition tally (s : BalanceDriftSweepSummary) (b : Blockchain) (r : BalanceCheckResult)
  : BalanceDriftSweepSummary :=
  let counts := default emptyCounts (byBlockchain s b) in
  mkSummary (checked s + 1) (fun b' =>
    if bool_decide (b' = b)
    then Some (fun r' => if bool_decide (r' = r) then counts r' + 1 else counts r')
    else byBlockchain s b').

(** The per-sweep cache of token positions. *)
Abbreviation Frontier := (gmap string (option Z)).

Section Sweep.
Context `{P : Platform} (evm : Z) (adapters : list BlockchainAdapter).
Context (pageSize concurrency : nat).

(** The required relations of a snapshot. *)
Definition join_snapshot (w : World) (ks : string * BalanceSnapshot)
  : option SnapshotForReconciliation :=
  match wallets w !! snap_walletId ks.2, tokens w !! snap_tokenId ks.2 with
  | Some a, Some t => Some (mkSnapshotRow ks.1 (snap_walletId ks.2) (snap_tokenId ks.2)
                              (address a) (chainId a) (blockchain t) (contractAddress t))
  | _, _ => None
  end.

Definition findPageForReconciliation (afterId : option string) (take_ : nat)
  : prog' (list SnapshotForReconciliation) :=
  act (fun w => match mapM (join_snapshot w) (findPageById afterId take_ (snapshots w)) with
                | Some l => (inl l, w)
                | None => (inr inconsistent_query, w)
                end).

Definition resolveFrontier (cache : Frontier) (tok : string) : prog' Frontier :=
  match cache !! tok with
  | Some _ => Ret cache
  | None =>
      let! cursor := findByTokenId tok in
      Ret (<[tok := match cursor with
                    | Some (_, c) =>
                        if 0 <? lastProcessedBlock c then Some (lastProcessedBlock c) else None
                    | None => None
                    end]> cache)
  end.

Fixpoint resolveAll (cache : Frontier) (toks : list string) : prog' Frontier :=
  match toks with
  | [] => Ret cache
  | t :: toks' => let! c := resolveFrontier cache t in resolveAll c toks'
  end.

Definition checkOne (frontier : option Z) (row : SnapshotForReconciliation)
  : prog' BalanceCheckResult :=
  match frontier with
  | None => Ret unverified
  | Some f =>
      catch
        (let! result := reconcile evm adapters
           (mkReconciliationRequest (sr_walletId row) (sr_address row) (sr_chainId row)
              (sr_tokenId row) (sr_blockchain row) (sr_contractAddress row) (Some f)) in
         Ret (match rec_status result with
              | MATCH => match_ | STALE_OBSERVATION => stale_observation | MISMATCH => drift
              end))
        (fun _ => Ret unverified)
  end.

Fixpoint check_batch (cache : Frontier) (batch : list SnapshotForReconciliation)
    (s : BalanceDriftSweepSummary) : prog' BalanceDriftSweepSummary :=
  match batch with
  | [] => Ret s
  | row :: batch' =>
      let! r := checkOne (default None (cache !! sr_tokenId row)) row in
      check_batch cache batch' (tally s (sr_blockchain row) r)
  end.

(** The batches of a page; a concurrency of zero never advances. *)
Fixpoint check_page (fuel : nat) (page_ : list SnapshotForReconciliation) (cache : Frontier)
    (s : BalanceDriftSweepSummary) : prog' (Frontier * BalanceDriftSweepSummary) :=
  match page_ with
  | [] => Ret (cache, s)
  | _ =>
      match fuel with
      | O => Throw OutOfFuel
      | S fuel' =>
          let batch := take concurrency page_ in
          let! cache' := resolveAll cache (remove_dups (sr_tokenId <$> batch)) in
          let! s' := check_batch cache' batch s in
          check_page fuel' (drop concurrency page_) cache' s'
      end
  end.

Fixpoint sweep_pages (fuel : nat) (afterId : option string) (cache : Frontier)
    (s : BalanceDriftSweepSummary) : prog' BalanceDriftSweepSummary :=
  match fuel with
  | O => Throw OutOfFuel
  | S fuel' =>
      let! page_ := findPageForReconciliation afterId pageSize in
      match last page_ with
      | None => Ret s
      | Some final =>
          let! r := check_page (length page_) page_ cache s in
          if Nat.ltb (length page_) pageSize then Ret r.2
          else sweep_pages fuel' (Some (sr_id final)) r.1 r.2
      end
  end.

Definition publish (s : BalanceDriftSweepSummary) : prog' unit :=
  do! for_each [EVM; BITCOIN; SOLANA] (fun b =>
        let counts := default emptyCounts (byBlockchain s b) in
        for_each BALANCE_CHECK_RESULTS (fun r =>
          set balanceReconciliationSnapshots
            [("blockchain", Blockchain_name b); ("result", result_name r)] (counts r))) in
  (* the gauge holds whole seconds here; the source keeps the fraction *)
  let! date := now in
  set balanceReconciliationLastSweepTimestamp [] (date / 1000).

Definition sweep (fuel : nat) : prog' BalanceDriftSweepSummary :=
  let! summary := sweep_pages fuel None ∅ (mkSummary 0 (fun _ => None)) in
  do! publish summary in
  Ret summary.
End Sweep.

Section Guards.
Context `{P : Platform} (evm : Z) (adapters : list BlockchainAdapter).
Context (Ha : Forall AdapterSteady adapters).

Lemma guards_reconcile r : guards steady (reconcile evm adapters r).
Proof.
  unfold reconcile, balance_find. rewrite Forall_forall in Ha.
  destruct (negb _); [done|]. apply guards_registry_bind. intros a Hin. specialize (Ha a Hin).
  destruct (getTokenBalance a) as [read|] eqn:E; [|done].
  pose proof (fun r => getTokenBalance_steady (a:=a) read r E). solve_guards.
Qed.
#[local] Hint Resolve guards_reconcile : guards.

Lemma guards_check_batch c b s : guards steady (check_batch evm adapters c b s).
Proof.
  revert s. induction b as [|row b IH]; intros s; cbn [check_batch]; [done|].
  unfold checkOne. solve_guards.
Qed.

Lemma guards_resolveAll c ts : guards steady (resolveAll c ts).
Proof.
  revert c. induction ts as [|t ts IH]; intros c; cbn [resolveAll]; [done|].
  unfold resolveFrontier, findByTokenId. solve_guards.
Qed.
#[local] Hint Resolve guards_check_batch guards_resolveAll : guards.

Lemma guards_check_page n fuel l c s : guards steady (check_page evm adapters n fuel l c s).
Proof.
  revert l c s. induction fuel as [|fuel IH]; intros l c s; destruct l; cbn [check_page];
    solve_guards.
Qed.
#[local] Hint Resolve guards_check_page : guards.

Lemma guards_sweep ps n fuel : guards steady (sweep evm adapters ps n fuel).
Proof.
  assert (H : forall a c s, guards steady (sweep_pages evm adapters ps n fuel a c s)).
  { induction fuel as [|fuel IH]; intros a c s; cbn [sweep_pages]; [done|].
    unfold findPageForReconciliation. solve_guards.
    apply guards_act. intros w. by destruct (mapM _ _). }
  unfold sweep, publish. solve_guards.
Qed.
End Guards.

#[export] Hint Resolve guards_sweep : guards.

(** ** The verdict on one snapshot *)

(** The verdict on a snapshot.  When the chain answers for the snapshot's
    token at the indexer's frontier, the snapshot is reported as stale exactly
    when it is newer than the observation, as a match when the balances agree,
    and as drift otherwise; when the read fails, for whatever reason, it is
    reported as unverified and never as drift. *)
Theorem drift_verdict `{P : Platform} `{!PlatformLaws P} evm adapters f row a read w k s :
  blockchainForChainId evm (sr_chainId row) = Some (sr_blockchain row) ->
  List.find (fun a => String.eqb (chain_ a) (toUpperCase (Blockchain_name (sr_blockchain row))))
    adapters = Some a ->
  getTokenBalance a = Some read ->
  table_ok (snapshots w) -> snapshots w !! k = Some s ->
  snap_walletId s = sr_walletId row -> snap_tokenId s = sr_tokenId row ->
  let '(r, w') := exec (read (mkBalanceRequest (sr_contractAddress row) (sr_address row) (Some f))) w in
  exec (checkOne evm adapters (Some f) row) w =
    (inl match r with
         | inl c =>
             if tb_blockNumber c <? snap_blockNumber s then stale_observation
             else if balance s =? tb_balance c then match_ else drift
         | inr _ => unverified
         end, w').
Proof.
  intros Hc Ha Hr Hok Ek Hw Ht. destruct (exec (read _) w) as [r w'] eqn:Er.
  unfold checkOne. rewrite exec_catch, exec_bind. unfold reconcile.
  cbn [rr_walletChainId rr_blockchain rr_walletId rr_tokenId rr_assetIdentifier rr_walletAddress
       rr_blockNumber].
  rewrite bool_decide_eq_true_2 by done. cbn [negb].
  rewrite exec_bind, (registry_get_exec _ _ _ _ Ha), Hr, exec_bind.
  unfold balance_find. rewrite exec_query. cbn [view Snapshots].
  assert (Hs : snapshot_of (sr_walletId row) (sr_tokenId row) k s = true).
  { unfold snapshot_of. by rewrite Hw, Ht, !String.eqb_refl. }
  rewrite (findUnique_the _ _ k s Ek Hs).
  2: { intros k' s' E' H'. by eapply snapshot_unique. }
  rewrite exec_bind, Er. destruct r as [c|e]; [|done].
  destruct (_ <? _); [done|]. by destruct (_ =? _).
Qed.

(** ** The sweep visits every snapshot *)

Definition keeps `{ChainNodes} (w w' : World) : Prop :=
  snapshots w' = snapshots w /\ wallets w' = wallets w /\ tokens w' = tokens w /\
  cursors w' = cursors w.

#[global] Instance keeps_preorder `{ChainNodes} : PreOrder keeps.
Proof. split; [by split|]. intros a b c (? & ? & ? & ?) (? & ? & ? & ?). split_and!; congruence. Qed.

(** Reading a balance changes none of the tables of the sweep. *)
Definition reads_only `{ChainNodes} (adapters : list BlockchainAdapter) : Prop :=
  Forall (fun a => forall f r, getTokenBalance a = Some f -> guards keeps (f r)) adapters.

(** Every snapshot has its wallet and its token. *)
Definition joined `{P : Platform} (w : World) : Prop :=
  map_Forall (fun _ s => is_Some (wallets w !! snap_walletId s) /\ is_Some (tokens w !! snap_tokenId s))
    (snapshots w).

(** The block up to which a token is indexed; 0 stands for a token never synced. *)
Definition indexed_up_to `{P : Platform} (w : World) (tok : string) : option Z :=
  match findUnique (cursor_of tok) (cursors w) with
  | Some (_, c) => if 0 <? lastProcessedBlock c then Some (lastProcessedBlock c) else None
  | None => None
  end.

Definition adapter_for `{ChainNodes} (adapters : list BlockchainAdapter) (b : Blockchain)
  : option BlockchainAdapter :=
  List.find (fun a => String.eqb (chain_ a) (toUpperCase (Blockchain_name b))) adapters.

(** What a check of the snapshot [s] of wallet [a] and token [t] has to report, and the
    world after its one read of the chain: without an indexed block, a wallet of another
    chain than the token's, an adapter that can read balances or an answer, nothing is
    known; otherwise the snapshot is compared with the answer. *)
Definition snapshot_verdict `{P : Platform} (evm : Z) (adapters : list BlockchainAdapter)
    (w : World) (s : BalanceSnapshot) (a : Wallet) (t : Token) : BalanceCheckResult * World :=
  match indexed_up_to w (snap_tokenId s) with
  | None => (unverified, w)
  | Some f =>
      if negb (bool_decide (blockchainForChainId evm (chainId a) = Some (blockchain t)))
      then (unverified, w)
      else
        match adapter_for adapters (blockchain t) ≫= getTokenBalance with
        | None => (unverified, w)
        | Some read =>
            let '(answer, w') := exec (read (mkBalanceRequest (contractAddress t) (address a) (Some f))) w in
            (match answer with
             | inl c =>
                 if tb_blockNumber c <? snap_blockNumber s then stale_observation
                 else if balance s =? tb_balance c then match_ else drift
             | inr _ => unverified
             end, w')
        end
  end.

(** The snapshots [l] are checked one after the other, each against the world the checks
    before it left, with the verdicts [vs], one per snapshot with its token's chain. *)
Inductive checks `{P : Platform} (evm : Z) (adapters : list BlockchainAdapter)
  : World -> list (string * BalanceSnapshot) -> list (Blockchain * BalanceCheckResult) -> World -> Prop :=
| checks_nil w : checks evm adapters w [] [] w
| checks_cons w k s l a t r w1 vs w2 :
    wallets w !! snap_walletId s = Some a -> tokens w !! snap_tokenId s = Some t ->
    snapshot_verdict evm adapters w s a t = (r, w1) ->
    checks evm adapters w1 l vs w2 ->
    checks evm adapters w ((k, s) :: l) ((blockchain t, r) :: vs) w2.

(** How often a chain got a verdict. *)
Definition verdict_count (vs : list (Blockchain * BalanceCheckResult)) (b : Blockchain)
    (r : BalanceCheckResult) : Z :=
  Z.of_nat (length (filter (fun v => v = (b, r)) vs)).

Definition tally_all (s : BalanceDriftSweepSummary) (vs : list (Blockchain * BalanceCheckResult))
  : BalanceDriftSweepSummary := fold_left (fun s v => tally s v.1 v.2) vs s.

Definition counts_of (s : BalanceDriftSweepSummary) (b : Blockchain) (r : BalanceCheckResult) : Z :=
  default emptyCounts (byBlockchain s b) r.

Lemma tally_all_counts vs s :
  checked (tally_all s vs) = checked s + Z.of_nat (length vs) /\
  forall b r, counts_of (tally_all s vs) b r = counts_of s b r + verdict_count vs b r.
Proof.
  revert s. induction vs as [|[b0 r0] vs IH]; intros s.
  - cbn. split; [lia|]. intros b r. unfold verdict_count. cbn. lia.
  - destruct (IH (tally s b0 r0)) as [Hc Hn]. cbn [tally_all fold_left fst snd] in *. split.
    + unfold tally_all in *. rewrite Hc. cbn. lia.
    + intros b r. unfold tally_all in *. rewrite Hn. unfold verdict_count. rewrite filter_cons.
      unfold counts_of, tally. cbn [byBlockchain].
      destruct (decide ((b0, r0) = (b, r))) as [[= -> ->]|Hne].
      * rewrite bool_decide_eq_true_2 by done. cbn [default length id from_option].
        rewrite bool_decide_eq_true_2 by done. lia.
      * destruct (bool_decide_reflect (b = b0)) as [->|]; [|done]. cbn [default id from_option].
        rewrite bool_decide_eq_false_2 by congruence. done.
Qed.

Section Complete.
Context `{P : Platform} `{!PlatformLaws P} (evm : Z) (adapters : list BlockchainAdapter).
Context (Hro : reads_only adapters) (pageSize concurrency : nat).
Context (Hps : (0 < pageSize)%nat) (Hcc : (0 < concurrency)%nat).
Abbreviation checks := (checks evm adapters).

Lemma checks_length w l vs w' : checks w l vs w' -> length vs = length l.
Proof. induction 1; cbn; congruence. Qed.

Lemma checks_app w l1 vs1 w1 l2 vs2 w2 :
  checks w l1 vs1 w1 -> checks w1 l2 vs2 w2 -> checks w (l1 ++ l2) (vs1 ++ vs2) w2.
Proof. intros H C2. induction H; [done|]. cbn. econstructor; eauto. Qed.

(** The row of a snapshot as the page query joins it. *)
Definition row_of (w : World) (ks : string * BalanceSnapshot) (row : SnapshotForReconciliation) : Prop :=
  exists a t, wallets w !! snap_walletId ks.2 = Some a /\ tokens w !! snap_tokenId ks.2 = Some t /\
    row = mkSnapshotRow ks.1 (snap_walletId ks.2) (snap_tokenId ks.2) (address a) (chainId a)
            (blockchain t) (contractAddress t).

Lemma row_of_keeps w w' ks row : keeps w w' -> row_of w ks row -> row_of w' ks row.
Proof. intros (_ & Kw & Kt & _) (a & t & H). exists a, t. by rewrite Kw, Kt. Qed.

Lemma indexed_up_to_keeps w w' tok : keeps w w' -> indexed_up_to w' tok = indexed_up_to w tok.
Proof. intros (_ & _ & _ & Kc). unfold indexed_up_to. by rewrite Kc. Qed.

Lemma checkOne_verdict w k s a t :
  table_ok (snapshots w) -> snapshots w !! k = Some s ->
  let v := snapshot_verdict evm adapters w s a t in
  exec (checkOne evm adapters (indexed_up_to w (snap_tokenId s))
    (mkSnapshotRow k (snap_walletId s) (snap_tokenId s) (address a) (chainId a) (blockchain t)
       (contractAddress t))) w = (inl v.1, v.2) /\ keeps w v.2.
Proof.
  intros Hok Ek. unfold snapshot_verdict. destruct (indexed_up_to w _) as [f|]; [|done].
  destruct (negb _) eqn:Hc.
  { split; [|done]. unfold checkOne, reconcile. cbn [rr_walletChainId rr_blockchain sr_chainId sr_blockchain].
    by rewrite Hc. }
  assert (Hc' : blockchainForChainId evm (chainId a) = Some (blockchain t)).
  { apply negb_false_iff, bool_decide_eq_true in Hc. exact Hc. }
  destruct (adapter_for adapters (blockchain t)) as [ad|] eqn:Ha; cbn [mbind option_bind].
  2: { split; [|done]. unfold checkOne, reconcile. cbn [rr_walletChainId rr_blockchain sr_chainId sr_blockchain].
       rewrite Hc, exec_catch, exec_bind, exec_bind. unfold registry_get.
       unfold adapter_for in Ha. by rewrite Ha. }
  destruct (getTokenBalance ad) as [read|] eqn:Hr.
  2: { split; [|done]. unfold checkOne, reconcile. cbn [rr_walletChainId rr_blockchain sr_chainId sr_blockchain].
       rewrite Hc, exec_catch, exec_bind, exec_bind, (registry_get_exec _ _ _ _ Ha). by rewrite Hr. }
  assert (Hg : guards keeps (read (mkBalanceRequest (contractAddress t) (address a) (Some f)))).
  { unfold reads_only in Hro. rewrite Forall_forall in Hro. apply (Hro ad); [|done].
    by apply List.find_some in Ha as [?%list_elem_of_In _]. }
  apply (guards_exec keeps _ w) in Hg.
  pose proof (drift_verdict evm adapters f
    (mkSnapshotRow k (snap_walletId s) (snap_tokenId s) (address a) (chainId a) (blockchain t)
       (contractAddress t)) ad read w k s Hc' Ha Hr Hok Ek eq_refl eq_refl) as H.
  cbn [sr_contractAddress sr_address] in H.
  destruct (exec (read _) w) as [answer w']. cbn [fst snd] in *. split; [exact H|done].
Qed.

Lemma check_batch_verdicts c l b s w :
  table_ok (snapshots w) -> (forall k r, (k, r) ∈ l -> snapshots w !! k = Some r) ->
  Forall2 (row_of w) l b ->
  (forall tok, tok ∈ sr_tokenId <$> b -> c !! tok = Some (indexed_up_to w tok)) ->
  exists vs w', exec (check_batch evm adapters c b s) w = (inl (tally_all s vs), w') /\
    keeps w w' /\ checks w l vs w'.
Proof.
  intros Hok Hin H. revert s w Hok Hin H. revert b. induction l as [|[k x] l IH];
    intros b s w Hok Hin H Hc; inversion H as [|? row ? b' Hrow Hl]; subst; cbn [check_batch].
  - exists [], w. split_and!; [done..|constructor].
  - rewrite exec_bind. destruct Hrow as (a & t & Ea & Et & ->). cbn [fst snd sr_tokenId sr_blockchain] in *.
    rewrite (Hc (snap_tokenId x)) by (left; done). cbn [default id from_option].
    destruct (checkOne_verdict w k x a t Hok (Hin k x ltac:(by left))) as [E K].
    destruct (snapshot_verdict evm adapters w x a t) as [r w1] eqn:Ev. cbn [fst snd] in *. rewrite E.
    destruct (IH b' (tally s (blockchain t) r) w1) as (vs & w2 & E2 & K2 & C2).
    + destruct K as (-> & _). done.
    + destruct K as (-> & _). intros k' r' Hk. apply Hin. by right.
    + eapply Forall2_impl; [exact Hl|]. intros ? ?. by apply row_of_keeps.
    + intros tok Htok. rewrite (indexed_up_to_keeps w w1) by done. apply Hc. by right.
    + exists ((blockchain t, r) :: vs), w2. split; [exact E2|]. split; [by etransitivity|].
      by econstructor.
Qed.

(** The cache holds what the cursors say. *)
Definition coherent (w : World) (c : Frontier) : Prop :=
  forall tok v, c !! tok = Some v -> v = indexed_up_to w tok.

Lemma coherent_keeps w w' c : keeps w w' -> coherent w c -> coherent w' c.
Proof. intros K H tok v E. rewrite (indexed_up_to_keeps w w') by done. by apply H. Qed.

Lemma resolveAll_coherent c ts w :
  coherent w c ->
  exists c', exec (resolveAll c ts) w = (inl c', w) /\ coherent w c' /\ c ⊆ c' /\
    forall t, t ∈ ts -> c' !! t = Some (indexed_up_to w t).
Proof.
  revert c. induction ts as [|t ts IH]; intros c Hc; cbn [resolveAll].
  - exists c. split_and!; try done. intros t Ht. by apply not_elem_of_nil in Ht.
  - rewrite exec_bind. unfold resolveFrontier.
    assert (H1 : exists c1, exec (resolveFrontier c t) w = (inl c1, w) /\ coherent w c1 /\ c ⊆ c1 /\
      c1 !! t = Some (indexed_up_to w t)).
    { unfold resolveFrontier. destruct (c !! t) as [v|] eqn:E.
      - exists c. split_and!; [done..|]. by rewrite E, (Hc t v E).
      - unfold findByTokenId. rewrite exec_bind, exec_query, exec_ret. cbn [view Cursors].
        fold (indexed_up_to w t). eexists. split; [reflexivity|]. split_and!.
        + intros tok v. destruct (decide (tok = t)) as [->|Hne].
          * rewrite lookup_insert_eq. by intros [= <-].
          * rewrite lookup_insert_ne by done. apply Hc.
        + by apply insert_subseteq.
        + by rewrite lookup_insert_eq. }
    destruct H1 as (c1 & E1 & Hc1 & Hs1 & Ht1). unfold resolveFrontier in E1. rewrite E1.
    destruct (IH c1 Hc1) as (c2 & E2 & Hc2 & Hs2 & Ht2). exists c2.
    split_and!; [done..|by etransitivity|]. intros t' [->|Ht']%elem_of_cons; [|by apply Ht2].
    by eapply lookup_weaken.
Qed.

Lemma check_page_verdicts fuel l rows_ c s w :
  (length rows_ <= fuel)%nat -> coherent w c ->
  table_ok (snapshots w) -> (forall k r, (k, r) ∈ l -> snapshots w !! k = Some r) ->
  Forall2 (row_of w) l rows_ ->
  exists vs c' w', exec (check_page evm adapters concurrency fuel rows_ c s) w
      = (inl (c', tally_all s vs), w') /\
    keeps w w' /\ checks w l vs w' /\ coherent w' c'.
Proof.
  revert l rows_ c s w. induction fuel as [|fuel IH]; intros l rows_ c s w Hl Hc Hok Hin H;
    destruct rows_ as [|row rows_]; cbn [check_page]; try (cbn in Hl; lia);
    try (inversion H; subst; exists [], c, w; split_and!; [done..|constructor|done]).
  set (page_ := row :: rows_) in *. rewrite exec_bind.
  destruct (resolveAll_coherent c (remove_dups (sr_tokenId <$> take concurrency page_)) w Hc)
    as (c1 & -> & Hc1 & _ & Ht1). rewrite exec_bind.
  destruct (check_batch_verdicts c1 (take concurrency l) (take concurrency page_) s w)
    as (vs1 & w1 & -> & K1 & C1).
  { done. }
  { intros k r Hk. apply Hin. by eapply elem_of_submseteq, sublist_submseteq, sublist_take. }
  { by apply Forall2_take. }
  { intros tok Htok. apply Ht1. by apply elem_of_remove_dups. }
  destruct (IH (drop concurrency l) (drop concurrency page_) c1 (tally_all s vs1) w1)
    as (vs2 & c2 & w2 & E2 & K2 & C2 & Hc2).
  { rewrite length_drop. cbn in Hl |- *. lia. }
  { by eapply coherent_keeps. }
  { destruct K1 as (-> & _). done. }
  { destruct K1 as (-> & _). intros k r Hk. apply Hin.
    by eapply elem_of_submseteq, sublist_submseteq, sublist_drop. }
  { apply Forall2_drop. eapply Forall2_impl; [exact H|]. intros ? ?. by apply row_of_keeps. }
  exists (vs1 ++ vs2), c2, w2. split_and!; [|by etransitivity| |done].
  - unfold tally_all in *. by rewrite fold_left_app.
  - rewrite <- (take_drop concurrency l). by eapply checks_app.
Qed.

Lemma mapM_join w l :
  joined w -> (forall k r, (k, r) ∈ l -> snapshots w !! k = Some r) ->
  exists rows_, mapM (join_snapshot w) l = Some rows_ /\ Forall2 (row_of w) l rows_ /\
    sr_id <$> rows_ = l.*1.
Proof.
  intros Hj Hin.
  assert (H : exists rows_, Forall2 (fun ks row => join_snapshot w ks = Some row) l rows_ /\
    Forall2 (row_of w) l rows_ /\ sr_id <$> rows_ = l.*1).
  { induction l as [|[k r] l IH]; [by exists []|].
    destruct IH as (rows_ & E & F & I); [intros; apply Hin; by right|].
    destruct (Hj k r (Hin k r ltac:(by left))) as [[a Ea] [t Et]].
    eexists (_ :: rows_). split; [constructor; [|done]|split; [constructor; [by exists a, t|done]|]].
    - unfold join_snapshot. cbn [fst snd]. by rewrite Ea, Et.
    - cbn. by rewrite I. }
  destruct H as (rows_ & E & H). exists rows_. split; [by apply mapM_Some_2|done].
Qed.

(** The rest of the sweep, from position [i] of the table's rows. *)
Lemma sweep_pages_verdicts all fuel i after c s w :
  Permutation all (map_to_list (snapshots w)) -> table_ok (snapshots w) -> coherent w c ->
  (forall n, findPageById after n (snapshots w) = take n (drop i all)) ->
  (forall j k r n, all !! j = Some (k, r) ->
     findPageById (Some k) n (snapshots w) = take n (drop (S j) all)) ->
  joined w -> (length all - i < fuel)%nat ->
  exists vs w', exec (sweep_pages evm adapters pageSize concurrency fuel after c s) w
      = (inl (tally_all s vs), w') /\ checks w (drop i all) vs w'.
Proof.
  revert i after c s w. induction fuel as [|fuel IH];
    intros i after c s w Hp Hok Hco Hpage Hnext Hj Hf; [lia|].
  cbn [sweep_pages]. rewrite exec_bind. unfold findPageForReconciliation.
  rewrite exec_act, Hpage. set (l := take pageSize (drop i all)).
  assert (Hin : forall k r, (k, r) ∈ l -> snapshots w !! k = Some r).
  { intros k r Hk. apply elem_of_map_to_list. rewrite <- Hp.
    eapply elem_of_submseteq; [exact Hk|]. unfold l.
    etransitivity; apply sublist_submseteq; [apply sublist_take|apply sublist_drop]. }
  destruct (mapM_join w l Hj Hin) as (rows_ & -> & Hrows & Hids).
  assert (Hlen : length rows_ = (pageSize `min` (length all - i))%nat).
  { rewrite <- (length_fmap sr_id rows_), Hids, length_fmap. unfold l.
    by rewrite length_take, length_drop. }
  destruct (last rows_) as [final|] eqn:Hlast.
  2: { apply last_None in Hlast as ->. cbn in Hlen. exists [], w. split; [done|].
       rewrite drop_ge by lia. constructor. }
  rewrite exec_bind.
  destruct (check_page_verdicts (length rows_) l rows_ c s w ltac:(lia) Hco Hok Hin Hrows)
    as (vs1 & c1 & w1 & -> & K & C1 & Hco1). cbn [fst snd].
  destruct (Nat.ltb_spec (length rows_) pageSize).
  { exists vs1, w1. split; [done|]. unfold l in C1. rewrite take_ge in C1; [done|].
    rewrite length_drop. lia. }
  destruct K as (Ks & Kw & Kt & _).
  destruct (IH (i + pageSize)%nat (Some (sr_id final)) c1 (tally_all s vs1) w1)
    as (vs2 & w2 & E2 & C2).
  - by rewrite Ks.
  - by rewrite Ks.
  - done.
  - intros n. rewrite Ks. rewrite last_lookup, Hlen in Hlast.
    assert (Hk : (sr_id <$> rows_) !! pred (length rows_) = Some (sr_id final)).
    { rewrite list_lookup_fmap. rewrite Hlen. by rewrite Hlast. }
    rewrite Hids, list_lookup_fmap, fmap_Some in Hk. destruct Hk as ([k x] & Hk & Hid).
    unfold l in Hk. apply lookup_take_Some in Hk as [Hk _]. rewrite lookup_drop in Hk.
    cbn in Hid. rewrite Hid, (Hnext _ _ _ n Hk). do 2 f_equal. lia.
  - intros j k x n Hk. rewrite Ks. by apply (Hnext j k x).
  - intros k x. rewrite Ks. intros Hk. specialize (Hj k x Hk). by rewrite Kw, Kt.
  - lia.
  - exists (vs1 ++ vs2), w2. split.
    + rewrite E2. unfold tally_all. by rewrite fold_left_app.
    + rewrite <- (take_drop pageSize (drop i all)), drop_drop. by eapply checks_app.
Qed.

(** The series of a chain and a result. *)
Definition snapshots_gauge (b : Blockchain) (r : BalanceCheckResult) (w : World) : option Z :=
  gauge_value "balance_reconciliation_snapshots"
    [("blockchain", Blockchain_name b); ("result", result_name r)] (metrics w).

Lemma publish_exec s w :
  exists w', exec (publish s) w = (inl tt, w') /\ same_but_metrics w w' /\
    (forall b r, snapshots_gauge b r w' = Some (counts_of s b r)) /\
    gauge_value "balance_reconciliation_last_sweep_timestamp_seconds" [] (metrics w')
      = Some (clock w / 1000).
Proof.
  unfold publish. rewrite exec_bind. cbn [for_each BALANCE_CHECK_RESULTS].
  unfold set, report. repeat (accepted; rewrite ?exec_bind, ?exec_modify, ?exec_ret).
  rewrite exec_now. eexists. split; [reflexivity|]. split; [by destruct w|].
  split; [|reflexivity]. intros b r. by destruct b, r.
Qed.
End Complete.

(** C36: the drift sweep checks every snapshot exactly once and publishes what it
    found.  With any page size and concurrency of at least one, over a database whose
    snapshots have their wallet and token, a sweep completes, whatever the reads
    answer: it checks the rows of the snapshot table one after the other, each once;
    each check reads the chain for that snapshot's wallet and token at the block the
    token is indexed up to, and reports the snapshot as stale, matching or drifted by
    comparing it with the answer, and as unverified when there is none; the summary
    counts these verdicts by chain and result, and the published gauges hold these
    counts and the time.  Nothing but the metrics changes after the last read. *)
Theorem sweep_checks_every_snapshot `{P : Platform} `{!PlatformLaws P} evm adapters
    pageSize concurrency w :
  reads_only adapters -> (0 < pageSize)%nat -> (0 < concurrency)%nat ->
  joined w -> table_ok (snapshots w) ->
  exists all vs w1 s w',
    Permutation all (map_to_list (snapshots w)) /\
    checks evm adapters w all vs w1 /\
    exec (sweep evm adapters pageSize concurrency (S (size (snapshots w)))) w = (inl s, w') /\
    checked s = Z.of_nat (size (snapshots w)) /\
    (forall b r, counts_of s b r = verdict_count vs b r) /\
    same_but_metrics w1 w' /\
    (forall b r, snapshots_gauge b r w' = Some (verdict_count vs b r)) /\
    gauge_value "balance_reconciliation_last_sweep_timestamp_seconds" [] (metrics w')
      = Some (clock w1 / 1000).
Proof.
  intros Hro Hps Hcc Hj Hok. unfold sweep. rewrite exec_bind.
  destruct (findPageById_spec _ (snapshots w)) as (all & Hp & Hfirst & Hnext).
  assert (Hlen : length all = size (snapshots w)) by (by rewrite Hp, length_map_to_list).
  destruct (sweep_pages_verdicts evm adapters Hro pageSize concurrency Hps Hcc all
    (S (size (snapshots w))) 0 None ∅ (mkSummary 0 (fun _ => None)) w) as (vs & w1 & -> & Hc);
    [done|done|by intros tok v; rewrite lookup_empty|intros n; by rewrite drop_0|done|done|lia|].
  rewrite drop_0 in Hc. set (s := tally_all _ vs).
  destruct (tally_all_counts vs (mkSummary 0 (fun _ => None))) as [H1 H2]. fold s in H1, H2.
  assert (H3 : forall b r, counts_of s b r = verdict_count vs b r).
  { intros b r. rewrite H2. reflexivity. }
  rewrite exec_bind. destruct (publish_exec s w1) as (w' & -> & Hm & Hg & Ht).
  exists all, vs, w1, s, w'. split_and!; try done.
  - rewrite H1, (checks_length _ _ _ _ _ _ Hc), Hlen. cbn. lia.
  - intros b r. by rewrite Hg, H3.
Qed.

Section Witness.
#[local] Existing Instance ref_platform.
#[local] Existing Instance ref_platform_laws.
#[local] Existing Instance no_crypto.
#[local] Existing Instance no_keys.

Definition evm_only : list BlockchainAdapter := [EvmAdapter no_env (fun _ => true)].

(** One wallet whose snapshot at block 50 says 100 while the chain says 90. *)
Definition holder : Wallet := mkWallet "t1" "u1" 31337 "0xa" CUSTODIAL ACTIVE None 0.
Definition usd_token : Token := mkToken "Dollar" "USD" (Some "0xt") EVM true 6 0 0.
Definition drifted : World :=
  put Tokens {["tok" := usd_token]} (put Wallets {["w1" := holder]}
    (put Cursors {["c" := mkCursor "tok" 60 0 (Some 1) None 0]}
      (put Snapshots {["s1" := mkSnapshot "w1" "tok" 100 50 0]}
        (fresh_world 0 (mkScript ∅ ∅ ∅ ∅ 70 [] {["0xa" := 90]} ∅ None []))))).

Definition drifted_row : SnapshotForReconciliation :=
  mkSnapshotRow "s1" "w1" "tok" "0xa" 31337 EVM (Some "0xt").

Lemma drift_verdict_witness :
  exec (checkOne 31337 evm_only (Some 60) drifted_row) drifted = (inl drift, drifted).
Proof.
  pose proof (drift_verdict 31337 evm_only 60 drifted_row (EvmAdapter no_env (fun _ => true))
    (evm_getTokenBalance) drifted "s1" (mkSnapshot "w1" "tok" 100 50 0)
    ltac:(reflexivity) ltac:(reflexivity) ltac:(reflexivity) ltac:(decided)
    ltac:(vm_compute; reflexivity) ltac:(reflexivity) ltac:(reflexivity)) as H.
  exact H.
Defined.

Lemma evm_reads_only : reads_only evm_only.
Proof.
  constructor; [|constructor]. intros f r [= <-]. unfold evm_getTokenBalance.
  destruct (falsy _); [done|]. apply guards_bind; [by apply guards_act|]. intros b.
  destruct (br_blockNumber r); [done|]. apply guards_bind; [by apply guards_act|done].
Qed.

Lemma drifted_snapshots k s : snapshots drifted !! k = Some s -> k = "s1" /\ s = mkSnapshot "w1" "tok" 100 50 0.
Proof.
  intros Hk. apply elem_of_map_to_list in Hk. vm_compute in Hk.
  by apply elem_of_cons in Hk as [[= -> ->]|Hk]; [|apply not_elem_of_nil in Hk].
Qed.

(** The sweep of that database finds the drift. *)
Lemma sweep_checks_every_snapshot_witness :
  exists s w', exec (sweep 31337 evm_only 200 5 2) drifted = (inl s, w') /\ checked s = 1 /\
    snapshots_gauge EVM drift w' = Some 1.
Proof.
  destruct (sweep_checks_every_snapshot 31337 evm_only 200 5 drifted)
    as (all & vs & w1 & s & w' & Hp & Hc & E & Hn & _ & _ & Hg & _);
    [apply evm_reads_only|lia|lia| |decided|].
  - intros k s Hk. apply drifted_snapshots in Hk as [-> ->]. by split; eexists.
  - exists s, w'. split; [exact E|]. split; [exact Hn|]. rewrite Hg. f_equal.
    assert (Ha : all = [("s1", mkSnapshot "w1" "tok" 100 50 0)]).
    { apply Permutation_singleton_r. rewrite Hp. vm_compute. reflexivity. }
    subst all. inversion Hc as [|? ? ? ? a t r ? vs' ? Ea Et Hv Hl]; subst. inversion Hl; subst.
    injection Ea as <-. injection Et as <-. vm_compute in Hv. injection Hv as <- _. reflexivity.
Defined.
End Witness.
