(* ===== verification/Idempotency.v ===== *)
(** * Request-level idempotency

    [src/repositories/idempotency-key.repository.ts],
    [src/services/idempotency.service.ts] and
    [src/api/middleware/idempotency.guard.ts]: a mutating request that carries a
    key is executed once; later requests with the key get the stored response. *)

From S2P Require Import Prelude JsString Schema Platform Reference TransactionRepository Guarantee Envelope Encoding Json Adapters Index.

Definition PROCESSING : string := "PROCESSING".
Definition COMPLETED : string := "COMPLETED".
Definition FAILED_KEY : string := "FAILED".

Definition DEFAULT_TTL_MS : Z := 24 * 60 * 60 * 1000.

Definition keyReused : err :=
  AppError 409 "IDEMPOTENCY_KEY_REUSED"
    "This idempotency key was already used with a different request payload" None.
Definition keyInProgress : err :=
  AppError 409 "IDEMPOTENCY_KEY_IN_PROGRESS"
    "A request with this idempotency key is already being processed" None.
Definition keyFailed : err :=
  AppError 409 "IDEMPOTENCY_KEY_FAILED"
    "A previous request with this idempotency key failed; use a new key to retry" None.

(** A JSON object, the type of a response. *)
Abbreviation object := (list (string * json)).

Section Guard.
Context `{P : Platform}.

(** [where: { tenantId_key: { tenantId, key } }] *)
Definition of_key (tenant k : string) (_ : string) (r : IdempotencyKey) : bool :=
  String.eqb (idem_tenantId r) tenant && String.eqb (key r) k.

Definition findByKey (tenant k : string) : prog' (option (string * IdempotencyKey)) :=
  query IdempotencyKeys (findUnique (of_key tenant k)).

Definition key_create (r : IdempotencyKey) : prog' (string * IdempotencyKey) :=
  call IdempotencyKeys (Platform.create r).

Definition complete_row (transactionId : string) (resp : object) (r : IdempotencyKey)
  : IdempotencyKey :=
  mkIdem (idem_tenantId r) (key r) (requestHash r) (Some transactionId) (Some resp) COMPLETED
    (idem_expiresAt r).

Definition fail_row (resp : option object) (r : IdempotencyKey) : IdempotencyKey :=
  mkIdem (idem_tenantId r) (key r) (requestHash r) (idem_transactionId r)
    (match resp with Some _ => resp | None => response r end) FAILED_KEY (idem_expiresAt r).

Definition markCompleted (id transactionId : string) (resp : object) : prog' unit :=
  call IdempotencyKeys (update (at_id id (fun _ => true)) (complete_row transactionId resp)).

Definition key_markFailed (id : string) (resp : option object) : prog' unit :=
  call IdempotencyKeys (update (at_id id (fun _ => true)) (fail_row resp)).

Definition key_acquire (tenant k hash : string) (ttlMs : Z) : prog' (string * IdempotencyKey) :=
  let! date := now in
  key_create (mkIdem tenant k hash None None PROCESSING (date + ttlMs)).

(** The [try] block around the handler, once the key is acquired. *)
Definition protected (id : string) (handler : prog' (string * object)) : prog' (object * bool) :=
  catch
    (let! r := handler in
     do! markCompleted id r.1 r.2 in
     Ret (r.2, false))
    (fun e =>
       do! key_markFailed id (Some [("error", JString (err_message e))]) in
       Throw e).

Definition withIdempotency (tenant : string) (idempotencyKey : option string) (hash : string)
    (ttlMs : Z) (handler : prog' (string * object)) : prog' (object * bool) :=
  if falsy idempotencyKey then
    let! r := handler in Ret (r.2, false)
  else
    let k := default "" idempotencyKey in
    let! existing := findByKey tenant k in
    match existing with
    | Some (_, r) =>
        if negb (String.eqb (requestHash r) hash) then Throw keyReused
        else if String.eqb (idem_status r) COMPLETED then Ret (default [] (response r), true)
        else if String.eqb (idem_status r) PROCESSING then Throw keyInProgress
        else Throw keyFailed
    | None =>
        let! acquired := key_acquire tenant k hash ttlMs in
        protected acquired.1 handler
    end.
End Guard.

(** ** At most one execution per key *)
Section AtMostOnce.
Context `{P : Platform} `{!PlatformLaws P} (tenant k : string) (mark : sample).

(** The key is taken. *)
Definition held (w : World) : Prop :=
  exists id r, idempotencyKeys w !! id = Some r /\ of_key tenant k id r = true.

(** How often a handler has been started: each reports [mark] first. *)
Definition starts (w : World) : nat := List.count_occ sample_eq_dec (metrics w) mark.

Definition marked (handler : prog' (string * object)) : prog' (string * object) :=
  do! modify (fun w => put Metrics (mark :: metrics w) w) in handler.

(** Nothing else reports [mark], and a key, once taken, stays taken. *)
Definition quiet_step (w w' : World) : Prop := starts w' = starts w /\ (held w -> held w').

#[global] Instance quiet_step_preorder : PreOrder quiet_step.
Proof.
  split; [by split|]. intros a b c [S1 H1] [S2 H2]. split; [congruence|auto].
Qed.

(** A task that has not acquired the key: all it does is quiet, except for the
    call that acquires it, which is refused when the key is taken. *)
Definition gate {R A} (f : World -> (R + err) * World) (c : R + err -> prog' A) (winner : prog' A -> Prop)
  : Prop :=
  (forall w, starts (f w).2 = starts w) /\
  (forall w, held w -> held (f w).2 /\ exists e, (f w).1 = inr e) /\
  (forall w r, (f w).1 = inl r -> held (f w).2) /\
  (forall r, winner (c (inl r))) /\ (forall e, guards quiet_step (c (inr e))).

(** A task that acquired the key and is about to start its handler. *)
Definition winner {A} (p : prog' A) : Prop :=
  exists c : unit -> prog' A,
    p = Loc (fun w => (tt, put Metrics (mark :: metrics w) w)) c /\ guards quiet_step (c tt).

Fixpoint entrant {A} (p : prog' A) : Prop :=
  match p with
  | Ret _ | Throw _ => True
  | Loc f c => (forall w, quiet_step w (f w).2) /\ forall r, entrant (c r)
  | Act f c => ((forall w, quiet_step w (f w).2) /\ forall r, entrant (c r)) \/ gate f c winner
  end.

Lemma entrant_quiet {A} (p : prog' A) : guards quiet_step p -> entrant p.
Proof.
  induction p as [a|e|R f c IH|R f c IH]; cbn [guards entrant]; [done..| |].
  - intros [Hf Hc]. split; [done|]. intros r. by apply IH.
  - intros [Hf Hc]. left. split; [done|]. intros r. by apply IH.
Qed.

Lemma entrant_bind {A B} (p : prog' A) (q : A -> prog' B) :
  guards quiet_step p -> (forall a, entrant (q a)) -> entrant (bind p q).
Proof.
  intros Hp Hq. induction p as [a|e|R f c IH|R f c IH].
  - exact (Hq a).
  - exact I.
  - destruct Hp as [Hf Hc]. exact (conj Hf (fun r => IH r (Hc r))).
  - destruct Hp as [Hf Hc]. exact (or_introl (conj Hf (fun r => IH r (Hc r)))).
Qed.

(** Rows keep their tenant and key, so a taken key stays taken. *)
Lemma quiet_update id (d : IdempotencyKey -> IdempotencyKey) :
  (forall r, idem_tenantId (d r) = idem_tenantId r /\ key (d r) = key r) ->
  guards quiet_step (call IdempotencyKeys (update (at_id id (fun _ => true)) d)).
Proof.
  intros Hd. apply guards_act. intros w. unfold on. split; [done|]. intros (i & r & Ei & Hr).
  cbn [view put IdempotencyKeys snd idempotencyKeys]. unfold update, held. cbn [idempotencyKeys].
  destruct (updateMany_cases (at_id id (fun _ => true)) d (idempotencyKeys w)) as [[_ ->]|[_ [e ->]]].
  - exists i, (if at_id id (fun _ => true) i r then d r else r).
    assert (L : updated (at_id id (fun _ => true)) d (idempotencyKeys w) !! i
                = Some (if at_id id (fun _ => true) i r then d r else r)).
    { rewrite lookup_updated. cbn in Ei. rewrite Ei. done. }
    split; [by destruct (length _)|]. unfold of_key in *.
    destruct (at_id id _ i r); [|done]. destruct (Hd r) as [-> ->]. done.
  - by exists i, r.
Qed.

Lemma quiet_read {R} (f : World -> R + err) :
  guards quiet_step (act (fun w => (f w, w)) : prog' R).
Proof. apply guards_act. intros w. reflexivity. Qed.

Lemma quiet_protected id (h : prog' (string * object)) :
  guards quiet_step h -> guards quiet_step (protected id h).
Proof.
  intros Hh. unfold protected. apply guards_catch.
  - apply guards_bind; [done|]. intros r. apply guards_bind; [|done]. apply quiet_update. done.
  - intros e. apply guards_bind; [|done]. apply quiet_update. done.
Qed.

Lemma winner_protected id h : guards quiet_step h -> winner (protected id (marked h)).
Proof.
  intros Hh. eexists. split; [reflexivity|]. exact (quiet_protected id h Hh).
Qed.

(** The unique constraint decides the race. *)
Lemma create_held (r : IdempotencyKey) w :
  of_key tenant k "" r = true ->
  (held w -> exists cm, Platform.create r (idempotencyKeys w)
                       = (inr (PrismaKnownRequestError cm.1 cm.2), idempotencyKeys w)) /\
  (forall x, (Platform.create r (idempotencyKeys w)).1 = inl x ->
     exists i, (Platform.create r (idempotencyKeys w)).2 !! i = Some r).
Proof.
  intros Hr. split.
  - intros (i & r0 & Ei & H0). destruct (create_bad _ r (idempotencyKeys w)) as (c & m & E); [|by exists (c, m)].
    intros [_ Huniq].
    assert (Hne : uuid (idempotencyKeys w) <> i).
    { intros E. pose proof (uuid_fresh _ (idempotencyKeys w)) as H. rewrite E in H. congruence. }
    specialize (Huniq (uuid (idempotencyKeys w)) r (lookup_insert_eq _ _ _) i r0).
    cbn beta in Huniq. rewrite lookup_insert_ne in Huniq by done.
    destruct (Huniq Ei) as [|Hc]; [done|]. unfold of_key in *. cbn [conflicts IdempotencyKey_table] in Hc.
    apply andb_true_iff in Hr as [R1 R2], H0 as [S1 S2]. rewrite !String.eqb_eq in *.
    rewrite R1, R2, S1, S2, !String.eqb_refl in Hc. done.
  - intros x. destruct (create_cases r (idempotencyKeys w)) as [[_ ->]|[c ->]]; [|done].
    intros _. exists (uuid (idempotencyKeys w)). apply lookup_insert_eq.
Qed.

Lemma entrant_request hash ttl h :
  k <> "" -> guards quiet_step h ->
  entrant (withIdempotency tenant (Some k) hash ttl (marked h)).
Proof.
  intros Hk Hh. unfold withIdempotency. replace (falsy (Some k)) with false by (by destruct k).
  cbv iota. change (default "" (Some k)) with k. apply entrant_bind; [apply quiet_read|].
  intros [[i r]|].
  - destruct (negb _); [done|]. destruct (String.eqb _ _); [done|]. by destruct (String.eqb _ _).
  - unfold key_acquire, now. cbn [bind gets loc entrant]. split; [intros w; reflexivity|].
    intros date. unfold key_create, call, act. cbn [bind entrant]. right.
    set (r := mkIdem tenant k hash None None PROCESSING (date + ttl)).
    assert (Hr : of_key tenant k "" r = true).
    { unfold of_key, r. cbn. by rewrite !String.eqb_refl. }
    unfold gate. split_and!.
    + done.
    + intros w Hw. destruct (create_held r w Hr) as [H _]. destruct (H Hw) as [c E].
      unfold on. cbn [view put IdempotencyKeys fst snd]. rewrite E. cbn [fst snd].
      split; [|by eexists]. destruct Hw as (i & r0 & ? & ?). by exists i, r0.
    + intros w x Hx. destruct (create_held r w Hr) as [_ H]. unfold on in *.
      cbn [view put IdempotencyKeys fst snd] in *. destruct (H x Hx) as [i Ei].
      exists i, r. by split.
    + intros x. by apply winner_protected.
    + intros e. exact I.
Qed.
(** Requests with the key, of any number of clients and replicas, interleaved
    with each other and with anything that leaves the key alone. *)
Inductive request : prog' (object * bool) -> Prop :=
| request_intro hash ttl h :
    guards quiet_step h -> request (withIdempotency tenant (Some k) hash ttl (marked h)).

Abbreviation pool := (World * list (prog' (object * bool)))%type.

Inductive requests_step : pool -> pool -> Prop :=
| rq_arrive w ts p : request p -> requests_step (w, ts) (w, p :: ts)
| rq_task w w' ts1 ts2 p p' :
    pstep (w, p) (w', p') -> requests_step (w, ts1 ++ p :: ts2) (w', ts1 ++ p' :: ts2)
| rq_crash w ts1 ts2 p : requests_step (w, ts1 ++ p :: ts2) (w, ts1 ++ ts2)
| rq_other w w' ts : quiet_step w w' -> requests_step (w, ts) (w', ts).

Definition classified (won : bool) (p : prog' (object * bool)) : Prop :=
  if won then winner p else entrant p.

Definition wins (tags : list bool) : nat := List.count_occ Bool.bool_dec tags true.

(** At most one task has won or was started, and only while the key is taken. *)
Definition one_winner (s : pool) : Prop :=
  exists tags, Forall2 classified tags s.2 /\ (wins tags + starts s.1 <= 1)%nat /\
    ((wins tags + starts s.1 = 1)%nat -> held s.1).

Lemma wins_mid t1 b t2 :
  wins (t1 ++ b :: t2) = (wins (t1 ++ t2) + if b then 1 else 0)%nat.
Proof. unfold wins. rewrite !List.count_occ_app. destruct b; cbn; lia. Qed.

(** One step of a task that has not won: quiet, or it wins the key. *)
Lemma entrant_pstep w w' (p p' : prog' (object * bool)) :
  pstep (w, p) (w', p') -> entrant p ->
  (quiet_step w w' /\ entrant p') \/
  (starts w' = starts w /\ ~ held w /\ held w' /\ winner p').
Proof.
  intros H Hp. destruct p as [a|e|R f c|R f c]; cbn [pstep snd fst] in H; try done.
  - destruct Hp as [Hf Hc]. simplify_eq. left. by split.
  - destruct H as [o [= -> ->]]. destruct Hp as [[Hf Hc]|(H1 & H2 & H3 & H4 & H5)].
    + left. split; [|by apply Hc]. by apply perform_guard; [apply _|].
    + destruct o as [|e|e]; cbn [perform fst snd].
      * destruct (f w).1 as [r|e] eqn:E.
        -- right. split_and!; [done| |by eapply H3|done].
           intros Hw. destruct (H2 w Hw) as [_ [e E']]. congruence.
        -- left. split; [split; [done|by intros Hw; apply H2]|]. apply entrant_quiet, H5.
      * left. split; [reflexivity|]. apply entrant_quiet, H5.
      * left. split; [split; [done|by intros Hw; apply H2]|]. apply entrant_quiet, H5.
Qed.

Lemma winner_pstep w w' (p p' : prog' (object * bool)) :
  pstep (w, p) (w', p') -> winner p ->
  starts w' = S (starts w) /\ (held w -> held w') /\ entrant p'.
Proof.
  intros H (c & -> & Hc). cbn [pstep snd fst] in H. simplify_eq.
  split; [|split; [done|by apply entrant_quiet]].
  unfold starts. cbn. destruct (sample_eq_dec mark mark); [done|congruence].
Qed.

Lemma requests_step_winner s s' :
  k <> "" -> requests_step s s' -> one_winner s -> one_winner s'.
Proof.
  intros Hk H (tags & Hc & Hle & Hh). destruct H as [w ts p [hash ttl h Hp]|w w' ts1 ts2 p p' Hp|w ts1 ts2 p|w w' ts [Hs Hw]];
    cbn [fst snd] in *.
  - exists (false :: tags). split; [constructor; [|done]|done].
    by apply entrant_request.
  - apply Forall2_app_inv_r in Hc as (t1 & t2' & H1 & H2 & ->).
    inversion H2 as [|b q t2 qs Hb Ht]; subst. rewrite wins_mid in Hle, Hh.
    destruct b; cbn [classified] in Hb.
    + destruct (winner_pstep _ _ _ _ Hp Hb) as (E & Hk' & Hq).
      exists (t1 ++ false :: t2). cbn [fst snd]. rewrite wins_mid, E.
      split; [by apply Forall2_app; [|constructor]|]. split; [lia|]. intros _. apply Hk', Hh. lia.
    + destruct (entrant_pstep _ _ _ _ Hp Hb) as [[[E Hk'] Hq]|(E & Hn & Hw & Hq)].
      * exists (t1 ++ false :: t2). cbn [fst snd]. rewrite wins_mid, E.
        split; [by apply Forall2_app; [|constructor]|]. split; [lia|]. intros Hx. apply Hk', Hh. lia.
      * exists (t1 ++ true :: t2). cbn [fst snd]. rewrite wins_mid, E.
        split; [by apply Forall2_app; [|constructor]|].
        assert (wins (t1 ++ t2) + starts w <> 1)%nat by (intros Hx; apply Hn, Hh; lia).
        split; [lia|done].
  - apply Forall2_app_inv_r in Hc as (t1 & t2' & H1 & H2 & ->).
    inversion H2 as [|b q t2 qs Hb Ht]; subst. rewrite wins_mid in Hle, Hh.
    exists (t1 ++ t2). cbn [fst snd]. split; [by apply Forall2_app|]. destruct b; [|split; [lia|]; intros; apply Hh; lia].
    split; [lia|]. intros Hx. apply Hh. lia.
  - exists tags. cbn [fst snd]. rewrite Hs. split; [done|]. split; [done|]. auto.
Qed.
End AtMostOnce.

(** C17: at most one execution per key.  Let any number of requests with the same
    tenant and idempotency key arrive at any time, interleaved in any way with
    each other and with anything that leaves the key's row alone, with calls that
    fail or lose their answer and with crashes at any point: their handlers are
    started at most once in all.  The handlers are arbitrary programs that report
    [mark] first and that do not delete the key. *)
Theorem idempotent_at_most_once `{P : Platform} `{!PlatformLaws P} tenant k mark w0 w ts :
  k <> "" -> starts mark w0 = 0%nat ->
  rtc (requests_step tenant k mark) (w0, []) (w, ts) ->
  (starts mark w <= 1)%nat.
Proof.
  intros Hk H0 H.
  assert (one_winner tenant k mark (w, ts)) as (tags & _ & Hle & _); [|cbn in Hle; lia].
  assert (Hi : one_winner tenant k mark (w0, [])).
  { exists []. cbn. rewrite H0. split; [constructor|]. split; [lia|done]. }
  remember (w0, []) as s0 eqn:E0. remember (w, ts) as s1 eqn:E1. clear E0 E1 H0.
  induction H as [s|s1 s2 s3 H1 _ IH]; [done|]. apply IH.
  by apply (requests_step_winner _ _ _ s1).
Qed.

(** ** What later requests get *)
Section Replay.
Context `{P : Platform} `{!PlatformLaws P} (tenant k : string).

(** The answer to a request whose key is taken by the row [r]. *)
Definition verdict (r : IdempotencyKey) (hash : string) : (object * bool) + err :=
  if negb (String.eqb (requestHash r) hash) then inr keyReused
  else if String.eqb (idem_status r) COMPLETED then inl (default [] (response r), true)
  else if String.eqb (idem_status r) PROCESSING then inr keyInProgress
  else inr keyFailed.

Lemma of_key_unique (t : gmap string IdempotencyKey) i r i' r' :
  table_ok t -> t !! i = Some r -> of_key tenant k i r = true ->
  t !! i' = Some r' -> of_key tenant k i' r' = true -> i' = i.
Proof.
  intros [_ Hu] E Hr E' Hr'. destruct (Hu i r E i' r' E') as [|Hc]; [done|]. exfalso.
  unfold of_key in *. apply andb_true_iff in Hr as [R1 R2], Hr' as [S1 S2].
  rewrite !String.eqb_eq in *. cbn in Hc. rewrite R1, R2, S1, S2, !String.eqb_refl in Hc. done.
Qed.

Lemma taken_exec w i r hash ttl h :
  k <> "" -> table_ok (idempotencyKeys w) -> idempotencyKeys w !! i = Some r ->
  of_key tenant k i r = true ->
  exec (withIdempotency tenant (Some k) hash ttl h) w = (verdict r hash, w).
Proof.
  intros Hk Hok E Hr. unfold withIdempotency. replace (falsy (Some k)) with false by (by destruct k).
  cbv iota. change (default "" (Some k)) with k. unfold findByKey. rewrite exec_bind, exec_query.
  cbn [view IdempotencyKeys]. rewrite (findUnique_the _ _ i r E Hr).
  - unfold verdict. destruct (negb _); [done|]. destruct (String.eqb _ COMPLETED); [done|].
    by destruct (String.eqb _ PROCESSING).
  - intros i' r' E' Hr'. by eapply of_key_unique.
Qed.

Definition key_row (hash : string) (ttl : Z) (w : World) : IdempotencyKey :=
  mkIdem tenant k hash None None PROCESSING (clock w + ttl).

(** The world once the key is acquired. *)
Definition acquired (hash : string) (ttl : Z) (w : World) : World :=
  put IdempotencyKeys
    (<[uuid (idempotencyKeys w) := key_row hash ttl w]> (idempotencyKeys w)) w.

(** Replacing the acquired row by one that conflicts with no other. *)
Lemma acquired_table_ok hash ttl w r :
  table_ok (idempotencyKeys w) -> ~ held tenant k w -> fits r = true ->
  idem_tenantId r = tenant -> key r = k ->
  (forall i r', idempotencyKeys w !! i = Some r' ->
     same_some (idem_transactionId r) (idem_transactionId r') = false /\
     same_some (idem_transactionId r') (idem_transactionId r) = false) ->
  table_ok (<[uuid (idempotencyKeys w) := r]> (idempotencyKeys (acquired hash ttl w))).
Proof.
  intros Hok Hn Hf Ht Hk Hs. cbn [acquired put IdempotencyKeys idempotencyKeys].
  rewrite insert_insert_eq. apply table_ok_insert; [done..|].
  intros i r' _ E. destruct (Hs i r' E) as [S1 S2]. cbn. rewrite S1, S2, Ht, Hk, !orb_false_r.
  assert (Hx : of_key tenant k i r' = false).
  { apply not_true_iff_false. intros Hr. apply Hn. by exists i, r'. }
  unfold of_key in Hx. split; [|done].
  by rewrite (String.eqb_sym tenant), (String.eqb_sym k).
Qed.

Lemma first_exec w hash ttl h :
  k <> "" -> table_ok (idempotencyKeys w) -> ~ held tenant k w ->
  exec (withIdempotency tenant (Some k) hash ttl h) w
  = exec (protected (uuid (idempotencyKeys w)) h) (acquired hash ttl w).
Proof.
  intros Hk Hok Hn. unfold withIdempotency.
  replace (falsy (Some k)) with false by (by destruct k).
  cbv iota. change (default "" (Some k)) with k. unfold findByKey. rewrite exec_bind, exec_query.
  cbn [view IdempotencyKeys]. unfold findUnique. rewrite (proj2 (findFirst_None _ _ _)).
  2: { intros i r E. apply not_true_iff_false. intros Hr. apply Hn. by exists i, r. }
  unfold key_acquire. rewrite !exec_bind, exec_now. unfold key_create. rewrite exec_call. unfold on.
  cbn [view IdempotencyKeys]. rewrite create_ok; [done|].
  pose proof (acquired_table_ok hash ttl w (key_row hash ttl w) Hok Hn eq_refl eq_refl eq_refl) as H.
  cbn [acquired put IdempotencyKeys idempotencyKeys] in H. rewrite insert_insert_eq in H.
  apply H. intros i r' _. cbn. by destruct (idem_transactionId r').
Qed.

(** Settling the acquired row. *)
Lemma settle_exec w w' hash ttl d :
  idempotencyKeys w' = idempotencyKeys (acquired hash ttl w) ->
  table_ok (<[uuid (idempotencyKeys w) := d (key_row hash ttl w)]> (idempotencyKeys w')) ->
  exec (call IdempotencyKeys (update (at_id (uuid (idempotencyKeys w)) (fun _ => true)) d)) w'
  = (inl tt, put IdempotencyKeys
       (<[uuid (idempotencyKeys w) := d (key_row hash ttl w)]> (idempotencyKeys w')) w').
Proof.
  intros E Hok. set (u := uuid (idempotencyKeys w)) in *.
  assert (Er : idempotencyKeys w' !! u = Some (key_row hash ttl w)).
  { rewrite E. cbn [acquired put IdempotencyKeys idempotencyKeys]. apply lookup_insert_eq. }
  rewrite exec_call. unfold on, update. cbn [view IdempotencyKeys].
  rewrite updateMany_ok; rewrite (updated_at_id u _ d _ _ Er eq_refl); [|done].
  by rewrite rows_at_id, Er.
Qed.
End Replay.

(** C33: a completed request is replayed.  The first request with a key runs its
    handler once and returns the handler's response; from then on, whatever the
    time and however often the key is sent, a request with the same payload gets
    that same response without running its handler and without any change, and
    one with a different payload is rejected. *)
Theorem idempotent_replay `{P : Platform} `{!PlatformLaws P}
    tenant k hash ttl h w tid resp w' :
  k <> "" -> table_ok (idempotencyKeys w) -> ~ held tenant k w ->
  exec h (acquired tenant k hash ttl w) = (inl (tid, resp), w') ->
  idempotencyKeys w' = idempotencyKeys (acquired tenant k hash ttl w) ->
  (forall i r, idempotencyKeys w !! i = Some r -> idem_transactionId r <> Some tid) ->
  exists m,
    exec (withIdempotency tenant (Some k) hash ttl h) w
      = (inl (resp, false), put IdempotencyKeys m w') /\
    forall w2 hash' ttl' h', idempotencyKeys w2 = m ->
      exec (withIdempotency tenant (Some k) hash' ttl' h') w2
      = (if String.eqb hash hash' then inl (resp, true) else inr keyReused, w2).
Proof.
  intros Hk Hok Hn Hh E Ht.
  set (r := complete_row tid resp (key_row tenant k hash ttl w)).
  assert (Hok' : table_ok (<[uuid (idempotencyKeys w) := r]> (idempotencyKeys w'))).
  { rewrite E. apply acquired_table_ok; try done. intros i r' Er. specialize (Ht i r' Er).
    cbn. destruct (idem_transactionId r') as [x|]; [|done]. cbn.
    destruct (String.eqb_spec tid x), (String.eqb_spec x tid); [congruence..|done]. }
  eexists. split.
  - rewrite first_exec by done. unfold protected. rewrite exec_catch, exec_bind, Hh, exec_bind.
    unfold markCompleted. cbn [fst snd].
    by rewrite (settle_exec tenant k w w' hash ttl (complete_row tid resp) E Hok').
  - intros w2 hash' ttl' h' E2. cbn beta in E2.
    rewrite (taken_exec tenant k w2 (uuid (idempotencyKeys w)) r); [|done|by rewrite E2| |].
    + unfold verdict, r. cbn. by destruct (String.eqb hash hash').
    + rewrite E2. apply lookup_insert_eq.
    + unfold of_key, r. cbn. by rewrite !String.eqb_refl.
Qed.

(** A failed request burns its key.  When the handler throws, the caller gets
    that very error and whatever the handler did to the rest of the world stays;
    every later request with the key is rejected without running its handler,
    with the same payload as failed, with another one as reused. *)
Theorem idempotent_failure `{P : Platform} `{!PlatformLaws P} tenant k hash ttl h w e w' :
  k <> "" -> table_ok (idempotencyKeys w) -> ~ held tenant k w ->
  exec h (acquired tenant k hash ttl w) = (inr e, w') ->
  idempotencyKeys w' = idempotencyKeys (acquired tenant k hash ttl w) ->
  exists m,
    exec (withIdempotency tenant (Some k) hash ttl h) w = (inr e, put IdempotencyKeys m w') /\
    forall w2 hash' ttl' h', idempotencyKeys w2 = m ->
      exec (withIdempotency tenant (Some k) hash' ttl' h') w2
      = (inr (if String.eqb hash hash' then keyFailed else keyReused), w2).
Proof.
  intros Hk Hok Hn Hh E.
  set (d := fail_row (Some [("error", JString (err_message e))])).
  set (r := d (key_row tenant k hash ttl w)).
  assert (Hok' : table_ok (<[uuid (idempotencyKeys w) := r]> (idempotencyKeys w'))).
  { rewrite E. apply acquired_table_ok; try done. intros i r' _. cbn. by destruct (idem_transactionId r'). }
  eexists. split.
  - rewrite first_exec by done. unfold protected. rewrite exec_catch, exec_bind, Hh. cbv beta iota.
    rewrite exec_bind. unfold key_markFailed. fold d. by rewrite (settle_exec tenant k w w' hash ttl d E Hok').
  - intros w2 hash' ttl' h' E2. cbn beta in E2.
    rewrite (taken_exec tenant k w2 (uuid (idempotencyKeys w)) r); [|done|by rewrite E2| |].
    + unfold verdict, r. cbn. by destruct (String.eqb hash hash').
    + rewrite E2. apply lookup_insert_eq.
    + unfold of_key, r. cbn. by rewrite !String.eqb_refl.
Qed.

(** An undisturbed execution is one of the schedules. *)
Lemma exec_requests `{P : Platform} tenant k mark (p : prog' (object * bool)) w :
  exists p', rtc (requests_step tenant k mark) (w, [p]) ((exec p w).2, [p']).
Proof.
  revert w. induction p as [a|e|R f c IH|R f c IH]; intros w; [by eexists; reflexivity..| |].
  - destruct (IH (f w).1 (f w).2) as [p' Hp]. exists p'. eapply rtc_l; [|exact Hp].
    by apply (rq_task tenant k mark w _ [] [] (Loc f c)).
  - destruct (IH (f w).1 (f w).2) as [p' Hp]. exists p'. eapply rtc_l; [|exact Hp].
    apply (rq_task tenant k mark w _ [] [] (Act f c)). by exists Commit.
Qed.

(** ** Which requests count as the same *)

(** The transfer a key stands for; the amount is a decimal string. *)
Record HashInput := mkHashInput {
  hi_tokenId : string; hi_fromWalletId : string; hi_toWalletId : string; hi_amount : string }.

(** The canonical object, members in alphabetical order. *)
Definition canonical (i : HashInput) : jsval :=
  JsObj [("amount", JsStr (hi_amount i)); ("fromWalletId", JsStr (hi_fromWalletId i));
         ("toWalletId", JsStr (hi_toWalletId i)); ("tokenId", JsStr (hi_tokenId i))].

(** [sha256] is Node's digest. *)
Definition hashRequest (sha256 : bytes -> bytes) (i : HashInput) : string :=
  to_hex (sha256 (stringify (canonical i))).

Lemma canonical_inj a b : stringify (canonical a) = stringify (canonical b) -> a = b.
Proof.
  intros H. pose proof (JSON_parse_stringify (canonical a) eq_refl) as Ha.
  rewrite H, (JSON_parse_stringify (canonical b) eq_refl) in Ha.
  destruct a, b. unfold canonical in Ha. cbn in Ha. congruence.
Qed.

(** Two transfers with the same hash are the same transfer, or their own canonical
    messages are two distinct messages with one digest. *)
Lemma hashRequest_separates sha256 a b :
  hashRequest sha256 a = hashRequest sha256 b ->
  a = b \/
  (stringify (canonical a) <> stringify (canonical b) /\
   sha256 (stringify (canonical a)) = sha256 (stringify (canonical b))).
Proof.
  intros H%to_hex_inj. destruct (decide (stringify (canonical a) = stringify (canonical b))) as [E|E].
  - left. by apply canonical_inj.
  - by right.
Qed.

(** C22: a key is bound to its transfer.  Once a key was used for a transfer, a request
    with the key for any other transfer (another token, wallet or amount) is refused
    as a reuse, without running its handler and without any change, unless the
    canonical messages of these two transfers, which are different texts, have the
    same SHA-256 digest. *)
Theorem key_bound_to_transfer `{P : Platform} `{!PlatformLaws P} sha256 tenant k w i r a b ttl h :
  k <> "" -> table_ok (idempotencyKeys w) -> idempotencyKeys w !! i = Some r ->
  of_key tenant k i r = true -> requestHash r = hashRequest sha256 a -> a <> b ->
  exec (withIdempotency tenant (Some k) (hashRequest sha256 b) ttl h) w = (inr keyReused, w) \/
  (stringify (canonical a) <> stringify (canonical b) /\
   sha256 (stringify (canonical a)) = sha256 (stringify (canonical b))).
Proof.
  intros Hk Hok E Hr Hh Hab.
  destruct (String.eqb_spec (hashRequest sha256 a) (hashRequest sha256 b)) as [Ec|Ec].
  - right. by destruct (hashRequest_separates _ _ _ Ec).
  - left. rewrite (taken_exec tenant k w i r) by done. unfold verdict.
    rewrite Hh. by destruct (String.eqb_spec (hashRequest sha256 a) (hashRequest sha256 b)).
Qed.

Section Witness.
#[local] Existing Instance ref_platform.
#[local] Existing Instance ref_platform_laws.

Definition pay_handler : prog' (string * object) := Ret ("x1", [("id", JString "x1")]).
Definition started : sample := Inc "handler_started" [] 1.
Definition empty_world : World := fresh_world 1000 quiet.
Definition pay_request : prog' (object * bool) :=
  withIdempotency "t1" (Some "k1") "hash" DEFAULT_TTL_MS (marked started pay_handler).

Lemma idempotent_at_most_once_witness :
  starts started (exec pay_request empty_world).2 = 1%nat /\
  (starts started (exec pay_request empty_world).2 <= 1)%nat.
Proof.
  split; [vm_compute; reflexivity|].
  destruct (exec_requests (P:=ref_platform) "t1" "k1" started pay_request empty_world) as [p' H].
  apply (idempotent_at_most_once "t1" "k1" started empty_world _ [p']); [done|done|].
  eapply rtc_l; [|exact H]. apply rq_arrive, request_intro. exact I.
Defined.

Lemma idempotent_replay_witness : exists m,
  exec (withIdempotency "t1" (Some "k1") "hash" 10 pay_handler) empty_world
    = (inl ([("id", JString "x1")], false),
       put IdempotencyKeys m (acquired "t1" "k1" "hash" 10 empty_world)) /\
  forall w2 hash' ttl' h', idempotencyKeys w2 = m ->
    exec (withIdempotency "t1" (Some "k1") hash' ttl' h') w2
    = (if String.eqb "hash" hash' then inl ([("id", JString "x1")], true) else inr keyReused, w2).
Proof.
  apply (idempotent_replay "t1" "k1" "hash" 10 pay_handler empty_world "x1");
    [done|decided| |reflexivity|reflexivity|done].
  intros (i & r & E & _). discriminate E.
Defined.

(** With an injective digest the refusal is certain. *)
Lemma key_bound_to_transfer_witness :
  let five := mkHashInput "tok" "wa" "wb" "5" in
  let six := mkHashInput "tok" "wa" "wb" "6" in
  let w := acquired "t1" "k1" (hashRequest (fun b => b) five) 10 empty_world in
  exec (withIdempotency "t1" (Some "k1") (hashRequest (fun b => b) six) 10 pay_handler) w
  = (inr keyReused, w).
Proof.
  intros five six w.
  destruct (key_bound_to_transfer (fun b => b) "t1" "k1" w "x"
    (key_row "t1" "k1" (hashRequest (fun b => b) five) 10 empty_world) five six 10 pay_handler)
    as [H|[Hne E]].
  - done.
  - decided.
  - reflexivity.
  - reflexivity.
  - reflexivity.
  - discriminate.
  - exact H.
  - by destruct (Hne E).
Defined.

Lemma idempotent_failure_witness : exists m,
  exec (withIdempotency "t1" (Some "k1") "hash" 10 (Throw (walletNotFound None))) empty_world
    = (inr (walletNotFound None), put IdempotencyKeys m (acquired "t1" "k1" "hash" 10 empty_world)) /\
  forall w2 hash' ttl' h', idempotencyKeys w2 = m ->
    exec (withIdempotency "t1" (Some "k1") hash' ttl' h') w2
    = (inr (if String.eqb "hash" hash' then keyFailed else keyReused), w2).
Proof.
  apply (idempotent_failure "t1" "k1" "hash" 10 (Throw (walletNotFound None)) empty_world);
    [done|decided| |reflexivity|reflexivity].
  intros (i & r & E & _). discriminate E.
Defined.
End Witness.
