(* ===== verification/Registration.v ===== *)
(** * Registering wallets and tokens

    [src/services/wallet.service.ts], [src/services/custodial-wallet.service.ts],
    [src/services/token.service.ts] and the writing half of
    [src/repositories/wallet.repository.ts] and
    [src/repositories/token.repository.ts]. *)

From S2P Require Import Prelude JsString Schema Platform Reference TransactionRepository Guarantee Addresses Envelope Adapters Transfer Index EventListener Reconcile.
From stdpp Require Import pretty.
#[local] Open Scope Z_scope.

Definition invalidWalletAddress : err :=
  AppError 400 "INVALID_WALLET_ADDRESS" "Invalid wallet address" None.
Definition walletAlreadyExists : err :=
  AppError 409 "WALLET_ALREADY_EXISTS" "Wallet already registered" None.
Definition walletForbidden : err :=
  AppError 403 "FORBIDDEN" "You do not have access to this wallet" None.
Definition unsupportedChain (c : Z) : err :=
  AppError 400 "UNSUPPORTED_CHAIN" ("Unsupported chainId " +:+ pretty c)
    (Some [("chainId", DNumber c)]).
Definition invalidAssetIdentifier (chain identifier : string) : err :=
  AppError 400 "INVALID_ASSET_IDENTIFIER"
    ("'" +:+ identifier +:+ "' is not a valid asset identifier for " +:+ chain)
    (Some [("chain", DString chain); ("identifier", DString identifier)]).
Definition tokenAlreadyRegistered : err := PlainError "Token already registered".

(** ** Wallets *)
Section Wallets.
Context `{P : Platform} `{K : Crypto} `{KS : !Keys} (env : Env) (evm : Z).
Context (isEvmAddress isOnCurve : string -> bool) (adapters : list BlockchainAdapter).

Definition wallet_create (tenant owner : string) (c : Z) (a : string) : prog' (string * Wallet) :=
  let! date := now in
  call Wallets (Platform.create
    (mkWallet tenant owner c (normalizeWalletAddress evm c a) EXTERNAL ACTIVE None date)).

Definition wallet_createCustodial (tenant owner : string) (c : Z) (a : string)
    (encrypted : bytes) (kmsKey : string) : prog' (string * Wallet) :=
  let! date := now in
  call Wallets (Platform.create
    (mkWallet tenant owner c (normalizeWalletAddress evm c a) CUSTODIAL ACTIVE
       (Some (mkCustodyKey encrypted kmsKey)) date)).

Definition findByOwnerId (owner : string) : prog' (list (string * Wallet)) :=
  query Wallets (findMany (fun _ r => String.eqb (ownerId r) owner) any_order 0 None).

Definition createWallet (tenant owner : string) (c : Z) (a : string) : prog' (string * Wallet) :=
  if negb (isValidWalletAddress evm isEvmAddress isOnCurve c a) then Throw invalidWalletAddress
  else
    let! existing := findByAddress evm c a in
    match existing with
    | Some _ => Throw walletAlreadyExists
    | None => wallet_create tenant owner c a
    end.

Definition getUserWallets (user : string) : prog' (list (string * Wallet)) := findByOwnerId user.

Definition getWallet (id user tenant : string) (role : Role) : prog' (string * Wallet) :=
  let! wallet := getWalletById id in
  match wallet with
  | None => Throw (walletNotFound None)
  | Some (i, r) =>
      if negb (String.eqb (wal_tenantId r) tenant)
         || (negb (String.eqb (ownerId r) user) && negb (bool_decide (role = ADMIN)))
      then Throw walletForbidden else Ret (i, r)
  end.

Definition custodial_createWallet (tenant owner : string) (c : Z) : prog' (string * Wallet) :=
  match blockchainForChainId evm c with
  | None => Throw (unsupportedChain c)
  | Some b =>
      let! adapter := registry_get adapters (Blockchain_name b) in
      match createCustodialWallet adapter with
      | None => Throw (unsupportedChainCapability "custodial wallet creation" (Blockchain_name b))
      | Some create_ =>
          let! kmsKey := rethrow (getWalletKmsKeyId env) in
          let! material := create_ in
          let! iv := gets (randomBytes 12) in
          let! encrypted := rethrow (encryptWalletKey env iv (cm_secret material) kmsKey) in
          wallet_createCustodial tenant owner c (cm_address material) encrypted kmsKey
      end
  end.
End Wallets.

(** ** Tokens *)
Section Tokens.
Context `{P : Platform} (adapters : list BlockchainAdapter).

Definition token_create (name symbol : string) (a : option string) (decimals_ : Z)
    (b : Blockchain) : prog' (string * Token) :=
  let! date := now in
  call Tokens (Platform.create
    (mkToken name symbol
       (if falsy a then None else normalizeContractAddress b <$> a) b true decimals_ 0 date)).

Definition token_findAll : prog' (list (string * Token)) :=
  query Tokens (findMany (fun _ t => isActive t)
    (fun x y => tok_createdAt y <=? tok_createdAt x) 0 None).

(** [{ blockchain, contractAddress: null }] *)
Definition native_token (b : Blockchain) (_ : string) (t : Token) : bool :=
  bool_decide (blockchain t = b) && negb (is_some (contractAddress t)).

Definition token_at (a : string) (_ : string) (t : Token) : bool :=
  same_some (contractAddress t) (Some a).

Definition exists_ (a : option string) (b : Blockchain) : prog' bool :=
  if falsy a then
    let! token := query Tokens (findFirst (native_token b) any_order) in Ret (is_some token)
  else
    let! token := query Tokens
      (findUnique (token_at (normalizeContractAddress b (default "" a)))) in
    Ret (is_some token).

Definition updateContractAddress (id a : string) : prog' unit :=
  call Tokens (update (at_id id (fun _ => true)) (fun t =>
    mkToken (tok_name t) (tok_symbol t) (Some a) (blockchain t) (isActive t) (decimals t)
      (tok_lastProcessedBlock t) (tok_createdAt t))).

Definition updateCheckpoint (id : string) (blockNumber_ : Z) : prog' unit :=
  call Tokens (update (at_id id (fun _ => true)) (fun t =>
    mkToken (tok_name t) (tok_symbol t) (contractAddress t) (blockchain t) (isActive t)
      (decimals t) blockNumber_ (tok_createdAt t))).

Definition registerToken (name symbol : string) (a : option string) (decimals_ : Z)
    (b : Blockchain) : prog' (string * Token) :=
  let! adapter := registry_get adapters (Blockchain_name b) in
  do! (if bool_decide (b = EVM) then
         if falsy a || negb (validateAssetIdentifier adapter (default "" a))
         then Throw (invalidAssetIdentifier (Blockchain_name b) (default "" a)) else Ret tt
       else
         match a with
         | Some x => Throw (invalidAssetIdentifier (Blockchain_name b) x)
         | None => Ret tt
         end) in
  let! taken := exists_ a b in
  if taken then Throw tokenAlreadyRegistered else token_create name symbol a decimals_ b.

Definition getTokens : prog' (list (string * Token)) := token_findAll.

Definition mintToken (tokenId receiver : string) (a : Z) : prog' string :=
  let! token := getToken tokenId in
  let! adapter := registry_get adapters (Blockchain_name (blockchain token.2)) in
  match mint adapter with
  | None => Throw (unsupportedChainCapability "mint" (Blockchain_name (blockchain token.2)))
  | Some mint_ =>
      let! asset := requireContractAddress (contractAddress token.2) in
      mint_ (mkMintRequest asset receiver a)
  end.
End Tokens.

(** ** They leave the ledger alone *)
Section Guards.
Context `{P : Platform} `{!PlatformLaws P} `{K : Crypto} `{KS : !Keys} (env : Env) (evm : Z).
Context (isEvmAddress isOnCurve : string -> bool).
Context (adapters : list BlockchainAdapter) (Ha : Forall AdapterSteady adapters).

Lemma guards_createWallet t o c a :
  guards steady (createWallet evm isEvmAddress isOnCurve t o c a).
Proof. unfold createWallet, findByAddress, wallet_create. solve_guards. Qed.

Lemma adapter_of_registry a : a ∈ adapters -> AdapterSteady a.
Proof. intros H. rewrite Forall_forall in Ha. by apply Ha. Qed.

Lemma guards_custodial_createWallet t o c :
  guards steady (custodial_createWallet env evm adapters t o c).
Proof.
  unfold custodial_createWallet. destruct (blockchainForChainId evm c); [|done].
  apply guards_registry_bind. intros a Hin%adapter_of_registry.
  destruct (createCustodialWallet a) as [p|] eqn:E; [|done].
  pose proof (createCustodialWallet_steady p E). unfold wallet_createCustodial. solve_guards.
Qed.

Lemma guards_registerToken n s a d b : guards steady (registerToken adapters n s a d b).
Proof. unfold registerToken, exists_, token_create. solve_guards. Qed.

Lemma guards_mintToken t r a : guards steady (mintToken adapters t r a).
Proof.
  unfold mintToken, getToken, token_findById. apply guards_bind; [solve_guards|].
  intros token. apply guards_registry_bind. intros x Hin%adapter_of_registry.
  destruct (mint x) as [f|] eqn:E; [|done]. unfold requireContractAddress.
  apply guards_bind; [solve_guards|]. intros asset. by apply (mint_steady f).
Qed.
End Guards.

#[export] Hint Resolve guards_createWallet guards_custodial_createWallet guards_registerToken
  guards_mintToken : guards.

(** ** Wallets *)

(** A created row is the only change. *)
Lemma create_inv `{P : Platform} `{!PlatformLaws P} {R} `{Table R}
    (l : lens World (gmap string R)) (r : R) w id r' w' :
  exec (call l (Platform.create r)) w = (inl (id, r'), w') ->
  r' = r /\ view l w !! id = None /\ w' = put l (<[id := r]> (view l w)) w /\
  table_ok (<[id := r]> (view l w)).
Proof.
  rewrite exec_call. unfold on.
  destruct (create_cases r (view l w)) as [[Hok E]|[c E]]; rewrite E; [|done].
  cbn [fst snd]. intros [= <- <- <-]. split_and!; [done|apply uuid_fresh|done|done].
Qed.

(** The query of [findByAddress], for an address that is spelled in any way. *)
Lemma findByAddress_spelling `{P : Platform} `{!PlatformLaws P} evm c a id r w :
  wallets w !! id = Some r -> address r = normalizeWalletAddress evm c a ->
  exists x, exec (findByAddress evm c a) w = (inl (Some x), w).
Proof.
  intros E Hr. unfold findByAddress, normalizeWalletAddress in *.
  destruct (isCaseInsensitiveWalletAddress evm c a); rewrite exec_query; cbn [view Wallets];
    match goal with |- exists _, (inl ?f, _) = _ => destruct f as [x|] eqn:F end;
    try (by eexists); exfalso; pose proof (proj1 (findFirst_None _ _ _) F id r E) as Hx;
    cbn beta in Hx.
  - unfold equals_insensitive in Hx. by rewrite Hr, toLowerCase_idem, String.eqb_refl in Hx.
  - by rewrite Hr, String.eqb_refl in Hx.
Qed.

(** One wallet per address.  A successful registration adds exactly one row,
    an EXTERNAL wallet of the caller at the normalised address; afterwards the
    address cannot be registered again by anyone in any spelling the chain
    regards as the same, and a rejected attempt changes nothing. *)
Theorem wallet_registered_once `{P : Platform} `{!PlatformLaws P}
    evm isEvm isOnCurve tenant owner c a w id r w' :
  exec (createWallet evm isEvm isOnCurve tenant owner c a) w = (inl (id, r), w') ->
  r = mkWallet tenant owner c (normalizeWalletAddress evm c a) EXTERNAL ACTIVE None (clock w) /\
  wallets w !! id = None /\ w' = put Wallets (<[id := r]> (wallets w)) w /\
  forall tenant' owner' b,
    normalizeWalletAddress evm c b = normalizeWalletAddress evm c a ->
    exec (createWallet evm isEvm isOnCurve tenant' owner' c b) w'
    = (inr (if isValidWalletAddress evm isEvm isOnCurve c b then walletAlreadyExists
            else invalidWalletAddress), w').
Proof.
  unfold createWallet at 1. destruct (negb _); [done|]. rewrite exec_bind.
  assert (Hq : exists o, exec (findByAddress evm c a) w = (inl o, w)).
  { unfold findByAddress. destruct (isCaseInsensitiveWalletAddress _ _ _);
      rewrite exec_query; by eexists. }
  destruct Hq as [[x|] ->]; [done|]. intros H. apply create_inv in H as (-> & Hn & -> & _).
  split_and!; [done..|]. intros tenant' owner' b Hb. unfold createWallet.
  destruct (isValidWalletAddress evm isEvm isOnCurve c b); [|done]. cbn [negb].
  match goal with |- exec _ ?w2 = _ =>
    destruct (findByAddress_spelling evm c b id
      (mkWallet tenant owner c (normalizeWalletAddress evm c a) EXTERNAL ACTIVE None (clock w)) w2) as [x Hx] end.
  - apply lookup_insert_eq.
  - by rewrite Hb.
  - rewrite exec_bind, Hx. done.
Qed.

(** The signing path on a stored wallet. *)
Lemma signing_key_stored `{P : Platform} `{!PlatformLaws P} `{K : Crypto} env id t r w :
  wallets w !! id = Some r ->
  exec (signing_key env id t) w =
  (if String.eqb (wal_tenantId r) t then
     match custodyType r, custodyKey r with
     | CUSTODIAL, Some x => decryptWalletKey env (encryptedKey x) (kmsKeyId x)
     | _, _ => inr (walletNotCustodial None)
     end
   else inr (walletNotFound None), w).
Proof.
  intros E. unfold signing_key, findByIdForTenantWithCustody. rewrite exec_bind, exec_query.
  cbn [view Wallets]. change (findFirst ?f any_order ?m) with (findUnique f m).
  rewrite findUnique_at_id, E. destruct (String.eqb (wal_tenantId r) t); [|done].
  destruct (custodyType r), (custodyKey r); try done. by rewrite exec_rethrow.
Qed.

(** Random bytes come in the number asked for. *)
Class KeysLaws `{ChainNodes} (KS : Keys) : Prop :=
  randomBytes_length : forall n w, length (randomBytes n w) = n.

(** C31: the platform can sign for every wallet it creates, and for nobody else's.
    When a custodial wallet was created, it is at the (normalised) address of the
    key pair the adapter generated, and the signing path of its own tenant
    decrypts exactly the secret that was generated; any other tenant gets
    "wallet not found". *)
Theorem custodial_wallet_signs `{P : Platform} `{!PlatformLaws P} `{K : Crypto} `{!CryptoLaws K}
    `{KS : !Keys} `{!KeysLaws KS} env evm adapters tenant owner c b ad p w m w1 id r w' :
  blockchainForChainId evm c = Some b ->
  List.find (fun x => String.eqb (chain_ x) (toUpperCase (Blockchain_name b))) adapters = Some ad ->
  createCustodialWallet ad = Some p ->
  exec p w = (inl m, w1) ->
  exec (custodial_createWallet env evm adapters tenant owner c) w = (inl (id, r), w') ->
  address r = normalizeWalletAddress evm c (cm_address m) /\ custodyType r = CUSTODIAL /\
  exec (signing_key env id tenant) w' = (inl (cm_secret m), w') /\
  forall other, other <> tenant -> exec (signing_key env id other) w' = (inr (walletNotFound None), w').
Proof.
  intros Hb Had Hp Hm. unfold custodial_createWallet. rewrite Hb, exec_bind.
  rewrite (registry_get_exec _ _ _ _ Had), Hp, exec_bind, exec_rethrow.
  destruct (getWalletKmsKeyId env) as [kms|e]; [|done]. rewrite exec_bind, Hm.
  rewrite exec_bind, exec_gets, exec_bind, exec_rethrow.
  destruct (encryptWalletKey env (randomBytes 12 w1) (cm_secret m) kms) as [enc|e] eqn:En; [|done].
  intros H. apply create_inv in H as (-> & _ & -> & _).
  split_and!; [done|done| |intros other Ho];
    (erewrite signing_key_stored; [|apply lookup_insert_eq]); cbn [wal_tenantId].
  - rewrite String.eqb_refl. cbn [custodyType custodyKey encryptedKey kmsKeyId].
    rewrite (decrypt_encrypt env (randomBytes 12 w1) (cm_secret m) kms enc); [done| |done].
    apply randomBytes_length.
  - by destruct (String.eqb_spec tenant other).
Qed.

(** ** Tokens *)

(** The answer of [exists_] from the rows it looks for. *)
Definition registered (a : option string) (b : Blockchain) : string -> Token -> bool :=
  if falsy a then native_token b else token_at (normalizeContractAddress b (default "" a)).

Lemma exists_exec `{P : Platform} `{!PlatformLaws P} a b w :
  exists found, exec (exists_ a b) w = (inl found, w) /\
    (found = true <-> exists k t, tokens w !! k = Some t /\ registered a b k t = true).
Proof.
  assert (H : forall f : string -> Token -> bool,
    is_some (findFirst f any_order (tokens w)) = true <->
    exists k t, tokens w !! k = Some t /\ f k t = true).
  { intros f. destruct (findFirst f any_order (tokens w)) as [[k t]|] eqn:F; cbn.
    - split; [|done]. intros _. exists k, t. by apply (findFirst_Some f any_order).
    - split; [done|]. intros (k & t & E & Ht).
      pose proof (proj1 (findFirst_None _ _ _) F k t E). congruence. }
  unfold exists_, registered. destruct (falsy a); rewrite exec_bind, exec_query; eexists;
    (split; [reflexivity|]); apply H.
Qed.

(** The request is well-formed: a contract address exactly on EVM. *)
Definition asset_accepted `{ChainNodes} (ad : BlockchainAdapter) (a : option string)
    (b : Blockchain) : bool :=
  if bool_decide (b = EVM) then negb (falsy a) && validateAssetIdentifier ad (default "" a)
  else negb (is_some a).

Lemma registerToken_exec `{P : Platform} `{!PlatformLaws P} adapters ad name symbol a d b w :
  List.find (fun x => String.eqb (chain_ x) (toUpperCase (Blockchain_name b))) adapters = Some ad ->
  exists found, (found = true <-> exists k t, tokens w !! k = Some t /\ registered a b k t = true) /\
  exec (registerToken adapters name symbol a d b) w =
  if asset_accepted ad a b then
    if found then (inr tokenAlreadyRegistered, w) else exec (token_create name symbol a d b) w
  else (inr (invalidAssetIdentifier (Blockchain_name b) (default "" a)), w).
Proof.
  intros Had. destruct (exists_exec a b w) as (found & Ex & Hf). exists found. split; [done|].
  unfold registerToken, asset_accepted. rewrite exec_bind, (registry_get_exec _ _ _ _ Had).
  rewrite exec_bind. case_bool_decide.
  - destruct (falsy a); cbn [orb negb andb]; [done|].
    destruct (validateAssetIdentifier ad (default "" a)); cbn [negb]; [|done].
    rewrite exec_ret, exec_bind, Ex. by destruct found.
  - destruct a; cbn [is_some negb]; [done|]. rewrite exec_ret, exec_bind, Ex. by destruct found.
Qed.

(** One token per asset, when requests come one after the other.  A successful
    registration adds exactly one active row, with the contract address in lower
    case on EVM and none on the other chains; a further registration of the same
    contract in any letter case, or of the same chain's native asset, is rejected
    and changes nothing. *)
Theorem token_registered_once `{P : Platform} `{!PlatformLaws P}
    adapters ad name symbol a d b w id t w' :
  List.find (fun x => String.eqb (chain_ x) (toUpperCase (Blockchain_name b))) adapters = Some ad ->
  exec (registerToken adapters name symbol a d b) w = (inl (id, t), w') ->
  t = mkToken name symbol (if bool_decide (b = EVM) then toLowerCase <$> a else None) b true d 0
        (clock w) /\
  tokens w !! id = None /\ w' = put Tokens (<[id := t]> (tokens w)) w /\
  forall name' symbol' a' d',
    asset_accepted ad a' b = true -> toLowerCase <$> a' = toLowerCase <$> a ->
    exec (registerToken adapters name' symbol' a' d' b) w' = (inr tokenAlreadyRegistered, w').
Proof.
  intros Had H. destruct (registerToken_exec adapters ad name symbol a d b w Had) as (fd & _ & E).
  rewrite E in H. clear E. destruct (asset_accepted ad a b) eqn:Hacc; [|done]. destruct fd; [done|].
  unfold token_create in H. rewrite exec_bind, exec_now in H.
  apply create_inv in H as (-> & Hn & -> & _).
  assert (Hrow : (if falsy a then None else normalizeContractAddress b <$> a)
                 = (if bool_decide (b = EVM) then toLowerCase <$> a else None)).
  { unfold asset_accepted, normalizeContractAddress, isCaseInsensitiveAssetIdentifier in *.
    case_bool_decide; [by destruct (falsy a)|]. by destruct a. }
  rewrite Hrow. split_and!; [done..|]. intros name' symbol' a' d' Hacc' Ha'.
  match goal with |- exec _ ?w2 = _ =>
    destruct (registerToken_exec adapters ad name' symbol' a' d' b w2 Had) as (fd & Hfd & ->) end.
  rewrite Hacc'. replace fd with true; [done|]. symmetry. apply Hfd.
  eexists id, _. split; [apply lookup_insert_eq|].
  unfold registered, asset_accepted, native_token, token_at, normalizeContractAddress,
    isCaseInsensitiveAssetIdentifier in *. case_bool_decide.
  - destruct a' as [x'|]; [|done]. destruct a as [x|]; [|done]. cbn in Ha'. injection Ha' as Ha'.
    destruct (falsy (Some x')); [done|]. cbn. rewrite Ha'. apply String.eqb_refl.
  - destruct a'; [done|]. cbn. by rewrite bool_decide_true.
Qed.

(** Minting.  For a registered EVM token the request is signed with the
    operator's key and sent to the token's contract; the answer is the hash in the
    receipt the node returns, whether that receipt reports success or a reverted
    transaction.  Nothing is written to the database. *)
Theorem mint_reports_receipt `{P : Platform} `{!PlatformLaws P} `{K : Crypto} `{KS : !Keys}
    env isEvm adapters tokenId receiver a t key_ x s h c' h' rc w :
  tokens w !! tokenId = Some t -> blockchain t = EVM ->
  contractAddress t = Some (String x s) -> env "PRIVATE_KEY" = Some key_ -> key_ <> "" ->
  List.find (fun x => String.eqb (chain_ x) "EVM") adapters = Some (EvmAdapter env isEvm) ->
  evm_mint key_ (String x s) receiver a (chain w) = (inl h, c') ->
  evm_waitForTransactionReceipt h c' = inl (h', rc) ->
  exec (mintToken adapters tokenId receiver a) w = (inl h', put Node c' w).
Proof.
  intros Et Hb Hc Hk Hne Had Hm Hr. unfold mintToken.
  rewrite exec_bind, getToken_exec, Et. cbn [snd fst].
  rewrite exec_bind, Hb. change (Blockchain_name EVM) with "EVM".
  rewrite (registry_get_exec adapters "EVM" _ w Had). cbn [mint EvmAdapter].
  rewrite exec_bind, Hc. cbn [requireContractAddress]. rewrite exec_ret.
  unfold evm_mint_op, mintService_mint, getMinterPrivateKey. rewrite !exec_bind.
  rewrite Hk. replace (falsy (Some key_)) with false by (by destruct key_). rewrite exec_ret.
  cbn [mr_assetIdentifier mr_toAddress mr_amount]. rewrite exec_bind, exec_call. unfold on.
  cbn [view Node]. change (default "" (Some key_)) with key_. rewrite Hm. cbn [fst snd].
  rewrite exec_ask. cbn [view put Node chain]. by rewrite Hr.
Qed.

Section Witness.
#[local] Existing Instance ref_platform.
#[local] Existing Instance ref_platform_laws.
#[local] Existing Instance plain_crypto.
#[local] Existing Instance plain_crypto_laws.
#[local] Existing Instance no_keys.

#[local] Instance no_keys_laws : KeysLaws no_keys.
Proof. intros n w. apply repeat_length. Qed.

Definition all_adapters : list BlockchainAdapter :=
  blockchainAdapterRegistry local_env (fun _ => true).
Definition blank : World := fresh_world 1000 quiet.

Definition register_wallet (owner a : string) : prog' (string * Wallet) :=
  createWallet 31337 (fun _ => true) (fun _ => true) "t1" owner 31337 a.

Definition alices : Wallet := mkWallet "t1" "u1" 31337 "0xabc" EXTERNAL ACTIVE None 1000.

Lemma wallet_registered_once_witness :
  exec (register_wallet "u2" "0XABC") (put Wallets {["x" := alices]} blank)
  = (inr walletAlreadyExists, put Wallets {["x" := alices]} blank).
Proof.
  destruct (wallet_registered_once 31337 (fun _ => true) (fun _ => true) "t1" "u1" 31337 "0xAbC"
    blank "x" alices (put Wallets {["x" := alices]} blank)) as (_ & _ & _ & H);
    [vm_compute; reflexivity|].
  apply (H "t1" "u2" "0XABC"). vm_compute. reflexivity.
Defined.

Definition custodial : (string * Wallet + err) * World :=
  exec (custodial_createWallet local_env 31337 all_adapters "t1" "u1" 31337) blank.

Definition custodial_wallet : string * Wallet :=
  match custodial.1 with inl x => x | inr _ => ("", alices) end.

Lemma custodial_wallet_signs_witness :
  exec (signing_key local_env custodial_wallet.1 "t1") custodial.2 = (inl "0xkey", custodial.2) /\
  exec (signing_key local_env custodial_wallet.1 "t2") custodial.2
  = (inr (walletNotFound None), custodial.2).
Proof.
  destruct (custodial_wallet_signs local_env 31337 all_adapters "t1" "u1" 31337 EVM
    (EvmAdapter local_env (fun _ => true)) evm_createCustodialWallet blank
    (mkMaterial "0xADDR" "0xkey") blank custodial_wallet.1 custodial_wallet.2 custodial.2)
    as (_ & _ & H1 & H2); [reflexivity..|vm_compute; reflexivity|].
  split; [exact H1|by apply H2].
Defined.

Definition register_usd (a : string) : prog' (string * Token) :=
  registerToken all_adapters "USD" "USD" (Some a) 6 EVM.

Definition usd_row : Token := mkToken "USD" "USD" (Some "0xt") EVM true 6 0 1000.

Lemma token_registered_once_witness :
  exec (register_usd "0XT") (put Tokens {["x" := usd_row]} blank)
  = (inr tokenAlreadyRegistered, put Tokens {["x" := usd_row]} blank).
Proof.
  destruct (token_registered_once all_adapters (EvmAdapter local_env (fun _ => true)) "USD" "USD"
    (Some "0xT") 6 EVM blank "x" usd_row (put Tokens {["x" := usd_row]} blank))
    as (_ & _ & _ & H); [reflexivity|vm_compute; reflexivity|].
  by apply (H "USD" "USD" (Some "0XT") 6).
Defined.

(** Two concurrent registrations of Bitcoin's native asset: the second request is
    handled completely between the first one's check and its insert.  Both
    succeed, because the unique constraint does not cover absent addresses. *)
Example native_token_registered_twice :
  let p := registerToken all_adapters "Bitcoin" "BTC" None 8 BITCOIN in
  let other w := (exec p w).2 in
  let '(r, w, _) := run p [EnvStep id Commit; EnvStep other Commit] blank in
  (match r with inl _ => true | inr _ => false end) = true /\
  List.length (rows (native_token BITCOIN) (tokens w)) = 2%nat.
Proof. vm_compute. done. Qed.

(** A node on which the mint transaction reverts. *)
Definition minter_env : Env := fun v => if String.eqb v "PRIVATE_KEY" then Some "0xop" else None.
Definition reverting : World :=
  put Tokens {["x" := usd_row]}
    (fresh_world 1000 (mkScript {["0xm" := mkReceipt false 5 21000]} ∅ ∅ ∅ 0 [] ∅ ∅ (Some "0xm") [])).

Lemma mint_reports_receipt_witness :
  (exec (mintToken [EvmAdapter minter_env (fun _ => true)] "x" "0xr" 9) reverting).1 = inl "0xm".
Proof.
  rewrite (mint_reports_receipt minter_env (fun _ => true) [EvmAdapter minter_env (fun _ => true)]
    "x" "0xr" 9 usd_row "0xop" (Ascii.ascii_of_nat 48) "xt" "0xm"
    (snd (evm_mint "0xop" "0xt" "0xr" 9 (chain reverting))) "0xm" (mkReceipt false 5 21000));
    reflexivity || done.
Defined.
End Witness.
