(* ===== verification/Ownership.v ===== *)
(** * Proof of wallet ownership

    [src/services/wallet-ownership.service.ts]: a stateless challenge.  The
    server seals the claims (tenant, user, chain, address, nonce, times) with an
    HMAC; the wallet signs the message rebuilt from them. *)

From S2P Require Import Prelude JsString Schema Platform Reference TransactionRepository Guarantee Addresses Envelope Encoding Json Dates Adapters Index LogWindows EventListener Reconcile Registration.
From Stdlib Require Import Ascii.
From stdpp Require Import pretty.
#[local] Open Scope Z_scope.

(** Node's [createHmac('sha256', key).update(data).digest()]. *)
Class Hmac := hmac_sha256 : bytes -> bytes -> bytes.

Class HmacLaws (H : Hmac) : Prop :=
  hmac_length : forall k d, length (hmac_sha256 k d) = 32%nat.

Definition CHALLENGE_VERSION : Z := 1.
Definition CHALLENGE_TTL_MS : Z := 5 * 60 * 1000.
Definition MAX_CHALLENGE_LENGTH : nat := 2048.
Definition KEY_LABEL : string := "wallet-ownership-challenge:v1".

Record ChallengeClaims := mkClaims {
  v : Z; tid : string; uid : string; cid : Z; addr : string; nonce : string;
  iat : number; exp : number }.

Record OwnershipSubject := mkSubject {
  os_tenantId : string; os_userId : string; os_chainId : Z; os_address : string }.

Record IssuedChallenge := mkIssued { ic_message : string; challenge : string; expiresAt_ : string }.

Definition ownershipProofRequired : err :=
  AppError 400 "OWNERSHIP_PROOF_REQUIRED"
    "Proof of wallet ownership is required: request a challenge, sign it with the wallet, and send challenge and signature" None.
Definition invalidOwnershipChallenge : err :=
  AppError 400 "INVALID_OWNERSHIP_CHALLENGE" "Ownership challenge is invalid or has expired" None.
Definition invalidOwnershipSignature : err :=
  AppError 403 "INVALID_OWNERSHIP_SIGNATURE" "Signature does not prove control of this address" None.

Definition isOwnershipProofRequired (env : Env) : bool + err :=
  let raw := (fun s => toLowerCase (trim s)) <$> env "REQUIRE_WALLET_OWNERSHIP_PROOF" in
  match raw with
  | None => inl false
  | Some s =>
      if bool_decide (s ∈ [""; "false"; "0"]) then inl false
      else if bool_decide (s ∈ ["true"; "1"]) then inl true
      else inr (PlainError ("Invalid REQUIRE_WALLET_OWNERSHIP_PROOF " +:+
             in_quotes (default "" (env "REQUIRE_WALLET_OWNERSHIP_PROOF")) +:+ ": expected true or false"))
  end.

Definition buildOwnershipMessage (c : ChallengeClaims) : string + err :=
  match toISOString (iat c), toISOString (exp c) with
  | Some i, Some e =>
      inl (String.concat newline
        [ "Link this wallet to the Blockchain Transaction Simulator."; "";
          "Address: " +:+ addr c;
          "Chain ID: " +:+ pretty (cid c);
          "Nonce: " +:+ nonce c;
          "Issued At: " +:+ i;
          "Expires At: " +:+ e; "";
          "Signing only proves you control this address. It sends no transaction and costs no gas." ])
  | _, _ => inr (PlainError "Invalid time value")
  end.

(** [claims.k] on a parsed value; [None] is undefined. *)
Definition prop (k : string) (j : jsval) : option jsval :=
  match j with JsObj l => member k l | _ => None end.

(** The claims of a parsed payload, when it is well formed. *)
Definition to_claims (j : jsval) : option ChallengeClaims :=
  match prop "v" j, prop "tid" j, prop "uid" j, prop "cid" j, prop "addr" j, prop "nonce" j,
        prop "iat" j, prop "exp" j with
  | Some (JsNum (Int v_)), Some (JsStr t), Some (JsStr u), Some (JsNum (Int c)), Some (JsStr a),
    Some (JsStr n), Some (JsNum i), Some (JsNum e) =>
      match i, e with
      | Infinity _, _ | _, Infinity _ => None
      | _, _ => if v_ =? CHALLENGE_VERSION then Some (mkClaims v_ t u c a n i e) else None
      end
  | _, _, _, _, _, _, _, _ => None
  end.

(** [n <= t] for a finite number and an integer. *)
Definition at_most (n : number) (t : Z) : bool :=
  match n with Int z => z <=? t | Frac b => b <? t | Infinity neg => neg end.

Definition claims_json (c : ChallengeClaims) : jsval :=
  JsObj [("v", JsNum (Int (v c))); ("tid", JsStr (tid c)); ("uid", JsStr (uid c));
         ("cid", JsNum (Int (cid c))); ("addr", JsStr (addr c)); ("nonce", JsStr (nonce c));
         ("iat", JsNum (iat c)); ("exp", JsNum (exp c))].

Section Seal.
Context `{M : Hmac} (secret : string).

Definition key : bytes := hmac_sha256 (utf8 secret) (utf8 KEY_LABEL).

Definition mac (payload : string) : bytes := hmac_sha256 key (utf8 payload).

(** [Buffer.from(JSON.stringify(claims)).toString('base64url')] *)
Definition payload_of (c : ChallengeClaims) : string := base64url (stringify (claims_json c)).

Definition seal (c : ChallengeClaims) : string :=
  payload_of c +:+ "." +:+ base64url (mac (payload_of c)).

(** Reading a property of [null] throws outside the [try]. *)
Definition open (time : Z) (token : string) : ChallengeClaims + err :=
  if (MAX_CHALLENGE_LENGTH <? String.length token)%nat then inr invalidOwnershipChallenge
  else match split_on "." token with
  | [payload; presentedMac] =>
      let presented := of_base64url presentedMac in
      if bool_decide (presented = mac payload) then
        match JSON_parse (of_base64url payload) with
        | None => inr invalidOwnershipChallenge
        | Some JsNull => inr (PlainError "Cannot read properties of null (reading 'v')")
        | Some j =>
            match to_claims j with
            | Some c => if at_most (exp c) time then inr invalidOwnershipChallenge else inl c
            | None => inr invalidOwnershipChallenge
            end
        end
      else inr invalidOwnershipChallenge
  | _ => inr invalidOwnershipChallenge
  end.
End Seal.

(** ** The service *)
Section Service.
Context `{P : Platform} `{M : Hmac} `{KS : !Keys} (env : Env) (secret : string) (evm : Z).
Context (isEvmAddress isOnCurve : string -> bool) (adapters : list BlockchainAdapter).

Definition issueChallenge (s : OwnershipSubject) : prog' IssuedChallenge :=
  match blockchainForChainId evm (os_chainId s) with
  | None => Throw (unsupportedChain (os_chainId s))
  | Some b =>
      let! adapter := registry_get adapters (Blockchain_name b) in
      if negb (is_some (verifyOwnership adapter))
      then Throw (unsupportedChainCapability "ownership verification" (Blockchain_name b))
      else if negb (isValidWalletAddress evm isEvmAddress isOnCurve (os_chainId s) (os_address s))
      then Throw invalidWalletAddress
      else
        let! issuedAt := now in
        let! random := gets (randomBytes 16) in
        let claims := mkClaims CHALLENGE_VERSION (os_tenantId s) (os_userId s) (os_chainId s)
          (normalizeWalletAddress evm (os_chainId s) (os_address s)) (to_hex random)
          (Int issuedAt) (Int (issuedAt + CHALLENGE_TTL_MS)) in
        let! message := rethrow (buildOwnershipMessage claims) in
        match toISOString (exp claims) with
        | Some e => Ret (mkIssued message (seal secret claims) e)
        | None => Throw (PlainError "Invalid time value")
        end
  end.

(** The claims name the caller, the chain and the address of the request. *)
Definition matchesRequest (c : ChallengeClaims) (s : OwnershipSubject) : bool :=
  String.eqb (tid c) (os_tenantId s) && String.eqb (uid c) (os_userId s)
  && (cid c =? os_chainId s)
  && String.eqb (addr c) (normalizeWalletAddress evm (os_chainId s) (os_address s)).

Definition assertOwnership (s : OwnershipSubject) (challenge signature : option string)
  : prog' unit :=
  match blockchainForChainId evm (os_chainId s) with
  | None => Ret tt
  | Some b =>
      let! required := rethrow (isOwnershipProofRequired env) in
      let proofGiven := is_some challenge && is_some signature in
      if negb required && negb proofGiven then Ret tt
      else
        let! adapter := registry_get adapters (Blockchain_name b) in
        match verifyOwnership adapter with
        | None => Throw (unsupportedChainCapability "ownership verification" (Blockchain_name b))
        | Some verify =>
            match challenge, signature with
            | Some token, Some sig =>
                let! time := now in
                let! claims := rethrow (open secret time token) in
                if negb (matchesRequest claims s) then Throw invalidOwnershipChallenge
                else
                  let! message := rethrow (buildOwnershipMessage claims) in
                  let! proven := verify (mkOwnershipRequest (addr claims) message sig) in
                  if proven then Ret tt else Throw invalidOwnershipSignature
            | _, _ => Throw ownershipProofRequired
            end
        end
  end.
End Service.

(** It leaves the ledger alone. *)
Section Guards.
Context `{P : Platform} `{M : Hmac} `{KS : !Keys} (env : Env) (secret : string) (evm : Z).
Context (isEvmAddress isOnCurve : string -> bool).
Context (adapters : list BlockchainAdapter) (Ha : Forall AdapterSteady adapters).

Lemma guards_issueChallenge s :
  guards steady (issueChallenge secret evm isEvmAddress isOnCurve adapters s).
Proof.
  unfold issueChallenge. destruct (blockchainForChainId _ _); [|done].
  apply guards_registry_bind. intros a _. destruct (negb _); [done|]. destruct (negb _); [done|].
  solve_guards.
Qed.

Lemma guards_assertOwnership s c sig :
  guards steady (assertOwnership env secret evm adapters s c sig).
Proof.
  unfold assertOwnership. destruct (blockchainForChainId _ _); [|done].
  apply guards_bind; [solve_guards|]. intros r. destruct (_ && _); [done|].
  apply guards_registry_bind. intros a Hin.
  destruct (verifyOwnership a) as [f|] eqn:E; [|done]. destruct c; [|done]. destruct sig; [|done].
  solve_guards. rewrite Forall_forall in Ha. by apply (Ha a Hin).
Qed.
End Guards.

#[export] Hint Resolve guards_issueChallenge guards_assertOwnership : guards.

(** ** Tokens *)

(** A number that prints and is read back. *)
Definition plain (n : number) : Prop := exists z, n = Int z /\ Z.abs z <= MAX_SAFE_INTEGER.

Definition claims_ok (c : ChallengeClaims) : Prop :=
  v c = CHALLENGE_VERSION /\ Z.abs (cid c) <= MAX_SAFE_INTEGER /\ plain (iat c) /\ plain (exp c).

Lemma claims_parse c :
  claims_ok c -> JSON_parse (stringify (claims_json c)) = Some (claims_json c).
Proof.
  intros (Hv & Hc & (i & Hi & Bi) & (e & He & Be)). apply JSON_parse_stringify.
  unfold claims_json. rewrite Hi, He, Hv. cbn [exact forallb snd].
  apply Z.leb_le in Hc, Bi, Be. by rewrite Hc, Bi, Be.
Qed.

Lemma to_claims_json c : claims_ok c -> to_claims (claims_json c) = Some c.
Proof.
  intros (Hv & _ & (i & Hi & _) & (e & He & _)). destruct c; cbn in *. by subst.
Qed.

Section Tokens.
Context `{M : Hmac} (secret : string).

Lemma split_seal c : split_on "." (seal secret c) = [payload_of c; base64url (mac secret (payload_of c))].
Proof.
  unfold seal. rewrite split_on_app by apply base64url_no_dot.
  by rewrite split_on_none by apply base64url_no_dot.
Qed.

Lemma open_seal c time :
  claims_ok c -> (String.length (seal secret c) <= MAX_CHALLENGE_LENGTH)%nat ->
  open secret time (seal secret c) =
  if at_most (exp c) time then inr invalidOwnershipChallenge else inl c.
Proof.
  intros Hc Hl. unfold open. rewrite (proj2 (Nat.ltb_ge _ _) Hl), split_seal.
  rewrite of_base64url_base64url, bool_decide_eq_true_2 by done. unfold payload_of.
  rewrite of_base64url_base64url, (claims_parse c Hc).
  change (claims_json c) with (JsObj match claims_json c with JsObj l => l | _ => [] end) at 1.
  cbv iota. rewrite (to_claims_json c Hc). done.
Qed.

(** What an accepted token is: sealed under the key, well formed and current. *)
Lemma open_inv token time c :
  open secret time token = inl c ->
  exists payload presented j,
    token = payload +:+ "." +:+ presented /\ of_base64url presented = mac secret payload /\
    JSON_parse (of_base64url payload) = Some j /\ to_claims j = Some c /\
    at_most (exp c) time = false.
Proof.
  unfold open. destruct (_ <? _)%nat; [done|]. pose proof (split_on_inv "." token) as Hs.
  destruct (split_on "." token) as [|payload [|presented [|]]]; try done. cbn in Hs.
  case_bool_decide as Hm; [|done].
  destruct (JSON_parse (of_base64url payload)) as [j|] eqn:Ej; [|done].
  destruct (to_claims j) as [c'|] eqn:Et.
  - destruct j; try done. destruct (at_most (exp c') time) eqn:Ex; [done|].
    intros [= <-]. eauto 10.
  - by destruct j.
Qed.
End Tokens.

(** ** The gate *)
Section Gate.
Context `{P : Platform} `{M : Hmac} `{KS : !Keys} (env : Env) (secret : string) (evm : Z).
Context (isEvmAddress isOnCurve : string -> bool) (adapters : list BlockchainAdapter).
Context (Hevm : Z.abs evm <= MAX_SAFE_INTEGER).

Abbreviation issue := (issueChallenge secret evm isEvmAddress isOnCurve adapters).
Abbreviation assert_ := (assertOwnership env secret evm adapters).
Abbreviation normalized s := (normalizeWalletAddress evm (os_chainId s) (os_address s)).

(** The claims sealed for a subject in a given world. *)
Definition claims_for (s : OwnershipSubject) (w : World) : ChallengeClaims :=
  mkClaims CHALLENGE_VERSION (os_tenantId s) (os_userId s) (os_chainId s) (normalized s)
    (to_hex (randomBytes 16 w)) (Int (clock w)) (Int (clock w + CHALLENGE_TTL_MS)).

Lemma chain_id_safe c b : blockchainForChainId evm c = Some b -> Z.abs c <= MAX_SAFE_INTEGER.
Proof.
  unfold blockchainForChainId, isEvmChainId. destruct (Z.eqb_spec c evm) as [->|_]; [done|].
  destruct (Z.eqb_spec c BITCOIN_REGTEST_CHAIN_ID) as [->|_]; [done|].
  by destruct (Z.eqb_spec c SOLANA_LOCALNET_CHAIN_ID) as [->|_].
Qed.

Lemma buildOwnershipMessage_inv c m i :
  buildOwnershipMessage c = inl m -> iat c = Int i -> Z.abs i <= MAX_TIME.
Proof.
  unfold buildOwnershipMessage. intros H E. rewrite E in H. cbn [toISOString] in H.
  destruct (Z.leb_spec (Z.abs i) MAX_TIME); [done|]. done.
Qed.

Lemma issueChallenge_inv s w ic w' :
  exec (issue s) w = (inl ic, w') ->
  w' = w /\ claims_ok (claims_for s w) /\
  buildOwnershipMessage (claims_for s w) = inl (ic_message ic) /\
  challenge ic = seal secret (claims_for s w) /\
  exists b ad f, blockchainForChainId evm (os_chainId s) = Some b /\
    List.find (fun x => String.eqb (chain_ x) (toUpperCase (Blockchain_name b))) adapters = Some ad /\
    verifyOwnership ad = Some f.
Proof.
  unfold issueChallenge. destruct (blockchainForChainId evm (os_chainId s)) as [b|] eqn:Eb; [|done].
  rewrite exec_bind. unfold registry_get at 1. destruct (List.find _ adapters) as [ad|] eqn:Ead; [|done].
  rewrite exec_ret. destruct (verifyOwnership ad) as [f|] eqn:Ef; [|done]. cbn [is_some negb].
  destruct (negb _); [done|]. rewrite exec_bind, exec_now, exec_bind, exec_gets, exec_bind, exec_rethrow.
  change (mkClaims _ _ _ _ _ _ _ _) with (claims_for s w).
  destruct (buildOwnershipMessage (claims_for s w)) as [m|e] eqn:Em; [|done].
  destruct (toISOString (exp (claims_for s w))) as [t|] eqn:Et; [|done].
  rewrite exec_ret. intros [= <- <-]. split_and!; [done| |done|done|by eauto 10].
  pose proof (buildOwnershipMessage_inv _ _ (clock w) Em eq_refl) as Hi.
  cbn in Et. destruct (Z.leb_spec (Z.abs (clock w + CHALLENGE_TTL_MS)) MAX_TIME) as [He|]; [|done].
  assert (HM : MAX_TIME <= MAX_SAFE_INTEGER) by done.
  split_and!; [done|by eapply chain_id_safe|..]; eexists; (split; [done|lia]).
Qed.

(** The part of the gate behind the choice of the adapter. *)
Lemma assertOwnership_exec s b ad f token sig w r :
  blockchainForChainId evm (os_chainId s) = Some b ->
  List.find (fun x => String.eqb (chain_ x) (toUpperCase (Blockchain_name b))) adapters = Some ad ->
  verifyOwnership ad = Some f ->
  isOwnershipProofRequired env = inl r ->
  exec (assert_ s (Some token) (Some sig)) w =
  match open secret (clock w) token with
  | inr e => (inr e, w)
  | inl c =>
      if matchesRequest evm c s then
        match buildOwnershipMessage c with
        | inr e => (inr e, w)
        | inl m =>
            let rw := exec (f (mkOwnershipRequest (addr c) m sig)) w in
            (match rw.1 with
             | inl true => inl tt
             | inl false => inr invalidOwnershipSignature
             | inr e => inr e
             end, rw.2)
        end
      else (inr invalidOwnershipChallenge, w)
  end.
Proof.
  intros Eb Ead Ef Er. unfold assertOwnership. rewrite Eb, exec_bind, exec_rethrow, Er.
  cbn [is_some andb negb]. rewrite andb_false_r, exec_bind, (registry_get_exec _ _ _ _ Ead), Ef.
  rewrite exec_bind, exec_now, exec_bind, exec_rethrow.
  destruct (open secret (clock w) token) as [c|e]; [|done].
  destruct (matchesRequest evm c s); cbn [negb]; [|done]. rewrite exec_bind, exec_rethrow.
  destruct (buildOwnershipMessage c) as [m|e]; [|done]. rewrite exec_bind.
  destruct (exec (f _) w) as [[[]|e] w2]; done.
Qed.

Lemma matchesRequest_spec c s :
  matchesRequest evm c s = true <->
  tid c = os_tenantId s /\ uid c = os_userId s /\ cid c = os_chainId s /\ addr c = normalized s.
Proof using Type.
  clear. unfold matchesRequest. rewrite !andb_true_iff, !String.eqb_eq, Z.eqb_eq. tauto.
Qed.
End Gate.

(** C23: a challenge proves what it was issued for, and nothing else.  When one of at
    most 2048 characters is presented before it expires, by the user it was issued to and for the same
    chain and address, the outcome is the adapter's verdict on the signature
    over the very message the user was shown; presented by another tenant or
    user, for another chain or address, or five minutes after it was issued, it
    is refused whatever the signature. *)
Theorem ownership_challenge_round_trip `{P : Platform} `{M : Hmac} `{KS : !Keys} env secret evm
    isEvm isOnCurve adapters s w0 ic w1 required b ad verify w s' sig :
  Z.abs evm <= MAX_SAFE_INTEGER ->
  exec (issueChallenge secret evm isEvm isOnCurve adapters s) w0 = (inl ic, w1) ->
  (String.length (challenge ic) <= MAX_CHALLENGE_LENGTH)%nat ->
  isOwnershipProofRequired env = inl required ->
  blockchainForChainId evm (os_chainId s') = Some b ->
  List.find (fun x => String.eqb (chain_ x) (toUpperCase (Blockchain_name b))) adapters = Some ad ->
  verifyOwnership ad = Some verify ->
  exec (assertOwnership env secret evm adapters s' (Some (challenge ic)) (Some sig)) w =
  if (clock w <? clock w0 + CHALLENGE_TTL_MS)
     && bool_decide (os_tenantId s' = os_tenantId s /\ os_userId s' = os_userId s /\
          os_chainId s' = os_chainId s /\
          normalizeWalletAddress evm (os_chainId s') (os_address s')
          = normalizeWalletAddress evm (os_chainId s) (os_address s))
  then
    let rw := exec (verify (mkOwnershipRequest
      (normalizeWalletAddress evm (os_chainId s) (os_address s)) (ic_message ic) sig)) w in
    (match rw.1 with
     | inl true => inl tt
     | inl false => inr invalidOwnershipSignature
     | inr e => inr e
     end, rw.2)
  else (inr invalidOwnershipChallenge, w).
Proof.
  intros Hevm Hi Hl Hr Hb Had Hf.
  apply (issueChallenge_inv _ _ _ _ _ Hevm) in Hi as (_ & Hok & Hm & Hs & _).
  rewrite (assertOwnership_exec env secret evm adapters s' b ad verify _ _ _ _ Hb Had Hf Hr).
  rewrite Hs in Hl |- *. rewrite (open_seal _ _ _ Hok Hl). cbn [exp claims_for at_most].
  destruct (Z.leb_spec (clock w0 + CHALLENGE_TTL_MS) (clock w)) as [Hx|Hx].
  - by rewrite (proj2 (Z.ltb_ge _ _) Hx).
  - rewrite (proj2 (Z.ltb_lt _ _) Hx). cbn [andb].
    destruct (matchesRequest evm (claims_for evm s w0) s') eqn:E.
    + apply matchesRequest_spec in E. cbn in E. destruct E as (E1 & E2 & E3 & E4).
      rewrite bool_decide_eq_true_2 by (split_and!; congruence). by rewrite Hm.
    + rewrite bool_decide_eq_false_2; [done|]. intros (E1 & E2 & E3 & E4).
      apply not_true_iff_false in E. apply E, matchesRequest_spec. cbn. split_and!; congruence.
Qed.

(** The MAC cannot be forged: a presented token whose MAC verifies carries the
    payload of a challenge the server issued (a subject and the world it was
    issued in). *)
Definition unforgeable `{P : Platform} `{M : Hmac} `{KS : !Keys} (secret : string) (evm : Z)
    (issued : list (OwnershipSubject * World)) (token : option string) : Prop :=
  forall payload presented, token = Some (payload +:+ "." +:+ presented) ->
    of_base64url presented = mac secret payload ->
    exists s w, (s, w) ∈ issued /\ payload = payload_of (claims_for evm s w).

(** C9: with proofs required, nobody registers an address without its key.  When
    the gate lets a request through on a known chain, a challenge had been
    issued to that very tenant and user for that chain and address, less than
    five minutes before, and the adapter verified the presented signature over
    that challenge's message. *)
Theorem ownership_gate `{P : Platform} `{M : Hmac} `{KS : !Keys} env secret evm
    isEvm isOnCurve adapters issued s b token signature w w' :
  Z.abs evm <= MAX_SAFE_INTEGER ->
  isOwnershipProofRequired env = inl true ->
  blockchainForChainId evm (os_chainId s) = Some b ->
  (forall s0 w0, (s0, w0) ∈ issued -> exists ic w1,
     exec (issueChallenge secret evm isEvm isOnCurve adapters s0) w0 = (inl ic, w1)) ->
  unforgeable secret evm issued token ->
  exec (assertOwnership env secret evm adapters s token signature) w = (inl tt, w') ->
  exists s0 w0 ic ad verify sig,
    (s0, w0) ∈ issued /\
    exec (issueChallenge secret evm isEvm isOnCurve adapters s0) w0 = (inl ic, w0) /\
    os_tenantId s0 = os_tenantId s /\ os_userId s0 = os_userId s /\ os_chainId s0 = os_chainId s /\
    normalizeWalletAddress evm (os_chainId s0) (os_address s0)
      = normalizeWalletAddress evm (os_chainId s) (os_address s) /\
    clock w < clock w0 + CHALLENGE_TTL_MS /\
    ad ∈ adapters /\ verifyOwnership ad = Some verify /\ signature = Some sig /\
    exec (verify (mkOwnershipRequest (normalizeWalletAddress evm (os_chainId s) (os_address s))
            (ic_message ic) sig)) w = (inl true, w').
Proof.
  intros Hevm Hr Hb Hissued Hu H.
  assert (Hx : exists tok sig ad f, token = Some tok /\ signature = Some sig /\
    List.find (fun x => String.eqb (chain_ x) (toUpperCase (Blockchain_name b))) adapters = Some ad /\
    verifyOwnership ad = Some f).
  { revert H. unfold assertOwnership. rewrite Hb, exec_bind, exec_rethrow, Hr. cbn [negb andb].
    rewrite exec_bind. unfold registry_get. destruct (List.find _ adapters) as [ad|]; [|done].
    rewrite exec_ret. destruct (verifyOwnership ad) eqn:Ef; [|done].
    destruct token, signature; try done. intros _. eauto 10. }
  destruct Hx as (tok & sig & ad & f & -> & -> & Had & Hf).
  rewrite (assertOwnership_exec env secret evm adapters s b ad f _ _ _ _ Hb Had Hf Hr) in H.
  destruct (open secret (clock w) tok) as [c|e] eqn:Eo; [|done].
  destruct (matchesRequest evm c s) eqn:Em; [|done].
  apply open_inv in Eo as (payload & presented & j & -> & Hmac & Hj & Hc & Hexp).
  destruct (Hu _ _ eq_refl Hmac) as (s0 & w0 & Hin & ->).
  destruct (Hissued s0 w0 Hin) as (ic & w1 & Hic).
  pose proof Hic as Hinv.
  apply (issueChallenge_inv _ _ _ _ _ Hevm) in Hinv as (-> & Hok & Hm & _ & _).
  unfold payload_of in Hj. rewrite of_base64url_base64url, (claims_parse _ Hok) in Hj.
  injection Hj as <-. rewrite (to_claims_json _ Hok) in Hc. injection Hc as <-.
  apply matchesRequest_spec in Em. cbn in Em. destruct Em as (E1 & E2 & E3 & E4).
  rewrite Hm in H. cbn [addr claims_for] in H. rewrite E4 in H.
  apply List.find_some in Had as [Hin' _]. apply Z.leb_gt in Hexp.
  exists s0, w0, ic, ad, f, sig. split_and!; try done; [by apply list_elem_of_In|].
  destruct (exec (f _) w) as [[[]|e] w2]; cbn in H; congruence.
Qed.

(** The server's own token is not a forgery. *)
Lemma unforgeable_sealed `{P : Platform} `{M : Hmac} `{KS : !Keys} secret evm s w :
  unforgeable secret evm [(s, w)] (Some (seal secret (claims_for evm s w))).
Proof.
  intros payload presented [= Ht] _. exists s, w. split; [by left|].
  pose proof (split_seal secret (claims_for evm s w)) as E. rewrite Ht, split_on_sep in E.
  destruct (split_on_cons "." payload) as (x & l & Ep), (split_on_cons "." presented) as (y & l' & Eq).
  pose proof (split_on_inv "." payload) as Hp. rewrite Ep in Hp, E. rewrite Eq in E.
  destruct l; [|by destruct l]. injection E as -> _. by rewrite <- Hp.
Qed.

Section Witness.
#[local] Existing Instance ref_platform.
#[local] Existing Instance no_crypto.
#[local] Existing Instance no_keys.

(** Any function with 32 bytes of output will do. *)
#[local] Instance toy_hmac : Hmac := fun k d => take 32 (d ++ k ++ repeat Ascii.zero 32).

#[local] Instance toy_hmac_laws : HmacLaws toy_hmac.
Proof.
  intros k d. unfold hmac_sha256, toy_hmac. rewrite length_take, !length_app, repeat_length. lia.
Qed.

Definition proofs_on : Env := fun k =>
  if String.eqb k "REQUIRE_WALLET_OWNERSHIP_PROOF" then Some " True " else None.

Definition anyones : OwnershipSubject := mkSubject "t1" "u1" 31337 "0xAbC".
Definition at_time (t : Z) : World := fresh_world t quiet.

Definition issued_challenge : IssuedChallenge :=
  match (exec (issueChallenge "secret" 31337 (fun _ => true) (fun _ => true) evm_only anyones)
           (at_time 1000)).1 with
  | inl ic => ic
  | inr _ => mkIssued "" "" ""
  end.

Lemma ownership_challenge_round_trip_witness :
  exec (assertOwnership proofs_on "secret" 31337 evm_only anyones
          (Some (challenge issued_challenge)) (Some "0xsig")) (at_time 300999)
  = (inl tt, at_time 300999) /\
  exec (assertOwnership proofs_on "secret" 31337 evm_only anyones
          (Some (challenge issued_challenge)) (Some "0xsig")) (at_time 301000)
  = (inr invalidOwnershipChallenge, at_time 301000) /\
  exec (assertOwnership proofs_on "secret" 31337 evm_only (mkSubject "t1" "u2" 31337 "0xAbC")
          (Some (challenge issued_challenge)) (Some "0xsig")) (at_time 2000)
  = (inr invalidOwnershipChallenge, at_time 2000).
Proof.
  pose proof (fun w s' => ownership_challenge_round_trip proofs_on "secret" 31337 (fun _ => true)
    (fun _ => true) evm_only anyones (at_time 1000) issued_challenge (at_time 1000) true EVM
    (EvmAdapter no_env (fun _ => true)) evm_verifyOwnership w s' "0xsig") as H.
  assert (Hl : (String.length (challenge issued_challenge) <= MAX_CHALLENGE_LENGTH)%nat)
    by (apply Nat.leb_le; by_vm).
  assert (Hi : exec (issueChallenge "secret" 31337 (fun _ => true) (fun _ => true) evm_only anyones)
    (at_time 1000) = (inl issued_challenge, at_time 1000)) by by_vm.
  split_and!; (rewrite H; [|decided|exact Hi|exact Hl|by_vm|reflexivity..]); reflexivity.
Defined.

Lemma ownership_gate_witness :
  exists s0 w0, (s0, w0) ∈ [(anyones, at_time 1000)] /\ 300999 < clock w0 + CHALLENGE_TTL_MS.
Proof.
  destruct (ownership_gate proofs_on "secret" 31337 (fun _ => true) (fun _ => true) evm_only
    [(anyones, at_time 1000)] anyones EVM (Some (challenge issued_challenge)) (Some "0xsig")
    (at_time 300999) (at_time 300999)) as (s0 & w0 & _ & _ & _ & _ & Hin & _ & _ & _ & _ & _ & Ht & _).
  - decided.
  - by_vm.
  - reflexivity.
  - intros s0 w0 Hin%list_elem_of_singleton. injection Hin as -> ->.
    exists issued_challenge, (at_time 1000). by_vm.
  - replace (challenge issued_challenge) with (seal "secret" (claims_for 31337 anyones (at_time 1000)))
      by by_vm. apply unforgeable_sealed.
  - by_vm.
  - exists s0, w0. split; [exact Hin|exact Ht].
Defined.
End Witness.
