(* ===== verification/Identity.v ===== *)
(** * Tenants, users, keys and tokens

    [src/auth/] (API keys, JSON web tokens, passwords),
    [src/services/auth.service.ts], [tenant.service.ts] and
    [audit-log.service.ts], and their repositories.  Password hashing, token
    signing and SHA-256 are third-party code: the class [Auth]. *)

From S2P Require Import Prelude Double JsString Schema Platform Reference TransactionRepository Guarantee Addresses Envelope Encoding Json Dates Adapters Index LogWindows EventListener Reconcile Registration.
From Stdlib Require Import Ascii.
#[local] Open Scope Z_scope.

Record JwtPayload := mkPayload {
  jp_id : string; jp_email : string; jp_role : Role; jp_tenantId : string; jti : option string }.

(** bcrypt, fast-jwt (under the server's secret) and Node's crypto. *)
Class Auth `{ChainNodes} := {
  sha256 : bytes -> bytes;
  bcrypt_hash : string -> Z -> World -> string;
  bcrypt_compare : string -> string -> bool;
  (** [sign payload { expiresIn }] at a time. *)
  jwt_sign : JwtPayload -> string -> Z -> string + err;
  jwt_verify : string -> Z -> JwtPayload + err;
  (** The milliseconds of an [expiresIn]. *)
  jwt_ttl : string -> Z;
  randomUUID : World -> string }.

(** Documented behaviour: a password matches its hash; a signed token verifies,
    to the payload that was signed, until it expires. *)
Class AuthLaws `{ChainNodes} (A : Auth) : Prop := {
  sha256_length : forall b, length (sha256 b) = 32%nat;
  bcrypt_compare_hash : forall p n w, bcrypt_compare p (bcrypt_hash p n w) = true;
  jwt_verify_sign : forall p e t token t',
    jwt_sign p e t = inl token -> t <= t' < t + jwt_ttl e -> jwt_verify token t' = inl p }.

Definition invalidTenantKey : err := AppError 401 "INVALID_TENANT_KEY" "Invalid tenant API key" None.
Definition apiKeyNotFound : err := AppError 404 "API_KEY_NOT_FOUND" "API key not found" None.
Definition apiKeyAlreadyRevoked : err :=
  AppError 409 "API_KEY_ALREADY_REVOKED" "API key already revoked" None.
Definition invalidCredentials : err :=
  AppError 401 "INVALID_CREDENTIALS" "Invalid email or password" None.
Definition invalidToken (message : string) : err := AppError 401 "FORBIDDEN" message None.

(** ** The audit trail *)

Record RecordAuditEntry := mkEntry {
  en_tenantId : option string; en_userId : option string; en_action : string;
  en_resource : string; en_resourceId : option string;
  en_metadata : option (list (string * json)) }.

Section Audit.
Context `{P : Platform}.

Definition audit_create (e : RecordAuditEntry) : prog' (string * AuditLog) :=
  let! date := now in
  call AuditLogs (Platform.create
    (mkAuditLog (en_tenantId e) (en_userId e) (en_action e) (en_resource e) (en_resourceId e)
       (en_metadata e) date)).

Definition audit_of_tenant (tenant : string) (_ : string) (a : AuditLog) : bool :=
  same_some (log_tenantId a) (Some tenant).

Definition audit_newest_first (a b : AuditLog) : bool := log_createdAt b <=? log_createdAt a.

Definition audit_listByTenant (tenant : string) (page_ limit : double)
  : prog' (list (string * AuditLog)) :=
  findSlice AuditLogs row_only (audit_of_tenant tenant) audit_newest_first
    (mul (sub page_ (of_Z 1)) limit) limit.

Definition record (e : RecordAuditEntry) : prog' unit :=
  catch (let! row := audit_create e in Ret tt) (fun _ => Ret tt).

Definition listForTenant (tenant : string) (page_ limit : double) : prog' (list (string * AuditLog)) :=
  audit_listByTenant tenant page_ limit.
End Audit.

(** ** API keys *)

Definition KEY_PREFIX_LENGTH : nat := 8.

Record CreateApiKeyInput := mkKeyInput {
  ki_name : string; ki_scopes : option (list string); ki_expiresAt : option Z }.

(** What a response shows of a key: neither its hash nor its tenant. *)
Record KeyView := mkKeyView {
  kv_id : string; kv_keyPrefix : string; kv_name : string; kv_scopes : list string;
  kv_active : bool; kv_lastUsedAt : option Z; kv_expiresAt : option Z; kv_createdAt : Z;
  kv_revokedAt : option Z }.

Definition key_view (kr : string * ApiKey) : KeyView :=
  mkKeyView kr.1 (keyPrefix kr.2) (key_name kr.2) (scopes kr.2) (active kr.2) (lastUsedAt kr.2)
    (key_expiresAt kr.2) (key_createdAt kr.2) (revokedAt kr.2).

Section ApiKeys.
Context `{P : Platform} `{A : !Auth} `{KS : !Keys}.

Definition hashToken (token : string) : string := to_hex (sha256 (utf8 token)).

Definition key_prefix (rawKey : string) : string := String.substring 0 KEY_PREFIX_LENGTH rawKey.

Definition apikey_create (tenant hash prefix name : string) (scopes_ : list string)
    (expires : option Z) : prog' (string * ApiKey) :=
  let! date := now in
  call ApiKeys (Platform.create
    (mkApiKey tenant hash prefix name true scopes_ None expires date None)).

(** [OR: [{ expiresAt: null }, { expiresAt: { gt: new Date() } }]] *)
Definition unexpired (date : Z) (r : ApiKey) : bool :=
  match key_expiresAt r with None => true | Some e => date <? e end.

Definition usable (prefix : string) (date : Z) (_ : string) (r : ApiKey) : bool :=
  String.eqb (keyPrefix r) prefix && active r && negb (is_some (revokedAt r)) && unexpired date r.

Definition findActiveByPrefix (prefix : string) : prog' (list (string * ApiKey)) :=
  let! date := now in
  query ApiKeys (findMany (usable prefix date) any_order 0 None).

Definition touch_row (date : Z) (r : ApiKey) : ApiKey :=
  mkApiKey (key_tenantId r) (keyHash r) (keyPrefix r) (key_name r) (active r) (scopes r)
    (Some date) (key_expiresAt r) (key_createdAt r) (revokedAt r).

Definition touchLastUsed (id : string) : prog' unit :=
  let! date := now in
  call ApiKeys (update (at_id id (fun _ => true)) (touch_row date)).

Definition apikey_listByTenant (tenant : string) : prog' (list (string * ApiKey)) :=
  query ApiKeys (findMany (fun _ r => String.eqb (key_tenantId r) tenant)
    (fun a b => key_createdAt b <=? key_createdAt a) 0 None).

Definition findByIdForTenant (tenant id : string) : prog' (option (string * ApiKey)) :=
  query ApiKeys (findFirst (at_id id (fun r => String.eqb (key_tenantId r) tenant)) any_order).

Definition revoke_row (date : Z) (r : ApiKey) : ApiKey :=
  mkApiKey (key_tenantId r) (keyHash r) (keyPrefix r) (key_name r) false (scopes r)
    (lastUsedAt r) (key_expiresAt r) (key_createdAt r) (Some date).

Definition revocable (tenant : string) (r : ApiKey) : bool :=
  String.eqb (key_tenantId r) tenant && negb (is_some (revokedAt r)).

Definition apikey_revoke (tenant id : string) : prog' bool :=
  let! date := now in
  let! count := call ApiKeys (updateMany (at_id id (revocable tenant)) (revoke_row date)) in
  Ret (count =? 1)%nat.

Definition generateRawKey : prog' string :=
  let! random := gets (randomBytes 32) in
  Ret ("tenant_" +:+ to_hex random).

(** The raw key, the new row and its id. *)
Definition createKey (tenant : string) (input : CreateApiKeyInput)
  : prog' (string * (string * ApiKey)) :=
  let! rawKey := generateRawKey in
  let! row := apikey_create tenant (hashToken rawKey) (key_prefix rawKey) (ki_name input)
    (match ki_scopes input with Some (s :: l) => s :: l | _ => ["*"] end) (ki_expiresAt input) in
  do! record (mkEntry (Some tenant) None "api_key.created" "ApiKey" (Some row.1)
        (Some [("name", JString (key_name row.2)); ("scopes", JStrings (scopes row.2))])) in
  Ret (rawKey, row).

Definition same_hash (presented : bytes) (kr : string * ApiKey) : bool :=
  bool_decide (of_hex (keyHash kr.2) = presented).

(** The key's tenant and the key. *)
Definition verifyKey (rawKey : string) : prog' (string * (string * ApiKey)) :=
  if (String.length rawKey <? KEY_PREFIX_LENGTH)%nat then Throw invalidTenantKey
  else
    let! candidates := findActiveByPrefix (key_prefix rawKey) in
    match List.find (same_hash (of_hex (hashToken rawKey))) candidates with
    | None => Throw invalidTenantKey
    | Some (id, r) =>
        do! touchLastUsed id in
        Ret (key_tenantId r, (id, r))
    end.

Definition listKeys (tenant : string) : prog' (list KeyView) :=
  let! keys := apikey_listByTenant tenant in
  Ret (map key_view keys).

Definition revokeKey (tenant id : string) : prog' unit :=
  let! existing := findByIdForTenant tenant id in
  match existing with
  | None => Throw apiKeyNotFound
  | Some _ =>
      let! revoked := apikey_revoke tenant id in
      if negb revoked then Throw apiKeyAlreadyRevoked
      else record (mkEntry (Some tenant) None "api_key.revoked" "ApiKey" (Some id) None)
  end.

(** ** Tenants *)

(** The nested write of a tenant with its default key: both rows or none. *)
Definition tenant_create (name rawKey : string) : prog' ((string * Tenant) * (string * ApiKey)) :=
  let! date := now in
  act (fun w =>
    match Platform.create (mkTenant name date) (tenants w) with
    | (inr e, _) => (inr e, w)
    | (inl row, ts) =>
        match Platform.create (mkApiKey row.1 (hashToken rawKey) (key_prefix rawKey) "default"
                true ["*"] None None date None) (apiKeys w) with
        | (inr e, _) => (inr e, w)
        | (inl key_, ks) => (inl (row, key_), put ApiKeys ks (put Tenants ts w))
        end
    end).

Definition tenant_findById (id : string) : prog' (option (string * Tenant)) :=
  query Tenants (findUnique (at_id id (fun _ => true))).

(** The tenant with its keys, and the raw key. *)
Definition createTenant (name : string) : prog' (((string * Tenant) * (string * ApiKey)) * string) :=
  let! rawKey := generateRawKey in
  let! rows_ := tenant_create name rawKey in
  let id := rows_.1.1 in
  do! record (mkEntry (Some id) None "tenant.created" "Tenant" (Some id)
        (Some [("name", JString name)])) in
  Ret (rows_, rawKey).
End ApiKeys.

(** ** Users and their tokens *)

(** [/^(\d+)([smhd])$/] *)
Definition unit_ms (a : ascii) : option Z :=
  if Ascii.eqb a "s" then Some 1000
  else if Ascii.eqb a "m" then Some (60 * 1000)
  else if Ascii.eqb a "h" then Some (60 * 60 * 1000)
  else if Ascii.eqb a "d" then Some (24 * 60 * 60 * 1000)
  else None.

(** The digits and the last character of a text. *)
Fixpoint digits_unit (s : string) : option (string * ascii) :=
  match s with
  | EmptyString => None
  | String a EmptyString => Some (EmptyString, a)
  | String a s' =>
      if is_digit a
      then match digits_unit s' with Some (d, u) => Some (String a d, u) | None => None end
      else None
  end.

(** The expiry, in milliseconds. *)
Definition getRefreshTokenExpiry (expires : string) (date : Z) : Z + err :=
  match digits_unit expires with
  | Some (String a d, u) =>
      match unit_ms u with
      | Some ms => inl (date + numeral (String a d) * ms)
      | None => inr (PlainError ("Invalid JWT_REFRESH_EXPIRES format: " +:+ expires))
      end
  | _ => inr (PlainError ("Invalid JWT_REFRESH_EXPIRES format: " +:+ expires))
  end.

(** The parsed configuration. *)
Record Config := mkConfig { JWT_ACCESS_EXPIRES : string; JWT_REFRESH_EXPIRES : string }.

Record LoginResult := mkLogin { accessToken : string; refreshToken : string; expiresIn : Z }.

Section Auth.
Context `{P : Platform} `{A : !Auth} (config : Config).

Definition createAccessToken (p : JwtPayload) : prog' string :=
  let! date := now in rethrow (jwt_sign p (JWT_ACCESS_EXPIRES config) date).

Definition createRefreshToken (p : JwtPayload) : prog' string :=
  let! id := gets randomUUID in
  let! date := now in
  rethrow (jwt_sign (mkPayload (jp_id p) (jp_email p) (jp_role p) (jp_tenantId p) (Some id))
    (JWT_REFRESH_EXPIRES config) date).

Definition verifyToken (token : string) : prog' JwtPayload :=
  let! date := now in rethrow (jwt_verify token date).

Definition SALT_ROUNDS : Z := 12.

Definition hashPassword (password : string) : prog' string :=
  gets (bcrypt_hash password SALT_ROUNDS).

Definition verifyPassword (password hash : string) : prog' bool := Ret (bcrypt_compare password hash).

Definition findUserByEmail (mail : string) : prog' (option (string * User)) :=
  query Users (findUnique (fun _ u => String.eqb (email u) mail)).

Definition findUserById (id : string) : prog' (option (string * User)) :=
  query Users (findUnique (at_id id (fun _ => true))).

(** [tenant: { connect: { id } }]: a tenant that does not exist is P2025. *)
Definition createUser (mail hash : string) (r : Role) (tenant : string) : prog' (string * User) :=
  let! row := tenant_findById tenant in
  match row with
  | None => Throw P2025
  | Some _ =>
      let! date := now in
      call Users (Platform.create (mkUser mail hash r tenant date))
  end.

Definition of_token (token : string) (_ : string) (r : RefreshToken) : bool :=
  String.eqb (tokenHash r) (hashToken token).

(** Prisma refuses an invalid date. *)
Definition refresh_create (user token : string) (expires : Z) : prog' (string * RefreshToken) :=
  if MAX_TIME <? Z.abs expires then Throw (PlainError "Provided Date object is invalid")
  else
    let! date := now in
    call RefreshTokens (Platform.create (mkRefreshToken user (hashToken token) date expires None)).

Definition findByToken (token : string) : prog' (option (string * RefreshToken)) :=
  query RefreshTokens (findUnique (of_token token)).

(** [delete]: a missing row is P2025. *)
Definition deleteByToken (token : string) : prog' unit :=
  call RefreshTokens (fun t =>
    match findUnique (of_token token) t with
    | None => (inr P2025, t)
    | Some (k, _) => (inl tt, delete k t)
    end).

Definition register (mail password tenant : string) : prog' (string * User) :=
  let! hash := hashPassword password in
  let! user := createUser mail hash USER tenant in
  do! record (mkEntry (Some tenant) (Some user.1) "user.registered" "User" (Some user.1)
        (Some [("email", JString (email user.2))])) in
  Ret user.

Definition login (mail password : string) : prog' LoginResult :=
  let! found := findUserByEmail mail in
  match found with
  | None =>
      do! record (mkEntry None None "auth.login.failed" "User" None
            (Some [("email", JString mail); ("reason", JString "user_not_found")])) in
      Throw invalidCredentials
  | Some (id, user) =>
      let! validPassword := verifyPassword password (passwordHash user) in
      if negb validPassword then
        do! record (mkEntry (Some (usr_tenantId user)) (Some id) "auth.login.failed" "User"
              (Some id) (Some [("reason", JString "invalid_password")])) in
        Throw invalidCredentials
      else
        do! record (mkEntry (Some (usr_tenantId user)) (Some id) "auth.login.succeeded" "User"
              (Some id) None) in
        let payload := mkPayload id (email user) (role user) (usr_tenantId user) None in
        let! access := createAccessToken payload in
        let! refresh_ := createRefreshToken payload in
        let! date := now in
        let! expires := rethrow (getRefreshTokenExpiry (JWT_REFRESH_EXPIRES config) date) in
        let! row := refresh_create id refresh_ expires in
        Ret (mkLogin access refresh_ 900)
  end.

Definition refresh (token : string) : prog' (string * Z) :=
  let! payload := verifyToken token in
  let! stored := findByToken token in
  match stored with
  | None => Throw (invalidToken "Invalid refresh token")
  | Some (_, r) =>
      let! date := now in
      if rt_expiresAt r <? date then Throw (invalidToken "Refresh token expired")
      else
        let! access := createAccessToken
          (mkPayload (jp_id payload) (jp_email payload) (jp_role payload) (jp_tenantId payload) None) in
        Ret (access, 900)
  end.
End Auth.

(** ** What they leave alone

    The ledger, and everything about a key but its last use and its
    revocation. *)
Section Guards.
Context `{P : Platform} `{!PlatformLaws P} `{A : !Auth} `{KS : !Keys} (config : Config).

Lemma steady_keys m w : keys_steady (apiKeys w) m -> steady w (put ApiKeys m w).
Proof. intros H. split; [|done]. split; [|done]. unfold lifecycle. reflexivity. Qed.

Lemma keys_steady_insert m id r :
  m !! id = None -> table_ok (<[id := r]> m) -> (exists b, keyHash r = to_hex b) ->
  keys_steady m (<[id := r]> m).
Proof.
  intros Hn Hok Hh. split.
  - intros k x Ek. exists x. split; [|done]. rewrite lookup_insert_ne; [done|]. by intros ->; rewrite Hn in Ek.
  - intros [_ HF]. split; [done|]. by apply map_Forall_insert_2.
Qed.

Lemma guards_key_create r :
  (exists b, keyHash r = to_hex b) -> guards steady (call ApiKeys (Platform.create r)).
Proof.
  intros Hh. apply guards_act. intros w. unfold on. cbn [view ApiKeys].
  destruct (create_cases r (apiKeys w)) as [[Hok ->]|[c ->]]; apply steady_keys; [|reflexivity].
  apply keys_steady_insert; [apply uuid_fresh|done..].
Qed.

Lemma keys_steady_updated f d m :
  (forall k r, f k r = true -> key_evolves r (d r)) -> table_ok (updated f d m) ->
  keys_steady m (updated f d m).
Proof.
  intros Hd Hok. split.
  - intros k r Ek. eexists. rewrite lookup_updated, Ek. split; [done|]. cbn.
    destruct (f k r) eqn:F; [by apply (Hd k)|done].
  - intros [_ HF]. split; [done|]. intros k x. rewrite lookup_updated, fmap_Some.
    intros (r & Er & ->). destruct (HF k r Er) as [b Hb]. exists b.
    destruct (f k r) eqn:F; [|done]. by destruct (Hd k r F) as (_ & -> & _).
Qed.

Lemma guards_key_updateMany f d :
  (forall k r, f k r = true -> key_evolves r (d r)) ->
  guards steady (call ApiKeys (updateMany f d)).
Proof.
  intros Hd. apply guards_act. intros w. unfold on. cbn [view ApiKeys].
  destruct (updateMany_cases f d (apiKeys w)) as [[Hok ->]|[_ [c ->]]]; apply steady_keys;
    [by apply keys_steady_updated|reflexivity].
Qed.

Lemma guards_touchLastUsed id : guards steady (touchLastUsed id).
Proof.
  unfold touchLastUsed. apply guards_bind; [solve_guards|]. intros date. apply guards_act.
  intros w. unfold on, update. cbn [view ApiKeys].
  destruct (updateMany_cases (at_id id (fun _ => true)) (touch_row date) (apiKeys w))
    as [[Hok ->]|[_ [c ->]]]; [destruct (length _)|]; apply steady_keys; try reflexivity;
    apply keys_steady_updated; done.
Qed.

Lemma guards_apikey_revoke t id : guards steady (apikey_revoke t id).
Proof.
  unfold apikey_revoke. apply guards_bind; [solve_guards|]. intros date.
  apply guards_bind; [|done]. apply guards_key_updateMany. intros k r H.
  unfold at_id, revocable in H. apply andb_true_iff in H as [_ H]. apply andb_true_iff in H as [_ H].
  split_and!; [done..|]. by destruct (revokedAt r).
Qed.

Lemma guards_record e : guards steady (record e).
Proof. unfold record, audit_create. solve_guards. Qed.
#[local] Hint Resolve guards_record : guards.

Lemma guards_createKey t i : guards steady (createKey t i).
Proof.
  unfold createKey, generateRawKey, apikey_create. solve_guards.
  apply guards_key_create. by eexists.
Qed.

Lemma guards_verifyKey k : guards steady (verifyKey k).
Proof.
  unfold verifyKey, findActiveByPrefix. destruct (_ <? _)%nat; [done|].
  apply guards_bind; [solve_guards|]. intros l. destruct (List.find _ l) as [[id r]|]; [|done].
  apply guards_bind; [apply guards_touchLastUsed|done].
Qed.

Lemma guards_revokeKey t k : guards steady (revokeKey t k).
Proof.
  pose proof (guards_apikey_revoke t k). unfold revokeKey, findByIdForTenant. solve_guards.
Qed.

Lemma guards_createTenant n : guards steady (createTenant n).
Proof.
  unfold createTenant, generateRawKey. apply guards_bind; [solve_guards|]. intros raw.
  apply guards_bind; [|solve_guards]. unfold tenant_create. apply guards_bind; [solve_guards|].
  intros d. apply guards_act. intros w. destruct (Platform.create _ _) as [[row|e] ts]; [|done].
  destruct (create_cases (mkApiKey row.1 (hashToken raw) (key_prefix raw) "default" true ["*"]
    None None d None) (apiKeys w)) as [[Hok ->]|[c ->]]; [|done].
  change (apiKeys w) with (apiKeys (put Tenants ts w)). etransitivity.
  - apply (steady_same w (put Tenants ts w)); done.
  - apply steady_keys, keys_steady_insert; [apply uuid_fresh|done|by eexists].
Qed.

Lemma guards_register m p t : guards steady (register m p t).
Proof. unfold register, hashPassword, createUser, tenant_findById. solve_guards. Qed.

Lemma guards_login m p : guards steady (login config m p).
Proof.
  unfold login, findUserByEmail, verifyPassword, createAccessToken, createRefreshToken,
    refresh_create. solve_guards.
Qed.

Lemma guards_refresh t : guards steady (refresh config t).
Proof. unfold refresh, verifyToken, findByToken, createAccessToken. solve_guards. Qed.
End Guards.

#[export] Hint Resolve guards_record guards_createKey guards_verifyKey guards_revokeKey
  guards_createTenant guards_register guards_login guards_refresh : guards.

(** ** The audit trail is best effort *)

Lemma put_AuditLogs_id `{C : ChainNodes} (w : World) : put AuditLogs (auditLogs w) w = w.
Proof. by destruct w. Qed.

Lemma record_run `{P : Platform} e outs w :
  exists ts outs', run (record e) (faults outs) w = (inl tt, put AuditLogs ts w, faults outs').
Proof.
  unfold record, audit_create, now. rewrite run_catch, !run_bind, run_gets.
  destruct (run_call AuditLogs (Platform.create (mkAuditLog (en_tenantId e) (en_userId e)
    (en_action e) (en_resource e) (en_resourceId e) (en_metadata e) (clock w))) outs w)
    as (r & w' & outs' & E & Hw).
  rewrite E. assert (Hx : exists ts, w' = put AuditLogs ts w).
  { destruct Hw as [[-> _]|[-> _]]; [|by eexists]. exists (auditLogs w). by rewrite put_AuditLogs_id. }
  destruct Hx as [ts ->]. exists ts, outs'. by destruct r.
Qed.

Lemma record_exec `{P : Platform} e w :
  exists ts, exec (record e) w = (inl tt, put AuditLogs ts w).
Proof.
  destruct (record_run e [] w) as (ts & outs' & H). exists ts.
  change (faults []) with (@nil (envstep World err)) in H. rewrite run_nil in H. congruence.
Qed.

Lemma run_act_fault `{C : ChainNodes} {R} (f : World -> (R + err) * World) o outs w :
  run (act f) (faults (o :: outs)) w = (perform o f w, faults outs).
Proof. unfold faults. rewrite fmap_cons. by rewrite run_act_cons. Qed.

(** The audit trail never gets in the way.  Once the key is stored, creating it
    succeeds whatever happens to the audit entry, which may be refused, or lost
    after it was written; a login with a wrong password is answered with the
    same error either way; nothing but the audit log depends on it. *)
Theorem audit_is_best_effort `{P : Platform} `{!PlatformLaws P} `{A : !Auth} `{KS : !Keys} config :
  (forall tenant input outs w row,
     exec (apikey_create tenant (hashToken ("tenant_" +:+ to_hex (randomBytes 32 w)))
             (key_prefix ("tenant_" +:+ to_hex (randomBytes 32 w))) (ki_name input)
             (match ki_scopes input with Some (s :: l) => s :: l | _ => ["*"] end)
             (ki_expiresAt input)) w
       = (inl row, put ApiKeys (<[row.1 := row.2]> (apiKeys w)) w) ->
     exists ts outs', run (createKey tenant input) (faults (Commit :: outs)) w =
       (inl ("tenant_" +:+ to_hex (randomBytes 32 w), row),
        put AuditLogs ts (put ApiKeys (<[row.1 := row.2]> (apiKeys w)) w), faults outs')) /\
  (forall mail password outs w id user,
     findUnique (fun _ u => String.eqb (email u) mail) (users w) = Some (id, user) ->
     bcrypt_compare password (passwordHash user) = false ->
     exists ts outs', run (login config mail password) (faults (Commit :: outs)) w =
       (inr invalidCredentials, put AuditLogs ts w, faults outs')).
Proof.
  split.
  - intros tenant input outs w row H. unfold createKey, generateRawKey.
    rewrite run_bind, run_bind, run_gets, run_ret, run_bind. unfold apikey_create, now in H |- *.
    rewrite exec_bind, exec_gets, exec_call in H. rewrite run_bind, run_gets.
    unfold call. rewrite run_act_fault. cbn [perform]. rewrite H. rewrite run_bind.
    match goal with |- context [run (record ?e) (faults outs) ?w2] =>
      destruct (record_run e outs w2) as (ts & outs' & ->) end.
    by exists ts, outs'.
  - intros mail password outs w id user Hu Hp. unfold login, findUserByEmail, query.
    rewrite run_bind, run_act_fault. cbn [perform view Users]. rewrite Hu. unfold verifyPassword. rewrite run_bind, run_ret, Hp.
    cbn [negb]. rewrite run_bind.
    match goal with |- context [run (record ?e) (faults outs) ?w2] =>
      destruct (record_run e outs w2) as (ts & outs' & ->) end.
    by exists ts, outs'.
Qed.

(** ** The life of an API key *)
Section KeyLife.
Context `{P : Platform} `{!PlatformLaws P} `{A : !Auth} `{KS : !Keys}.

(** The rows a presented key can match. *)
Definition matches_key (raw : string) (date : Z) (r : ApiKey) : bool :=
  usable (key_prefix raw) date "" r && bool_decide (keyHash r = hashToken raw).

Lemma same_hash_iff m raw k r :
  keys_ok m -> m !! k = Some r ->
  same_hash (of_hex (hashToken raw)) (k, r) = bool_decide (keyHash r = hashToken raw).
Proof.
  intros [_ HF] E. destruct (HF k r E) as [b Hb]. unfold same_hash, hashToken. cbn [snd].
  rewrite Hb, !of_hex_to_hex. apply bool_decide_ext. split; [by intros ->|apply to_hex_inj].
Qed.

Lemma find_candidate raw w :
  keys_ok (apiKeys w) ->
  let found := List.find (same_hash (of_hex (hashToken raw)))
    (findMany (usable (key_prefix raw) (clock w)) any_order 0 None (apiKeys w)) in
  match found with
  | Some (id, r) => apiKeys w !! id = Some r /\ matches_key raw (clock w) r = true
  | None => forall id r, apiKeys w !! id = Some r -> matches_key raw (clock w) r = false
  end.
Proof.
  intros Hok. cbv zeta. destruct (List.find _ _) as [[id r]|] eqn:E.
  - apply List.find_some in E as [Hin Hs]. apply list_elem_of_In, elem_of_findMany in Hin as [Hr Hu].
    split; [done|]. rewrite (same_hash_iff _ _ _ _ Hok Hr) in Hs. unfold matches_key.
    by rewrite Hs, andb_true_r.
  - intros id r Hr. destruct (matches_key raw (clock w) r) eqn:M; [|done].
    apply andb_true_iff in M as [Hu Hh].
    assert (Hin : (id, r) ∈ findMany (usable (key_prefix raw) (clock w)) any_order 0 None (apiKeys w)).
    { rewrite findMany_all. by apply elem_of_rows. }
    pose proof (List.find_none _ _ E (id, r) (proj1 (list_elem_of_In _ _) Hin)) as Hn.
    rewrite (same_hash_iff _ _ _ _ Hok Hr) in Hn. congruence.
Qed.

Lemma key_unique w id1 id2 r1 r2 :
  keys_ok (apiKeys w) -> apiKeys w !! id1 = Some r1 -> apiKeys w !! id2 = Some r2 ->
  keyHash r1 = keyHash r2 -> id1 = id2.
Proof.
  intros [[_ Hu] _] E1 E2 H. destruct (Hu id1 r1 E1 id2 r2 E2) as [|Hc]; [done|].
  cbn in Hc. by rewrite H, String.eqb_refl in Hc.
Qed.

Lemma touch_exec id r w :
  keys_ok (apiKeys w) -> apiKeys w !! id = Some r ->
  exec (touchLastUsed id) w =
  (inl tt, put ApiKeys (<[id := touch_row (clock w) r]> (apiKeys w)) w).
Proof.
  intros [Hok _] E. unfold touchLastUsed. rewrite exec_bind, exec_now, exec_call. unfold on, update.
  cbn [view ApiKeys].
  assert (Hu : updated (at_id id (fun _ => true)) (touch_row (clock w)) (apiKeys w)
               = <[id := touch_row (clock w) r]> (apiKeys w)) by (by apply updated_at_id).
  rewrite updateMany_ok; rewrite Hu; [by rewrite rows_at_id, E|].
  apply table_ok_insert; [done|done|]. intros k x Hk Ex. destruct Hok as [_ Hc].
  destruct (Hc id r E k x Ex) as [->|Hx]; [done|]. cbn in Hx |- *.
  split; [done|]. by rewrite String.eqb_sym.
Qed.

Lemma verifyKey_accepts raw id r w :
  keys_ok (apiKeys w) -> (KEY_PREFIX_LENGTH <= String.length raw)%nat ->
  apiKeys w !! id = Some r -> matches_key raw (clock w) r = true ->
  exec (verifyKey raw) w =
  (inl (key_tenantId r, (id, r)), put ApiKeys (<[id := touch_row (clock w) r]> (apiKeys w)) w).
Proof.
  intros Hok Hl E Hm. unfold verifyKey. rewrite (proj2 (Nat.ltb_ge _ _) Hl).
  unfold findActiveByPrefix. rewrite exec_bind, exec_bind, exec_now, exec_query. cbn [view ApiKeys].
  pose proof (find_candidate raw w Hok) as Hf. cbv zeta in Hf.
  destruct (List.find _ _) as [[id' r']|].
  - destruct Hf as [E' Hm']. assert (id' = id) as ->.
    { apply (key_unique w id' id r' r Hok E' E). unfold matches_key in Hm, Hm'.
      apply andb_true_iff in Hm as [_ Hm], Hm' as [_ Hm'].
      apply bool_decide_eq_true in Hm, Hm'. congruence. }
    assert (r' = r) as -> by congruence. by rewrite exec_bind, (touch_exec id r w Hok E).
  - by rewrite (Hf id r E) in Hm.
Qed.

Lemma verifyKey_rejects raw w :
  keys_ok (apiKeys w) ->
  (forall id r, apiKeys w !! id = Some r -> matches_key raw (clock w) r = false) ->
  exec (verifyKey raw) w = (inr invalidTenantKey, w).
Proof.
  intros Hok Hn. unfold verifyKey. destruct (_ <? _)%nat; [done|].
  unfold findActiveByPrefix. rewrite exec_bind, exec_bind, exec_now, exec_query. cbn [view ApiKeys].
  pose proof (find_candidate raw w Hok) as Hf. cbv zeta in Hf.
  destruct (List.find _ _) as [[id r]|]; [|done].
  destruct Hf as [E Hm]. by rewrite (Hn id r E) in Hm.
Qed.
End KeyLife.

Lemma raw_key_length b : (KEY_PREFIX_LENGTH <= String.length ("tenant_" +:+ to_hex b) \/ b = [])%nat.
Proof.
  destruct b as [|a b]; [by right|]. left. unfold KEY_PREFIX_LENGTH.
  change (8 <= 7 + String.length (to_hex (a :: b)))%nat. rewrite length_to_hex. cbn. lia.
Qed.

(** Whether the stored key still admits its holder. *)
Definition admits (r : ApiKey) (date : Z) : bool :=
  active r && negb (is_some (revokedAt r)) && unexpired date r.

(** C20: an API key works from its creation to its revocation or expiry, and only
    then.  The raw key [createKey] returned is stored as a hash under the
    caller's tenant; in every later state, however its row has evolved in the
    meantime, presenting it yields that tenant, and records the use, exactly
    when the row is active, not revoked and not expired; otherwise it is
    answered with 401 and nothing changes. *)
Theorem api_key_life `{P : Platform} `{!PlatformLaws P} `{A : !Auth} `{KS : !Keys} `{!KeysLaws KS}
    tenant input w raw id r w1 w2 :
  exec (createKey tenant input) w = (inl (raw, (id, r)), w1) ->
  keys_evolve (apiKeys w1) (apiKeys w2) -> keys_ok (apiKeys w2) ->
  apiKeys w !! id = None /\ keyHash r = hashToken raw /\ key_expiresAt r = ki_expiresAt input /\
  exists r2, apiKeys w2 !! id = Some r2 /\ key_tenantId r2 = tenant /\ key_evolves r r2 /\
    exec (verifyKey raw) w2 =
    if admits r2 (clock w2)
    then (inl (tenant, (id, r2)), put ApiKeys (<[id := touch_row (clock w2) r2]> (apiKeys w2)) w2)
    else (inr invalidTenantKey, w2).
Proof.
  unfold createKey, generateRawKey. rewrite exec_bind, exec_bind, exec_gets, exec_ret, exec_bind.
  unfold apikey_create. rewrite exec_bind, exec_now.
  destruct (exec (call ApiKeys _) w) as [[[id' r']|e] w'] eqn:Ec; [|done]. rewrite exec_bind.
  match goal with |- context [exec (record ?e) w'] => destruct (record_exec e w') as [ts ->] end.
  rewrite exec_ret. intros H Hev Hok. injection H as <- -> -> <-.
  apply create_inv in Ec as (-> & Hn & -> & _). cbn [view ApiKeys] in Hn.
  set (raw := "tenant_" +:+ to_hex (randomBytes 32 w)) in *.
  split_and!; [done..|].
  destruct (Hev id _ (lookup_insert_eq _ _ _)) as (r2 & E2 & Hevo). exists r2.
  pose proof Hevo as (Ht & Hh & Hp & Hx & _). cbn in Ht, Hh, Hp, Hx. split_and!; [done..|].
  assert (Hm : matches_key raw (clock w2) r2 = admits r2 (clock w2)).
  { unfold matches_key, usable, admits. rewrite Hh, Hp, String.eqb_refl, bool_decide_eq_true_2 by done.
    by rewrite andb_true_r. }
  destruct (admits r2 (clock w2)) eqn:Ha.
  - rewrite (verifyKey_accepts raw id r2 w2 Hok); [by rewrite Ht| |done|done].
    destruct (raw_key_length (randomBytes 32 w)) as [|Hnil]; [done|].
    pose proof (randomBytes_length 32 w) as Hl. by rewrite Hnil in Hl.
  - apply (verifyKey_rejects raw w2 Hok). intros k x Ex.
    destruct (decide (keyHash x = hashToken raw)) as [Hk|Hk].
    + assert (k = id) as -> by (apply (key_unique w2 k id x r2 Hok Ex E2); congruence).
      assert (x = r2) as -> by congruence. done.
    + unfold matches_key. by rewrite (bool_decide_eq_false_2 _ Hk), andb_false_r.
Qed.

(** A revoked key is dead for as long as revocations are kept. *)
Lemma revoked_key_rejected `{P : Platform} `{!PlatformLaws P} `{A : !Auth} raw id r w w2 :
  apiKeys w !! id = Some r -> revokedAt r <> None -> keyHash r = hashToken raw ->
  keys_evolve (apiKeys w) (apiKeys w2) -> keys_ok (apiKeys w2) ->
  exec (verifyKey raw) w2 = (inr invalidTenantKey, w2).
Proof.
  intros E Hr Hh Hev Hok. destruct (Hev id r E) as (r2 & E2 & _ & Hh2 & _ & _ & Hk).
  destruct (Hk Hr) as [Hr2 _]. apply (verifyKey_rejects raw w2 Hok). intros k x Ex.
  unfold matches_key. destruct (decide (keyHash x = hashToken raw)) as [Hx|Hx].
  - assert (k = id) as -> by (apply (key_unique w2 k id x r2 Hok Ex E2); congruence).
    assert (x = r2) as -> by congruence. unfold usable. rewrite Hr2.
    destruct (revokedAt r); [|done]. cbn [is_some negb]. by rewrite !andb_false_r.
  - by rewrite (bool_decide_eq_false_2 _ Hx), andb_false_r.
Qed.

(** What a successful revocation leaves behind. *)
Lemma revokeKey_revokes `{P : Platform} `{!PlatformLaws P} tenant id w w1 :
  exec (revokeKey tenant id) w = (inl tt, w1) ->
  exists r, apiKeys w !! id = Some r /\ key_tenantId r = tenant /\ revokedAt r = None /\
    apiKeys w1 = <[id := revoke_row (clock w) r]> (apiKeys w).
Proof.
  unfold revokeKey, findByIdForTenant. rewrite exec_bind, exec_query. cbn [view ApiKeys].
  change (findFirst ?f any_order ?m) with (findUnique f m). rewrite findUnique_at_id.
  destruct (apiKeys w !! id) as [r|] eqn:E; [|done].
  destruct (String.eqb_spec (key_tenantId r) tenant) as [Ht|]; [|done].
  unfold apikey_revoke. rewrite !exec_bind, exec_now, exec_bind, exec_call. unfold on. cbn [view ApiKeys].
  destruct (updateMany_cases (at_id id (revocable tenant)) (revoke_row (clock w)) (apiKeys w))
    as [[_ ->]|[_ [c ->]]]; [|done].
  cbn [fst snd]. rewrite exec_ret, rows_at_id, E. unfold revocable at 1.
  rewrite Ht, String.eqb_refl. cbn [andb].
  destruct (revokedAt r) eqn:Er; cbn [is_some negb length Nat.eqb]; [done|].
  match goal with |- context [exec (record ?e) ?w2] => destruct (record_exec e w2) as [ts ->] end.
  intros [= <-]. exists r. split_and!; [done..|]. cbn.
  apply updated_at_id; [done|]. unfold revocable. by rewrite Ht, String.eqb_refl, Er.
Qed.

(** ** Sessions *)
Section Sessions.
Context `{P : Platform} `{!PlatformLaws P} `{A : !Auth} (config : Config).




End Sessions.


(** ** A reference implementation of the laws *)

Definition role_code (r : Role) : Z := match r with ADMIN => 0 | USER => 1 | SERVICE => 2 end.
Definition role_of_code (z : Z) : Role :=
  if z =? 0 then ADMIN else if z =? 1 then USER else SERVICE.

Definition payload_json (p : JwtPayload) (until : Z) : jsval :=
  JsObj [("id", JsStr (jp_id p)); ("email", JsStr (jp_email p));
         ("role", JsNum (Int (role_code (jp_role p)))); ("tenantId", JsStr (jp_tenantId p));
         ("jti", match jti p with Some j => JsStr j | None => JsNull end);
         ("exp", JsNum (Int until))].

Definition payload_of_json (j : jsval) (time : Z) : option JwtPayload :=
  match j with
  | JsObj [(_, JsStr i); (_, JsStr m); (_, JsNum (Int a)); (_, JsStr t); (_, j); (_, JsNum (Int e))] =>
      if time <? e
      then Some (mkPayload i m (role_of_code a) t
             match j with JsStr s => Some s | _ => None end)
      else None
  | _ => None
  end.

Definition tokenError : err := PlainError "The token is invalid.".

Section Witness.
#[local] Existing Instance ref_platform.
#[local] Existing Instance ref_platform_laws.
#[local] Existing Instance no_keys.
#[local] Existing Instance no_keys_laws.

(** Unsigned tokens and unhashed secrets satisfy the laws too. *)
#[local] Instance plain_auth : Auth := {|
  sha256 b := take 32 (b ++ repeat Ascii.zero 32);
  bcrypt_hash p n w := p;
  bcrypt_compare p h := String.eqb p h;
  jwt_ttl e := 900000;
  jwt_sign p e t :=
    if Z.abs (t + 900000) <=? MAX_SAFE_INTEGER
    then inl (of_utf8 (stringify (payload_json p (t + 900000)))) else inr tokenError;
  jwt_verify token t :=
    match JSON_parse (utf8 token) with
    | Some j => match payload_of_json j t with Some p => inl p | None => inr tokenError end
    | None => inr tokenError
    end;
  randomUUID w := "uuid" |}.

#[local] Instance plain_auth_laws : AuthLaws plain_auth.
Proof.
  split.
  - intros b. unfold sha256, plain_auth. rewrite length_take, length_app, repeat_length. lia.
  - intros p n w. apply String.eqb_refl.
  - intros p e t token t'. unfold jwt_sign, jwt_verify, jwt_ttl, plain_auth.
    destruct (Z.leb_spec (Z.abs (t + 900000)) MAX_SAFE_INTEGER) as [H|]; [|done].
    intros Hs%(inj inl) Ht. rewrite <- Hs. unfold utf8, of_utf8.
    rewrite String.list_ascii_of_string_of_list_ascii.
    rewrite JSON_parse_stringify.
    + unfold payload_json, payload_of_json. rewrite (proj2 (Z.ltb_lt t' (t + 900000))) by lia.
      destruct p as [i m [] tn [j|]]; done.
    + unfold payload_json. cbn [exact forallb snd]. rewrite (proj2 (Z.leb_le _ _) H).
      by destruct (jti p), (jp_role p).
Qed.

Definition empty_house : World := put Tenants {["t1" := mkTenant "Acme" 0]} (fresh_world 1000 quiet).
Definition house_rules : Config := mkConfig "15m" "7d".

Definition new_key : (string * (string * ApiKey) + err) * World :=
  exec (createKey "t1" (mkKeyInput "ci" None (Some 5000))) empty_house.

Definition the_key : string * (string * ApiKey) :=
  match new_key.1 with
  | inl x => x
  | inr _ => ("", ("", mkApiKey "" "" "" "" false [] None None 0 None))
  end.

Lemma new_key_ok : keys_ok (apiKeys new_key.2).
Proof.
  destruct (guards_exec steady (createKey "t1" (mkKeyInput "ci" None (Some 5000))) empty_house
    (guards_createKey _ _)) as [_ [_ H]].
  apply H. split; [decided|]. apply map_Forall_empty.
Qed.

Lemma api_key_life_witness :
  (exec (verifyKey the_key.1) new_key.2).1 = inl ("t1", the_key.2) /\
  (exec (verifyKey the_key.1) (put Clock 5000 new_key.2)).1 = inr invalidTenantKey.
Proof.
  assert (Hx : new_key = (inl (the_key.1, (the_key.2.1, the_key.2.2)), new_key.2)) by by_vm.
  assert (Hr : apiKeys new_key.2 !! the_key.2.1 = Some the_key.2.2) by by_vm.
  pose proof new_key_ok as Hok. split.
  - destruct (api_key_life "t1" (mkKeyInput "ci" None (Some 5000)) empty_house the_key.1 the_key.2.1
      the_key.2.2 new_key.2 new_key.2 Hx ltac:(apply (PreOrder_Reflexive (R := keys_steady))) Hok)
      as (_ & _ & _ & r2 & E2 & _ & _ & H2).
    assert (r2 = the_key.2.2) as -> by congruence. rewrite H2. reflexivity.
  - destruct (api_key_life "t1" (mkKeyInput "ci" None (Some 5000)) empty_house the_key.1 the_key.2.1
      the_key.2.2 new_key.2 (put Clock 5000 new_key.2) Hx
      ltac:(apply (PreOrder_Reflexive (R := keys_steady))) Hok) as (_ & _ & _ & r2 & E2 & _ & _ & H2).
    assert (r2 = the_key.2.2) as ->
      by (change (apiKeys (put Clock 5000 new_key.2)) with (apiKeys new_key.2) in E2; congruence).
    rewrite H2. reflexivity.
Defined.

Definition registered_user : (string * User + err) * World :=
  exec (register "a@b.c" "password" "t1") empty_house.

Definition the_user : string * User :=
  match registered_user.1 with inl x => x | inr _ => ("", mkUser "" "" USER "" 0) end.


Lemma audit_is_best_effort_witness :
  exists ts outs', run (login house_rules "a@b.c" "wrong")
      (faults [Commit; Refuse (PlainError "down")]) registered_user.2 =
    (inr invalidCredentials, put AuditLogs ts registered_user.2, faults outs').
Proof.
  destruct (audit_is_best_effort house_rules) as [_ H].
  apply (H "a@b.c" "wrong" [Refuse (PlainError "down")] registered_user.2 the_user.1 the_user.2).
  - by_vm.
  - reflexivity.
Defined.
End Witness.
