(* ===== verification/Validators.v ===== *)
(** * Request validation

    [src/validators/]: the zod schemas of request bodies, parameters and queries, as
    functions that return what the schema produces, or nothing when it rejects its
    input. *)

From S2P Require Import Prelude JsString Double Config Schema Platform Reference TransactionRepository Guarantee Metrics Addresses Envelope Encoding Json Dates Adapters Transfer Index LogWindows EventListener Reconcile Registration Ownership Identity.
From Stdlib Require Import Ascii.
#[local] Open Scope Z_scope.

(** What zod decides by itself. *)
Class Zod := {
  zod_uuid : string -> bool;
  zod_email : string -> bool;
  (** [z.coerce.date()] *)
  coerce_date : jsval -> option Z;
  (** [error.issues] for an input that a schema, given by its name, rejects, as JSON. *)
  zod_issues : string -> option jsval -> string;
  (** [error.validation] of the type provider for the same: [instancePath] and [message]
      of each item. *)
  zod_validation : string -> option jsval -> option (list (option string * option string)) }.

(** A required string that satisfies a condition. *)
Definition str (ok : string -> bool) (k : string) (j : jsval) : option string :=
  match prop k j with Some (JsStr s) => if ok s then Some s else None | _ => None end.

(** An optional one: [Some None] when the property is absent. *)
Definition opt_str (ok : string -> bool) (k : string) (j : jsval) : option (option string) :=
  match prop k j with
  | None => Some None
  | Some (JsStr s) => if ok s then Some (Some s) else None
  | _ => None
  end.

Definition min (n : nat) (s : string) : bool := (n <=? String.length s)%nat.
Definition any_string (s : string) : bool := true.

(** [z.number().int()]: a safe integer. *)
Definition int_ (k : string) (j : jsval) : option Z :=
  match prop k j with
  | Some (JsNum (Int z)) => if Z.abs z <=? MAX_SAFE_INTEGER then Some z else None
  | _ => None
  end.

(** [/^\d+$/] *)
Definition all_digits (s : string) : bool := min 1 s && all_chars is_digit s.

Definition radix_digit (radix : N) (a : ascii) : option Z :=
  let n := if is_digit a then (N_of_ascii a - 48)%N
           else (N_of_ascii (lower_ascii a) - 87)%N in
  if (is_digit a || in_range 97 122 (lower_ascii a)) && (n <? radix)%N then Some (Z.of_N n) else None.

Fixpoint radix_value (radix : N) (acc : Z) (s : string) : option Z :=
  match s with
  | EmptyString => Some acc
  | String a s' =>
      match radix_digit radix a with
      | Some d => radix_value radix (acc * Z.of_N radix + d) s'
      | None => None
      end
  end.

Definition nonempty_value (radix : N) (s : string) : option Z :=
  match s with EmptyString => None | _ => radix_value radix 0 s end.

(** [BigInt(s)]; [None] is a SyntaxError. *)
Definition BigInt (s : string) : option Z :=
  match trim s with
  | EmptyString => Some 0
  | String "0"%char (String x r) =>
      let p := lower_ascii x in
      if Ascii.eqb p "x" then nonempty_value 16 r
      else if Ascii.eqb p "o" then nonempty_value 8 r
      else if Ascii.eqb p "b" then nonempty_value 2 r
      else radix_value 10 0 (String "0"%char (String x r))
  | String "-"%char r => Z.opp <$> nonempty_value 10 r
  | String "+"%char r => nonempty_value 10 r
  | t => radix_value 10 0 t
  end.

Record TransferBody := mkTransferBody {
  tb_tokenId : string; tb_fromWalletId : string; tb_toWalletId : string; tb_amount : Z }.
Record WalletBody := mkWalletBody {
  wb_chainId : Z; wb_address : string; wb_challenge : option string; wb_signature : option string }.
Record TokenBody := mkTokenBody {
  kb_name : string; kb_symbol : string; kb_contractAddress : option string; kb_decimals : Z;
  kb_blockchain : Blockchain }.

Section Schemas.
Context `{ZD : Zod}.

Definition transferSchema (j : jsval) : option TransferBody :=
  match str zod_uuid "tokenId" j, str zod_uuid "fromWalletId" j, str zod_uuid "toWalletId" j,
        str all_digits "amount" j with
  | Some t, Some f, Some o, Some a =>
      let amount := digits_value 0 a in
      if 0 <? amount then Some (mkTransferBody t f o amount) else None
  | _, _, _, _ => None
  end.

(** The [id] of a route's parameters. *)
Definition transactionIdSchema (j : jsval) : option string := str zod_uuid "id" j.

Definition createWalletSchema (j : jsval) : option WalletBody :=
  match int_ "chainId" j, str any_string "address" j, opt_str (min 1) "challenge" j,
        opt_str (min 1) "signature" j with
  | Some c, Some a, Some ch, Some sg =>
      if Bool.eqb (is_some ch) (is_some sg) then Some (mkWalletBody c a ch sg) else None
  | _, _, _, _ => None
  end.

Definition walletChallengeSchema (j : jsval) : option (Z * string) :=
  match int_ "chainId" j, str any_string "address" j with
  | Some c, Some a => Some (c, a)
  | _, _ => None
  end.

Definition createCustodialWalletSchema (j : jsval) : option Z := int_ "chainId" j.

Definition walletParamsSchema (j : jsval) : option string := transactionIdSchema j.

(** [z.nativeEnum(Blockchain).default(Blockchain.EVM)] *)
Definition blockchain_of (j : jsval) : option Blockchain :=
  match prop "blockchain" j with
  | None => Some EVM
  | Some (JsStr s) =>
      List.find (fun b => String.eqb (Blockchain_name b) s) [EVM; BITCOIN; SOLANA]
  | _ => None
  end.

Definition decimals_of (j : jsval) : option Z :=
  match prop "decimals" j with
  | None => Some 6
  | Some _ => match int_ "decimals" j with Some d => if 0 <? d then Some d else None | None => None end
  end.

Definition registerTokenSchema (j : jsval) : option TokenBody :=
  match str zod_uuid "tokenId" j, str (min 1) "name" j, str (min 1) "symbol" j,
        opt_str (min 1) "contractAddress" j, decimals_of j, blockchain_of j with
  | Some _, Some n, Some s, Some c, Some d, Some b => Some (mkTokenBody n s c d b)
  | _, _, _, _, _, _ => None
  end.

Definition mintTokenSchema (j : jsval) : option (string * Z) :=
  match str (min 1) "receiver" j, str any_string "amount" j with
  | Some r, Some a =>
      match BigInt a with Some n => if 0 <? n then Some (r, n) else None | None => None end
  | _, _ => None
  end.

(** [blockNumber] is optional and, if present, one string of digits. *)
Definition reconcileTokenBalanceQuerySchema (block : list string) : option (option Z) :=
  match block with
  | [] => Some None
  | [b] => if all_digits b then Some (Some (digits_value 0 b)) else None
  | _ => None
  end.

(** [z.array(z.string()).optional()] *)
Fixpoint strings_of (l : list jsval) : option (list string) :=
  match l with
  | [] => Some []
  | JsStr s :: l' => match strings_of l' with Some r => Some (s :: r) | None => None end
  | _ => None
  end.

Definition scopes_of (j : jsval) : option (option (list string)) :=
  match prop "scopes" j with
  | None => Some None
  | Some (JsArr l) => match strings_of l with Some r => Some (Some r) | None => None end
  | _ => None
  end.

Definition expiry_of (j : jsval) : option (option Z) :=
  match prop "expiresAt" j with
  | None => Some None
  | Some d => match coerce_date d with Some t => Some (Some t) | None => None end
  end.

Definition createApiKeySchema (j : jsval) : option CreateApiKeyInput :=
  match str (fun s => min 1 s && (String.length s <=? 100)%nat) "name" j, scopes_of j, expiry_of j with
  | Some n, Some s, Some e => Some (mkKeyInput n s e)
  | _, _, _ => None
  end.

Definition apiKeyParamsSchema (j : jsval) : option string := transactionIdSchema j.

Definition createTenantSchema (j : jsval) : option string := str (min 3) "name" j.

(** Registration and login take the same credentials. *)
Definition registerSchema (j : jsval) : option (string * string) :=
  match str zod_email "email" j, str (min 8) "password" j with
  | Some e, Some p => Some (e, p)
  | _, _ => None
  end.

Definition loginSchema (j : jsval) : option (string * string) := registerSchema j.

Definition refreshSchema (j : jsval) : option string := str (min 1) "refreshToken" j.
End Schemas.
