(* ===== verification/Wire.v ===== *)
(** * What goes over the wire

    What the handlers of [src/api/routes] pass to [send], and the bodies of successful
    responses as the clients read them: the rows and objects that are sent, [serializeBigInt] of
    [src/utils/serialize.ts], [successResponse] of [src/api/utils/response.ts], the
    response schemas of [src/validators/auth.validator.ts], and the serialisation to
    JSON that follows. *)

From stdpp Require Import pretty.
From S2P Require Import Prelude JsString Schema Platform Reference TransactionRepository Guarantee Addresses Envelope Encoding Json Dates Adapters Index EventListener Reconcile Registration Ownership Identity Validators.
From Stdlib Require Import Ascii.
#[local] Open Scope Z_scope.

(** ** What a handler answers with *)

Record AuthUser := mkAuthUser {
  au_id : string; au_email : string; au_role : Role; au_tenantId : string }.

(** A wallet row without its relations. *)
Record WalletView := mkWalletView {
  wv_id : string; wv_tenantId : string; wv_ownerId : string; wv_chainId : Z;
  wv_address : string; wv_custodyType : CustodyType; wv_status : WalletStatus;
  wv_createdAt : Z }.

Definition wallet_view (kr : string * Wallet) : WalletView :=
  mkWalletView kr.1 (wal_tenantId kr.2) (ownerId kr.2) (chainId kr.2) (address kr.2)
    (custodyType kr.2) (wal_status kr.2) (wal_createdAt kr.2).

(** What a successful response carries. *)
Inductive payload :=
| PTenant (rows_ : (string * Tenant) * (string * ApiKey)) (apiKey : string)
| PNewKey (apiKey : string) (k : KeyView)
| PKeys (l : list KeyView)
| PRevoked (id : string)
| PAudit (l : list (string * AuditLog))
| PUser (id mail : string) (r : Role) (tenant : string) (created : Z)
| PLogin (l : LoginResult)
| PRefreshed (access : string) (expires : Z)
| PMe (u : AuthUser)
| PWallets (l : list WalletView)
| PWallet (v : WalletView)
| PChallenge (c : IssuedChallenge)
| PBalances (l : list (string * BalanceSnapshot * option Token))
| PToken (t : string * Token)
| PTokens (l : list (string * Token))
| PMinted (hash : string)
| PBalance (o : option (string * BalanceSnapshot))
| PReconciled (wallet token : string) (b : Blockchain) (r : BalanceReconciliationResult)
| PTransaction (t : string * Transaction)
| PTransactions (l : list TransactionWithRelations)
| PTransactionWithRelations (t : TransactionWithRelations).

(** ** JavaScript values *)

(** What a handler passes to [reply.send]; [VJson] is the value of a JSON column. *)
Inductive value :=
| VNull
| VBool (b : bool)
| VNum (n : Z)
| VStr (s : string)
| VBig (n : Z)
| VDate (ms : Z)
| VJson (j : jsval)
| VArr (l : list value)
| VObj (l : list (string * value)).

Section ValueInd.
Context (Q : value -> Prop).
Context (Hnull : Q VNull) (Hbool : forall b, Q (VBool b)) (Hnum : forall n, Q (VNum n)).
Context (Hstr : forall s, Q (VStr s)) (Hbig : forall n, Q (VBig n)) (Hdate : forall t, Q (VDate t)).
Context (Hjson : forall j, Q (VJson j)).
Context (Harr : forall l, Forall Q l -> Q (VArr l)).
Context (Hobj : forall l, Forall (fun kv => Q kv.2) l -> Q (VObj l)).

Fixpoint value_nested_ind (v : value) : Q v :=
  match v with
  | VNull => Hnull | VBool b => Hbool b | VNum n => Hnum n | VStr s => Hstr s
  | VBig n => Hbig n | VDate t => Hdate t | VJson j => Hjson j
  | VArr l => Harr l ((fix go l : Forall Q l :=
      match l with
      | [] => Forall_nil_2 _
      | x :: l => Forall_cons_2 _ _ _ (value_nested_ind x) (go l)
      end) l)
  | VObj l => Hobj l ((fix go l : Forall (fun kv => Q kv.2) l :=
      match l with
      | [] => Forall_nil_2 _
      | x :: l => Forall_cons_2 _ _ _ (value_nested_ind x.2) (go l)
      end) l)
  end.
End ValueInd.

(** [JSON.stringify]: a date is its ISO form, a BigInt makes it throw. *)
Fixpoint to_json (v : value) : option jsval :=
  match v with
  | VNull => Some JsNull
  | VBool b => Some (JsBool b)
  | VNum n => Some (JsNum (Int n))
  | VStr s => Some (JsStr s)
  | VBig _ => None
  | VDate t => Some (JsStr (iso t))
  | VJson j => Some j
  | VArr l => JsArr <$> mapM to_json l
  | VObj l => JsObj <$> mapM (fun kv => pair kv.1 <$> to_json kv.2) l
  end.

(** [JSON.parse(JSON.stringify(value, (_, v) => typeof v === 'bigint' ? v.toString() : v))] *)
Fixpoint serializeBigInt (v : value) : value :=
  match v with
  | VBig n => VStr (pretty n)
  | VDate t => VStr (iso t)
  | VArr l => VArr (map serializeBigInt l)
  | VObj l => VObj (map (fun kv => (kv.1, serializeBigInt kv.2)) l)
  | v => v
  end.

(** The property names of a value, at any depth; a JSON column is opaque. *)
Fixpoint names (v : value) : list string :=
  match v with
  | VArr l => flat_map names l
  | VObj l => flat_map (fun kv => kv.1 :: names kv.2) l
  | _ => []
  end.

Fixpoint has_big (v : value) : bool :=
  match v with
  | VBig _ => true
  | VArr l => existsb has_big l
  | VObj l => existsb (fun kv => has_big kv.2) l
  | _ => false
  end.

(** ** Facts *)

Lemma mapM_Some_iff {A B} (f : A -> option B) l :
  is_Some (mapM f l) <-> Forall (fun x => is_Some (f x)) l.
Proof. apply mapM_is_Some. Qed.

Lemma existsb_false_Forall {A} (f : A -> bool) l : existsb f l = false <-> Forall (fun x => f x = false) l.
Proof.
  induction l as [|x l IH]; cbn; [by split|]. rewrite orb_false_iff, Forall_cons, IH. done.
Qed.

(** Serialisation succeeds exactly on values without a BigInt. *)
Lemma to_json_total v : is_Some (to_json v) <-> has_big v = false.
Proof.
  induction v as [| | | | | | |l IH|l IH] using value_nested_ind; cbn; try (split; [done|intros _; by eexists]).
  - split; [by intros [? ?]|done].
  - rewrite fmap_is_Some, mapM_Some_iff, existsb_false_Forall. split; intros H; apply Forall_forall;
      intros x Hx; rewrite Forall_forall in H, IH; by apply IH, H.
  - rewrite fmap_is_Some, mapM_Some_iff, existsb_false_Forall. split; intros H; apply Forall_forall;
      intros x Hx; rewrite Forall_forall in H, IH; specialize (H x Hx); specialize (IH x Hx);
      rewrite ?fmap_is_Some in *; by apply IH.
Qed.

(** [serializeBigInt] removes every BigInt and keeps the names. *)
Lemma serializeBigInt_clean v : has_big (serializeBigInt v) = false.
Proof.
  induction v as [| | | | | | |l IH|l IH] using value_nested_ind; cbn; try done;
    apply existsb_false_Forall, Forall_map; eapply Forall_impl; [exact IH|done|exact IH|done].
Qed.

Lemma serializeBigInt_names v : names (serializeBigInt v) = names v.
Proof.
  induction v as [| | | | | | |l IH|l IH] using value_nested_ind; cbn; try done;
    induction IH as [|x l Hx _ IH]; cbn; [done| |done|]; by rewrite Hx, IH.
Qed.

(** ** Rows *)

Definition VOpt {A} (f : A -> value) (o : option A) : value :=
  match o with Some a => f a | None => VNull end.

Definition Role_name (r : Role) : string :=
  match r with ADMIN => "ADMIN" | USER => "USER" | SERVICE => "SERVICE" end.
Definition Custody_name (c : CustodyType) : string :=
  match c with CUSTODIAL => "CUSTODIAL" | EXTERNAL => "EXTERNAL" | LOCAL => "LOCAL" | KMS => "KMS" end.
Definition Reconciliation_name (s : BalanceReconciliationStatus) : string :=
  match s with MATCH => "MATCH" | MISMATCH => "MISMATCH" | STALE_OBSERVATION => "STALE_OBSERVATION" end.

(** The value of a metadata column. *)
Definition metadata_value (j : json) : jsval :=
  match j with
  | JNull => JsNull
  | JString s => JsStr s
  | JIsoDate t => JsStr (iso t)
  | JStrings l => JsArr (map JsStr l)
  end.

Definition Wallet_status_name (s : WalletStatus) : string :=
  match s with ACTIVE => "ACTIVE" | SUSPENDED => "SUSPENDED" end.

Definition transaction_fields (kt : string * Transaction) : list (string * value) :=
  let t := kt.2 in
  [("id", VStr kt.1); ("tenantId", VStr (tenantId t)); ("tokenId", VStr (tokenId t));
   ("fromWalletId", VStr (fromWalletId t)); ("toWalletId", VStr (toWalletId t));
   ("txHash", VOpt VStr (txHash t)); ("amount", VBig (amount t));
   ("nonce", VOpt VBig (Schema.nonce t)); ("gasUsed", VOpt VBig (gasUsed t));
   ("blockNumber", VOpt VBig (blockNumber t)); ("status", VStr (Status_name (status t)));
   ("createdAt", VDate (createdAt t)); ("submittedAt", VOpt VDate (submittedAt t));
   ("confirmationStartedAt", VOpt VDate (confirmationStartedAt t));
   ("confirmedAt", VOpt VDate (confirmedAt t)); ("failureReason", VOpt VStr (failureReason t));
   ("failedAt", VOpt VDate (failedAt t))].

Definition token_fields (id : string) (t : Token) : list (string * value) :=
  [("id", VStr id); ("name", VStr (tok_name t)); ("symbol", VStr (tok_symbol t));
   ("contractAddress", VOpt VStr (contractAddress t));
   ("blockchain", VStr (Blockchain_name (blockchain t))); ("isActive", VBool (isActive t));
   ("decimals", VNum (decimals t)); ("lastProcessedBlock", VBig (tok_lastProcessedBlock t));
   ("createdAt", VDate (tok_createdAt t))].

Definition wallet_row (v : WalletView) : value :=
  VObj [("id", VStr (wv_id v)); ("tenantId", VStr (wv_tenantId v)); ("ownerId", VStr (wv_ownerId v));
        ("chainId", VNum (wv_chainId v)); ("address", VStr (wv_address v));
        ("custodyType", VStr (Custody_name (wv_custodyType v)));
        ("status", VStr (Wallet_status_name (wv_status v))); ("createdAt", VDate (wv_createdAt v))].

Definition snapshot_fields (ks : string * BalanceSnapshot) : list (string * value) :=
  [("id", VStr ks.1); ("walletId", VStr (snap_walletId ks.2)); ("tokenId", VStr (snap_tokenId ks.2));
   ("balance", VBig (balance ks.2)); ("blockNumber", VBig (snap_blockNumber ks.2));
   ("updatedAt", VDate (snap_updatedAt ks.2))].

(** A transaction with the relations its query includes. *)
Definition related_row (x : TransactionWithRelations) : value :=
  let '(kt, (tok, from, to)) := x in
  VObj (transaction_fields kt ++
        [("token", VObj (token_fields (tokenId kt.2) tok));
         ("fromWallet", wallet_row (wallet_view (fromWalletId kt.2, from)));
         ("toWallet", wallet_row (wallet_view (toWalletId kt.2, to)))]).

(** A row of [ApiKey] as the tenant's creation includes it. *)
Definition api_key_row (kr : string * ApiKey) : value :=
  let k := kr.2 in
  VObj [("id", VStr kr.1); ("tenantId", VStr (key_tenantId k)); ("keyHash", VStr (keyHash k));
        ("keyPrefix", VStr (keyPrefix k)); ("name", VStr (key_name k)); ("active", VBool (active k));
        ("scopes", VArr (map VStr (scopes k))); ("lastUsedAt", VOpt VDate (lastUsedAt k));
        ("expiresAt", VOpt VDate (key_expiresAt k)); ("createdAt", VDate (key_createdAt k));
        ("revokedAt", VOpt VDate (revokedAt k))].

(** An entry of [listKeys]. *)
Definition key_entry (k : KeyView) : value :=
  VObj [("id", VStr (kv_id k)); ("keyPrefix", VStr (kv_keyPrefix k)); ("name", VStr (kv_name k));
        ("scopes", VArr (map VStr (kv_scopes k))); ("active", VBool (kv_active k));
        ("lastUsedAt", VOpt VDate (kv_lastUsedAt k)); ("expiresAt", VOpt VDate (kv_expiresAt k));
        ("createdAt", VDate (kv_createdAt k)); ("revokedAt", VOpt VDate (kv_revokedAt k))].

Definition audit_row (ka : string * AuditLog) : value :=
  let a := ka.2 in
  VObj [("id", VStr ka.1); ("tenantId", VOpt VStr (log_tenantId a)); ("userId", VOpt VStr (log_userId a));
        ("action", VStr (action a)); ("resource", VStr (resource a));
        ("resourceId", VOpt VStr (resourceId a));
        ("metadata", VOpt (fun m => VJson (JsObj (map (fun kj => (kj.1, metadata_value kj.2)) m))) (metadata a));
        ("createdAt", VDate (log_createdAt a))].

(** The balance with the token its query includes. *)
Definition balance_row (kst : string * BalanceSnapshot * option Token) : value :=
  VObj (snapshot_fields kst.1 ++
        [("token", VOpt (fun t => VObj (token_fields (snap_tokenId kst.1.2) t)) kst.2)]).

(** [data] of a response, as its handler passes it to [send]. *)
Definition payload_value (p : payload) : value :=
  match p with
  | PTenant ((id, t), key) raw =>
      VObj [("tenant", VObj [("id", VStr id); ("name", VStr (ten_name t));
                             ("createdAt", VDate (ten_createdAt t));
                             ("apiKeys", VArr [api_key_row key])]);
            ("apiKey", VStr raw)]
  | PNewKey raw k =>
      VObj [("id", VStr (kv_id k)); ("apiKey", VStr raw); ("keyPrefix", VStr (kv_keyPrefix k));
            ("name", VStr (kv_name k)); ("scopes", VArr (map VStr (kv_scopes k)));
            ("expiresAt", VOpt VDate (kv_expiresAt k)); ("createdAt", VDate (kv_createdAt k))]
  | PKeys l => VArr (map key_entry l)
  | PRevoked id => VObj [("id", VStr id); ("revoked", VBool true)]
  | PAudit l => VArr (map audit_row l)
  | PUser id mail r tenant created =>
      VObj [("id", VStr id); ("email", VStr mail); ("role", VStr (Role_name r));
            ("tenantId", VStr tenant); ("createdAt", VStr (iso created))]
  | PLogin l =>
      VObj [("accessToken", VStr (accessToken l)); ("refreshToken", VStr (refreshToken l));
            ("expiresIn", VNum (expiresIn l))]
  | PRefreshed token expires => VObj [("accessToken", VStr token); ("expiresIn", VNum expires)]
  | PMe u =>
      VObj [("userId", VStr (au_id u)); ("email", VStr (au_email u));
            ("role", VStr (Role_name (au_role u))); ("tenantId", VStr (au_tenantId u))]
  | PWallets l => VArr (map wallet_row l)
  | PWallet v => wallet_row v
  | PChallenge c =>
      VObj [("message", VStr (ic_message c)); ("challenge", VStr (challenge c));
            ("expiresAt", VStr (expiresAt_ c))]
  | PBalances l => VArr (map balance_row l)
  | PToken t => serializeBigInt (VObj (token_fields t.1 t.2))
  | PTokens l => serializeBigInt (VArr (map (fun t => VObj (token_fields t.1 t.2)) l))
  | PMinted hash => VObj [("transactionHash", VStr hash)]
  | PBalance o => serializeBigInt (VOpt (fun ks => VObj (snapshot_fields ks)) o)
  | PReconciled walletId tokenId_ b r =>
      VObj [("status", VStr (Reconciliation_name (rec_status r))); ("blockchain", VStr (Blockchain_name b));
            ("walletId", VStr walletId); ("tokenId", VStr tokenId_);
            ("persisted", VOpt (fun bn => VObj [("balance", VStr (pretty bn.1)); ("blockNumber", VStr (pretty bn.2))])
                            (rec_persisted r));
            ("chain", VObj [("balance", VStr (pretty (tb_balance (rec_chain r))));
                            ("blockNumber", VStr (pretty (tb_blockNumber (rec_chain r))))])]
  | PTransaction t => serializeBigInt (VObj (transaction_fields t))
  | PTransactions l => serializeBigInt (VArr (map related_row l))
  | PTransactionWithRelations x => serializeBigInt (related_row x)
  end.

(** [successResponse]: the data and the id of the request. *)
Definition successResponse (requestId : string) (v : value) : value :=
  VObj [("data", v); ("requestId", VStr requestId)].

(** ** Response schemas *)

(** A [z.object]: every declared property must be there and accepted; the others are
    dropped. *)
Fixpoint z_object (fields : list (string * (jsval -> option jsval))) (l : list (string * jsval))
  : option (list (string * jsval)) :=
  match fields with
  | [] => Some []
  | (k, check) :: fields' =>
      v ← snd <$> List.find (fun kv => String.eqb kv.1 k) l;
      v' ← check v;
      rest ← z_object fields' l;
      Some ((k, v') :: rest)
  end.

Definition z_obj (fields : list (string * (jsval -> option jsval))) (j : jsval) : option jsval :=
  match j with JsObj l => JsObj <$> z_object fields l | _ => None end.

Definition z_str (ok : string -> bool) (j : jsval) : option jsval :=
  match j with JsStr s => if ok s then Some j else None | _ => None end.
Definition z_num (j : jsval) : option jsval := match j with JsNum _ => Some j | _ => None end.

Section Responses.
Context `{ZD : Zod}.

Definition userResponseSchema : jsval -> option jsval :=
  z_obj [("data", z_obj [("id", z_str any_string); ("email", z_str zod_email);
                         ("role", z_str any_string); ("createdAt", z_str any_string)]);
         ("requestId", z_str any_string)].

Definition loginResponseSchema : jsval -> option jsval :=
  z_obj [("data", z_obj [("accessToken", z_str any_string); ("refreshToken", z_str any_string);
                         ("expiresIn", z_num)]);
         ("requestId", z_str any_string)].

Definition refreshResponseSchema : jsval -> option jsval :=
  z_obj [("data", z_obj [("accessToken", z_str any_string); ("expiresIn", z_num)]);
         ("requestId", z_str any_string)].

(** The schema a route declares for its answer. *)
Definition response_schema (p : payload) : jsval -> option jsval :=
  match p with
  | PUser _ _ _ _ _ => userResponseSchema
  | PLogin _ => loginResponseSchema
  | PRefreshed _ _ => refreshResponseSchema
  | _ => Some
  end.

(** The body a client receives; [None] when the serialisation throws. *)
Definition body_sent (requestId : string) (p : payload) : option jsval :=
  to_json (successResponse requestId (payload_value p)) ≫= response_schema p.
End Responses.

(** ** Numerals *)

Lemma pretty_digit x : (x < 10)%N ->
  Z.of_N (N_of_ascii (pretty_N_char x)) - 48 = Z.of_N x /\ is_digit (pretty_N_char x) = true.
Proof.
  intros H. assert (Hx : x ∈ [0; 1; 2; 3; 4; 5; 6; 7; 8; 9]%N).
  { rewrite !elem_of_cons. lia. }
  rewrite !elem_of_cons, elem_of_nil in Hx. destruct_or! Hx; by subst.
Qed.

Lemma pretty_go_value x s :
  digits_value 0 (pretty_N_go x s) = digits_value (Z.of_N x) s /\
  all_chars is_digit (pretty_N_go x s) = all_chars is_digit s.
Proof.
  revert s. induction (N.lt_wf_0 x) as [x _ IH]; intros s.
  assert (x = 0 \/ 0 < x)%N as [->|Hx] by lia; [by rewrite pretty_N_go_0|].
  rewrite pretty_N_go_step by done. destruct (pretty_digit (x `mod` 10)) as [Hd Hi]; [apply N.mod_lt; lia|].
  destruct (IH (x `div` 10)%N ltac:(apply N.div_lt; lia) (String (pretty_N_char (x `mod` 10)) s)) as [-> ->].
  cbn [digits_value all_chars]. rewrite Hi. split; [|done]. f_equal.
  rewrite N2Z.inj_div. pose proof (Z.div_mod (Z.of_N x) 10). rewrite N2Z.inj_mod in Hd. lia.
Qed.

(** A number that is not negative is printed as digits that denote it. *)
Lemma pretty_value n : 0 <= n -> digits_value 0 (pretty n) = n /\ all_digits (pretty n) = true.
Proof.
  intros Hn. destruct n as [|p|p]; [done| |lia].
  change (pretty (Z.pos p)) with (pretty (N.pos p)). unfold pretty, pretty_N.
  destruct (decide (N.pos p = 0)%N); [done|]. destruct (pretty_go_value (N.pos p) "") as [Hv Hd].
  split; [done|]. unfold all_digits. rewrite Hd, andb_true_r.
  unfold min. apply Nat.leb_le. destruct (pretty_N_go (N.pos p) "") eqn:E; [|cbn; lia].
  cbn in Hv. done.
Qed.

(** ** What is answered *)

(** Columns that hold secrets or what is derived from them. *)
Definition secrets : list string :=
  ["passwordHash"; "keyHash"; "tokenHash"; "custodyKey"; "encryptedKey"; "kmsKeyId"; "privateKey"].

(** None of these names occurs in a value. *)
Definition public (v : value) : Prop := Forall (fun k => k ∉ secrets) (names v).

Definition plain (v : value) : Prop := has_big v = false.

Lemma plain_obj l : Forall (fun kv => plain kv.2) l -> plain (VObj l).
Proof. apply existsb_false_Forall. Qed.
Lemma plain_arr {A} (f : A -> value) l : (forall a, plain (f a)) -> plain (VArr (map f l)).
Proof. intros H. apply existsb_false_Forall, Forall_map, Forall_forall. intros x _. apply H. Qed.
Lemma plain_lit l : Forall plain l -> plain (VArr l).
Proof. apply existsb_false_Forall. Qed.
Lemma plain_opt {A} (f : A -> value) o : (forall a, plain (f a)) -> plain (VOpt f o).
Proof. destruct o; cbn; auto. by intros. Qed.

Lemma public_obj l : Forall (fun kv => (kv.1 ∉ secrets) /\ public kv.2) l -> public (VObj l).
Proof.
  unfold public. cbn. induction 1 as [|x l [Hk Hx] _ IH]; cbn; [done|].
  constructor; [done|]. by apply Forall_app.
Qed.
Lemma public_arr {A} (f : A -> value) l : (forall a, public (f a)) -> public (VArr (map f l)).
Proof.
  intros H. unfold public. cbn. induction l as [|x l IH]; cbn; [done|]. apply Forall_app. split; [apply H|done].
Qed.
Lemma public_lit l : Forall public l -> public (VArr l).
Proof. unfold public. cbn. induction 1 as [|x l Hx _ IH]; cbn; [done|]. by apply Forall_app. Qed.
Lemma public_opt {A} (f : A -> value) o : (forall a, public (f a)) -> public (VOpt f o).
Proof. destruct o; cbn; auto. by intros; constructor. Qed.
Lemma public_serialized v : public v -> public (serializeBigInt v).
Proof. unfold public. by rewrite serializeBigInt_names. Qed.

Ltac wire_name := apply (bool_decide_unpack _); vm_compute; exact I.

(** Rows are checked field by field. *)
Ltac wire :=
  repeat first
    [ progress cbn [fst snd]
    | apply plain_obj | apply plain_arr; intros ? | apply plain_lit | apply plain_opt; intros ?
    | apply public_serialized
    | apply public_obj | apply public_arr; intros ? | apply public_lit | apply public_opt; intros ?
    | apply Forall_nil_2 | apply Forall_cons_2
    | split; [wire_name|] | reflexivity ].

(** Only the balances of a wallet are sent without [serializeBigInt]. *)
Lemma data_has_big p :
  has_big (payload_value p) = match p with PBalances (_ :: _) => true | _ => false end.
Proof.
  destruct p as [[[id t] key] raw|raw k|l|id|l|id m r t c|l|a e|u|l|v|c|l|t|l|h|o|w t b r|t|l|x];
    cbn [payload_value]; try apply serializeBigInt_clean; try reflexivity.
  6: { destruct l as [|kst l]; reflexivity. }
  all: lazymatch goal with |- has_big ?v = false => change (plain v) end;
    unfold api_key_row, key_entry, audit_row, wallet_row; wire.
Qed.

Lemma data_public p : (forall rows_ raw, p <> PTenant rows_ raw) -> public (payload_value p).
Proof.
  intros Hp.
  destruct p as [rows_ raw|raw k|l|id|l|id m r t c|l|a e|u|l|v|c|l|t|l|h|o|w t b r|t|l|x];
    cbn [payload_value]; [by specialize (Hp rows_ raw)|..];
    unfold related_row, key_entry, audit_row, wallet_row, balance_row, snapshot_fields, token_fields, transaction_fields;
    cbn [app]; wire.
  - destruct a as [kt [[tok from] to]]. wire.
  - destruct x as [kt [[tok from] to]]. wire.
Qed.

(** ** Bodies *)
Section Bodies.
Context `{ZD : Zod}.

(** The answer to a registration has no [tenantId], although the handler passes one:
    the schema does not declare it. *)
Lemma registered_body rid id mail r tenant created :
  zod_email mail = true ->
  body_sent rid (PUser id mail r tenant created) =
    Some (JsObj [("data", JsObj [("id", JsStr id); ("email", JsStr mail); ("role", JsStr (Role_name r));
                                 ("createdAt", JsStr (iso created))]);
                 ("requestId", JsStr rid)]).
Proof. intros H. unfold body_sent. cbn. by rewrite H. Qed.

(** A body is sent unless it shows balances; the address of a new user passes the
    schema of its answer when it passed the one of its request. *)
Lemma body_sent_total rid p :
  (forall id mail r tenant created, p = PUser id mail r tenant created -> zod_email mail = true) ->
  is_Some (body_sent rid p) <-> forall l, p = PBalances l -> l = [].
Proof.
  intros Hu. assert (Hj : is_Some (to_json (successResponse rid (payload_value p))) <->
    match p with PBalances (_ :: _) => False | _ => True end).
  { rewrite to_json_total. cbn. rewrite data_has_big. destruct p as [| | | | | | | | | | | |l| | | | | | | |]; try done.
    by destruct l. }
  destruct p as [| | | | |id mail r tenant created| | | | | | |l| | | | | | | |].
  6: { rewrite registered_body by (by eapply Hu). split; [done|by eexists]. }
  12: { destruct l as [|x l].
        - split; [by intros _ l [= <-]|]. intros _. unfold body_sent. destruct (proj2 Hj I) as [j ->]. by eexists.
        - split; [|by intros H; discriminate (H _ eq_refl)]. unfold body_sent.
          destruct (to_json _) as [j|]; [by destruct Hj as [[] _]|by intros [? ?]]. }
  all: split; [done|intros _].
  all: try (by eexists).
  all: unfold body_sent; destruct (proj2 Hj I) as [j ->]; by eexists.
Qed.

Lemma opt_json {B} (f : B -> value) (g : B -> jsval) o :
  (forall b, to_json (serializeBigInt (f b)) = Some (g b)) ->
  to_json (serializeBigInt (VOpt f o)) = Some (match o with Some b => g b | None => JsNull end).
Proof. intros H. destruct o; [apply H|done]. Qed.

(** The amount of a transaction is sent as a numeral that the schema of a transfer
    reads back as the same amount. *)
Lemma amount_round_trip rid k t :
  0 <= amount t ->
  exists fields a,
    body_sent rid (PTransaction (k, t)) = Some (JsObj [("data", JsObj fields); ("requestId", JsStr rid)]) /\
    List.find (fun kv => String.eqb kv.1 "amount") fields = Some ("amount", JsStr a) /\
    all_digits a = true /\ digits_value 0 a = amount t.
Proof.
  intros Ha. destruct (pretty_value (amount t) Ha) as [Hv Hd].
  unfold body_sent, successResponse. cbn [payload_value response_schema].
  unfold transaction_fields. cbn [serializeBigInt map fst snd to_json mapM option_bind fmap option_fmap].
  rewrite !(opt_json VStr JsStr), !(opt_json VBig (fun n => JsStr (pretty n))),
    !(opt_json VDate (fun d => JsStr (iso d))) by done.
  do 2 eexists. split; [reflexivity|]. split; [reflexivity|]. done.
Qed.
End Bodies.
