(* ===== verification/Http.v ===== *)
(** * The HTTP interface

    [src/api/]: the authentication and role middleware, every route handler that is not a probe, and the error
    handler.  A request is one program: it validates, authenticates, authorises,
    runs the service and answers. *)

From S2P Require Import Prelude JsString Double Config Schema Platform Reference TransactionRepository Guarantee Metrics Addresses Envelope Encoding Json Dates Adapters Transfer Index LogWindows EventListener Reconcile Registration Ownership Identity Validators Wire.
From Stdlib Require Import Ascii.
#[local] Open Scope Z_scope.

(** ** Requests and responses *)

Inductive endpoint :=
| POST_tenants
| POST_api_keys | GET_api_keys | DELETE_api_key (id : string)
| GET_audit_logs
| POST_register | POST_login | POST_refresh
| GET_me | GET_wallets | GET_wallet (id : string) | POST_wallets | POST_challenge
| POST_custodial | GET_wallet_balances (id : string)
| POST_tokens | GET_tokens | GET_token (id : string) | POST_mint (id : string)
| GET_balance (token wallet : string) | GET_reconcile (token wallet : string)
| POST_transactions | GET_transactions | GET_transaction (id : string).

(** [None] is an absent header or body.  A query parameter is the list of its
    occurrences: Fastify hands over nothing, a string, or an array of strings.
    [req_id] is the id Fastify gave the request. *)
Record Request := mkRequest {
  ep : endpoint; authorization : option string; x_tenant_key : option string;
  body : option jsval; q_page : list string; q_limit : list string;
  q_blockNumber : list string; req_id : string }.

(** [Number(query.x ?? d)]: an array is read through its [toString], which joins the
    strings with commas. *)
Definition query_number (q : list string) (d : Z) : double :=
  match q with
  | [] => of_Z d
  | _ => Number (String.concat "," q)
  end.

(** [details] of an error: [undefined], the application's own object, the client's
    [meta] or zod's [issues] as JSON, or the fields a validation rejected. *)
Inductive error_details :=
| NoDetails
| Details (l : list (string * detail))
| Meta (json : string)
| Issues (json : string)
| Fields (l : list (string * option string)).

(** The bodies of responses.  Each also carries the id of the request, and those of the
    error handler, but for zod's errors, the time; these are not repeated here. *)
Inductive rbody :=
| Data (p : payload)
| ErrorText (message : string)
| ErrorBody (code message : string) (d : error_details).

Record Response := mkResponse { resp_status : Z; resp_body : rbody }.

(** ** The error handler *)
(** [path.replace('/', '')]: without the first slash. *)
Fixpoint without_slash (path : string) : string :=
  match path with
  | EmptyString => EmptyString
  | String c rest => if Ascii.eqb c "/" then rest else String c (without_slash rest)
  end.

(** [item.instancePath?.replace('/', '') || 'unknown'] *)
Definition field_of (instancePath : option string) : string :=
  match without_slash <$> instancePath with
  | None | Some EmptyString => "unknown"
  | Some field => field
  end.

Definition validation_details (v : option (list (option string * option string))) : error_details :=
  match v with
  | Some items => Fields (map (fun item => (field_of item.1, item.2)) items)
  | None => NoDetails
  end.

Definition own_details (d : option (list (string * detail))) : error_details :=
  match d with Some l => Details l | None => NoDetails end.

Definition meta_details (meta : option string) : error_details :=
  match meta with Some m => Meta m | None => NoDetails end.

Definition error_handler (e : err) : Response :=
  match e with
  | ZodError issues =>
      mkResponse 400 (ErrorBody "VALIDATION_ERROR" "Invalid request payload" (Issues issues))
  | FastifyValidationError v =>
      mkResponse 400 (ErrorBody "VALIDATION_ERROR" "Request validation failed" (validation_details v))
  | AppError s c m d => mkResponse s (ErrorBody c m (own_details d))
  | PrismaKnownRequestError c meta =>
      if String.eqb c "P2002" then
        mkResponse 409 (ErrorBody "RESOURCE_ALREADY_EXISTS" "Resource already exists" (meta_details meta))
      else if String.eqb c "P2025" then
        mkResponse 404 (ErrorBody "RESOURCE_NOT_FOUND" "Resource not found" (meta_details meta))
      else if String.eqb c "P2003" then
        mkResponse 400 (ErrorBody "INVALID_REFERENCE" "Invalid resource reference" (meta_details meta))
      else mkResponse 500 (ErrorBody "DATABASE_ERROR" "Database operation failed" NoDetails)
  | _ => mkResponse 500 (ErrorBody "INTERNAL_SERVER_ERROR" "Unexpected error" NoDetails)
  end.

(** The answer to what nobody expected. *)
Definition internal_error : Response :=
  mkResponse 500 (ErrorBody "INTERNAL_SERVER_ERROR" "Unexpected error" NoDetails).

Definition unauthorized (message : string) : err := AppError 401 "UNAUTHORIZED" message None.

(** ** Middleware *)
Section Middleware.
Context `{P : Platform} `{A : !Auth} `{ZD : Zod}.

Definition refuse (status_ : Z) (message : string) : Response :=
  mkResponse status_ (ErrorText message).

Definition user_of (p : JwtPayload) : AuthUser :=
  mkAuthUser (jp_id p) (jp_email p) (jp_role p) (jp_tenantId p).

(** [const [scheme, token] = authorization.split(' ')]; [None] is undefined. *)
Definition scheme_token (header : string) : string * option string :=
  match split_on " " header with
  | s :: t :: _ => (s, Some t)
  | [s] => (s, None)
  | [] => (EmptyString, None)
  end.

Definition authenticate (header : option string) : prog' (AuthUser + Response) :=
  if falsy header then Ret (inr (refuse 401 "Missing Authorization header"))
  else
    let '(scheme, token) := scheme_token (default EmptyString header) in
    if negb (String.eqb scheme "Bearer") || falsy token
    then Ret (inr (refuse 401 "Invalid Authorization header"))
    else
      catch (let! p := verifyToken (default EmptyString token) in Ret (inl (user_of p)))
            (fun _ => Ret (inr (refuse 401 "Invalid or expired token"))).

Definition authorize (allowedRoles : list Role) (user : option AuthUser) : option Response :=
  match user with
  | None => Some (refuse 401 "Unauthorized")
  | Some u => if bool_decide (au_role u ∈ allowedRoles) then None else Some (refuse 403 "Forbidden")
  end.

(** [preHandler: [authenticate, authorize(roles)]], or [authenticate] alone. *)
Definition preHandler (roles : option (list Role)) (r : Request)
    (handler : AuthUser -> prog' Response) : prog' Response :=
  let! user := authenticate (authorization r) in
  match user with
  | inr reply => Ret reply
  | inl u =>
      match roles with
      | None => handler u
      | Some allowed =>
          match authorize allowed (Some u) with
          | Some reply => Ret reply
          | None => handler u
          end
      end
  end.

(** [schema.parse(input)]; [o] is what the schema of that name makes of the input. *)
Definition parse {B} (name : string) (input : option jsval) (o : option B) : prog' B :=
  match o with Some b => Ret b | None => Throw (ZodError (zod_issues name input)) end.

(** A route's [schema]: checked before its [preHandler]. *)
Definition schema {B} (name : string) (input : option jsval) (o : option B) (k : prog' Response)
  : prog' Response :=
  match o with
  | Some _ => k
  | None => Throw (FastifyValidationError (zod_validation name input))
  end.

(** The parameters of a route with an [id], and a query with one parameter. *)
Definition params (id : string) : jsval := JsObj [("id", JsStr id)].
Definition query_object (k : string) (q : list string) : jsval :=
  JsObj (match q with
         | [] => []
         | [s] => [(k, JsStr s)]
         | _ => [(k, JsArr (map JsStr q))]
         end).

Definition send (status_ : Z) (p : payload) : prog' Response := Ret (mkResponse status_ (Data p)).

(** What Fastify does with a payload: it is serialised with the schema the route declares;
    a BigInt, or an answer its schema rejects, throws. *)
Definition serialise (rid : string) (resp : Response) : prog' Response :=
  match resp_body resp with
  | Data p =>
      match body_sent rid p with
      | Some _ => Ret resp
      | None => Throw (PlainError "The response could not be serialised")
      end
  | _ => Ret resp
  end.
End Middleware.

(** ** Routes *)
Section Routes.
Context `{P : Platform} `{K : Crypto} `{KS : !Keys} `{M : Hmac} `{A : !Auth} `{ZD : Zod}.
Context (env : Env) (secret : string) (config : Config) (evm : Z).
Context (isEvmAddress isOnCurve : string -> bool) (adapters : list BlockchainAdapter).

Abbreviation members := (Some [USER; ADMIN]).
Abbreviation admins := (Some [ADMIN]).

(** *** transaction.routes.ts and its service *)

Definition transaction_getById (id tenant : string) : prog' (option TransactionWithRelations) :=
  findById id tenant.

Definition transaction_list (tenant : string) (page_ limit : double) : prog' (list TransactionWithRelations) :=
  findAll tenant page_ limit.

Definition post_transactions (r : Request) : prog' Response :=
  preHandler members r (fun u =>
    let! b := parse "transferSchema" (body r) (body r ≫= transferSchema) in
    let! t := transfer adapters (mkTransferInput (au_tenantId u) (au_id u) (tb_tokenId b)
      (tb_fromWalletId b) (tb_toWalletId b) (tb_amount b)) in
    send 201 (PTransaction t)).

Definition get_transactions (r : Request) : prog' Response :=
  preHandler members r (fun u =>
    let! l := transaction_list (au_tenantId u) (query_number (q_page r) 1) (query_number (q_limit r) 20) in
    send 200 (PTransactions l)).

Definition get_transaction (id : string) (r : Request) : prog' Response :=
  preHandler members r (fun u =>
    let! id := parse "transactionIdSchema" (Some (params id)) (transactionIdSchema (params id)) in
    let! t := transaction_getById id (au_tenantId u) in
    match t with
    | None => Ret (mkResponse 404 (ErrorBody "NOT_FOUND" "Transaction not found" NoDetails))
    | Some t => send 200 (PTransactionWithRelations t)
    end).

(** *** wallet.routes.ts and the balance service *)

(** [orderBy: { token: { symbol: 'asc' } }], with the token included. *)
Definition findByWallet (walletId : string)
  : prog' (list (string * BalanceSnapshot * option Token)) :=
  act (fun w =>
    let symbol s := default EmptyString (tok_symbol <$> tokens w !! snap_tokenId s) in
    (inl (map (fun ks => (ks, tokens w !! snap_tokenId ks.2))
       (findMany (fun _ s => String.eqb (snap_walletId s) walletId)
          (fun a b => String.leb (symbol a) (symbol b)) 0 None (snapshots w))), w)).

Definition getBalance (walletId tokenId : string) : prog' (option (string * BalanceSnapshot)) :=
  balance_find walletId tokenId.

Definition getWalletBalances (walletId : string) := findByWallet walletId.

Definition get_me (r : Request) : prog' Response :=
  preHandler members r (fun u => send 200 (PMe u)).

Definition get_wallets (r : Request) : prog' Response :=
  preHandler members r (fun u =>
    let! l := getUserWallets (au_id u) in
    send 200 (PWallets (map wallet_view l))).

Definition get_wallet (id : string) (r : Request) : prog' Response :=
  preHandler members r (fun u =>
    let! id := parse "walletParamsSchema" (Some (params id)) (walletParamsSchema (params id)) in
    let! w := getWallet id (au_id u) (au_tenantId u) (au_role u) in
    send 200 (PWallet (wallet_view w))).

Definition post_wallets (r : Request) : prog' Response :=
  schema "createWalletSchema" (body r) (body r ≫= createWalletSchema) (preHandler members r (fun u =>
    let! b := parse "createWalletSchema" (body r) (body r ≫= createWalletSchema) in
    do! assertOwnership env secret evm adapters
          (mkSubject (au_tenantId u) (au_id u) (wb_chainId b) (wb_address b))
          (wb_challenge b) (wb_signature b) in
    let! w := createWallet evm isEvmAddress isOnCurve (au_tenantId u) (au_id u) (wb_chainId b)
                (wb_address b) in
    send 201 (PWallet (wallet_view w)))).

Definition post_challenge (r : Request) : prog' Response :=
  schema "walletChallengeSchema" (body r) (body r ≫= walletChallengeSchema) (preHandler members r (fun u =>
    let! b := parse "walletChallengeSchema" (body r) (body r ≫= walletChallengeSchema) in
    let! c := issueChallenge secret evm isEvmAddress isOnCurve adapters
                (mkSubject (au_tenantId u) (au_id u) b.1 b.2) in
    send 200 (PChallenge c))).

Definition post_custodial (r : Request) : prog' Response :=
  schema "createCustodialWalletSchema" (body r) (body r ≫= createCustodialWalletSchema) (preHandler members r (fun u =>
    let! c := parse "createCustodialWalletSchema" (body r) (body r ≫= createCustodialWalletSchema) in
    let! w := custodial_createWallet env evm adapters (au_tenantId u) (au_id u) c in
    send 201 (PWallet (wallet_view w)))).

Definition get_wallet_balances (id : string) (r : Request) : prog' Response :=
  preHandler None r (fun u =>
    do! getWallet id (au_id u) (au_tenantId u) (au_role u) in
    let! l := getWalletBalances id in
    send 200 (PBalances l)).

(** *** token.routes.ts *)

Definition post_tokens (r : Request) : prog' Response :=
  preHandler admins r (fun u =>
    let! b := parse "registerTokenSchema" (body r) (body r ≫= registerTokenSchema) in
    let! t := registerToken adapters (kb_name b) (kb_symbol b) (kb_contractAddress b)
                (kb_decimals b) (kb_blockchain b) in
    send 201 (PToken t)).

Definition get_tokens (r : Request) : prog' Response :=
  preHandler admins r (fun u =>
    let! l := getTokens in
    send 200 (PTokens l)).

Definition get_token (id : string) (r : Request) : prog' Response :=
  preHandler admins r (fun u =>
    let! t := getToken id in
    send 200 (PToken t)).

Definition post_mint (id : string) (r : Request) : prog' Response :=
  preHandler admins r (fun u =>
    let! b := parse "mintTokenSchema" (body r) (body r ≫= mintTokenSchema) in
    let! hash := mintToken adapters id b.1 b.2 in
    send 200 (PMinted hash)).

Definition get_balance (tokenId walletId : string) (r : Request) : prog' Response :=
  preHandler None r (fun u =>
    do! getWallet walletId (au_id u) (au_tenantId u) (au_role u) in
    let! b := getBalance walletId tokenId in
    send 200 (PBalance b)).

Definition get_reconcile (tokenId walletId : string) (r : Request) : prog' Response :=
  schema "reconcileTokenBalanceQuerySchema" (Some (query_object "blockNumber" (q_blockNumber r)))
    (reconcileTokenBalanceQuerySchema (q_blockNumber r)) (preHandler None r (fun u =>
    let! w := getWallet walletId (au_id u) (au_tenantId u) (au_role u) in
    let! t := getToken tokenId in
    let! result := reconcile evm adapters (mkReconciliationRequest walletId (address w.2)
      (chainId w.2) tokenId (blockchain t.2) (contractAddress t.2)
      (default None (reconcileTokenBalanceQuerySchema (q_blockNumber r)))) in
    send 200 (PReconciled walletId tokenId (blockchain t.2) result))).

(** *** auth.routes.ts *)

Definition post_register (r : Request) : prog' Response :=
  schema "registerSchema" (body r) (body r ≫= registerSchema)
    (if falsy (x_tenant_key r) then Throw (unauthorized "Tenant API key required")
     else
       let! v := verifyKey (default EmptyString (x_tenant_key r)) in
       let! b := parse "registerSchema" (body r) (body r ≫= registerSchema) in
       let! u := register b.1 b.2 v.1 in
       send 201 (PUser u.1 (email u.2) (role u.2) (usr_tenantId u.2) (usr_createdAt u.2))).

Definition post_login (r : Request) : prog' Response :=
  schema "loginSchema" (body r) (body r ≫= loginSchema)
    (let! b := parse "loginSchema" (body r) (body r ≫= loginSchema) in
     let! l := login config b.1 b.2 in
     send 200 (PLogin l)).

Definition post_refresh (r : Request) : prog' Response :=
  schema "refreshSchema" (body r) (body r ≫= refreshSchema)
    (let! t := parse "refreshSchema" (body r) (body r ≫= refreshSchema) in
     let! a := refresh config t in
     send 200 (PRefreshed a.1 a.2)).

(** *** api-key.routes.ts, tenant.routes.ts and audit-log.routes.ts *)

Definition post_api_keys (r : Request) : prog' Response :=
  schema "createApiKeySchema" (body r) (body r ≫= createApiKeySchema) (preHandler admins r (fun u =>
    let! b := parse "createApiKeySchema" (body r) (body r ≫= createApiKeySchema) in
    let! k := createKey (au_tenantId u) b in
    send 201 (PNewKey k.1 (key_view k.2)))).

Definition get_api_keys (r : Request) : prog' Response :=
  preHandler admins r (fun u =>
    let! l := listKeys (au_tenantId u) in
    send 200 (PKeys l)).

Definition delete_api_key (id : string) (r : Request) : prog' Response :=
  preHandler admins r (fun u =>
    let! id := parse "apiKeyParamsSchema" (Some (params id)) (apiKeyParamsSchema (params id)) in
    do! revokeKey (au_tenantId u) id in
    send 200 (PRevoked id)).

Definition post_tenants (r : Request) : prog' Response :=
  schema "createTenantSchema" (body r) (body r ≫= createTenantSchema)
    (let! name := parse "createTenantSchema" (body r) (body r ≫= createTenantSchema) in
     let! t := createTenant name in
     send 201 (PTenant t.1 t.2)).

Definition get_audit_logs (r : Request) : prog' Response :=
  preHandler admins r (fun u =>
    let! l := listForTenant (au_tenantId u) (query_number (q_page r) 1) (query_number (q_limit r) 50) in
    send 200 (PAudit l)).

(** *** The application *)

Definition route (r : Request) : prog' Response :=
  match ep r with
  | POST_tenants => post_tenants r
  | POST_api_keys => post_api_keys r
  | GET_api_keys => get_api_keys r
  | DELETE_api_key id => delete_api_key id r
  | GET_audit_logs => get_audit_logs r
  | POST_register => post_register r
  | POST_login => post_login r
  | POST_refresh => post_refresh r
  | GET_me => get_me r
  | GET_wallets => get_wallets r
  | GET_wallet id => get_wallet id r
  | POST_wallets => post_wallets r
  | POST_challenge => post_challenge r
  | POST_custodial => post_custodial r
  | GET_wallet_balances id => get_wallet_balances id r
  | POST_tokens => post_tokens r
  | GET_tokens => get_tokens r
  | GET_token id => get_token id r
  | POST_mint id => post_mint id r
  | GET_balance t w => get_balance t w r
  | GET_reconcile t w => get_reconcile t w r
  | POST_transactions => post_transactions r
  | GET_transactions => get_transactions r
  | GET_transaction id => get_transaction id r
  end.

(** Fastify hands whatever a route or the serialisation of its answer throws to the error
    handler. *)
Definition handle (r : Request) : prog' Response :=
  catch (let! resp := route r in serialise (req_id r) resp) (fun e => Ret (error_handler e)).
End Routes.

(** ** What a request leaves alone *)
Section Guards.
Context `{P : Platform} `{!PlatformLaws P} `{K : Crypto} `{KS : !Keys} `{M : Hmac} `{A : !Auth} `{ZD : Zod}.
Context (env : Env) (secret : string) (config : Config) (evm : Z).
Context (isEvmAddress isOnCurve : string -> bool).
Context (adapters : list BlockchainAdapter) (Ha : Forall AdapterSteady adapters).

Lemma guards_authenticate h : guards steady (authenticate h).
Proof.
  unfold authenticate, verifyToken. destruct (falsy h); [done|].
  destruct (scheme_token _) as [s t]. destruct (_ || _); [done|]. solve_guards.
Qed.

Lemma guards_preHandler roles r h : (forall u, guards steady (h u)) -> guards steady (preHandler roles r h).
Proof.
  intros Hh. unfold preHandler. apply guards_bind; [apply guards_authenticate|].
  intros [u|resp]; [|done]. destruct roles as [l|]; [|done]. by destruct (authorize l (Some u)).
Qed.

Lemma guards_schema {B} n i (o : option B) k : guards steady k -> guards steady (schema n i o k).
Proof. by destruct o. Qed.

Lemma guards_parse {B} n i (o : option B) : guards steady (parse n i o).
Proof. by destruct o. Qed.

Lemma guards_send s p : guards steady (send s p).
Proof. done. Qed.

Lemma guards_serialise rid resp : guards steady (serialise rid resp).
Proof. unfold serialise. destruct (resp_body resp); [|done..]. by destruct (body_sent rid p). Qed.

#[local] Hint Resolve guards_parse guards_send guards_reconcile guards_findById : guards.

Lemma guards_route r :
  guards steady (route env secret config evm isEvmAddress isOnCurve adapters r).
Proof.
  unfold route. destruct (ep r).
  all: unfold post_tenants, post_api_keys, get_api_keys, delete_api_key, get_audit_logs,
    post_register, post_login, post_refresh, get_me, get_wallets, get_wallet, post_wallets,
    post_challenge, post_custodial, get_wallet_balances, post_tokens, get_tokens, get_token,
    post_mint, get_balance, get_reconcile, post_transactions, get_transactions, get_transaction.
  all: try apply guards_schema.
  all: try (apply guards_preHandler; intros u).
  all: unfold transaction_list, transaction_getById, listForTenant, audit_listByTenant, listKeys,
    apikey_listByTenant, getUserWallets, findByOwnerId, getWallet, getWalletById, getToken,
    token_findById, getTokens, token_findAll, getWalletBalances, findByWallet, getBalance,
    balance_find, findAll.
  all: solve_guards.
Qed.

Lemma guards_handle r :
  guards steady (handle env secret config evm isEvmAddress isOnCurve adapters r).
Proof.
  apply guards_catch; [|done]. apply guards_bind; [apply guards_route|]. intros resp.
  apply guards_serialise.
Qed.
End Guards.

#[export] Hint Resolve guards_handle : guards.

(** ** Access control *)
Section Access.
Context `{P : Platform} `{K : Crypto} `{KS : !Keys} `{M : Hmac} `{A : !Auth} `{ZD : Zod}.

(** The user a request's token proves, if any. *)
Definition caller (r : Request) (w : World) : option AuthUser :=
  if falsy (authorization r) then None
  else
    let '(scheme, token) := scheme_token (default EmptyString (authorization r)) in
    if negb (String.eqb scheme "Bearer") || falsy token then None
    else match jwt_verify (default EmptyString token) (clock w) with
         | inl p => Some (user_of p)
         | inr _ => None
         end.

(** Who may call what: [None] is anyone, [Some None] any user. *)
Definition access (e : endpoint) : option (option (list Role)) :=
  match e with
  | POST_tenants | POST_register | POST_login | POST_refresh => None
  | GET_wallet_balances _ | GET_balance _ _ | GET_reconcile _ _ => Some None
  | POST_api_keys | GET_api_keys | DELETE_api_key _ | GET_audit_logs
  | POST_tokens | GET_tokens | GET_token _ | POST_mint _ => Some (Some [ADMIN])
  | _ => Some (Some [USER; ADMIN])
  end.

Definition permitted (roles : option (list Role)) (u : AuthUser) : bool :=
  match roles with None => true | Some l => bool_decide (au_role u ∈ l) end.

(** Whether the request passes its route's [schema]. *)
Definition schema_ok (r : Request) : bool :=
  match ep r with
  | POST_wallets => is_some (body r ≫= createWalletSchema)
  | POST_challenge => is_some (body r ≫= walletChallengeSchema)
  | POST_custodial => is_some (body r ≫= createCustodialWalletSchema)
  | POST_api_keys => is_some (body r ≫= createApiKeySchema)
  | GET_reconcile _ _ => is_some (reconcileTokenBalanceQuerySchema (q_blockNumber r))
  | _ => true
  end.

Lemma authenticate_run r env w :
  exists m, run (authenticate (authorization r)) env w =
    (inl (match caller r w with Some u => inl u | None => inr (refuse 401 m) end), w, env).
Proof.
  unfold authenticate, caller. destruct (falsy (authorization r)); [by eexists|].
  destruct (scheme_token _) as [s t]. destruct (_ || _); [by eexists|].
  exists "Invalid or expired token". rewrite run_catch, run_bind. unfold verifyToken, now.
  rewrite run_bind, run_gets, run_rethrow. by destruct (jwt_verify _ _).
Qed.

Lemma preHandler_refuses roles r h w :
  (forall u, caller r w = Some u -> permitted roles u = false) ->
  exists m, forall env, run (preHandler roles r h) env w =
    (inl (refuse (if is_some (caller r w) then 403 else 401) m), w, env).
Proof.
  intros Hp. destruct (caller r w) as [u|] eqn:Ec.
  - exists "Forbidden". intros env. unfold preHandler. rewrite run_bind.
    destruct (authenticate_run r env w) as [m ->]. rewrite Ec. specialize (Hp u eq_refl).
    unfold permitted, authorize in *. destruct roles as [l|]; [|done]. by rewrite Hp.
  - destruct (authenticate_run r [] w) as [m Hm]. rewrite Ec in Hm. exists m. intros env.
    unfold preHandler. rewrite run_bind. revert Hm.
    unfold authenticate. destruct (falsy _); [by intros [= <-]|].
    destruct (scheme_token _) as [s t] eqn:Es. destruct (_ || _) eqn:Eo; [by intros [= <-]|].
    rewrite !run_catch, !run_bind. unfold verifyToken, now. rewrite !run_bind, !run_gets, !run_rethrow.
    destruct (jwt_verify _ _); [done|]. by intros [= <-].
Qed.

Lemma preHandler_admits roles r h w u :
  caller r w = Some u -> permitted roles u = true ->
  exec (preHandler roles r h) w = exec (h u) w.
Proof.
  intros Ec Hp. unfold preHandler. rewrite exec_bind.
  destruct (authenticate_run r [] w) as [m Hm]. rewrite Ec, run_nil in Hm.
  injection Hm as ->. unfold permitted, authorize in *. destruct roles as [l|]; [|done]. by rewrite Hp.
Qed.
End Access.

(** C7: nothing is done for a caller who may not ask for it.  On every protected
    endpoint, a request without a valid bearer token is answered 401, and one
    whose role is not allowed 403 (400 when its body does not pass the schema,
    which is checked first), without a single call to the database or to a
    chain. *)
Theorem access_control `{P : Platform} `{K : Crypto} `{KS : !Keys} `{M : Hmac} `{A : !Auth} `{ZD : Zod}
    env secret config evm isEvm isOnCurve adapters r w roles :
  access (ep r) = Some roles ->
  (forall u, caller r w = Some u -> permitted roles u = false) ->
  exists resp,
    resp_status resp = (if schema_ok r then if is_some (caller r w) then 403 else 401 else 400) /\
    forall steps, run (handle env secret config evm isEvm isOnCurve adapters r) steps w
                  = (inl resp, w, steps).
Proof.
  intros Hacc Hp.
  assert (Key : forall (h : AuthUser -> prog' Response) p,
    (p = preHandler roles r h /\ schema_ok r = true) \/
    ((exists v, p = Throw (FastifyValidationError v)) /\ schema_ok r = false) ->
    exists resp, resp_status resp = (if schema_ok r then if is_some (caller r w) then 403 else 401 else 400) /\
      forall steps, run (catch (let! resp := p in serialise (req_id r) resp) (fun e => Ret (error_handler e)))
        steps w = (inl resp, w, steps)).
  { intros h p [[-> ->]|[[v ->] ->]].
    - destruct (preHandler_refuses roles r h w Hp) as [m Hm].
      eexists. split; [|intros steps; rewrite run_catch, run_bind, Hm; reflexivity]. by destruct (caller r w).
    - eexists. split; [|intros steps; by rewrite run_catch]. done. }
  unfold handle, route, access in *. destruct (ep r) eqn:Ee; try discriminate Hacc; injection Hacc as <-.
  all: unfold post_api_keys, get_api_keys, delete_api_key, get_audit_logs,
    get_me, get_wallets, get_wallet, post_wallets,
    post_challenge, post_custodial, get_wallet_balances, post_tokens, get_tokens, get_token,
    post_mint, get_balance, get_reconcile, post_transactions, get_transactions, get_transaction.
  all: unfold schema_ok in *; rewrite Ee in *; try (eapply Key; left; split; reflexivity).
  all: unfold schema; match goal with |- context [match ?o with Some _ => _ | None => _ end] =>
         destruct o; [eapply Key; left; by split
                    |eapply (Key (fun _ => Throw OutOfFuel)); right; split; [by eexists|done]] end.
Qed.

(** ** Answers *)

(** What is none of the application's, zod's, Fastify's or Prisma's errors is answered
    alike, whatever it says. *)
Lemma unexpected_errors_alike e :
  match e with
  | AppError _ _ _ _ | ZodError _ | FastifyValidationError _ | PrismaKnownRequestError _ _ => False
  | _ => True
  end ->
  error_handler e = internal_error.
Proof. by destruct e. Qed.


(** ** Isolation of tenants *)


Section Inversions.
Context `{P : Platform} `{!PlatformLaws P}.


Lemma parse_inv `{ZD : Zod} {B} n i (o : option B) w b w' :
  exec (parse n i o) w = (inl b, w') -> o = Some b /\ w' = w.
Proof. destruct o; [|done]. cbn [parse]. rewrite exec_ret. by intros [= <- <-]. Qed.





End Inversions.

Section TransferResult.
Context `{P : Platform} `{!PlatformLaws P}.







End TransferResult.

Section Isolation.
Context `{P : Platform} `{!PlatformLaws P} `{K : Crypto} `{KS : !Keys} `{M : Hmac} `{A : !Auth} `{ZD : Zod}.


(** Every wallet is in the tenant of its owner. *)
Definition in_owners_tenant (w : World) : Prop :=
  forall k row, wallets w !! k = Some row ->
    exists usr, users w !! ownerId row = Some usr /\ usr_tenantId usr = wal_tenantId row.

(** The user of the token is a user of the tenant the token names. *)
Definition genuine (u : AuthUser) (w : World) : Prop :=
  exists usr, users w !! au_id u = Some usr /\ usr_tenantId usr = au_tenantId u.


Lemma created_in_tenant u (f : Z -> Wallet) w r w' :
  in_owners_tenant w -> genuine u w ->
  (forall date, wal_tenantId (f date) = au_tenantId u /\ ownerId (f date) = au_id u) ->
  exec (let! date := now in call Wallets (Platform.create (f date))) w = (r, w') ->
  in_owners_tenant w'.
Proof.
  intros Hw (usr & Eu & Hu) Hf. rewrite exec_bind, exec_now, exec_call. unfold on. cbn [view Wallets].
  destruct (Hf (clock w)) as [Ht Ho].
  destruct (create_cases (f (clock w)) (wallets w)) as [[_ ->]|[cm ->]]; cbn [fst snd].
  - intros [= _ <-]. intros k row. cbn [wallets users put Wallets].
    destruct (decide (k = uuid (wallets w))) as [->|Hne].
    + rewrite lookup_insert_eq. intros [= <-]. exists usr. split; congruence.
    + rewrite lookup_insert_ne by done. apply Hw.
  - intros [= _ <-]. by destruct w.
Qed.

(** The two operations that create wallets keep every wallet in its owner's tenant. *)
Lemma wallet_create_in_tenant evm u c a w r w' :
  in_owners_tenant w -> genuine u w ->
  exec (wallet_create evm (au_tenantId u) (au_id u) c a) w = (r, w') -> in_owners_tenant w'.
Proof. intros Hw Hu. apply (created_in_tenant u); [done..|]. by intros date. Qed.

Lemma wallet_createCustodial_in_tenant evm u c a enc kms w r w' :
  in_owners_tenant w -> genuine u w ->
  exec (wallet_createCustodial evm (au_tenantId u) (au_id u) c a enc kms) w = (r, w') ->
  in_owners_tenant w'.
Proof. intros Hw Hu. apply (created_in_tenant u); [done..|]. by intros date. Qed.









Context (env : Env) (secret : string) (config : Config) (evm : Z).
Context (isEvmAddress isOnCurve : string -> bool).
Context (adapters : list BlockchainAdapter) (Ha : Forall AdapterSteady adapters).








End Isolation.


(** A wallet with a balance cannot be shown: its owner's request for the balances
    ends in an internal error, because BigInts are sent without
    [serializeBigInt]. *)
Theorem wallet_balances_fail `{P : Platform} `{!PlatformLaws P} `{K : Crypto} `{KS : !Keys} `{M : Hmac}
    `{A : !Auth} `{ZD : Zod} env secret config evm isEvm isOnCurve adapters r w u id row k s :
  ep r = GET_wallet_balances id -> caller r w = Some u ->
  wallets w !! id = Some row -> wal_tenantId row = au_tenantId u -> ownerId row = au_id u ->
  snapshots w !! k = Some s -> snap_walletId s = id ->
  exec (handle env secret config evm isEvm isOnCurve adapters r) w
  = (inl internal_error, w).
Proof.
  intros Ee Ec Ew Ht Ho Es Hs. unfold handle, route. rewrite Ee, exec_catch, exec_bind.
  unfold get_wallet_balances. rewrite (preHandler_admits None r _ w u Ec eq_refl).
  unfold getWallet, getWalletById. rewrite exec_bind, exec_bind, exec_query. cbn [view Wallets].
  rewrite findUnique_at_id, Ew, Ht, Ho, !String.eqb_refl. cbn [negb orb andb]. rewrite exec_ret, exec_bind.
  unfold getWalletBalances, findByWallet. rewrite exec_act.
  match goal with |- context [map _ ?found] => destruct found as [|x l] eqn:El end.
  - exfalso. apply (not_elem_of_nil (k, s)). rewrite <- El, findMany_all. apply elem_of_rows.
    split; [done|]. by rewrite Hs, String.eqb_refl.
  - unfold send. rewrite exec_ret. unfold serialise. cbn [resp_body].
    destruct (body_sent _ _) eqn:Eb; [|done]. exfalso.
    assert (H : is_Some (body_sent (req_id r)
      (PBalances (map (fun ks => (ks, tokens w !! snap_tokenId ks.2)) (x :: l))))) by (rewrite Eb; by eexists).
    rewrite body_sent_total in H by done. by discriminate (H _ eq_refl).
Qed.

(** A refresh token that does not verify is an internal error, not a 401. *)
Lemma refresh_unverifiable `{P : Platform} `{K : Crypto} `{KS : !Keys} `{M : Hmac} `{A : !Auth}
    `{ZD : Zod} env secret config evm isEvm isOnCurve adapters r w token m :
  ep r = POST_refresh -> body r ≫= refreshSchema = Some token ->
  jwt_verify token (clock w) = inr (PlainError m) ->
  exec (handle env secret config evm isEvm isOnCurve adapters r) w
  = (inl internal_error, w).
Proof.
  intros Ee Eb Ev. unfold handle, route. rewrite Ee, exec_catch, exec_bind. unfold post_refresh, schema. rewrite Eb.
  cbn [parse]. rewrite exec_bind, exec_ret, exec_bind. unfold refresh, verifyToken.
  rewrite exec_bind, exec_bind, exec_now, exec_rethrow, Ev. done.
Qed.

Section Witness.
#[local] Existing Instance ref_platform.
#[local] Existing Instance ref_platform_laws.
#[local] Existing Instance no_crypto.
#[local] Existing Instance no_keys.
#[local] Existing Instance plain_auth.
#[local] Existing Instance toy_hmac.

#[local] Instance any_zod : Zod := {|
  zod_uuid s := true; zod_email s := true; coerce_date j := None;
  zod_issues n i := "[]"; zod_validation n i := None |}.

Definition token_for (id : string) (r : Role) (tenant : string) : string :=
  of_utf8 (stringify (payload_json (mkPayload id "a@b.c" r tenant None) 901000)).

Definition request (e : endpoint) (auth : option string) : Request :=
  mkRequest e auth None None [] [] [] "req-1".

(** One wallet of [u1] in tenant [t1], with a balance. *)
Definition one_wallet : World :=
  put Users {["u1" := mkUser "a@b.c" "hash" USER "t1" 0]} (put Snapshots {["s" := mkSnapshot "w1" "tok" 5 7 0]}
    (put Wallets {["w1" := mkWallet "t1" "u1" 31337 "0xabc" EXTERNAL ACTIVE None 0]} (fresh_world 1000 quiet))).

Definition serve (r : Request) (w : World) : (Response + err) * World :=
  exec (handle no_env "secret" house_rules 31337 (fun _ => true) (fun _ => true) evm_only r) w.

Lemma access_control_witness :
  (exists resp, resp_status resp = 401 /\
     serve (request GET_api_keys (Some "Bearer garbage")) one_wallet = (inl resp, one_wallet)) /\
  (exists resp, resp_status resp = 403 /\
     serve (request GET_api_keys (Some ("Bearer " +:+ token_for "u1" USER "t1"))) one_wallet
     = (inl resp, one_wallet)).
Proof.
  split.
  - destruct (access_control no_env "secret" house_rules 31337 (fun _ => true) (fun _ => true) evm_only
      (request GET_api_keys (Some "Bearer garbage")) one_wallet (Some [ADMIN])) as (resp & Hs & Hr).
    + reflexivity.
    + intros u Hu. exfalso. revert Hu. vm_compute. discriminate.
    + exists resp. split; [exact Hs|]. specialize (Hr []). rewrite run_nil in Hr. unfold serve. congruence.
  - destruct (access_control no_env "secret" house_rules 31337 (fun _ => true) (fun _ => true) evm_only
      (request GET_api_keys (Some ("Bearer " +:+ token_for "u1" USER "t1"))) one_wallet (Some [ADMIN]))
      as (resp & Hs & Hr).
    + reflexivity.
    + intros u Hu. assert (Hc : caller (request GET_api_keys
        (Some ("Bearer " +:+ token_for "u1" USER "t1"))) one_wallet
        = Some (mkAuthUser "u1" "a@b.c" USER "t1")) by by_vm.
      rewrite Hc in Hu. injection Hu as <-. reflexivity.
    + exists resp. split; [rewrite Hs; by_vm|]. specialize (Hr []). rewrite run_nil in Hr.
      unfold serve. congruence.
Defined.




Lemma wallet_balances_fail_witness :
  serve (request (GET_wallet_balances "w1") (Some ("Bearer " +:+ token_for "u1" USER "t1"))) one_wallet
  = (inl internal_error, one_wallet).
Proof.
  apply (wallet_balances_fail no_env "secret" house_rules 31337 (fun _ => true) (fun _ => true) evm_only
    _ _ (mkAuthUser "u1" "a@b.c" USER "t1") "w1" (mkWallet "t1" "u1" 31337 "0xabc" EXTERNAL ACTIVE None 0) "s"
    (mkSnapshot "w1" "tok" 5 7 0)); reflexivity.
Defined.
End Witness.
