(* ===== verification/Contract.v ===== *)
(** * The contract of the responses

    What each endpoint of [src/api/routes] answers on success: the kind of data it
    promises, whether the client gets it, and what the body does not disclose. *)

From S2P Require Import Prelude JsString Schema Platform Reference TransactionRepository Guarantee Addresses Envelope Encoding Json Dates Adapters Index EventListener Reconcile Registration Ownership Identity Validators Wire Http.
From Stdlib Require Import Ascii.
#[local] Open Scope Z_scope.

(** ** The results of a program *)

(** Every result a program can return: a call answers what it computes in some world, or
    fails. *)
Fixpoint returns {W A} (Q : A -> Prop) (p : prog W err A) : Prop :=
  match p with
  | Ret a => Q a
  | Throw _ => True
  | Loc f k => forall w, returns Q (k (f w).1)
  | Act f k => (forall w, returns Q (k (f w).1)) /\ (forall e, returns Q (k (inr e)))
  end.

Lemma returns_any {W A} (p : prog W err A) : returns (fun _ => True) p.
Proof. induction p as [a|e|T f c IH|T f c IH]; cbn; auto. Qed.

Lemma returns_imp {W A} (R Q : A -> Prop) (p : prog W err A) :
  (forall a, R a -> Q a) -> returns R p -> returns Q p.
Proof.
  intros H Hp. induction p as [a|e|T f c IH|T f c IH]; cbn in *; auto.
  destruct Hp as [H1 H2]. split; auto.
Qed.

Lemma returns_bind {W A B} (R : A -> Prop) (Q : B -> Prop) (p : prog W err A) k :
  returns R p -> (forall a, R a -> returns Q (k a)) -> returns Q (bind p k).
Proof.
  intros Hp Hk. induction p as [a|e|T f c IH|T f c IH]; [by apply Hk|done|..]; cbn in *.
  - intros w. apply IH, Hp.
  - destruct Hp as [H1 H2]. split; [intros w; apply IH, H1|intros e; apply IH, H2].
Qed.

Lemma returns_then {W A B} (Q : B -> Prop) (p : prog W err A) k :
  (forall a, returns Q (k a)) -> returns Q (bind p k).
Proof. intros Hk. apply (returns_bind (fun _ => True)); [apply returns_any|auto]. Qed.

Lemma returns_catch {W A} (Q : A -> Prop) (p : prog W err A) h :
  returns Q p -> (forall e, returns Q (h e)) -> returns Q (catch p h).
Proof.
  intros Hp Hh. apply (returns_bind (fun r => match r with inl a => Q a | inr _ => True end)).
  - induction p as [a|e|T f c IH|T f c IH]; [done|done|..]; cbn in *.
    + intros w. apply IH, Hp.
    + destruct Hp as [H1 H2]. split; [intros w; apply IH, H1|intros e; apply IH, H2].
  - intros [a|e] Ha; [exact Ha|apply Hh].
Qed.

Lemma returns_run {W A} (Q : A -> Prop) (p : prog W err A) env w a w' env' :
  returns Q p -> run p env w = (inl a, w', env') -> Q a.
Proof.
  revert env w. induction p as [x|e|R f k IH|R f k IH]; intros env w Hp E; cbn in *.
  - by injection E as -> _ _.
  - done.
  - by eapply IH.
  - destruct Hp as [H1 H2]. destruct env as [|s env]; [by eapply IH|].
    change (let rw := perform (out s) f (interfere s w) in run (k rw.1) env rw.2 = (inl a, w', env')) in E.
    destruct (out s) as [|e|e]; cbn in E; [eapply IH; [apply H1|exact E]|eapply IH; [apply H2|exact E]..].
Qed.

(** ** The answers of each endpoint *)

(** What each endpoint answers on success. *)
Definition answers (e : endpoint) (p : payload) : bool :=
  match e, p with
  | POST_tenants, PTenant _ _ | POST_api_keys, PNewKey _ _ | GET_api_keys, PKeys _
  | DELETE_api_key _, PRevoked _ | GET_audit_logs, PAudit _ | POST_register, PUser _ _ _ _ _
  | POST_login, PLogin _ | POST_refresh, PRefreshed _ _ | GET_me, PMe _ | GET_wallets, PWallets _
  | GET_wallet _, PWallet _ | POST_wallets, PWallet _ | POST_challenge, PChallenge _
  | POST_custodial, PWallet _ | GET_wallet_balances _, PBalances _ | POST_tokens, PToken _
  | GET_tokens, PTokens _ | GET_token _, PToken _ | POST_mint _, PMinted _ | GET_balance _ _, PBalance _
  | GET_reconcile _ _, PReconciled _ _ _ _ | POST_transactions, PTransaction _
  | GET_transactions, PTransactions _ | GET_transaction _, PTransactionWithRelations _ => true
  | _, _ => false
  end.

Section Endpoints.
Context `{P : Platform} `{!PlatformLaws P} `{K : Crypto} `{KS : !Keys} `{M : Hmac} `{A : !Auth} `{ZD : Zod}.

(** The data is of the endpoint's kind, and a new user's address is one. *)
Definition well_typed (e : endpoint) (resp : Response) : Prop :=
  match resp_body resp with
  | Data p => answers e p = true /\
      (forall id mail r tenant created, p = PUser id mail r tenant created -> zod_email mail = true)
  | _ => True
  end.

Lemma returns_send e s p :
  answers e p = true ->
  (forall id mail r tenant created, p = PUser id mail r tenant created -> zod_email mail = true) ->
  returns (well_typed e) (send s p).
Proof. by split. Qed.

Lemma returns_preHandler e roles r h :
  (forall u, returns (well_typed e) (h u)) -> returns (well_typed e) (preHandler roles r h).
Proof.
  intros Hh. unfold preHandler.
  apply (returns_bind (fun x => match x with inl _ => True | inr resp => well_typed e resp end)).
  - unfold authenticate. destruct (falsy _); [done|]. destruct (scheme_token _) as [s t].
    destruct (_ || _); [done|]. apply returns_catch; [|done]. by apply returns_then.
  - intros [u|resp] Hr; [|done]. destruct roles as [l|]; [|done].
    unfold authorize. by destruct (bool_decide _).
Qed.

Lemma returns_schema {B} n i e (o : option B) k :
  returns (well_typed e) k -> returns (well_typed e) (schema n i o k).
Proof. by destruct o. Qed.

Lemma returns_parse {B} n i (o : option B) : returns (fun b => o = Some b) (parse n i o).
Proof. by destruct o. Qed.

(** A created row is the row that was given. *)
Lemma returns_create {R} `{Table R} (l : lens World (gmap string R)) (row : R) :
  returns (fun kr => kr.2 = row) (call l (Platform.create row)).
Proof.
  split; [|done]. intros w. unfold on.
  by destruct (create_cases row (view l w)) as [[_ ->]|[cm ->]].
Qed.

Lemma returns_register mail password tenant :
  returns (fun u => email u.2 = mail) (register mail password tenant).
Proof.
  unfold register. apply returns_then. intros hash. unfold createUser.
  apply (returns_bind (fun u => email u.2 = mail)).
  - apply returns_then. intros [row|]; [|done]. apply returns_then. intros date.
    eapply returns_imp; [|apply returns_create]. by intros u ->.
  - intros u Hu. by apply returns_then.
Qed.

Lemma registerSchema_email j c : registerSchema j = Some c -> zod_email c.1 = true.
Proof.
  unfold registerSchema, str. repeat case_match; try done. intros [= <-]. by simplify_eq.
Qed.

Context (env : Env) (secret : string) (config : Identity.Config) (evm : Z).
Context (isEvm isOnCurve : string -> bool) (adapters : list BlockchainAdapter).

Lemma returns_post_register r : returns (well_typed POST_register) (post_register r).
Proof.
  unfold post_register. apply returns_schema. destruct (falsy _); [done|].
  apply returns_then. intros v. eapply returns_bind; [apply returns_parse|]. intros b Hb.
  eapply returns_bind; [apply returns_register|]. intros u Hu. apply returns_send; [done|].
  intros id mail r' tenant created [= _ <- _ _ _]. rewrite Hu.
  destruct (body r) as [j|]; [|done]. by apply (registerSchema_email j).
Qed.

Lemma returns_route r :
  returns (well_typed (ep r)) (route env secret config evm isEvm isOnCurve adapters r).
Proof.
  unfold route. destruct (ep r) eqn:Ee; [..|idtac].
  6: apply returns_post_register.
  all: unfold post_tenants, post_api_keys, get_api_keys, delete_api_key, get_audit_logs,
    post_login, post_refresh, get_me, get_wallets, get_wallet, post_wallets,
    post_challenge, post_custodial, get_wallet_balances, post_tokens, get_tokens, get_token,
    post_mint, get_balance, get_reconcile, post_transactions, get_transactions, get_transaction.
  all: try apply returns_schema.
  all: try (apply returns_preHandler; intros u).
  all: repeat (apply returns_then; intros ?).
  all: try (by apply returns_send).
  destruct a0; [by apply returns_send|done].
Qed.
End Endpoints.

(** C24: what every endpoint answers.  Whatever happens to its calls, the data a route
    answers with is the kind that endpoint promises, and the client gets it, as a body
    in JSON, except for the balances of a wallet that has any: these carry BigInts,
    cannot be serialised, and the client gets an internal error.  A body names no column
    that holds a secret or the hash of one, except for the creation of a tenant, whose
    answer includes the row of the new API key with its [keyHash]. *)
Theorem response_contract `{P : Platform} `{!PlatformLaws P} `{K : Crypto} `{KS : !Keys} `{M : Hmac}
    `{A : !Auth} `{ZD : Zod} env secret config evm isEvm isOnCurve adapters r steps w s p w' steps' :
  run (route env secret config evm isEvm isOnCurve adapters r) steps w
    = (inl (mkResponse s (Data p)), w', steps') ->
  let handled := run (handle env secret config evm isEvm isOnCurve adapters r) steps w in
  answers (ep r) p = true /\
  match p with
  | PBalances (_ :: _) => body_sent (req_id r) p = None /\ handled = (inl internal_error, w', steps')
  | _ => is_Some (body_sent (req_id r) p) /\ handled = (inl (mkResponse s (Data p)), w', steps')
  end /\
  (ep r <> POST_tenants -> public (successResponse (req_id r) (payload_value p))) /\
  (ep r = POST_tenants -> "keyHash" ∈ names (payload_value p)).
Proof.
  intros H handled.
  assert (Hw : well_typed (ep r) (mkResponse s (Data p)))
    by (eapply returns_run; [apply returns_route|exact H]).
  destruct Hw as [Ht Hmail]. pose proof (body_sent_total (req_id r) p Hmail) as Hsent.
  assert (Hh : handled = match body_sent (req_id r) p with
                         | Some _ => (inl (mkResponse s (Data p)), w', steps')
                         | None => (inl internal_error, w', steps')
                         end).
  { unfold handled, handle. rewrite run_catch, run_bind, H. unfold serialise. cbn [resp_body].
    by destruct (body_sent (req_id r) p). }
  split; [done|]. split; [|split].
  - assert (Hb : match p with PBalances (_ :: _) => body_sent (req_id r) p = None
                 | _ => is_Some (body_sent (req_id r) p) end).
    { destruct p as [| | | | | | | | | | | |[|x l]| | | | | | | |]; try (apply Hsent; congruence).
      destruct (body_sent _ _) eqn:E; [|done]. exfalso. by discriminate (proj1 Hsent ltac:(by eexists) _ eq_refl). }
    rewrite Hh. destruct p as [| | | | | | | | | | | |[|x l]| | | | | | | |];
      first [by rewrite Hb | by (split; [exact Hb|]; destruct Hb as [j ->])].
  - intros He. apply public_obj. constructor; [|by wire]. split; [wire_name|]. apply data_public.
    intros rows_ raw ->. by destruct (ep r).
  - intros He. rewrite He in Ht. destruct p as [[[id t] key] raw| | | | | | | | | | | | | | | | | | | |]; try done.
    clear. cbn. set_solver.
Qed.

Section Witness.
#[local] Existing Instance ref_platform.
#[local] Existing Instance ref_platform_laws.
#[local] Existing Instance no_crypto.
#[local] Existing Instance no_keys.
#[local] Existing Instance plain_auth.
#[local] Existing Instance toy_hmac.
#[local] Existing Instance any_zod.

Definition ask_balances : Request :=
  request (GET_wallet_balances "w1") (Some ("Bearer " +:+ token_for "u1" USER "t1")).

Definition shown_balances : payload := PBalances [("s", mkSnapshot "w1" "tok" 5 7 0, None)].

Lemma balances_routed :
  run (route no_env "secret" house_rules 31337 (fun _ => true) (fun _ => true) evm_only ask_balances) [] one_wallet
  = (inl (mkResponse 200 (Data shown_balances)), one_wallet, []).
Proof. by_vm. Qed.

(** The balances of a wallet that has some do not reach the client. *)
Lemma response_contract_witness :
  body_sent "req-1" shown_balances = None /\
  run (handle no_env "secret" house_rules 31337 (fun _ => true) (fun _ => true) evm_only ask_balances) [] one_wallet
  = (inl internal_error, one_wallet, []).
Proof.
  destruct (response_contract (P:=ref_platform) no_env "secret" house_rules 31337 (fun _ => true)
    (fun _ => true) evm_only ask_balances [] one_wallet 200 shown_balances one_wallet [] balances_routed)
    as (_ & H & _). exact H.
Defined.
End Witness.
