(* ===== verification/Pages.v ===== *)
(** * Pages of a list

    The listings of transactions and of the audit log
    ([src/api/routes/transaction.routes.ts], [audit-log.routes.ts]): what [page] and
    [limit] of the query select, from the text of the URL to the rows that are
    answered, and what is answered to a query that does not make sense. *)

From S2P Require Import Prelude JsString Double Config Schema Platform Reference TransactionRepository Guarantee Addresses Envelope Encoding Json Adapters Index EventListener Reconcile Registration Ownership Identity Validators Wire Http.
From Stdlib Require Import Ascii Sorted.
#[local] Open Scope Z_scope.

(** ** Pages tile a list *)

(** Page [i], counted from 0, of [n] elements. *)
Definition page_at {A} (n i : nat) (l : list A) : list A := take n (drop (i * n) l).

Lemma pages_tile {A} (l : list A) n k :
  concat (map (fun i => page_at n i l) (seq 0 k)) = take (k * n) l.
Proof.
  induction k as [|k IH]; [done|].
  rewrite seq_S, map_app, concat_app, IH. cbn [map concat]. rewrite app_nil_r. unfold page_at.
  change (0 + k)%nat with k. replace (Datatypes.S k * n)%nat with (k * n + n)%nat by lia.
  by rewrite take_take_drop.
Qed.

(** A decimal numeral of the query, as the program reads it. *)
Lemma query_number_decimal s d :
  decimal_numeral s -> digits_value 0 s < 2 ^ 53 -> Double.reads (query_number [s] d) (digits_value 0 s).
Proof.
  intros Hs Hv. unfold query_number. cbn [String.concat]. rewrite Number_decimal by done.
  apply of_Z_reads. split; [|done]. apply (digits_value_bound 0 s); [lia|apply Hs].
Qed.

(** Two occurrences of a parameter are not a number. *)
Example repeated_parameter : query_number ["1"; "2"] 1 = NaN.
Proof. reflexivity. Qed.

Section Listing.
Context `{P : Platform} `{!PlatformLaws P} {R : Type} (l : lens World (gmap string R)).
Context {X : Type} (join : World -> string * R -> option X) (w : string -> R -> bool) (o : R -> R -> bool).

(** Every row that matches, in order. *)
Definition listing (x : World) : list (string * R) := findMany w o 0 None (view l x).

(** Page 0 asks for a negative [skip]. *)
Lemma findSlice_zero page_ limit n x :
  Double.reads page_ 0 -> Double.reads limit n -> 1 <= n < 2 ^ 31 ->
  exists m, exec (findSlice l join w o (mul (sub page_ (of_Z 1)) limit) limit) x = (inr (PlainError m), x).
Proof.
  intros Hp Hn Hb. rewrite (sub_reads page_ (of_Z 1) 0 1) by (done || by apply of_Z_reads).
  rewrite (mul_reads (of_Z (0 - 1)) limit (-1) n) by (done || by exists (-4503599627370496), (-52)).
  unfold findSlice. rewrite (int_arg_int (of_Z (-1 * n)) (-1 * n)).
  - rewrite (int_arg_int limit n) by (done || lia). destruct (Z.ltb_spec (-1 * n) 0); [|lia]. by eexists.
  - replace (-1 * n) with (- n) by lia. apply of_Z_reads_neg. lia.
  - lia.
Qed.

(** A limit that is no integer, or a page that is no number. *)
Lemma findSlice_nonsense page_ limit x :
  page_ = NaN \/ (forall n, ~ Double.reads limit n) ->
  exists m, exec (findSlice l join w o (mul (sub page_ (of_Z 1)) limit) limit) x = (inr (PlainError m), x).
Proof.
  intros H. exists "Argument is not an Int". apply findSlice_rejects. destruct H as [->|H]; [left|right].
  - cbn [sub mul]. destruct (int_arg NaN) eqn:E; [|done].
    apply int_arg_reads in E as (m & e & E & _). done.
  - destruct (int_arg limit) eqn:E; [|done]. by apply int_arg_reads, H in E.
Qed.
End Listing.

(** ** The listing of transactions *)
Section Transactions.
Context `{P : Platform} `{!PlatformLaws P} `{K : Crypto} `{KS : !Keys} `{M : Hmac} `{A : !Auth} `{ZD : Zod}.
Context (env : Env) (secret : string) (config : Identity.Config) (evm : Z).
Context (isEvm isOnCurve : string -> bool) (adapters : list BlockchainAdapter).

(** [GET /transactions?page=...&limit=...] with an [Authorization] header. *)
Definition transactions_request (rid : string) (auth : option string) (page_ limit : list string) : Request :=
  mkRequest GET_transactions auth None None page_ limit [] rid.

(** All transactions of a tenant, with their relations. *)
Definition transactions_of (tenant : string) (w : World) : list TransactionWithRelations :=
  omap (join_relations w) (listing Transactions (of_tenant tenant) newest_first w).

(** The foreign keys of the transactions. *)
Definition referenced (w : World) : Prop :=
  forall k t, transactions w !! k = Some t -> is_Some (relations w t).

Lemma transactions_joined tenant w :
  referenced w ->
  Forall2 (fun kt x => join_relations w kt = Some x)
    (listing Transactions (of_tenant tenant) newest_first w) (transactions_of tenant w).
Proof.
  intros Hw. unfold transactions_of.
  assert (H : Forall (fun kt => is_Some (join_relations w kt)) (listing Transactions (of_tenant tenant) newest_first w)).
  { apply Forall_forall. intros [k t] [Hk _]%elem_of_findMany. unfold join_relations.
    rewrite fmap_is_Some. by apply (Hw k). }
  induction H as [|kt l [x Hx] _ IH]; [constructor|]. cbn. rewrite Hx. by constructor.
Qed.

Lemma transactions_rows tenant w :
  referenced w ->
  fst <$> transactions_of tenant w = listing Transactions (of_tenant tenant) newest_first w.
Proof.
  intros H%(transactions_joined tenant). induction H as [|kt x l l' Hx _ IH]; [done|]. cbn. f_equal; [|done].
  unfold join_relations in Hx. destruct (relations w kt.2); [|done]. by injection Hx as <-.
Qed.

(** A page with its relations is that page of the list with its relations. *)
Lemma page_joined tenant w n k :
  referenced w ->
  mapM (join_relations w) (take n (drop k (listing Transactions (of_tenant tenant) newest_first w)))
  = Some (take n (drop k (transactions_of tenant w))).
Proof. intros H. apply mapM_Some_2. by apply Forall2_take, Forall2_drop, transactions_joined. Qed.

Lemma transactions_answer rid auth page_ limit w u :
  caller (transactions_request rid auth [] []) w = Some u -> au_role u ∈ [USER; ADMIN] ->
  exec (handle env secret config evm isEvm isOnCurve adapters (transactions_request rid auth page_ limit)) w =
  match exec (findAll (au_tenantId u) (query_number page_ 1) (query_number limit 20)) w with
  | (inl rows_, w') => (inl (mkResponse 200 (Data (PTransactions rows_))), w')
  | (inr e, w') => (inl (error_handler e), w')
  end.
Proof.
  intros Hc Hr. unfold handle, route, get_transactions. cbn [ep transactions_request].
  rewrite exec_catch, exec_bind, (preHandler_admits _ _ _ w u) by (done || by apply bool_decide_eq_true_2).
  rewrite exec_bind. unfold transaction_list. cbn [q_page q_limit transactions_request].
  destruct (exec (findAll _ _ _) w) as [[r|e] w']; [|done].
  unfold send. rewrite exec_ret. unfold serialise. cbn [resp_body req_id transactions_request].
  destruct (proj2 (body_sent_total rid (PTransactions r) ltac:(done)) ltac:(done)) as [j ->]. done.
Qed.
End Transactions.

(** C30: the pages of the transaction listing.  A member of a tenant gets, for the page
    and limit the URL spells in digits, that page of the tenant's transactions: all of
    them and no others, newest first, each with its token and its two wallets, and the
    pages put together are the list itself, for a limit of at least 1 and as long as the
    limit and the rows to skip are 32-bit integers.  Without parameters it is the first
    page of twenty.  A page that is zero or not a number, or a limit that is not an
    integer, is answered as an internal error.  Nothing is changed in any case. *)
Theorem transaction_pages `{P : Platform} `{!PlatformLaws P} `{K : Crypto} `{KS : !Keys} `{M : Hmac}
    `{A : !Auth} `{ZD : Zod} env secret config evm isEvm isOnCurve adapters rid auth w u :
  caller (transactions_request rid auth [] []) w = Some u -> au_role u ∈ [USER; ADMIN] -> referenced w ->
  let all := transactions_of (au_tenantId u) w in
  let serve p l := exec (handle env secret config evm isEvm isOnCurve adapters
                           (transactions_request rid auth p l)) w in
  let ok rows_ := (inl (mkResponse 200 (Data (PTransactions rows_))), w) in
  let failed := (inl internal_error, w) in
  Permutation (fst <$> all) (rows (of_tenant (au_tenantId u)) (transactions w)) /\
  StronglySorted (fun a b => createdAt b.2 <= createdAt a.2) (fst <$> all) /\
  Forall (fun x => relations w x.1.2 = Some x.2) all /\
  serve [] [] = ok (page_at 20 0 all) /\
  (forall p l, decimal_numeral p -> decimal_numeral l ->
     let i := digits_value 0 p in
     let n := digits_value 0 l in
     1 <= n < 2 ^ 31 -> i < 2 ^ 53 -> (i - 1) * n < 2 ^ 31 ->
     serve [p] [l] = if i =? 0 then failed else ok (page_at (Z.to_nat n) (Z.to_nat (i - 1)) all)) /\
  (forall n k, concat (map (fun i => page_at n i all) (seq 0 k)) = take (k * n) all) /\
  (forall ps ls, query_number ps 1 = NaN \/ (forall n, ~ Double.reads (query_number ls 20) n) ->
     serve ps ls = failed).
Proof.
  intros Hc Hr Href all serve ok failed. unfold all, serve. split_and!.
  - rewrite transactions_rows by done. apply findMany_all.
  - pose proof (findMany_sorted _ (of_tenant (au_tenantId u)) newest_first (transactions w)) as Hs.
    rewrite transactions_rows by done. unfold listing. cbn [view Transactions].
    assert (Hmono : forall l : list (string * Transaction),
      StronglySorted (fun a b => newest_first a.2 b.2 = true) l ->
      StronglySorted (fun a b => createdAt b.2 <= createdAt a.2) l).
    { induction 1 as [|x l _ IH Hx]; constructor; [done|]. eapply Forall_impl; [exact Hx|].
      intros y. unfold newest_first. intros ?%Z.leb_le. done. }
    apply Hmono, Hs; unfold newest_first; [intros a b|intros a b c]; rewrite !Z.leb_le; lia.
  - apply Forall_forall. intros x Hx. apply list_elem_of_omap in Hx as (kt & _ & Hx). unfold join_relations in Hx.
    destruct (relations w kt.2) eqn:E; [|done]. by injection Hx as <-.
  - rewrite (transactions_answer _ _ _ _ _ _ _ _ _ _ _ _ u) by done. unfold findAll.
    rewrite (findSlice_page _ _ _ _ _ _ 1 20) by (try (by apply of_Z_reads); lia).
    change (findMany _ _ 0 None _) with (listing Transactions (of_tenant (au_tenantId u)) newest_first w).
    by rewrite page_joined.
  - intros p l Hp Hl Hn Hi Hskip. set (i := digits_value 0 p) in *. set (n := digits_value 0 l) in *.
    rewrite (transactions_answer _ _ _ _ _ _ _ _ _ _ _ _ u) by done. unfold findAll.
    assert (Hrp : Double.reads (query_number [p] 1) i) by (by apply query_number_decimal).
    assert (Hrl : Double.reads (query_number [l] 20) n) by (apply query_number_decimal; [done|lia]).
    assert (Hi0 : 0 <= i) by (apply (digits_value_bound 0 p); [lia|apply Hp]).
    destruct (Z.eqb_spec i 0) as [E|E].
    + rewrite E in Hrp. destruct (findSlice_zero Transactions join_relations (of_tenant (au_tenantId u)) newest_first
        _ _ n w Hrp Hrl Hn) as [m ->]. done.
    + rewrite (findSlice_page _ _ _ _ _ _ i n) by (done || lia). unfold ok, page_at.
      change (findMany _ _ 0 None _) with (listing Transactions (of_tenant (au_tenantId u)) newest_first w).
      rewrite page_joined by done. by rewrite <- Z2Nat.inj_mul by lia.
  - intros n k. apply pages_tile.
  - intros ps ls H. rewrite (transactions_answer _ _ _ _ _ _ _ _ _ _ _ _ u) by done. unfold findAll.
    destruct (findSlice_nonsense Transactions join_relations (of_tenant (au_tenantId u)) newest_first _ _ w H) as [m ->].
    done.
Qed.

Section Witness.
#[local] Existing Instance ref_platform.
#[local] Existing Instance ref_platform_laws.
#[local] Existing Instance no_crypto.
#[local] Existing Instance no_keys.
#[local] Existing Instance plain_auth.
#[local] Existing Instance toy_hmac.
#[local] Existing Instance any_zod.

(** Three transactions of one tenant and one of another; the recipient's wallet is the
    other tenant's. *)
Definition payer : Wallet := mkWallet "t1" "u1" 31337 "0xa" CUSTODIAL ACTIVE None 0.
Definition payee : Wallet := mkWallet "t2" "u2" 31337 "0xb" EXTERNAL ACTIVE None 0.
Definition dollar : Token := mkToken "Dollar" "USD" (Some "0xt") EVM true 6 0 0.
Definition paid (tenant : string) (created : Z) : Transaction :=
  mkTransaction tenant "tok" "a" "b" None 1 None None None PENDING created None None None None None.
Definition ledger : World :=
  put Transactions {["x" := paid "t1" 10; "y" := paid "t1" 30; "z" := paid "t1" 20; "o" := paid "t2" 40]}
    (put Wallets {["a" := payer; "b" := payee]} (put Tokens {["tok" := dollar]} (fresh_world 1000 quiet))).

Lemma ledger_referenced : referenced (P:=ref_platform) ledger.
Proof.
  intros k t H. apply elem_of_map_to_list in H. vm_compute in H. set_unfold in H.
  destruct_or! H; simplify_eq; by eexists.
Qed.

Definition bearer : option string := Some ("Bearer " +:+ token_for "u1" USER "t1").

Lemma transaction_pages_witness :
  serve (transactions_request "req-1" bearer ["2"] ["2"]) ledger =
    (inl (mkResponse 200 (Data (PTransactions [("x", paid "t1" 10, (dollar, payer, payee))]))), ledger) /\
  resp_status (error_handler (PlainError "")) = 500.
Proof.
  split; [|reflexivity].
  destruct (transaction_pages (P:=ref_platform) no_env "secret" house_rules 31337 (fun _ => true) (fun _ => true)
    evm_only "req-1" bearer ledger (mkAuthUser "u1" "a@b.c" USER "t1")) as (_ & _ & _ & _ & H & _).
  - by_vm.
  - by apply (bool_decide_unpack _).
  - exact ledger_referenced.
  - unfold serve. rewrite (H "2" "2"); [reflexivity|by split|by split|vm_compute; done|vm_compute; done|by vm_compute].
Defined.

(** The recipient's wallet is not the tenant's: its row, with its tenant and its owner,
    comes with the sender's transactions. *)
Example recipient_of_another_tenant :
  match (exec (handle no_env "secret" house_rules 31337 (fun _ => true) (fun _ => true) evm_only
           (transactions_request "req-1" bearer [] [])) ledger).1 with
  | inl (mkResponse 200 (Data (PTransactions l))) => map (fun x => (wal_tenantId x.2.2, ownerId x.2.2)) l
  | _ => []
  end = [("t2", "u2"); ("t2", "u2"); ("t2", "u2")].
Proof. by_vm. Qed.
End Witness.
