(* ===== verification/Observability.v ===== *)
(** * Correlation contexts and request metrics

    [src/observability/context.ts] with the contexts the ledger service, the bearer
    middleware and the confirmation processor record, [src/observability/http.metrics.ts],
    [health.metrics.ts] and [bootstrap.ts], and the hooks of
    [src/api/plugins/observability.plugin.ts] around a request, with the prefixes
    [src/api/app.ts] registers the routes under. *)

From S2P Require Import Prelude JsString Schema Platform Reference StateMachine TransactionRepository Outbox Guarantee Metrics Addresses Envelope Encoding Json Adapters Transfer Confirmation Index Reconcile Registration Ownership Identity Validators Wire Http.
From stdpp Require Import pretty.
#[local] Open Scope Z_scope.

(** ** Contexts *)
Module Context.

(** A context object: its own properties, [None] standing for [undefined]. *)
Definition ObservabilityContext : Type := gmap string (option string).

(** The context objects, shared by reference, and the store of the task that runs:
    [None] outside [runWithContext]. *)
Record Storage := mkStorage { objects : gmap nat ObservabilityContext; store : option nat }.

Definition with_store (s : Storage) (o : option nat) : Storage := mkStorage (objects s) o.

Definition runWithContext {T} (context : nat) (callback : Storage -> T * Storage) (s : Storage)
  : T * Storage :=
  let r := callback (with_store s (Some context)) in (r.1, with_store r.2 (store s)).

Definition getContext (s : Storage) : ObservabilityContext :=
  match store s with Some o => default ∅ (objects s !! o) | None => ∅ end.

(** [Object.assign(current, values)] *)
Definition updateContext (values : ObservabilityContext) (s : Storage) : Storage :=
  match store s with
  | None => s
  | Some o => mkStorage (alter (fun c => values ∪ c) o (objects s)) (store s)
  end.

(** [storage.disable()] *)
Definition clearContext (s : Storage) : Storage := with_store s None.

(** What the code records. *)
Definition authenticated_context (tenantId userId : string) : ObservabilityContext :=
  {["tenantId" := Some tenantId; "userId" := Some userId]}.
Definition created_context (transactionId : string) : ObservabilityContext :=
  {["transactionId" := Some transactionId]}.
Definition submitted_context (txHash : string) : ObservabilityContext :=
  {["txHash" := Some txHash]}.
Definition setContext (tx : TransactionWithRelations) : Storage -> Storage :=
  updateContext {["transactionId" := Some (tx_id tx); "txHash" := txHash (tx_row tx);
    "tenantId" := Some (tenantId (tx_row tx)); "tokenId" := Some (tokenId (tx_row tx))]}.
Definition processor_clearContext : Storage -> Storage :=
  updateContext {["transactionId" := None; "tenantId" := None; "tokenId" := None; "txHash" := None]}.
Definition request_context (requestId : string) : ObservabilityContext :=
  {["correlationId" := Some requestId; "requestId" := Some requestId]}.

(** Concurrent tasks: each continuation runs with the store of the task it belongs
    to, in any order. *)
Definition resume (s : Storage) (step : option nat * ObservabilityContext) : Storage :=
  with_store (updateContext step.2 (with_store s step.1)) (store s).

Definition interleaved (steps : list (option nat * ObservabilityContext)) (s : Storage) : Storage :=
  fold_left resume steps s.

(** What one task recorded, in its order. *)
Definition recorded (o : nat) (steps : list (option nat * ObservabilityContext))
    (c : ObservabilityContext) : ObservabilityContext :=
  fold_left (fun c step => if bool_decide (step.1 = Some o) then step.2 ∪ c else c) steps c.

(** The context task [o] sees. *)
Definition seen (o : option nat) (s : Storage) : ObservabilityContext := getContext (with_store s o).

Lemma seen_resume s step o :
  is_Some (objects s !! o) ->
  seen (Some o) (resume s step) =
    (if bool_decide (step.1 = Some o) then step.2 ∪ seen (Some o) s else seen (Some o) s) /\
  is_Some (objects (resume s step) !! o).
Proof.
  intros [c Hc]. unfold seen, resume, getContext, updateContext, with_store.
  destruct step as [[p|] v]; cbn [fst snd store objects]; [|by rewrite bool_decide_eq_false_2, Hc].
  destruct (decide (p = o)) as [->|Hne].
  - rewrite bool_decide_eq_true_2, lookup_alter_eq, Hc by done. by split; [|eexists].
  - rewrite bool_decide_eq_false_2, lookup_alter_ne, Hc by congruence. by split; [|eexists].
Qed.

(** Contexts do not mix.  Whatever the tasks of the process do and however they
    interleave, a request sees exactly what it was started with and recorded itself,
    later values over earlier ones; and a task that was not started with
    [runWithContext] records nothing and sees nothing. *)
Theorem contexts_are_isolated steps s o c :
  objects s !! o = Some c ->
  seen (Some o) (interleaved steps s) = recorded o steps c /\
  seen None (interleaved steps s) = ∅ /\
  (forall values, objects (updateContext values (with_store s None)) = objects s).
Proof.
  intros Hc. split; [|done].
  assert (H : is_Some (objects s !! o) /\ seen (Some o) s = c)
    by (unfold seen, getContext, with_store; cbn; rewrite Hc; by split).
  clear Hc. revert s c H. induction steps as [|step steps IH]; intros s c [Ho Hs]; [done|].
  cbn. apply IH. destruct (seen_resume s step o Ho) as [-> H]. split; [done|]. by rewrite Hs.
Qed.

(** Two requests and a job of the worker, which runs in no context. *)
Lemma contexts_are_isolated_witness :
  seen (Some 1%nat) (interleaved
    [(Some 1%nat, authenticated_context "t1" "u1"); (Some 2%nat, authenticated_context "t2" "u2");
     (None, created_context "x9"); (Some 1%nat, created_context "x1")]
    (mkStorage {[1%nat := request_context "r1"; 2%nat := request_context "r2"]} None))
  = {["transactionId" := Some "x1"; "tenantId" := Some "t1"; "userId" := Some "u1";
      "correlationId" := Some "r1"; "requestId" := Some "r1"]}.
Proof.
  etransitivity; [apply (contexts_are_isolated _ _ 1%nat (request_context "r1")); reflexivity|].
  reflexivity.
Defined.

(** The confirmation job records its transaction in no context: the log lines of the
    worker do not carry it. *)
Lemma worker_context_dropped tx s :
  store s = None -> setContext tx s = s /\ getContext (setContext tx s) = ∅.
Proof. intros H. unfold setContext, updateContext, getContext. by rewrite H, H. Qed.
End Context.

(** ** Request metrics *)

Definition httpRequestsTotal := mkMetric "http_requests_total" ["method"; "route"; "status_code"].
Definition httpRequestDurationSeconds :=
  mkMetric "http_request_duration_seconds" ["method"; "route"; "status_code"].
Definition deploymentInfo :=
  mkMetric "deployment_info" ["version"; "commit"; "deployment_id"; "deployment_created_at"].

Definition API_PREFIX : string := "/api/v1".

(** What the API serves: its endpoints, the probes and the metrics. *)
Inductive resource := Api (e : endpoint) | Health | Ready | MetricsText.

(** A route as it is registered: its method, its prefix and its path. *)
Definition endpoint_registration (e : endpoint) : string * string * string :=
  match e with
  | POST_tenants => ("POST", "/tenants", "/")
  | POST_api_keys => ("POST", "/tenants/me/api-keys", "/")
  | GET_api_keys => ("GET", "/tenants/me/api-keys", "/")
  | DELETE_api_key _ => ("DELETE", "/tenants/me/api-keys", "/:id")
  | GET_audit_logs => ("GET", "/audit-logs", "/")
  | POST_register => ("POST", "/auth", "/register")
  | POST_login => ("POST", "/auth", "/login")
  | POST_refresh => ("POST", "/auth", "/refresh")
  | GET_me => ("GET", "/wallets", "/me")
  | GET_wallets => ("GET", "/wallets", "/")
  | GET_wallet _ => ("GET", "/wallets", "/:id")
  | POST_wallets => ("POST", "/wallets", "/")
  | POST_challenge => ("POST", "/wallets", "/challenge")
  | POST_custodial => ("POST", "/wallets", "/custodial")
  | GET_wallet_balances _ => ("GET", "/wallets", "/:id/balances")
  | POST_tokens => ("POST", "/tokens", "/")
  | GET_tokens => ("GET", "/tokens", "/")
  | GET_token _ => ("GET", "/tokens", "/:id")
  | POST_mint _ => ("POST", "/tokens", "/:id/mint")
  | GET_balance _ _ => ("GET", "/tokens", "/:tokenId/balance/:walletId")
  | GET_reconcile _ _ => ("GET", "/tokens", "/:tokenId/balance/:walletId/reconcile")
  | POST_transactions => ("POST", "/transactions", "/")
  | GET_transactions => ("GET", "/transactions", "/")
  | GET_transaction _ => ("GET", "/transactions", "/:id")
  end.

Definition registration (x : resource) : string * string * string :=
  match x with
  | Api e => endpoint_registration e
  | Health => ("GET", "", "/health")
  | Ready => ("GET", "", "/ready")
  | MetricsText => ("GET", "/metrics", "/")
  end.

Definition method_of (x : resource) : string := (registration x).1.1.

(** [request.routeOptions.url]: Fastify registers the root of a prefix with and
    without its final slash; [slash] tells which spelling matched. *)
Definition route_url (slash : bool) (x : resource) : string :=
  let r := registration x in
  let prefix := API_PREFIX +:+ r.1.2 in
  if String.eqb r.2 "/" && negb slash then prefix else prefix +:+ r.2.

Definition http_labels (method route : string) (status_ : Z) : list (string * string) :=
  [("method", method); ("route", route); ("status_code", pretty status_)].

(** Where Fastify's router sends a request: to a route of the API, with the spelling
    that matched, to a route of the Swagger UI under [/docs], which registers its own,
    or nowhere. *)
Inductive target :=
| Resource (x : resource) (slash : bool)
| Docs (url : string)
| Unmatched.

(** What the hooks know of a request. *)
Record Hooked := mkHooked {
  hk_method : string; hk_target : target; raw_url : string; x_request_id : option string;
  request_id : string }.

(** [request.routeOptions?.url] *)
Definition routeOptions_url (h : Hooked) : option string :=
  match hk_target h with
  | Resource x slash => Some (route_url slash x)
  | Docs url => Some url
  | Unmatched => None
  end.

(** The methods of a route: the one it is registered with, and HEAD for a GET route, which
    Fastify exposes by default. *)
Definition methods_of (x : resource) : list string :=
  if String.eqb (method_of x) "GET" then ["GET"; "HEAD"] else [method_of x].

(** [onRequest]: the id that is answered and recorded. *)
Definition onRequest (h : Hooked) : string := default (request_id h) (x_request_id h).

Section Hooks.
Context `{P : Platform}.

Definition initializeDeploymentMetrics (env : Env) : prog' unit :=
  let label name := default "unknown" (env name) in
  Metrics.set deploymentInfo
    [("version", label "APP_VERSION"); ("commit", label "GIT_SHA");
     ("deployment_id", label "DEPLOYMENT_ID"); ("deployment_created_at", label "DEPLOYMENT_CREATED_AT")] 1.

Definition onResponse (h : Hooked) (status_ : Z) : prog' unit :=
  let route := default (raw_url h) (routeOptions_url h) in
  let labels := http_labels (hk_method h) route status_ in
  do! incrementMetric httpRequestsTotal labels in
  observeMetric httpRequestDurationSeconds labels.

(** A request between the two hooks; the answer carries the request id. *)
Definition observed {A} (status_of : A -> Z) (serve : prog' A) (h : Hooked)
  : prog' (A * string) :=
  let! reply := serve in
  do! onResponse h (status_of reply) in
  Ret (reply, onRequest h).
End Hooks.

(** Every series label pair a matched request can have. *)
Definition endpoints : list endpoint :=
  [POST_tenants; POST_api_keys; GET_api_keys; DELETE_api_key ""; GET_audit_logs; POST_register;
   POST_login; POST_refresh; GET_me; GET_wallets; GET_wallet ""; POST_wallets; POST_challenge;
   POST_custodial; GET_wallet_balances ""; POST_tokens; GET_tokens; GET_token ""; POST_mint "";
   GET_balance "" ""; GET_reconcile "" ""; POST_transactions; GET_transactions; GET_transaction ""].

Definition without_ids (e : endpoint) : endpoint :=
  match e with
  | DELETE_api_key _ => DELETE_api_key ""
  | GET_wallet _ => GET_wallet ""
  | GET_wallet_balances _ => GET_wallet_balances ""
  | GET_token _ => GET_token ""
  | POST_mint _ => POST_mint ""
  | GET_balance _ _ => GET_balance "" ""
  | GET_reconcile _ _ => GET_reconcile "" ""
  | GET_transaction _ => GET_transaction ""
  | e => e
  end.

Definition resources : list resource := map Api endpoints ++ [Health; Ready; MetricsText].

Definition route_labels : gset (string * string) :=
  list_to_set (flat_map (fun x =>
    flat_map (fun m => [(m, route_url true x); (m, route_url false x)]) (methods_of x)) resources).

(** A route is registered once for all values of its parameters. *)
Lemma registration_without_ids e : endpoint_registration (without_ids e) = endpoint_registration e.
Proof. by destruct e. Qed.

Lemma labels_of_registered x slash m : m ∈ methods_of x -> (m, route_url slash x) ∈ route_labels.
Proof.
  intros Hm. apply elem_of_list_to_set, list_elem_of_In, in_flat_map.
  set (x' := match x with Api e => Api (without_ids e) | x => x end).
  assert (E : registration x' = registration x) by (destruct x; cbn; by rewrite ?registration_without_ids).
  exists x'. split.
  - destruct x as [e| | |]; [|cbn; tauto..]. apply in_or_app. left. apply in_map.
    destruct e; cbn; tauto.
  - apply in_flat_map. exists m. split.
    + apply list_elem_of_In. unfold methods_of, method_of in *. by rewrite E.
    + unfold route_url. rewrite E. destruct slash; [by left|by right; left].
Qed.

(** What a router guarantees: a route is reached by its methods only. *)
Definition routed (docs : gset (string * string)) (h : Hooked) : Prop :=
  match hk_target h with
  | Resource x _ => hk_method h ∈ methods_of x
  | Docs url => (hk_method h, url) ∈ docs
  | Unmatched => True
  end.

(** C34: the hooks are transparent, and the series they create are bounded.  A request
    is answered as without them, with the client's correlation id or Fastify's own;
    the world differs by one count and one duration, labelled with the method of the
    request, the route that matched it and the status that was answered.  The route is
    the pattern it was registered with, whatever the ids in the URL: a request to the API
    that a route matches has one of 59 pairs of method and route (HEAD is served wherever
    GET is), one to [/docs] a pair of the Swagger UI's own routes.  An unmatched request
    is labelled with its raw URL. *)
Theorem observed_requests_bounded `{P : Platform} `{!PlatformLaws P} docs {A} (status_of : A -> Z)
    serve h w reply w' :
  routed docs h -> exec serve w = (inl reply, w') ->
  let route := match hk_target h with
               | Resource (Api e) slash => route_url slash (Api (without_ids e))
               | Resource x slash => route_url slash x
               | Docs url => url
               | Unmatched => raw_url h
               end in
  let labels := http_labels (hk_method h) route (status_of reply) in
  exec (observed status_of serve h) w =
    (inl (reply, default (request_id h) (x_request_id h)),
     put Metrics (Observe "http_request_duration_seconds" labels ::
                  Inc "http_requests_total" labels 1 :: metrics w') w') /\
  (hk_target h <> Unmatched -> (hk_method h, route) ∈ route_labels ∪ docs) /\
  size route_labels = 59%nat.
Proof.
  intros Hr E route labels.
  assert (Hroute : default (raw_url h) (routeOptions_url h) = route).
  { unfold route, routeOptions_url. destruct (hk_target h) as [[e| | |] slash| |]; cbn; try done.
    unfold route_url. cbn [registration]. by rewrite registration_without_ids. }
  split_and!; [| |vm_compute; reflexivity].
  - unfold observed. rewrite exec_bind, E, exec_bind. unfold onResponse.
    rewrite exec_bind, incrementMetric_exec, observeMetric_exec, Hroute. unfold labels, http_labels. simpl.
    by accepted.
  - intros Hm. rewrite <- Hroute. unfold routeOptions_url, routed in *.
    destruct (hk_target h) as [x slash|url|]; [| |done]; cbn; apply elem_of_union; [left|by right].
    by apply labels_of_registered.
Qed.

(** The raw URL makes the series of unmatched requests unbounded: each URL its own. *)
Lemma unmatched_urls_are_series `{P : Platform} `{!PlatformLaws P} {A} (status_of : A -> Z)
    (serve : prog' A) h w reply w' :
  exec serve w = (inl reply, w') -> hk_target h = Unmatched ->
  Inc "http_requests_total" (http_labels (hk_method h) (raw_url h) (status_of reply)) 1
    ∈ metrics (exec (observed status_of serve h) w).2.
Proof.
  intros E Hm. unfold observed. rewrite exec_bind, E, exec_bind. unfold onResponse, routeOptions_url.
  rewrite Hm, exec_bind, incrementMetric_exec, observeMetric_exec. unfold http_labels. simpl.
  accepted. simpl. rewrite !elem_of_cons. auto.
Qed.

Section Witness.
#[local] Existing Instance ref_platform.
#[local] Existing Instance ref_platform_laws.

Definition missing : prog' Response := Ret (error_handler P2025).

(** A HEAD request for a token that does not exist. *)
Definition head_token : Hooked :=
  mkHooked "HEAD" (Resource (Api (GET_token "7")) false) "/api/v1/tokens/7" None "req-1".

Lemma observed_requests_bounded_witness :
  let labels := http_labels "HEAD" "/api/v1/tokens/:id" 404 in
  exec (observed (P:=ref_platform) resp_status missing head_token) (fresh_world 0 quiet) =
    (inl (error_handler P2025, "req-1"),
     put Metrics [Observe "http_request_duration_seconds" labels;
                  Inc "http_requests_total" labels 1] (fresh_world 0 quiet)) /\
  (("HEAD", "/api/v1/tokens/:id") : string * string) ∈ route_labels ∪ ∅.
Proof.
  destruct (observed_requests_bounded (P:=ref_platform) ∅ resp_status missing head_token
    (fresh_world 0 quiet) (error_handler P2025) (fresh_world 0 quiet)) as (H1 & H2 & _).
  - right. left.
  - reflexivity.
  - split; [exact H1|apply H2; discriminate].
Defined.
End Witness.
