(* ===== verification/Health.v ===== *)
(** * Probes of the API process

    [src/api/health/readiness.service.ts] and the routes of
    [src/api/routes/health.routes.ts] and [metrics.route.ts]: whether the process
    can serve, judged by its database and by the chain its node serves. *)

From S2P Require Import Prelude JsString Schema Platform Reference Addresses Envelope Encoding Json Dates Guarantee.

Record Readiness := mkReadiness {
  healthy : bool; rd_status : string; checks : list (string * string); timestamp : string }.

Record Health := mkHealth {
  h_status : string; h_service : string; h_version : string; h_commit : string;
  h_deploymentId : string; h_deploymentCreatedAt : string; h_timestamp : string }.

Lemma all_ok database rpc :
  forallb (fun kv : string * string => String.eqb kv.2 "ok")
    [("redis", "ok"); ("database", database); ("rpc", rpc)] = true <->
  database = "ok" /\ rpc = "ok".
Proof. cbn. rewrite !andb_true_iff, !String.eqb_eq. naive_solver. Qed.

Section Health.
Context `{P : Platform} (env : Env).
(** [publicClient.getChainId()] *)
Context (evm_getChainId : Chain -> Z + err).

(** [prisma.$queryRaw`SELECT 1`] *)
Definition select_1 : prog' unit := act (fun w => (inl tt, w)).

(** [new Date().toISOString()]: the current time is a valid date. *)
Definition date_now : prog' string := let! t := now in Ret (iso t).

Definition check_database : prog' string :=
  catch (do! select_1 in Ret "ok") (fun _ => Ret "failed").

Definition check_rpc : prog' string :=
  catch
    (do! ask Node evm_getBlockNumber in
     let! expectedChainId := rethrow (getEvmChainId env) in
     let! actualChainId := ask Node evm_getChainId in
     Ret (if actualChainId =? expectedChainId then "ok" else "chain_mismatch"))
    (fun _ => Ret "failed").

Definition checkReadiness : prog' Readiness :=
  let! database := check_database in
  let! rpc := check_rpc in
  let checks := [("redis", "ok"); ("database", database); ("rpc", rpc)] in
  let healthy := forallb (fun kv => String.eqb kv.2 "ok") checks in
  let! date := date_now in
  Ret (mkReadiness healthy (if healthy then "ready" else "not_ready") checks date).

(** [process.env.X ?? 'unknown'] *)
Definition env_or_unknown (name : string) : string := default "unknown" (env name).

Definition get_health : prog' (Z * Health) :=
  let! date := date_now in
  Ret (200, mkHealth "ok" "blockchain-transaction-api" (env_or_unknown "APP_VERSION")
              (env_or_unknown "GIT_SHA") (env_or_unknown "DEPLOYMENT_ID")
              (env_or_unknown "DEPLOYMENT_CREATED_AT") date).

Definition get_ready : prog' (Z * Readiness) :=
  let! readiness := checkReadiness in
  Ret (if healthy readiness then 200 else 503, readiness).

(** ** Facts *)

(** A node that answers, on the chain this deployment is configured for. *)
Definition serves_configured_chain (w : World) : Prop :=
  exists n id, evm_getBlockNumber (chain w) = inl n /\ getEvmChainId env = inl id /\
    evm_getChainId (chain w) = inl id.

Lemma check_database_run outs w :
  exists s outs', run check_database (faults outs) w = (inl s, w, faults outs').
Proof.
  unfold check_database, select_1. rewrite run_catch, run_bind.
  destruct (run_read_faults (fun _ => inl tt) outs w) as (r & outs' & E & _). rewrite E.
  destruct r; by eexists _, _.
Qed.

Lemma check_rpc_run outs w :
  exists s outs', run check_rpc (faults outs) w = (inl s, w, faults outs') /\
    (s = "ok" -> serves_configured_chain w).
Proof.
  unfold check_rpc, ask. rewrite run_catch, run_bind.
  destruct (run_read_faults (fun w => evm_getBlockNumber (view Node w)) outs w)
    as (r1 & outs1 & E1 & H1). rewrite E1.
  destruct r1 as [n|e]; [|by eexists _, _]. destruct H1 as [H1|[? ?]]; [|done].
  rewrite run_bind, run_rethrow. destruct (getEvmChainId env) as [id|e] eqn:Ei; [|by eexists _, _].
  rewrite run_bind.
  destruct (run_read_faults (fun w => evm_getChainId (view Node w)) outs1 w)
    as (r2 & outs2 & E2 & H2). rewrite E2.
  destruct r2 as [n2|e]; [|by eexists _, _]. destruct H2 as [H2|[? ?]]; [|done].
  eexists _, _. split; [done|]. destruct (Z.eqb_spec n2 id) as [->|]; [|done].
  intros _. by exists n, id.
Qed.

Lemma check_rpc_exec w :
  exists s, exec check_rpc w = (inl s, w) /\ (s = "ok" <-> serves_configured_chain w).
Proof.
  unfold check_rpc, ask, serves_configured_chain. rewrite exec_catch, exec_bind, exec_act.
  change (view Node w) with (chain w).
  destruct (evm_getBlockNumber (chain w)) as [n|e]; [|eexists; split; [done|naive_solver]].
  rewrite exec_bind, exec_rethrow.
  destruct (getEvmChainId env) as [id|e]; [|eexists; split; [done|naive_solver]].
  rewrite exec_bind, exec_act. change (view Node w) with (chain w).
  destruct (evm_getChainId (chain w)) as [n2|e]; [|eexists; split; [done|naive_solver]].
  eexists. split; [done|]. destruct (Z.eqb_spec n2 id) as [->|]; naive_solver.
Qed.
End Health.

(** The readiness probe tells the truth.  Whatever fails while it runs, it
    answers, with 200 or 503, changes nothing, and a 200 means that the node
    serves the chain this deployment is configured for; when nothing fails it
    answers 200 exactly in that case. *)
Theorem readiness_verdict `{P : Platform} env evm_getChainId w :
  (forall outs, exists status rd outs',
     run (get_ready env evm_getChainId) (faults outs) w = (inl (status, rd), w, faults outs') /\
     (status = 200 \/ status = 503) /\
     (status = 200 -> healthy rd = true /\ serves_configured_chain env evm_getChainId w)) /\
  (exists status rd,
     exec (get_ready env evm_getChainId) w = (inl (status, rd), w) /\
     (status = 200 <-> serves_configured_chain env evm_getChainId w)).
Proof.
  split.
  - intros outs. unfold get_ready, checkReadiness. rewrite !run_bind.
    destruct (check_database_run outs w) as (db & outs1 & E1). rewrite E1, run_bind.
    destruct (check_rpc_run env evm_getChainId outs1 w) as (rpc & outs2 & E2 & H2). rewrite E2.
    eexists _, _, _. split; [reflexivity|]. cbn [healthy].
    destruct (forallb _ _) eqn:Ef; [|by split; [right|]].
    pose proof (proj1 (all_ok db rpc) Ef) as [_ ?]. split; [by left|]. auto.
  - unfold get_ready, checkReadiness. rewrite !exec_bind.
    destruct (check_rpc_exec env evm_getChainId w) as (rpc & E2 & H2).
    unfold check_database, select_1. rewrite exec_catch, exec_bind, exec_act, exec_ret, exec_bind, E2.
    eexists _, _. split; [reflexivity|]. cbn [healthy]. rewrite <- H2.
    destruct (forallb _ _) eqn:Ef.
    + pose proof (proj1 (all_ok _ rpc) Ef). naive_solver.
    + split; [done|]. intros ->. done.
Qed.
