(* ===== verification/Scheduler.v ===== *)
(** * Leases and schedulers

    [src/scheduling/postgres-scheduler-lease.ts] and the five schedulers of
    [src/workers] ([expiration], [submission-recovery], [pending-recovery],
    [outbox-relay], [balance-drift]): a periodic task that runs on at most one
    instance at a time, behind a lease in the database. *)

From S2P Require Import Prelude JsString Schema Platform Reference StateMachine TransactionRepository Outbox Guarantee Metrics Adapters Index Sweeps Reconcile.

(** ** The lease

    Each statement is one SQL command, evaluated by the database's clock. *)
Section Lease.
Context `{P : Platform}.

Definition assertTtl (ttlMs : Z) : prog' unit :=
  if ttlMs <=? 0 then Throw (PlainError "Scheduler lease TTL must be greater than zero")
  else Ret tt.

Definition acquire (owner name : string) (ttlMs : Z) : prog' bool :=
  do! assertTtl ttlMs in
  act (fun w =>
    let granted := put Leases (<[name := mkLease owner (clock w + ttlMs)]> (leases w)) w in
    match leases w !! name with
    | None => (inl true, granted)
    | Some l =>
        if (expiresAt l <=? clock w) || String.eqb (lease_ownerId l) owner
        then (inl true, granted) else (inl false, w)
    end).

Definition renew (owner name : string) (ttlMs : Z) : prog' bool :=
  do! assertTtl ttlMs in
  act (fun w =>
    match leases w !! name with
    | Some l =>
        if String.eqb (lease_ownerId l) owner && (clock w <? expiresAt l)
        then (inl true, put Leases (<[name := mkLease owner (clock w + ttlMs)]> (leases w)) w)
        else (inl false, w)
    | None => (inl false, w)
    end).

Definition release (owner name : string) : prog' unit :=
  act (fun w =>
    match leases w !! name with
    | Some l =>
        if String.eqb (lease_ownerId l) owner
        then (inl tt, put Leases (delete name (leases w)) w) else (inl tt, w)
    | None => (inl tt, w)
    end).
End Lease.

(** ** A scheduler instance *)

(** The fields of a scheduler object; a timer is present or absent. *)
Record SchedState := mkSched {
  running : bool; executing : bool; timer : bool; leaseRenewTimer : bool }.

(** A program of the world inside a process with its own state. *)
Fixpoint lift {W S err A} (p : prog W err A) : prog (W * S) err A :=
  match p with
  | Ret a => Ret a
  | Throw e => Throw e
  | Loc f k => Loc (fun ws => ((f ws.1).1, ((f ws.1).2, ws.2))) (fun r => lift (k r))
  | Act f k => Act (fun ws => ((f ws.1).1, ((f ws.1).2, ws.2))) (fun r => lift (k r))
  end.

Section Scheduler.
Context `{P : Platform}.
Abbreviation proc := (prog (World * SchedState) err).

Definition on_state (f : SchedState -> SchedState) : proc unit :=
  modify (fun ws => (ws.1, f ws.2)).

Definition start : proc unit :=
  let! s := gets snd in
  if running s then Ret tt
  else on_state (fun s => mkSched true (executing s) true (leaseRenewTimer s)).

Definition stop : proc unit :=
  let! s := gets snd in
  if negb (running s) then Ret tt
  else on_state (fun s => mkSched false (executing s) false false).

Definition set_executing (b : bool) : proc unit :=
  on_state (fun s => mkSched (running s) b (timer s) (leaseRenewTimer s)).

Definition stopLeaseRenewal : proc unit :=
  on_state (fun s => mkSched (running s) (executing s) (timer s) false).

Definition startLeaseRenewal : proc unit :=
  do! stopLeaseRenewal in
  on_state (fun s => mkSched (running s) (executing s) (timer s) true).

Context (NAME : string) (LEASE_TTL_MS : Z) (owner : string) (cycle : prog' unit).

(** The tick of the renewal timer. *)
Definition renewLease : proc unit :=
  catch (do! lift (renew owner NAME LEASE_TTL_MS) in Ret tt) (fun _ => Ret tt).

(** The [finally] block of [run]. *)
Definition run_finally (leaseAcquired : bool) : proc unit :=
  do! stopLeaseRenewal in
  do! (if leaseAcquired then catch (lift (release owner NAME)) (fun _ => Ret tt) else Ret tt) in
  set_executing false.

(** The tick of the main timer.  The handler of the outer [catch] only logs, so
    the [finally] block runs after it in every case. *)
Definition run_once : proc unit :=
  let! s := gets snd in
  if negb (running s) || executing s then Ret tt
  else
    do! set_executing true in
    let! acquired := attempt (lift (acquire owner NAME LEASE_TTL_MS)) in
    let leaseAcquired := match acquired with inl b => b | inr _ => false end in
    do! catch
          (match acquired with
           | inr e => Throw e
           | inl false => Ret tt
           | inl true => do! startLeaseRenewal in lift cycle
           end)
          (fun _ => Ret tt) in
    run_finally leaseAcquired.
End Scheduler.

(** A cycle with its worker metrics. *)
Definition metered `{P : Platform} (name : string) (p : prog' unit) : prog' unit :=
  let labels := [("worker_name", name)] in
  finally
    (catch p (fun e => do! incrementMetric workerFailuresTotal labels in Throw e))
    (do! incrementMetric workerCyclesTotal labels in
     observeMetric workerDurationSeconds labels).

(** ** The five schedulers *)
Record Scheduler `{P : Platform} := mkScheduler {
  sch_name : string; sch_ttl : Z; sch_intervalMs : Z; sch_cycle : prog' unit }.

Section Schedulers.
Context `{P : Platform}.

Definition ExpirationScheduler : Scheduler :=
  let name := "expiration-scheduler" in
  mkScheduler _ name 60000 30000
    (let! date := now in
     metered name
       (do! processExpiredTransactions (date - CONFIRMATION_TIMEOUT_MS) in Ret tt)).

Definition SubmissionRecoveryScheduler : Scheduler :=
  let name := "submission-recovery-scheduler" in
  mkScheduler _ name 60000 30000 (metered name processSubmittedTransactions).

Definition PendingRecoveryScheduler (intervalMs grace failAfter stale : Z) : Scheduler :=
  let name := "pending-recovery-scheduler" in
  mkScheduler _ name 60000 intervalMs (metered name (processOrphanedPending grace failAfter stale)).

Definition OutboxRelayScheduler : Scheduler :=
  mkScheduler _ "outbox-relay-scheduler" 30000 5000 (do! relay 50 in Ret tt).

Definition BalanceDriftScheduler (intervalMs : Z) (sweep_ : prog' BalanceDriftSweepSummary)
  : Scheduler :=
  let name := "balance-drift-scheduler" in
  mkScheduler _ name 60000 intervalMs (metered name (do! sweep_ in Ret tt)).

(** The periodic work of an instance of scheduler [s] with lease owner [o]. *)
Definition scheduler_run (s : Scheduler) (o : string) :=
  run_once (sch_name s) (sch_ttl s) o (sch_cycle s).
Definition scheduler_renew (s : Scheduler) (o : string) :=
  renewLease (sch_name s) (sch_ttl s) o.
End Schedulers.

(** ** The lease excludes *)
Section Exclusion.
Context `{P : Platform} (ttl : string -> Z).

(** What each owner believes: until when it holds which lease, by the answers
    it received. *)
Abbreviation Beliefs := (gmap (string * string) Z).

(** One event in the life of the leases.  Answers may be lost, time passes, and
    everything else the system does leaves the leases alone. *)
Inductive lease_step : World * Beliefs -> World * Beliefs -> Prop :=
| ls_acquire o n w b w' :
    exec (acquire o n (ttl n)) w = (inl true, w') ->
    lease_step (w, b) (w', <[(n, o) := clock w + ttl n]> b)
| ls_acquire_unknown o n w b r w' :
    exec (acquire o n (ttl n)) w = (r, w') -> lease_step (w, b) (w', b)
| ls_renew o n w b w' :
    exec (renew o n (ttl n)) w = (inl true, w') ->
    lease_step (w, b) (w', <[(n, o) := clock w + ttl n]> b)
| ls_renew_unknown o n w b r w' :
    exec (renew o n (ttl n)) w = (r, w') -> lease_step (w, b) (w', b)
| ls_release o n w b r w' :
    exec (release o n) w = (r, w') -> lease_step (w, b) (w', delete (n, o) b)
| ls_other w w' b :
    leases w' = leases w -> clock w <= clock w' -> lease_step (w, b) (w', b).

(** A belief that has not run out is backed by the database. *)
Definition beliefs_backed (s : World * Beliefs) : Prop :=
  forall n o d, s.2 !! (n, o) = Some d ->
    d <= clock s.1 + ttl n /\
    (clock s.1 < d -> exists e, leases s.1 !! n = Some (mkLease o e) /\ d <= e).

(** Granting a lease that was free, expired or the owner's own. *)
Lemma backed_grant n o w b b' :
  beliefs_backed (w, b) ->
  (forall l, leases w !! n = Some l -> clock w < expiresAt l -> lease_ownerId l = o) ->
  (forall n' o' d, b' !! (n', o') = Some d ->
     b !! (n', o') = Some d \/ (n' = n /\ o' = o /\ d = clock w + ttl n)) ->
  beliefs_backed (put Leases (<[n := mkLease o (clock w + ttl n)]> (leases w)) w, b').
Proof.
  intros Hb Hfree Hb' n' o' d E. cbn in E |- *.
  destruct (Hb' n' o' d E) as [E0|(-> & -> & ->)].
  - destruct (Hb n' o' d E0) as [Hd Hl]. cbn in Hd, Hl. split; [done|]. intros Hlt.
    destruct (Hl Hlt) as (e & El & He). destruct (decide (n' = n)) as [->|Hne].
    + exists (clock w + ttl n). rewrite lookup_insert_eq.
      assert (o' = o) as -> by (apply (Hfree _ El); cbn; lia). split; [done|lia].
    + exists e. by rewrite lookup_insert_ne.
  - split; [lia|]. intros _. exists (clock w + ttl n). rewrite lookup_insert_eq. split; [done|lia].
Qed.

Lemma acquire_exec o n t w :
  exec (acquire o n t) w =
  if t <=? 0 then (inr (PlainError "Scheduler lease TTL must be greater than zero"), w)
  else
    let granted := put Leases (<[n := mkLease o (clock w + t)]> (leases w)) w in
    match leases w !! n with
    | None => (inl true, granted)
    | Some l => if (expiresAt l <=? clock w) || String.eqb (lease_ownerId l) o
                then (inl true, granted) else (inl false, w)
    end.
Proof.
  unfold acquire, assertTtl. rewrite exec_bind. destruct (t <=? 0); [done|].
  by rewrite exec_ret, exec_act.
Qed.

Lemma renew_exec o n t w :
  exec (renew o n t) w =
  if t <=? 0 then (inr (PlainError "Scheduler lease TTL must be greater than zero"), w)
  else
    match leases w !! n with
    | Some l =>
        if String.eqb (lease_ownerId l) o && (clock w <? expiresAt l)
        then (inl true, put Leases (<[n := mkLease o (clock w + t)]> (leases w)) w)
        else (inl false, w)
    | None => (inl false, w)
    end.
Proof.
  unfold renew, assertTtl. rewrite exec_bind. destruct (t <=? 0); [done|].
  by rewrite exec_ret, exec_act.
Qed.

(** An acquisition or renewal either changes nothing or grants. *)
Lemma acquire_cases o n w r w' :
  exec (acquire o n (ttl n)) w = (r, w') ->
  (w' = w /\ r <> inl true) \/
  (w' = put Leases (<[n := mkLease o (clock w + ttl n)]> (leases w)) w /\
   forall l, leases w !! n = Some l -> clock w < expiresAt l -> lease_ownerId l = o).
Proof.
  rewrite acquire_exec. destruct (_ <=? 0); [by intros [= <- <-]; left|].
  destruct (leases w !! n) as [l|]; [|intros [= <- <-]; by right].
  destruct (Z.leb_spec (expiresAt l) (clock w)); cbn [orb].
  - intros [= <- <-]. right. split; [done|]. intros l' [= <-]. lia.
  - destruct (String.eqb_spec (lease_ownerId l) o); intros [= <- <-]; [right|by left].
    split; [done|]. by intros l' [= <-].
Qed.

Lemma renew_cases o n w r w' :
  exec (renew o n (ttl n)) w = (r, w') ->
  (w' = w /\ r <> inl true) \/
  (w' = put Leases (<[n := mkLease o (clock w + ttl n)]> (leases w)) w /\
   forall l, leases w !! n = Some l -> clock w < expiresAt l -> lease_ownerId l = o).
Proof.
  rewrite renew_exec. destruct (_ <=? 0); [by intros [= <- <-]; left|].
  destruct (leases w !! n) as [l|]; [|intros [= <- <-]; by left].
  destruct (String.eqb_spec (lease_ownerId l) o) as [Ho|]; cbn [andb];
    [|intros [= <- <-]; by left].
  destruct (_ <? _); intros [= <- <-]; [right|by left]. split; [done|]. by intros l' [= <-].
Qed.

Lemma lease_step_backed s s' : lease_step s s' -> beliefs_backed s -> beliefs_backed s'.
Proof.
  intros H Hb. destruct H as [o n w b w' E|o n w b r w' E|o n w b w' E|o n w b r w' E
    |o n w b r w' E|w w' b El Ec].
  - apply acquire_cases in E as [[_ ?]|[-> Hf]]; [done|]. apply (backed_grant _ _ _ b); [done..|].
    intros n' o' d. rewrite lookup_insert_Some. naive_solver.
  - apply acquire_cases in E as [[-> _]|[-> Hf]]; [done|]. by apply (backed_grant _ _ _ b); auto.
  - apply renew_cases in E as [[_ ?]|[-> Hf]]; [done|]. apply (backed_grant _ _ _ b); [done..|].
    intros n' o' d. rewrite lookup_insert_Some. naive_solver.
  - apply renew_cases in E as [[-> _]|[-> Hf]]; [done|]. by apply (backed_grant _ _ _ b); auto.
  - intros n' o' d. cbn. rewrite lookup_delete_Some. intros [Hne Ed].
    destruct (Hb n' o' d Ed) as [Hd Hl]. cbn in Hd, Hl. unfold release in E.
    rewrite exec_act in E. destruct (leases w !! n) as [l|] eqn:El; [|by simplify_eq].
    destruct (String.eqb_spec (lease_ownerId l) o) as [<-|]; simplify_eq; [|done].
    cbn. split; [done|]. intros Hlt. destruct (Hl Hlt) as (e & Ee & He). exists e.
    split; [|done]. rewrite lookup_delete_ne; [done|]. intros <-. rewrite El in Ee.
    simplify_eq.
  - intros n o d E. cbn in E. destruct (Hb n o d E) as [Hd Hl]. cbn in Hd, Hl |- *.
    split; [lia|]. intros Hlt. rewrite El. apply Hl. lia.
Qed.

Lemma lease_reachable_backed s s' :
  rtc lease_step s s' -> beliefs_backed s -> beliefs_backed s'.
Proof. induction 1; eauto using lease_step_backed. Qed.
End Exclusion.

(** At most one holder.  In every history of acquisitions, renewals and
    releases by any number of owners, with answers that may be lost and time that
    passes arbitrarily, two owners whose last granted term of the same lease has
    not run out (and who did not release it) are the same owner. *)
Theorem lease_mutual_exclusion `{P : Platform} ttl w0 w b n o1 o2 d1 d2 :
  rtc (lease_step ttl) (w0, ∅) (w, b) ->
  b !! (n, o1) = Some d1 -> b !! (n, o2) = Some d2 -> clock w < d1 -> clock w < d2 -> o1 = o2.
Proof.
  intros H E1 E2 L1 L2.
  assert (Hb : beliefs_backed ttl (w, b)).
  { apply (lease_reachable_backed ttl _ _ H). intros n' o' d Hd. cbn in Hd.
    by rewrite lookup_empty in Hd. }
  destruct (Hb n o1 d1 E1) as [_ H1], (Hb n o2 d2 E2) as [_ H2].
  destruct (H1 L1) as (e1 & El1 & _), (H2 L2) as (e2 & El2 & _). cbn in *. congruence.
Qed.

(** ** What a tick does *)
Lemma exec_lift {W S err A} (p : prog W err A) (w : W) (s : S) :
  exec (lift p) (w, s) = ((exec p w).1, ((exec p w).2, s)).
Proof.
  revert w. induction p as [a|e|R f k IH|R f k IH]; intros w; [done..| |].
  - exact (IH (f w).1 (f w).2).
  - exact (IH (f w).1 (f w).2).
Qed.

Section Tick.
Context `{P : Platform} `{!PlatformLaws P}.
Context (NAME : string) (TTL : Z) (owner : string) (cycle : prog' unit).
#[local] Abbreviation tick := (run_once NAME TTL owner cycle).

(** Swallowing an exception. *)
Lemma run_ignore {W} (p : prog W err unit) env w :
  (run (catch p (fun _ => Ret tt)) env w).1.1 = inl tt.
Proof. rewrite run_catch. by destruct (run p env w) as [[[[]|e] w'] env']. Qed.

Lemma run_state f env (ws : World * SchedState) :
  run (on_state f) env ws = (inl tt, (ws.1, f ws.2), env).
Proof. done. Qed.

(** A bind whose first part never throws. *)
Lemma run_then {W A} (p : prog W err unit) (q : prog W err A) env w :
  (run p env w).1.1 = inl tt ->
  run (do! p in q) env w = run q (run p env w).2 (run p env w).1.2.
Proof. rewrite run_bind. by destruct (run p env w) as [[[[]|e] w'] env']. Qed.

Lemma tick_run env w st :
  executing st = false ->
  exists w' s' env', run tick env (w, st) = (inl tt, (w', s'), env') /\ executing s' = false.
Proof.
  intros Hex. unfold run_once. rewrite run_bind, run_gets. cbn [snd].
  destruct (negb (running st) || executing st); [by do 3 eexists|].
  rewrite run_bind. unfold set_executing at 1. rewrite run_state, run_bind, run_attempt.
  destruct (run (lift (acquire _ _ _)) env _) as [[acquired w1] env1]. cbn [fst snd].
  rewrite run_then by apply run_ignore.
  lazymatch goal with |- context [run (catch ?p ?h) env1 w1] =>
    destruct (run (catch p h) env1 w1) as [[r [w2 s2]] env2] end.
  cbn [fst snd]. unfold run_finally, stopLeaseRenewal, set_executing. rewrite run_bind, run_state.
  destruct (match acquired with inl b => b | inr _ => false end); cbv iota.
  - rewrite run_then by apply run_ignore. rewrite run_state. by do 3 eexists.
  - rewrite run_bind, run_ret, run_state. by do 3 eexists.
Qed.
End Tick.

(** A tick always ends, and never leaves the scheduler stuck.  Whatever the
    cycle does, however the calls to the database fail and whatever other tasks
    do in between (stopping this scheduler included), the tick does not throw and
    the scheduler is ready for the next one afterwards. *)
Theorem scheduler_tick_ends `{P : Platform} s owner env w st :
  executing st = false ->
  (run (scheduler_run s owner) env (w, st)).1.1 = inl tt /\
  executing (run (scheduler_run s owner) env (w, st)).1.2.2 = false.
Proof.
  intros Hex. destruct (tick_run (sch_name s) (sch_ttl s) owner (sch_cycle s) env w st Hex)
    as (w' & s' & env' & E & He). unfold scheduler_run. by rewrite E.
Qed.

(** A scheduler that does not get the lease does nothing.  While another
    owner holds a lease that has not expired, a tick changes nothing in the world
    and leaves the scheduler ready. *)
Theorem scheduler_excluded `{P : Platform} s owner w st l :
  0 < sch_ttl s -> leases w !! sch_name s = Some l -> clock w < expiresAt l ->
  lease_ownerId l <> owner -> running st = true -> executing st = false ->
  exec (scheduler_run s owner) (w, st) = (inl tt, (w, mkSched true false (timer st) false)).
Proof.
  intros Ht El Hl Ho Hr He. unfold scheduler_run, run_once. rewrite exec_bind, exec_gets.
  cbn [snd]. rewrite Hr, He. cbn [negb orb]. rewrite exec_bind. unfold set_executing at 1.
  unfold on_state at 1. rewrite exec_modify, exec_bind, exec_attempt. cbn [fst snd].
  rewrite exec_lift, acquire_exec, El. destruct (Z.leb_spec (sch_ttl s) 0); [lia|].
  destruct (Z.leb_spec (expiresAt l) (clock w)); [lia|]. cbn [orb].
  destruct (String.eqb_spec (lease_ownerId l) owner); [done|]. cbn [fst snd].
  rewrite Hr. done.
Qed.

(** A scheduler that gets the lease runs its cycle under it and gives it
    back.  If the lease is free, a tick executes the cycle in a world where this
    owner holds the lease, and then the lease is released if it is still this
    owner's, whether the cycle succeeded or threw. *)
Theorem scheduler_runs_cycle `{P : Platform} s owner w st :
  0 < sch_ttl s -> leases w !! sch_name s = None ->
  running st = true -> executing st = false ->
  let held := put Leases (<[sch_name s := mkLease owner (clock w + sch_ttl s)]> (leases w)) w in
  let w1 := (exec (sch_cycle s) held).2 in
  exec (scheduler_run s owner) (w, st) =
    (inl tt, ((exec (release owner (sch_name s)) w1).2, mkSched true false (timer st) false)).
Proof.
  intros Ht El Hr He held w1. unfold scheduler_run, run_once. rewrite exec_bind, exec_gets.
  cbn [snd]. rewrite Hr, He. cbn [negb orb]. rewrite exec_bind. unfold set_executing at 1.
  unfold on_state at 1. rewrite exec_modify, exec_bind, exec_attempt. cbn [fst snd].
  rewrite exec_lift, acquire_exec, El. destruct (Z.leb_spec (sch_ttl s) 0); [lia|].
  cbn [fst snd]. fold held. rewrite exec_bind, exec_catch, exec_bind.
  unfold startLeaseRenewal, stopLeaseRenewal at 1, on_state at 1 2. rewrite exec_bind, !exec_modify.
  cbn [fst snd]. rewrite exec_lift. fold w1.
  assert (Hrel : forall x, exec (release owner (sch_name s)) x = (inl tt, (exec (release owner (sch_name s)) x).2)).
  { intros x. unfold release. rewrite exec_act. destruct (leases x !! _) as [l|]; [|done].
    by destruct (String.eqb _ _). }
  assert (Hrest : exec (run_finally (sch_name s) owner true) (w1, mkSched true true (timer st) true) =
    (inl tt, ((exec (release owner (sch_name s)) w1).2, mkSched true false (timer st) false))).
  { unfold run_finally. rewrite exec_bind. unfold stopLeaseRenewal, on_state at 1.
    rewrite exec_modify, exec_bind, exec_catch, exec_lift, Hrel. cbn [fst snd].
    unfold set_executing, on_state. by rewrite exec_modify. }
  rewrite <- Hrest, Hr. by destruct (exec (sch_cycle s) held).1 as [[]|e].
Qed.

(** ** Guarantees *)
Section Guards.
Context `{P : Platform} `{!PlatformLaws P}.

Lemma steady_leases m (w : World) : steady w (put Leases m w).
Proof. by apply steady_same. Qed.

Lemma guards_acquire o n t : guards steady (acquire o n t).
Proof.
  unfold acquire, assertTtl. solve_guards. apply guards_act. intros w.
  destruct (leases w !! n) as [l|]; [destruct (_ || _)|]; by apply steady_same.
Qed.

Lemma guards_renew o n t : guards steady (renew o n t).
Proof.
  unfold renew, assertTtl. solve_guards. apply guards_act. intros w.
  destruct (leases w !! n) as [l|]; [destruct (_ && _)|]; by apply steady_same.
Qed.

Lemma guards_release o n : guards steady (release o n).
Proof.
  unfold release. apply guards_act. intros w.
  destruct (leases w !! n) as [l|]; [destruct (String.eqb _ _)|]; by apply steady_same.
Qed.

Lemma guards_metered name p : guards steady p -> guards steady (metered name p).
Proof. intros Hp. unfold metered. solve_guards. Qed.

Lemma guards_relay n : guards steady (relay n).
Proof.
  unfold relay, claimUnpublished. solve_guards.
Qed.
End Guards.

#[export] Hint Resolve guards_acquire guards_renew guards_release guards_relay : guards.

Section Witness.
#[local] Existing Instance ref_platform.
#[local] Existing Instance ref_platform_laws.

Definition idle : SchedState := mkSched true false true false.

(** Owner [a] acquires; ten seconds later [b] tries in vain. *)
Definition w_a : World := (exec (acquire "a" "job" 60000) (fresh_world 0 quiet)).2.
Definition w_b : World := put Clock 10000 w_a.

Lemma lease_history :
  rtc (lease_step (fun _ => 60000)) (fresh_world 0 quiet, ∅) (w_b, {[("job", "a") := 60000]}).
Proof.
  apply (rtc_l _ _ (w_a, {[("job", "a") := 60000]})).
  { apply (ls_acquire (P:=ref_platform) (fun _ => 60000) "a" "job" (fresh_world 0 quiet) ∅ w_a).
    vm_compute. reflexivity. }
  apply (rtc_l _ _ (w_b, {[("job", "a") := 60000]})).
  { apply ls_other; [reflexivity|by vm_compute]. }
  apply (rtc_l _ _ (w_b, {[("job", "a") := 60000]})).
  { apply (ls_acquire_unknown (P:=ref_platform) (fun _ => 60000) "b" "job" w_b _ (inl false) w_b).
    vm_compute. reflexivity. }
  reflexivity.
Qed.

Lemma lease_mutual_exclusion_witness : "a" = "a" /\ fst (exec (acquire "b" "job" 60000) w_b) = inl false.
Proof.
  split; [|vm_compute; reflexivity].
  apply (lease_mutual_exclusion (P:=ref_platform) (fun _ => 60000) (fresh_world 0 quiet) w_b
           {[("job", "a") := 60000]} "job" "a" "a" 60000 60000);
    [apply lease_history|reflexivity|reflexivity|reflexivity|reflexivity].
Defined.

(** The database refuses the first call, and every later one. *)
Lemma scheduler_tick_ends_witness :
  (run (scheduler_run SubmissionRecoveryScheduler "a")
     [EnvStep id (Refuse P2025)] (fresh_world 0 quiet, idle)).1.1 = inl tt /\
  executing (run (scheduler_run SubmissionRecoveryScheduler "a")
     [EnvStep id (Refuse P2025)] (fresh_world 0 quiet, idle)).1.2.2 = false.
Proof.
  apply (scheduler_tick_ends (P:=ref_platform) SubmissionRecoveryScheduler "a"). reflexivity.
Defined.

Definition leased : World :=
  put Leases {["submission-recovery-scheduler" := mkLease "b" 60000]} (fresh_world 0 quiet).

Lemma scheduler_excluded_witness :
  exec (scheduler_run SubmissionRecoveryScheduler "a") (leased, idle) = (inl tt, (leased, idle)).
Proof.
  apply (scheduler_excluded (P:=ref_platform) SubmissionRecoveryScheduler "a" leased idle (mkLease "b" 60000));
    [reflexivity|reflexivity|reflexivity|discriminate|reflexivity|reflexivity].
Defined.

Lemma scheduler_runs_cycle_witness :
  let s := SubmissionRecoveryScheduler in
  let w := fresh_world 0 quiet in
  exec (scheduler_run s "a") (w, idle) =
    (inl tt, ((exec (release "a" (sch_name s))
       (exec (sch_cycle s) (put Leases (<[sch_name s := mkLease "a" 60000]> ∅) w)).2).2, idle)).
Proof.
  apply (scheduler_runs_cycle (P:=ref_platform) SubmissionRecoveryScheduler "a" (fresh_world 0 quiet) idle);
    reflexivity.
Defined.
End Witness.
