(* ===== verification/Timers.v ===== *)
(** * The timers of a scheduler

    A scheduler object ([src/workers/expiration.scheduler.ts] and its four siblings)
    under its timers: ticks of the main timer and of the renewal timer, calls of
    [start] and [stop], and the awaited calls of everything in flight, interleaved by
    the event loop.  Code between two awaits runs in one piece. *)

From S2P Require Import Prelude Schema Platform Reference Guarantee Scheduler.

(** ** Turns of the event loop *)

(** A program up to its next await. *)
Fixpoint settle {W A} (p : prog W err A) (w : W) : prog W err A * W :=
  match p with
  | Loc f k => settle (k (f w).1) (f w).2
  | _ => (p, w)
  end.

Definition finished {W A} (p : prog W err A) : bool :=
  match p with Ret _ | Throw _ => true | _ => false end.

Lemma settle_guards {W A} (G : W -> W -> Prop) `{!PreOrder G} (p : prog W err A) w :
  guards G p -> guards G (settle p w).1 /\ G w (settle p w).2.
Proof.
  revert w. induction p as [a|e|R f k IH|R f k IH]; intros w Hp; cbn; try (by split).
  destruct Hp as [Hf Hk]. destruct (IH (f w).1 (f w).2 (Hk _)) as [H1 H2]. split; [done|].
  etransitivity; [apply Hf|exact H2].
Qed.

Section Timers.
Context `{P : Platform} (s : Scheduler) (owner : string).
Abbreviation process := (World * SchedState)%type.
Abbreviation proc A := (prog process err A).

(** What is in flight: a run of the cycle, or a renewal. *)
Inductive kind := Tick | Renewal.

#[global] Instance kind_eq_dec : EqDecision kind.
Proof. solve_decision. Defined.

Abbreviation task := (kind * proc unit)%type.

(** A task that has not ended yet stays in flight. *)
Definition in_flight (kd : kind) (p : proc unit) : list task :=
  if finished p then [] else [(kd, p)].

(** One turn of the object: it is started or stopped, one of its timers fires, or an
    awaited call of something in flight ends. *)
Inductive local_step : process * list task -> process * list task -> Prop :=
| ts_start ws ts : local_step (ws, ts) ((exec start ws).2, ts)
| ts_stop ws ts : local_step (ws, ts) ((exec stop ws).2, ts)
| ts_tick ws ts :
    timer ws.2 = true ->
    local_step (ws, ts)
      ((settle (scheduler_run s owner) ws).2,
       ts ++ in_flight Tick (settle (scheduler_run s owner) ws).1)
| ts_renew ws ts :
    leaseRenewTimer ws.2 = true ->
    local_step (ws, ts)
      ((settle (scheduler_renew s owner) ws).2,
       ts ++ in_flight Renewal (settle (scheduler_renew s owner) ws).1)
| ts_resume kd {R} (f : process -> (R + err) * process) k o ws ts1 ts2 :
    local_step (ws, ts1 ++ (kd, Act f k) :: ts2)
      (let rw := perform o f ws in
       let q := settle (k rw.1) rw.2 in
       (q.2, ts1 ++ in_flight kd q.1 ++ ts2)).

(** Between them, everything else may change the world. *)
Inductive timer_step : process * list task -> process * list task -> Prop :=
| ts_local c c' : local_step c c' -> timer_step c c'
| ts_world w w' st ts : timer_step ((w, st), ts) ((w', st), ts).

(** ** A run in flight *)

(** While a run is in flight its scheduler is marked as executing; once it is
    [closing] the renewal timer is gone. *)
Definition marked_as (closing : bool) (ws : process) : Prop :=
  executing ws.2 = true /\ (closing = true -> leaseRenewTimer ws.2 = false).

Definition at_rest (ws : process) : Prop :=
  executing ws.2 = false /\ leaseRenewTimer ws.2 = false.

(** A program that awaits and, whatever comes back and whatever the timers did
    meanwhile, either ends with the scheduler at rest or awaits again. *)
Inductive busy : bool -> proc unit -> Prop :=
| busy_awaits b {R} (f : process -> (R + err) * process) k :
    (forall ws, (f ws).2.2 = ws.2) ->
    (forall r ws p ws', marked_as b ws -> settle (k r) ws = (p, ws') ->
       (finished p = true /\ at_rest ws') \/ (exists b', marked_as b' ws' /\ busy b' p)) ->
    busy b (Act f k).

Lemma busy_act b p :
  busy b p ->
  match p with
  | Act f k =>
      (forall ws, (f ws).2.2 = ws.2) /\
      (forall r ws p ws', marked_as b ws -> settle (k r) ws = (p, ws') ->
         (finished p = true /\ at_rest ws') \/ (exists b', marked_as b' ws' /\ busy b' p))
  | _ => False
  end.
Proof. by destruct 1. Qed.

Definition good (b : bool) (p : proc unit) : Prop :=
  forall ws p' ws', marked_as b ws -> settle p ws = (p', ws') ->
    (finished p' = true /\ at_rest ws') \/ (exists b', marked_as b' ws' /\ busy b' p').

(** The parts of a run that leave the mark alone and do not throw. *)
Fixpoint tame {A} (b : bool) (p : proc A) : Prop :=
  match p with
  | Ret _ => True
  | Throw _ => False
  | Loc f k => (forall ws, marked_as b ws -> marked_as b (f ws).2) /\ forall r, tame b (k r)
  | Act f k => (forall ws, (f ws).2.2 = ws.2) /\ forall r, tame b (k r)
  end.

(** The same, for parts that may throw. *)
Fixpoint mild {A} (b : bool) (p : proc A) : Prop :=
  match p with
  | Ret _ | Throw _ => True
  | Loc f k => (forall ws, marked_as b ws -> marked_as b (f ws).2) /\ forall r, mild b (k r)
  | Act f k => (forall ws, (f ws).2.2 = ws.2) /\ forall r, mild b (k r)
  end.

Lemma good_bind {A} b (p : proc A) k : tame b p -> (forall a, good b (k a)) -> good b (bind p k).
Proof.
  induction p as [a|e|R f c IH|R f c IH]; intros Hp Hk; cbn in Hp; [apply Hk|done|..].
  - destruct Hp as [Hf Hc]. intros ws p' ws' Hm E. cbn in E.
    exact (IH _ (Hc _) Hk _ _ _ (Hf ws Hm) E).
  - destruct Hp as [Hf Hc]. intros ws p' ws' Hm E. cbn in E. injection E as <- <-. right. exists b.
    split; [done|]. constructor; [done|]. intros r. by apply IH.
Qed.

Lemma tame_attempt {A} b (p : proc A) : mild b p -> tame b (attempt p).
Proof. induction p; cbn; naive_solver. Qed.

Lemma tame_bind {A B} b (p : proc A) (k : A -> proc B) :
  tame b p -> (forall a, tame b (k a)) -> tame b (bind p k).
Proof. induction p; cbn; naive_solver. Qed.

Lemma mild_bind {A B} b (p : proc A) (k : A -> proc B) :
  mild b p -> (forall a, mild b (k a)) -> mild b (bind p k).
Proof. induction p; cbn; naive_solver. Qed.

Lemma mild_lift {A} b (p : prog World err A) : mild b (lift p : proc A).
Proof. induction p; cbn; naive_solver. Qed.

Lemma tame_catch {A} b (p : proc A) h : mild b p -> (forall e, tame b (h e)) -> tame b (catch p h).
Proof.
  intros Hp Hh. apply tame_bind; [by apply tame_attempt|]. intros [a|e]; [done|apply Hh].
Qed.

(** The [finally] block: the renewal timer goes first, then the lease, then the mark. *)
Lemma good_run_finally b : good false (run_finally (sch_name s) owner b).
Proof.
  intros ws p' ws' [Hx _] E. unfold run_finally, stopLeaseRenewal, on_state, modify, loc in E.
  set (rest := fun _ : unit => bind (if b then _ else _) _) in E.
  change (settle (rest tt) (ws.1, mkSched (running ws.2) (executing ws.2) (timer ws.2) false) = (p', ws')) in E.
  assert (Hg : good true (rest tt)).
  { apply good_bind.
    - destruct b; [|done]. apply tame_catch; [apply mild_lift|done].
    - intros _ ws1 q ws2 [_ Hl] E1. cbn in E1. injection E1 as <- <-. left. split; [done|].
      split; [done|]. by apply Hl. }
  apply (Hg _ _ _) in E; [done|]. by split.
Qed.

(** A run, from the moment it has marked the scheduler. *)
Definition after_mark : proc unit :=
  let! acquired := attempt (lift (acquire owner (sch_name s) (sch_ttl s))) in
  let leaseAcquired := match acquired with inl b => b | inr _ => false end in
  do! catch (match acquired with
             | inr e => Throw e
             | inl false => Ret tt
             | inl true => do! startLeaseRenewal in lift (sch_cycle s)
             end) (fun _ => Ret tt) in
  run_finally (sch_name s) owner leaseAcquired.

Lemma settle_run ws :
  settle (scheduler_run s owner) ws =
  if negb (running ws.2) || executing ws.2 then (Ret tt, ws)
  else settle after_mark
         (ws.1, mkSched (running ws.2) true (timer ws.2) (leaseRenewTimer ws.2)).
Proof.
  change (settle (scheduler_run s owner) ws) with
    (settle (if negb (running ws.2) || executing ws.2 then Ret tt
             else do! set_executing true in after_mark) ws).
  by destruct (_ || _).
Qed.

Lemma good_run : good false after_mark.
Proof.
  unfold after_mark. apply good_bind; [apply tame_attempt, mild_lift|]. intros acquired. cbv zeta.
  apply good_bind; [|intros _; apply good_run_finally]. apply tame_catch; [|done].
  destruct acquired as [[]|e]; [|done..]. apply mild_bind; [|intros _; apply mild_lift].
  unfold startLeaseRenewal, stopLeaseRenewal, on_state, modify, loc. cbn.
  by repeat split; destruct H.
Qed.

(** ** The invariant *)

Definition runs (ts : list task) : list (proc unit) :=
  omap (fun t : task => if decide (t.1 = Tick) then Some t.2 else None) ts.

(** A renewal never touches the object. *)
Definition bystander (p : proc unit) : Prop := guards (fun ws ws' => ws'.2 = ws.2) p.

#[local] Instance same_object_preorder : PreOrder (fun ws ws' : process => ws'.2 = ws.2).
Proof. split; [done|]. intros a b c -> H. done. Qed.

(** Nothing in flight starts or stops the scheduler. *)
Definition same_switch (ws ws' : process) : Prop :=
  running ws'.2 = running ws.2 /\ timer ws'.2 = timer ws.2.

#[local] Instance same_switch_preorder : PreOrder same_switch.
Proof. split; [done|]. intros a b c [A1 A2] [B1 B2]. split; congruence. Qed.

Definition task_ok (t : task) : Prop :=
  (t.1 = Renewal -> bystander t.2) /\ guards same_switch t.2.

Definition timers_ok (c : process * list task) : Prop :=
  (timer c.1.2 = true -> running c.1.2 = true) /\
  Forall task_ok c.2 /\
  ((runs c.2 = [] /\ at_rest c.1) \/
   exists p b, runs c.2 = [p] /\ marked_as b c.1 /\ busy b p).

Lemma runs_app a b : runs (a ++ b) = runs a ++ runs b.
Proof. apply omap_app. Qed.

(** Only the object matters, and only three of its fields. *)
Lemma marked_same b (ws ws' : process) : ws'.2 = ws.2 -> marked_as b ws -> marked_as b ws'.
Proof. unfold marked_as. by intros ->. Qed.
Lemma rest_same (ws ws' : process) : ws'.2 = ws.2 -> at_rest ws -> at_rest ws'.
Proof. unfold at_rest. by intros ->. Qed.

Lemma timers_ok_same ws ws' ts ts' :
  ws'.2 = ws.2 -> runs ts' = runs ts ->
  Forall task_ok ts' ->
  timers_ok (ws, ts) -> timers_ok (ws', ts').
Proof.
  intros E Er HF (H1 & H2 & H3). split; [cbn [fst snd]; by rewrite E|]. split; [done|].
  cbn [fst snd] in *. rewrite Er.
  destruct H3 as [[H Ha]|(p & b & H & Hm & Hb)].
  - left. split; [done|]. by eapply rest_same.
  - right. exists p, b. split_and!; [done|by eapply marked_same|done].
Qed.

Lemma guards_lift {A} (G : process -> process -> Prop) (p : prog World err A) :
  (forall ws ws', ws'.2 = ws.2 -> G ws ws') -> guards G (lift p : proc A).
Proof.
  intros HG. induction p as [a|e|R f k IH|R f k IH]; cbn; [done|done|..];
    (split; [intros ws; by apply HG|]); intros r; apply IH.
Qed.

Lemma bystander_switch (p : proc unit) : bystander p -> guards same_switch p.
Proof.
  unfold bystander. induction p as [a|e|R f k IH|R f k IH]; cbn; [done|done|..]; intros [Hf Hk];
    (split; [|intros r; apply IH, Hk]); intros ws; unfold same_switch; by rewrite Hf.
Qed.

Lemma object_switch (ws ws' : process) : ws'.2 = ws.2 -> same_switch ws ws'.
Proof. unfold same_switch. by intros ->. Qed.

Lemma run_switch : guards same_switch (scheduler_run s owner).
Proof.
  assert (Hset : forall g, (forall st, running (g st) = running st /\ timer (g st) = timer st) ->
    guards same_switch (on_state g)).
  { intros g Hg. apply guards_modify. intros ws. apply (Hg ws.2). }
  assert (Hl : forall A (p : prog World err A), guards same_switch (lift p : proc A))
    by (intros; apply guards_lift, object_switch).
  unfold scheduler_run, run_once. apply guards_bind; [apply guards_gets, _|]. intros st.
  destruct (_ || _); [done|]. apply guards_bind; [by apply Hset|]. intros _.
  apply guards_bind; [by apply guards_attempt|]. intros r. apply guards_bind.
  - apply guards_catch; [|done]. destruct r as [[]|e]; [|done..].
    apply guards_bind; [|done]. apply guards_bind; [|intros _]; by apply Hset.
  - intros _. apply guards_bind; [by apply Hset|]. intros _. apply guards_bind; [|intros _; by apply Hset].
    destruct (match r with inl b => b | inr _ => false end); [|done]. by apply guards_catch.
Qed.

(** A settled renewal. *)
Lemma renewal_settles (p : proc unit) ws :
  bystander p ->
  (settle p ws).2.2 = ws.2 /\ runs (in_flight Renewal (settle p ws).1) = [] /\
  Forall task_ok (in_flight Renewal (settle p ws).1).
Proof.
  intros Hp. destruct (settle_guards _ p ws Hp) as [H1 H2]. unfold in_flight.
  destruct (finished _); split_and!; try done. constructor; [|done]. split; [done|].
  by apply bystander_switch.
Qed.

Lemma perform_same {R} o (f : process -> (R + err) * process) ws :
  (forall ws, (f ws).2.2 = ws.2) -> (perform o f ws).2.2 = ws.2.
Proof. intros Hf. destruct o; cbn; [apply Hf|done|apply Hf]. Qed.

(** A run that settled, in a list with no other run. *)
Lemma run_settles p ws ts1 ts2 :
  runs (ts1 ++ ts2) = [] ->
  (finished p = true /\ at_rest ws) \/ (exists b, marked_as b ws /\ busy b p) ->
  (runs (ts1 ++ in_flight Tick p ++ ts2) = [] /\ at_rest ws) \/
  (exists q b, runs (ts1 ++ in_flight Tick p ++ ts2) = [q] /\ marked_as b ws /\ busy b q).
Proof.
  rewrite !runs_app. intros [E1 E2]%app_nil H. rewrite E1, E2, app_nil_r. cbn [app].
  unfold in_flight. destruct H as [[-> H]|(b & Hm & Hb)]; [by left|]. right. exists p, b.
  by destruct Hb.
Qed.

Lemma tick_ok ws ts :
  timers_ok (ws, ts) ->
  timers_ok ((settle (scheduler_run s owner) ws).2,
             ts ++ in_flight Tick (settle (scheduler_run s owner) ws).1).
Proof.
  intros (H1 & H2 & H3). rewrite settle_run.
  destruct (negb (running ws.2) || executing ws.2) eqn:E.
  { change (timers_ok (ws, ts ++ [])). by rewrite app_nil_r. }
  assert (Ex : executing ws.2 = false) by (by apply orb_false_iff in E as [_ E]).
  destruct H3 as [[Hr Ha]|(p & b & _ & [Hm _] & _)]; [|cbn [fst snd] in Hm; congruence].
  cbn [fst snd] in H1, H2, Hr, Ha. set (ws1 := (ws.1, _)).
  destruct (settle after_mark ws1) as [p ws2] eqn:Ep. cbn [fst snd].
  assert (Hp := good_run ws1 p ws2 ltac:(by split) Ep).
  split_and!; cbn [fst snd].
  - destruct (settle_guards same_switch _ ws run_switch) as [_ [E1 E2]]. rewrite settle_run, E in E1, E2.
    fold ws1 in E1, E2. rewrite Ep in E1, E2. cbn [snd] in E1, E2.
    rewrite E1, E2. exact H1.
  - apply Forall_app. split; [done|]. unfold in_flight. destruct (finished p); [done|].
    constructor; [|done]. split; [done|].
    destruct (settle_guards same_switch _ ws run_switch) as [Hg _]. rewrite settle_run, E in Hg.
    fold ws1 in Hg. by rewrite Ep in Hg.
  - pose proof (run_settles p ws2 ts [] ltac:(by rewrite app_nil_r) Hp) as H.
    by rewrite app_nil_r in H.
Qed.

Lemma resume_ok kd {R} (f : process -> (R + err) * process) k o ws ts1 ts2 :
  timers_ok (ws, ts1 ++ (kd, Act f k) :: ts2) ->
  let rw := perform o f ws in
  let q := settle (k rw.1) rw.2 in
  timers_ok (q.2, ts1 ++ in_flight kd q.1 ++ ts2).
Proof.
  intros H0 rw q. destruct H0 as (H1 & H2 & H3) eqn:EH. clear EH. cbn [fst snd] in H1, H2, H3.
  apply Forall_app in H2 as [F1 F2]. apply Forall_cons in F2 as [[Hby Hsw] F2]. cbn [fst snd] in Hby, Hsw.
  destruct Hsw as [Hf Hk].
  assert (Esw : same_switch ws rw.2) by (unfold rw; destruct o; cbn; [apply Hf|done|apply Hf]).
  destruct (settle_guards same_switch (k rw.1) rw.2 (Hk _)) as [Hg Eq]. fold q in Hg, Eq.
  destruct (transitivity Esw Eq) as [E1 E2].
  assert (Ht : timer q.2.2 = true -> running q.2.2 = true) by (rewrite E1, E2; exact H1).
  destruct kd.
  - split; [done|]. split.
    { apply Forall_app. split; [done|]. apply Forall_app. split; [|done]. unfold in_flight.
      destruct (finished q.1); [done|]. by repeat constructor. }
    cbn [fst snd].
    assert (Hrun : runs (ts1 ++ (Tick, Act f k) :: ts2) = runs ts1 ++ Act f k :: runs ts2)
      by (by rewrite runs_app).
    rewrite Hrun in H3. destruct H3 as [[H _]|(p & b & H & Hm & Hb)]; [by destruct (runs ts1)|].
    destruct (runs ts1) as [|x l] eqn:R1; [|by destruct l]. cbn [app] in H. injection H as <- R2.
    apply run_settles; [by rewrite runs_app, R1, R2|].
    destruct (busy_act _ _ Hb) as [Hobj Hres].
    apply (Hres rw.1 rw.2 q.1 q.2); [|by rewrite <- surjective_pairing].
    eapply marked_same; [by apply perform_same|done].
  - destruct (Hby eq_refl) as [Ho Hr].
    destruct (renewal_settles (k rw.1) rw.2 (Hr _)) as (Er & Rr & HF). fold q in Er, Rr, HF.
    eapply (timers_ok_same ws q.2 (ts1 ++ (Renewal, Act f k) :: ts2)); [| | |done].
    + rewrite Er. by apply perform_same.
    + by rewrite !runs_app, Rr.
    + apply Forall_app. split; [done|]. by apply Forall_app.
Qed.

Lemma local_step_ok c c' : local_step c c' -> timers_ok c -> timers_ok c'.
Proof.
  intros Hst. destruct Hst as [ws ts|ws ts|ws ts Ht|ws ts Hl|kd R f k o ws ts1 ts2].
  - intros (H1 & H2 & H3). unfold start. rewrite exec_bind, exec_gets. cbv beta iota.
    destruct (running ws.2) eqn:E; [done|]. unfold on_state. rewrite exec_modify.
    by split; [|split].
  - intros (H1 & H2 & H3). unfold stop. rewrite exec_bind, exec_gets. cbv beta iota.
    destruct (running ws.2) eqn:E; [cbn [negb]|done]. unfold on_state. rewrite exec_modify.
    split; [done|]. split; [done|]. cbn [fst snd] in *. destruct H3 as [[H [Ha _]]|(p & b & H & [Ha _] & Hb)].
    + left. by split; [|split].
    + right. exists p, b. split; [done|]. split; [by split|done].
  - apply tick_ok.
  - intros H. assert (Hb : bystander (scheduler_renew s owner)).
    { unfold scheduler_renew, renewLease. apply guards_catch; [|done]. apply guards_bind; [|done].
      by apply guards_lift. }
    destruct (renewal_settles _ ws Hb) as (E & Er & HF).
    eapply (timers_ok_same ws _ ts); [done| |apply Forall_app; split; [apply H|done]|done].
    by rewrite runs_app, Er, app_nil_r.
  - apply resume_ok.
Qed.

(** The invariant does not look at the world. *)
Lemma timers_ok_world w w' st ts : timers_ok ((w, st), ts) -> timers_ok ((w', st), ts).
Proof. intros H. by eapply (timers_ok_same (w, st) _ ts); [| |apply H|]. Qed.

Lemma timer_step_ok c c' : timer_step c c' -> timers_ok c -> timers_ok c'.
Proof. intros [c0 c1 H|w w' st ts]; [by apply local_step_ok|apply timers_ok_world]. Qed.

Lemma timers_reachable c c' : rtc timer_step c c' -> timers_ok c -> timers_ok c'.
Proof. induction 1 as [|x y z H _ IH]; [done|]. intros Hx. by apply IH, (timer_step_ok x). Qed.
End Timers.

(** A scheduler object as it is constructed. *)
Definition constructed : SchedState := mkSched false false false false.

(** C12: the runs of a scheduler never overlap, and no renewal timer leaks.  Whatever
    the order in which its timers fire, it is started and stopped, the awaited calls of
    its runs and renewals end (or fail), and other processes change the database: at
    most one run is in flight; the scheduler is marked as executing exactly as long as
    one is; the renewal timer only exists while one is; and only a scheduler that was
    started and not stopped since has its main timer, so that a stopped one begins no
    new run. *)
Theorem scheduler_runs_never_overlap `{P : Platform} s owner w ws ts :
  rtc (timer_step s owner) ((w, constructed), []) (ws, ts) ->
  (length (runs ts) <= 1)%nat /\
  (executing ws.2 = true <-> runs ts <> []) /\
  (leaseRenewTimer ws.2 = true -> runs ts <> []) /\
  (timer ws.2 = true -> running ws.2 = true).
Proof.
  intros H. apply timers_reachable in H as (H1 & _ & H3);
    [|split; [done|]; split; [constructor|]; by left].
  cbn [fst snd] in *. destruct H3 as [[-> [Hx Hl]]|(p & b & -> & [Hx _] & _)].
  - split_and!; [cbn; lia|by rewrite Hx|by rewrite Hl|done].
  - by split_and!.
Qed.

Section Witness.
#[local] Existing Instance ref_platform.
#[local] Existing Instance ref_platform_laws.

(** Started and ticked twice: the second tick finds the first run in flight. *)
Lemma scheduler_runs_never_overlap_witness :
  exists ws ts,
    rtc (timer_step (P:=ref_platform) OutboxRelayScheduler "a") ((fresh_world 0 quiet, constructed), []) (ws, ts) /\
    executing ws.2 = true /\ length (runs ts) = 1%nat /\
    (length (runs ts) <= 1)%nat /\ (executing ws.2 = true <-> runs ts <> []) /\
    (leaseRenewTimer ws.2 = true -> runs ts <> []) /\ (timer ws.2 = true -> running ws.2 = true).
Proof.
  do 2 eexists.
  eassert (H : rtc (timer_step (P:=ref_platform) OutboxRelayScheduler "a") ((fresh_world 0 quiet, constructed), []) (_, _)).
  { eapply rtc_l; [apply ts_local, (ts_start (P:=ref_platform))|].
    eapply rtc_l; [apply ts_local, (ts_tick (P:=ref_platform)); reflexivity|].
    eapply rtc_l; [apply ts_local, (ts_tick (P:=ref_platform)); reflexivity|]. apply rtc_refl. }
  split; [exact H|]. split; [reflexivity|]. split; [reflexivity|].
  exact (scheduler_runs_never_overlap (P:=ref_platform) OutboxRelayScheduler "a" _ _ _ H).
Defined.
End Witness.
