(* ===== verification/Cluster.v ===== *)
(** * Several instances of a scheduler

    The processes that run one scheduler next to each other, each with its own object,
    timers and lease owner ([Timers]), over one database ([Scheduler]): what the lease
    guarantees about their cycles, when time passes, calls fail, answers are lost and
    processes crash. *)

From stdpp Require Import functions.
From S2P Require Import Prelude JsString Schema Platform Reference StateMachine TransactionRepository Outbox Guarantee Metrics Adapters Transfer Index Sweeps Scheduler Timers.

(** Work that leaves the leases alone, while time passes. *)
Definition calm `{ChainNodes} (w w' : World) : Prop :=
  leases w' = leases w /\ clock w <= clock w'.

#[global] Instance calm_preorder `{ChainNodes} : PreOrder calm.
Proof. split; [by split|]. intros a b c [E1 C1] [E2 C2]. split; [congruence|lia]. Qed.

(** What a scheduler promises to its peers. *)
Class CalmCycle `{P : Platform} (s : Scheduler) : Prop := {
  ttl_positive : 0 < sch_ttl s;
  cycle_calm : guards calm (sch_cycle s) }.

Section Cluster.
Context `{P : Platform} (s : Scheduler) `{!CalmCycle s}.
Abbreviation process := (World * SchedState)%type.
Abbreviation proc A := (prog process err A).
Abbreviation task := (kind * proc unit)%type.
Abbreviation NAME := (sch_name s).

(** The processes, by the owner id of their lease. *)
Abbreviation procs := (string -> SchedState * list task).

(** The term of each owner: the expiry of the lease row it last had, until it gives the
    row back. *)
Abbreviation terms := (gmap string Z).

Definition owned_by (o : string) (w : World) : bool :=
  match leases w !! NAME with Some l => String.eqb (lease_ownerId l) o | None => false end.

(** The bookkeeping of a step of [o] from [w] to [w']. *)
Definition record_term (o : string) (w w' : World) (b : terms) : terms :=
  match leases w' !! NAME with
  | Some l => if String.eqb (lease_ownerId l) o then <[o := expiresAt l]> b else b
  | None => if owned_by o w then delete o b else b
  end.

Inductive cluster_step : World * terms * procs -> World * terms * procs -> Prop :=
| cs_process o w w' b ps st' ts' :
    local_step s o ((w, (ps o).1), (ps o).2) ((w', st'), ts') ->
    cluster_step (w, b, ps) (w', record_term o w w' b, <[o := (st', ts')]> ps)
| cs_crash o w b ps : cluster_step (w, b, ps) (w, b, <[o := (constructed, [])]> ps)
| cs_other w w' b ps : calm w w' -> cluster_step (w, b, ps) (w', b, ps).

(** ** What is in flight *)

(** A run that awaits a call of its cycle, or of what is left of it. *)
Definition cycling (o : string) (c : prog' unit) : proc unit :=
  do! catch (lift c) (fun _ => Ret tt) in run_finally NAME o true.

(** A run that awaits the release of its lease. *)
Definition releasing (o : string) : proc unit :=
  do! catch (lift (release o NAME)) (fun _ => Ret tt) in set_executing false.

(** A run that awaits its acquisition. *)
Definition acquire_call (o : string) (w : World) : (bool + err) * World :=
  let granted := put Leases (<[NAME := mkLease o (clock w + sch_ttl s)]> (leases w)) w in
  match leases w !! NAME with
  | None => (inl true, granted)
  | Some l =>
      if (expiresAt l <=? clock w) || String.eqb (lease_ownerId l) o
      then (inl true, granted) else (inl false, w)
  end.

Definition lifted {R} (f : World -> (R + err) * World) (ws : process) : (R + err) * process :=
  ((f ws.1).1, ((f ws.1).2, ws.2)).

Definition after_acquire (o : string) (r : bool + err) : proc unit :=
  let leaseAcquired := match r with inl b => b | inr _ => false end in
  do! catch (match r with
             | inr e => Throw e
             | inl false => Ret tt
             | inl true => do! startLeaseRenewal in lift (sch_cycle s)
             end) (fun _ => Ret tt) in
  run_finally NAME o leaseAcquired.

Definition acquiring (o : string) : proc unit :=
  Act (lifted (acquire_call o)) (fun r => bind (attempt (lift (rethrow r))) (after_acquire o)).

Definition renewing (o : string) : proc unit :=
  catch (do! lift (act (fun w =>
    match leases w !! NAME with
    | Some l =>
        if String.eqb (lease_ownerId l) o && (clock w <? expiresAt l)
        then (inl true, put Leases (<[NAME := mkLease o (clock w + sch_ttl s)]> (leases w)) w)
        else (inl false, w)
    | None => (inl false, w)
    end)) in Ret tt) (fun _ => Ret tt).

Lemma settle_after_mark o ws : settle (after_mark s o) ws = (acquiring o, ws).
Proof.
  unfold after_mark, acquire, assertTtl. pose proof ttl_positive.
  destruct (Z.leb_spec (sch_ttl s) 0); [lia|]. done.
Qed.

Lemma settle_renew o ws : settle (scheduler_renew s o) ws = (renewing o, ws).
Proof.
  unfold scheduler_renew, renewLease, renew, assertTtl, renewing. pose proof ttl_positive.
  destruct (Z.leb_spec (sch_ttl s) 0); [lia|]. done.
Qed.

(** ** The turns of a run *)

(** A cycle goes on until it releases. *)
Lemma settle_cycling o c w st p w' st' :
  guards calm c -> settle (cycling o c) (w, st) = (p, (w', st')) ->
  calm w w' /\
  ((exists R (f : World -> (R + err) * World) k, p = cycling o (Act f k) /\ guards calm (Act f k)) \/
   p = releasing o).
Proof.
  revert w. induction c as [[]|e|R f k IH|R f k IH]; intros w Hc E.
  - cbn in E. injection E as <- <- _. split; [done|by right].
  - cbn in E. injection E as <- <- _. split; [done|by right].
  - destruct Hc as [Hf Hk]. destruct (IH (f w).1 (f w).2 (Hk _) E) as [H1 H2].
    split; [|done]. etransitivity; [apply Hf|exact H1].
  - injection E as <- <- _. split; [done|]. left. by exists R, f, k.
Qed.

(** The outcome of a call on the world, and of what follows in the same turn. *)
Lemma settle_granted o w st p w' st' :
  settle (after_acquire o (inl true)) (w, st) = (p, (w', st')) ->
  calm w w' /\
  ((exists R (f : World -> (R + err) * World) k, p = cycling o (Act f k) /\ guards calm (Act f k)) \/
   p = releasing o).
Proof.
  intros E. change (settle (cycling o (sch_cycle s))
    (w, mkSched (running st) (executing st) (timer st) true) = (p, (w', st'))) in E.
  eapply settle_cycling; [apply cycle_calm|exact E].
Qed.

Lemma settle_refused o r w st :
  r <> inl true -> exists st', settle (after_acquire o r) (w, st) = (Ret tt, (w, st')).
Proof. destruct r as [[]|e]; [done|..]; by eexists. Qed.

Definition in_cycle (o : string) (p : proc unit) : Prop :=
  exists R (f : World -> (R + err) * World) k, p = cycling o (Act f k) /\ guards calm (Act f k).

(** A run that has its lease. *)
Definition past_acquire (o : string) (p : proc unit) : Prop := in_cycle o p \/ p = releasing o.

(** An awaited call ends with outcome [out], and its task runs to its next await. *)
Definition resume (out : outcome err) (p : proc unit) (ws : process) : proc unit * process :=
  match p with
  | Act f k => let rw := perform out f ws in settle (k rw.1) rw.2
  | p => (p, ws)
  end.

(** ** What a process does to the lease *)

Definition granted (o : string) (w : World) : World :=
  put Leases (<[NAME := mkLease o (clock w + sch_ttl s)]> (leases w)) w.

Definition grantable (o : string) (w : World) : Prop :=
  forall l, leases w !! NAME = Some l -> clock w < expiresAt l -> lease_ownerId l = o.

(** It is not touched, or granted. *)
Definition keeps (o : string) (w w' : World) : Prop :=
  calm w w' \/ (grantable o w /\ calm (granted o w) w').

Definition releases (o : string) (w w' : World) : Prop :=
  owned_by o w = true /\ w' = put Leases (delete NAME (leases w)) w.

Lemma calm_keeps o w : keeps o w w \/ releases o w w.
Proof. by left; left. Qed.

Lemma acquire_call_cases o w r w' :
  acquire_call o w = (r, w') ->
  (r = inl true /\ grantable o w /\ w' = granted o w) \/ (r = inl false /\ w' = w).
Proof.
  unfold acquire_call, grantable. destruct (leases w !! NAME) as [l|].
  - destruct (Z.leb_spec (expiresAt l) (clock w)); cbn [orb].
    + intros [= <- <-]. left. split_and!; [done| |done]. intros l' [= <-]. lia.
    + destruct (String.eqb_spec (lease_ownerId l) o); intros [= <- <-]; [left|by right].
      split_and!; [done| |done]. by intros l' [= <-].
  - intros [= <- <-]. by left.
Qed.

Lemma resume_acquiring o out w st p w' st' :
  resume out (acquiring o) (w, st) = (p, (w', st')) ->
  keeps o w w' /\ (finished p = true \/ (past_acquire o p /\ owned_by o w' = true)).
Proof.
  assert (Hr : forall r w1, keeps o w w1 -> r <> inl true ->
    settle (bind (attempt (lift (rethrow r))) (after_acquire o)) (w1, st) = (p, (w', st')) ->
    keeps o w w' /\ (finished p = true \/ (past_acquire o p /\ owned_by o w' = true))).
  { intros r w1 Hk Hne E. destruct (settle_refused o r w1 st Hne) as [st1 E1].
    assert (E2 : settle (bind (attempt (lift (rethrow r))) (after_acquire o)) (w1, st) = (Ret tt, (w1, st1)))
      by (rewrite <- E1; by destruct r). rewrite E2 in E. injection E as <- <- _. split; [done|by left]. }
  unfold resume, acquiring. destruct (acquire_call o w) as [r w1] eqn:Ea.
  assert (Ec : lifted (acquire_call o) (w, st) = (r, (w1, st))) by (unfold lifted; cbn; by rewrite Ea).
  assert (Hk : keeps o w w1).
  { apply acquire_call_cases in Ea as [(_ & Hg & ->)|[_ ->]]; [by right|by left]. }
  destruct out as [|e|e]; cbn [perform]; rewrite ?Ec; cbn [fst snd].
  - apply acquire_call_cases in Ea as [(-> & Hg & ->)|[-> ->]]; [|by apply Hr].
    intros E. destruct (settle_granted o (granted o w) st p w' st' E) as [Hc Hp].
    split; [by right|]. right. split; [done|]. unfold owned_by. rewrite (proj1 Hc). cbn.
    rewrite lookup_insert_eq. apply String.eqb_refl.
  - apply Hr; [by left|done].
  - by apply Hr.
Qed.

Lemma resume_cycling o {R} (f : World -> (R + err) * World) k out w st p w' st' :
  guards calm (Act f k) -> resume out (cycling o (Act f k)) (w, st) = (p, (w', st')) ->
  calm w w' /\ past_acquire o p.
Proof.
  intros [Hf Hk] E.
  change (let rw := perform out (lifted f) (w, st) in settle (cycling o (k rw.1)) rw.2 = (p, (w', st'))) in E.
  assert (Hw : exists r w1, perform out (lifted f) (w, st) = (r, (w1, st)) /\ calm w w1).
  { destruct out; cbn; eexists _, _; (split; [reflexivity|]); [apply Hf|done|apply Hf]. }
  destruct Hw as (r & w1 & Ew & Hc). rewrite Ew in E. cbn [fst snd] in E.
  destruct (settle_cycling o (k r) w1 st p w' st' (Hk r) E) as [H1 H2].
  split; [by etransitivity|done].
Qed.

Lemma resume_releasing o out w st p w' st' :
  resume out (releasing o) (w, st) = (p, (w', st')) ->
  (calm w w' \/ releases o w w') /\ finished p = true.
Proof.
  set (f := fun w : World => match leases w !! NAME with
    | Some l => if String.eqb (lease_ownerId l) o then (inl tt, put Leases (delete NAME (leases w)) w) else (inl tt, w)
    | None => (inl tt, w) end : (unit + err) * World).
  intros E.
  assert (Hf : calm w (f w).2 \/ releases o w (f w).2).
  { unfold f, releases, owned_by. destruct (leases w !! NAME) as [l|]; [|by left].
    destruct (String.eqb _ _); [by right|by left]. }
  change (let rw := perform out (lifted f) (w, st) in
    settle (bind (bind (attempt (lift (rethrow rw.1))) (fun r => match r with inl a => Ret a | inr e => Ret tt end))
      (fun _ => set_executing false)) rw.2 = (p, (w', st'))) in E.
  destruct out as [|e|e]; cbn [perform] in E; unfold lifted in E; cbn [fst snd] in E.
  - destruct (f w).1; cbn in E; injection E as <- <- _; by split.
  - cbn in E. injection E as <- <- _. split; [by left|done].
  - cbn in E. injection E as <- <- _. by split.
Qed.

Lemma resume_renewing o out w st p w' st' :
  resume out (renewing o) (w, st) = (p, (w', st')) -> keeps o w w' /\ finished p = true.
Proof.
  set (f := fun w : World => match leases w !! NAME with
    | Some l => if String.eqb (lease_ownerId l) o && (clock w <? expiresAt l)
                then (inl true, granted o w) else (inl false, w)
    | None => (inl false, w) end : (bool + err) * World).
  intros E.
  assert (Hf : keeps o w (f w).2).
  { unfold f, keeps, grantable. destruct (leases w !! NAME) as [l|]; [|by left].
    destruct (String.eqb_spec (lease_ownerId l) o) as [Ho|]; [|by left]. destruct (_ <? _); [|by left].
    right. split; [|done]. by intros l' [= <-]. }
  change (let rw := perform out (lifted f) (w, st) in
    settle (bind (attempt (bind (lift (rethrow rw.1)) (fun _ => Ret tt)))
      (fun r => match r with inl a => Ret a | inr e => Ret tt end)) rw.2 = (p, (w', st'))) in E.
  destruct out as [|e|e]; cbn [perform] in E; unfold lifted in E; cbn [fst snd] in E.
  - destruct (f w).1; cbn in E; injection E as <- <- _; by split.
  - cbn in E. injection E as <- <- _. split; [by left|done].
  - cbn in E. injection E as <- <- _. by split.
Qed.

(** ** Terms *)

(** A term that has not run out is the term of the lease row. *)
Definition terms_backed (w : World) (b : terms) : Prop :=
  forall o d, b !! o = Some d -> clock w < d -> leases w !! NAME = Some (mkLease o d).

Lemma record_term_leases o w w1 w2 b :
  leases w2 = leases w1 -> record_term o w w2 b = record_term o w w1 b.
Proof. unfold record_term. by intros ->. Qed.

Lemma record_term_other o o' w w' b : o' <> o -> record_term o w w' b !! o' = b !! o'.
Proof.
  intros Hne. unfold record_term. destruct (leases w' !! NAME) as [l|].
  - destruct (String.eqb _ _); [by rewrite lookup_insert_ne|done].
  - destruct (owned_by o w); [by rewrite lookup_delete_ne|done].
Qed.

Lemma record_term_owned o w w' b : owned_by o w' = true -> is_Some (record_term o w w' b !! o).
Proof.
  unfold owned_by, record_term. destruct (leases w' !! NAME) as [l|]; [|done]. intros ->.
  rewrite lookup_insert_eq. by eexists.
Qed.

(** Unless the lease is released, a term stays. *)
Lemma record_term_keeps o w w' b :
  keeps o w w' -> is_Some (b !! o) -> is_Some (record_term o w w' b !! o).
Proof.
  intros [[El _]|[_ [El _]]] Hb.
  - rewrite (record_term_leases o w w) by done. unfold record_term, owned_by.
    destruct (leases w !! NAME) as [l|]; [|done].
    destruct (String.eqb _ _); [rewrite lookup_insert_eq; by eexists|done].
  - apply record_term_owned. unfold owned_by. rewrite El. cbn. rewrite lookup_insert_eq.
    apply String.eqb_refl.
Qed.

Lemma calm_backed w w' b : calm w w' -> terms_backed w b -> terms_backed w' b.
Proof. intros [El Hc] Hb o d Hd Hlt. rewrite El. apply Hb; [done|lia]. Qed.

Lemma backed_keeps o w w' b : keeps o w w' -> terms_backed w b -> terms_backed w' (record_term o w w' b).
Proof.
  intros [Hc|[Hg Hc]] Hb.
  - apply (calm_backed w); [done|]. rewrite (record_term_leases o w w) by apply Hc.
    intros o' d. unfold record_term, owned_by. destruct (leases w !! NAME) as [[ow ex]|] eqn:El.
    + cbn. destruct (String.eqb_spec ow o) as [->|]; [|by rewrite <- El; apply Hb].
      rewrite lookup_insert_Some. intros [[-> <-]|[_ Hd]] Hlt; [done|]. rewrite <- El. by apply Hb.
    + rewrite <- El. apply Hb.
  - apply (calm_backed (granted o w)); [done|]. rewrite (record_term_leases o w (granted o w)) by apply Hc.
    intros o' d. unfold record_term. cbn. rewrite lookup_insert_eq. cbn. rewrite String.eqb_refl.
    rewrite lookup_insert_Some. intros [[-> <-]|[Hne Hd]] Hlt; [done|].
    pose proof (Hb o' d Hd Hlt) as El. specialize (Hg _ El). cbn in Hg. by rewrite Hg in Hne.
Qed.

Lemma backed_releases o w w' b :
  releases o w w' -> terms_backed w b -> terms_backed w' (record_term o w w' b).
Proof.
  intros [Ho ->] Hb o' d. unfold record_term. cbn. rewrite lookup_delete_eq, Ho, lookup_delete_Some.
  intros [Hne Hd] Hlt. pose proof (Hb o' d Hd Hlt) as El. unfold owned_by in Ho. rewrite El in Ho.
  cbn in Ho. apply String.eqb_eq in Ho. by subst.
Qed.

(** ** The invariant *)

Definition shape (o : string) (b : terms) (t : task) : Prop :=
  match t.1 with
  | Tick => t.2 = acquiring o \/ (past_acquire o t.2 /\ is_Some (b !! o))
  | Renewal => t.2 = renewing o
  end.

Definition proc_ok (w : World) (b : terms) (o : string) (x : SchedState * list task) : Prop :=
  timers_ok ((w, x.1), x.2) /\ Forall (shape o b) x.2.

Definition cluster_ok (c : World * terms * procs) : Prop :=
  terms_backed c.1.1 c.1.2 /\ forall o, proc_ok c.1.1 c.1.2 o (c.2 o).

Lemma shape_mono o b b' t :
  (is_Some (b !! o) -> is_Some (b' !! o)) -> shape o b t -> shape o b' t.
Proof. unfold shape. intros H. destruct (t.1); [|done]. intros [Ht|[Ht Hb]]; auto. Qed.

(** A list without runs. *)
Lemma shapes_without_runs o b b' ts : runs ts = [] -> Forall (shape o b) ts -> Forall (shape o b') ts.
Proof.
  intros Hr Hs. induction Hs as [|[kd p] ts Ht _ IH]; [done|]. unfold runs in *. cbn in Hr.
  destruct (decide (kd = Tick)) as [->|Hk]; [done|]. constructor; [|by apply IH].
  by destruct kd.
Qed.

(** A new or resumed run that settled. *)
Lemma shapes_in_flight o b kd p :
  (finished p = false -> shape o b (kd, p)) -> Forall (shape o b) (in_flight kd p).
Proof. intros H. unfold in_flight. destruct (finished p); [done|]. apply Forall_singleton. auto. Qed.

(** What one turn of a process leaves: its own part of the invariant, and how the world
    moved. *)
Lemma resume_shapes o b kd p out w st q w' st' ts1 ts2 :
  timers_ok ((w, st), ts1 ++ (kd, p) :: ts2) -> Forall (shape o b) (ts1 ++ (kd, p) :: ts2) ->
  resume out p (w, st) = (q, (w', st')) ->
  (keeps o w w' \/ releases o w w') /\
  Forall (shape o (record_term o w w' b)) (ts1 ++ in_flight kd q ++ ts2).
Proof.
  intros Hok Hs E. rewrite Forall_app, Forall_cons in Hs. destruct Hs as (S1 & Sp & S2).
  assert (Hkeep : keeps o w w' -> Forall (shape o (record_term o w w' b)) (in_flight kd q) ->
    (keeps o w w' \/ releases o w w') /\
    Forall (shape o (record_term o w w' b)) (ts1 ++ in_flight kd q ++ ts2)).
  { intros Hk Hq. split; [by left|]. rewrite !Forall_app.
    split_and!; [|done|]; (eapply Forall_impl; [eassumption|]); intros t;
      by apply shape_mono, record_term_keeps. }
  unfold shape in Sp. cbn [fst snd] in Sp. destruct kd.
  - destruct Sp as [->|[[(R & f & k & -> & Hg)| ->] Hb]].
    + destruct (resume_acquiring _ _ _ _ _ _ _ E) as [Hk Hq]. apply Hkeep; [done|].
      apply shapes_in_flight. intros Hf. right. destruct Hq as [Hq|[Hq Ho]]; [congruence|].
      split; [done|by apply record_term_owned].
    + destruct (resume_cycling _ _ _ _ _ _ _ _ _ Hg E) as [Hc Hq]. apply Hkeep; [by left|].
      apply shapes_in_flight. intros _. right. split; [done|]. apply record_term_keeps; [by left|done].
    + destruct (resume_releasing _ _ _ _ _ _ _ E) as [Hc Hq]. destruct Hc as [Hc|Hr].
      * apply Hkeep; [by left|]. apply shapes_in_flight. congruence.
      * split; [by right|]. destruct Hok as (_ & _ & Hrun). cbn [snd] in Hrun.
        rewrite runs_app in Hrun. change (runs ((Tick, releasing o) :: ts2)) with (releasing o :: runs ts2) in Hrun.
        assert (runs ts1 = [] /\ runs ts2 = []) as [R1 R2].
        { destruct Hrun as [[Hrun _]|(p & b' & Hrun & _)]; destruct (runs ts1) as [|x l]; try done.
          - by injection Hrun.
          - by destruct l. }
        rewrite !Forall_app. split_and!; [by apply (shapes_without_runs o b)| |by apply (shapes_without_runs o b)].
        apply shapes_in_flight. congruence.
  - subst p. destruct (resume_renewing _ _ _ _ _ _ _ E) as [Hk Hq]. apply Hkeep; [done|].
    apply shapes_in_flight. congruence.
Qed.

Lemma local_step_shapes o c c' b :
  local_step s o c c' -> timers_ok c -> Forall (shape o b) c.2 ->
  (keeps o c.1.1 c'.1.1 \/ releases o c.1.1 c'.1.1) /\
  Forall (shape o (record_term o c.1.1 c'.1.1 b)) c'.2.
Proof.
  intros H Hok Hs.
  assert (Hsame : forall w, Forall (shape o (record_term o w w b)) c.2).
  { intros w. eapply Forall_impl; [exact Hs|]. intros t. apply shape_mono, record_term_keeps. by left. }
  destruct H as [[w st] ts|[w st] ts|[w st] ts Ht|[w st] ts Hl|kd R f k out [w st] ts1 ts2]; cbn [fst snd] in *.
  - unfold start. rewrite exec_bind, exec_gets. cbn [snd]. destruct (running st); cbn; auto using calm_keeps.
  - unfold stop. rewrite exec_bind, exec_gets. cbn [snd]. destruct (negb (running st)); cbn; auto using calm_keeps.
  - rewrite settle_run. cbn [snd fst]. destruct (_ || _); cbn [fst snd].
    + rewrite app_nil_r. auto using calm_keeps.
    + rewrite settle_after_mark. cbn [fst snd]. split; [auto using calm_keeps|]. apply Forall_app.
      split; [apply Hsame|]. apply shapes_in_flight. by left.
  - rewrite settle_renew. cbn [fst snd]. split; [auto using calm_keeps|]. apply Forall_app.
    split; [apply Hsame|]. by apply shapes_in_flight.
  - destruct (resume out (Act f k) (w, st)) as [q [w' st']] eqn:E.
    pose proof (resume_shapes o b kd (Act f k) out w st q w' st' ts1 ts2 Hok Hs E) as Hr.
    cbn [resume] in E. cbv zeta. rewrite E. exact Hr.
Qed.

Lemma process_step_ok o w w' b ps st' ts' :
  local_step s o ((w, (ps o).1), (ps o).2) ((w', st'), ts') ->
  cluster_ok (w, b, ps) -> cluster_ok (w', record_term o w w' b, <[o := (st', ts')]> ps).
Proof.
  intros H [Hb Hp]. cbn [fst snd] in *. destruct (Hp o) as [Hok Hs].
  destruct (local_step_shapes o _ _ b H Hok Hs) as [Hw Hs']. cbn [fst snd] in Hw, Hs'. split; cbn [fst snd].
  - destruct Hw as [Hw|Hw]; [by apply backed_keeps|by apply backed_releases].
  - intros o'. destruct (decide (o = o')) as [<-|Hne].
    + rewrite fn_lookup_insert. split; [|done]. exact (local_step_ok s o _ _ H Hok).
    + rewrite fn_lookup_insert_ne by done. destruct (Hp o') as [Hok' Hs0]. split.
      * by apply (timers_ok_world w).
      * eapply Forall_impl; [exact Hs0|]. intros t. apply shape_mono. by rewrite record_term_other.
Qed.

Lemma cluster_step_ok c c' : cluster_step c c' -> cluster_ok c -> cluster_ok c'.
Proof.
  intros [o w w' b ps st' ts' H|o w b ps|w w' b ps Hc]; [by apply process_step_ok|..]; intros [Hb Hp]; cbn [fst snd] in *.
  - split; [done|]. intros o'. cbn [fst snd]. destruct (decide (o = o')) as [<-|Hne].
    + rewrite fn_lookup_insert. split; [|done]. split; [done|]. split; [done|]. by left.
    + by rewrite fn_lookup_insert_ne.
  - split; [by apply (calm_backed w)|]. intros o. destruct (Hp o) as [Hok Hs]. split; [|done].
    by apply (timers_ok_world w).
Qed.

(** Nothing runs yet. *)
Definition fresh : procs := fun _ => (constructed, []).

Lemma cluster_reachable w0 c : rtc cluster_step (w0, ∅, fresh) c -> cluster_ok c.
Proof.
  assert (H0 : cluster_ok (w0, ∅, fresh)).
  { split; [intros o d; cbn; by rewrite lookup_empty|]. intros o. split; [|done].
    split; [done|]. split; [done|]. by left. }
  intros H. revert H0. induction H as [|x y z Hxy _ IH]; [done|]. intros Hx. by apply IH, (cluster_step_ok x).
Qed.

(** A run that awaits its acquisition is not in its cycle. *)
Lemma acquiring_not_in_cycle (w : World) o : ~ in_cycle o (acquiring o).
Proof.
  intros (R & f & k & E & [Hf _]). set (w1 := put Leases ∅ w).
  set (effect := fun p : proc unit => match p with Act f _ => leases (f (w1, constructed)).2.1 | _ => ∅ end).
  assert (Ee : effect (acquiring o) = effect (cycling o (Act f k))) by (by rewrite E).
  change (leases (acquire_call o w1).2 = leases (f w1).2) in Ee. rewrite (proj1 (Hf w1)) in Ee.
  unfold acquire_call in Ee. cbn in Ee. rewrite lookup_empty in Ee. cbn in Ee.
  apply (f_equal (fun m => m !! NAME)) in Ee. by rewrite lookup_insert_eq, lookup_empty in Ee.
Qed.

Lemma in_cycle_term w b ps o t :
  cluster_ok (w, b, ps) -> (Tick, t) ∈ (ps o).2 -> in_cycle o t -> is_Some (b !! o).
Proof.
  intros [_ Hp] Hin Hc. destruct (Hp o) as [_ Hs]. rewrite Forall_forall in Hs.
  specialize (Hs _ Hin). cbn in Hs. destruct Hs as [->|[_ Hb]]; [|done].
  by apply (acquiring_not_in_cycle w) in Hc.
Qed.
End Cluster.

(** ** The schedulers of this service are calm *)

(** A single operation of a cycle. *)
Ltac calm_leaf :=
  first [ done
        | apply guards_gets; apply _
        | apply guards_act; intros; repeat case_match; (split; [reflexivity|cbn; lia])
        | apply guards_modify; intros; (split; [reflexivity|cbn; lia]) ].

Ltac solve_calm := repeat first [calm_leaf | guard_split | case_match].

Section Calm.
Context `{P : Platform}.

Lemma calm_metered name p : guards calm p -> guards calm (metered name p).
Proof.
  intros Hp. unfold metered, incrementMetric, observeMetric, inc, report.
  apply guards_finally; [apply guards_catch; [done|intros e]|]; solve_calm.
Qed.

Lemma calm_transition id from to data : guards calm (transition id from to data).
Proof. unfold transition, assertTransition, find_by_id. solve_calm. Qed.

Lemma calm_transitionFromAny id from to data : guards calm (transitionFromAny id from to data).
Proof.
  unfold transitionFromAny. apply guards_bind.
  - apply guards_for_each. intros x. unfold assertTransition. solve_calm.
  - unfold find_by_id. solve_calm.
Qed.

#[global] Instance expiration_calm : CalmCycle ExpirationScheduler.
Proof.
  split; [done|]. cbn [sch_cycle ExpirationScheduler]. apply guards_bind; [calm_leaf|]. intros d.
  apply calm_metered. unfold processExpiredTransactions, findExpiredCandidates, expire_one, expire.
  solve_calm; apply calm_transition.
Qed.

#[global] Instance submission_recovery_calm : CalmCycle SubmissionRecoveryScheduler.
Proof.
  split; [done|]. apply calm_metered.
  unfold processSubmittedTransactions, findSubmittedCandidates, recover_submitted, enqueue_confirmation.
  solve_calm.
Qed.

#[global] Instance pending_recovery_calm i g f l : CalmCycle (PendingRecoveryScheduler i g f l).
Proof.
  split; [done|]. apply calm_metered.
  unfold processOrphanedPending, findOrphanedPendingCandidates, recoverOne, recover_body,
    findMatchingTransfer, adopt, fail_orphan, isEventListenerHealthy, findByTokenId,
    enqueue_confirmation, markSubmitted, markFailed.
  solve_calm; first [apply calm_transition|apply calm_transitionFromAny].
Qed.

#[global] Instance outbox_relay_calm : CalmCycle OutboxRelayScheduler.
Proof.
  split; [done|]. cbn [sch_cycle OutboxRelayScheduler]. unfold relay, claimUnpublished, markPublished.
  solve_calm.
Qed.

(** The drift sweep calls whichever adapters the process has. *)
#[global] Instance balance_drift_calm i sweep_ :
  guards calm sweep_ -> CalmCycle (BalanceDriftScheduler i sweep_).
Proof. intros H. split; [done|]. apply calm_metered. apply guards_bind; [exact H|done]. Qed.
End Calm.

(** C11: cycles of different processes exclude each other.  Take any number of processes
    with their own instance of a scheduler, over one database, under any interleaving of
    their timers and awaited calls, with calls that fail, answers that are lost, time
    that passes and processes that crash.  A process that is in its cycle was granted a
    term; as long as the term has not run out the lease row is its own; so if two
    processes are in their cycles at the same time, one of them has outlived its term. *)
Theorem cycles_exclude_each_other `{P : Platform} s `{!CalmCycle s} w0 w b ps o1 t1 :
  rtc (cluster_step s) (w0, ∅, fresh) (w, b, ps) ->
  (Tick, t1) ∈ (ps o1).2 -> in_cycle s o1 t1 ->
  (exists d, b !! o1 = Some d /\ (clock w < d -> leases w !! sch_name s = Some (mkLease o1 d))) /\
  (forall o2 t2, (Tick, t2) ∈ (ps o2).2 -> in_cycle s o2 t2 -> o1 <> o2 ->
   exists o d, (o = o1 \/ o = o2) /\ b !! o = Some d /\ d <= clock w).
Proof.
  intros H H1 C1. apply (cluster_reachable s) in H.
  destruct (in_cycle_term s _ _ _ _ _ H H1 C1) as [d1 E1].
  pose proof (proj1 H) as Hb. cbn [fst snd] in Hb. split.
  - exists d1. split; [done|]. by apply Hb.
  - intros o2 t2 H2 C2 Hne. destruct (in_cycle_term s _ _ _ _ _ H H2 C2) as [d2 E2].
    destruct (Z.le_gt_cases d1 (clock w)) as [|L1]; [exists o1, d1; auto|].
    destruct (Z.le_gt_cases d2 (clock w)) as [|L2]; [exists o2, d2; auto|].
    pose proof (Hb o1 d1 E1 ltac:(lia)) as R1. pose proof (Hb o2 d2 E2 ltac:(lia)) as R2.
    rewrite R1 in R2. by injection R2.
Qed.

Section Witness.
#[local] Existing Instance ref_platform.
Abbreviation relay_scheduler := (OutboxRelayScheduler (P:=ref_platform)).

Lemma process_turn o w b (ps : string -> SchedState * list (kind * prog (World * SchedState) err unit)) c' :
  local_step relay_scheduler o ((w, (ps o).1), (ps o).2) c' ->
  cluster_step relay_scheduler (w, b, ps)
    (c'.1.1, record_term relay_scheduler o w c'.1.1 b, <[o := (c'.1.2, c'.2)]> ps).
Proof. destruct c' as [[w' st'] ts']. apply cs_process. Qed.

(** Start, tick, and the lease is granted. *)
Lemma cycles_exclude_each_other_witness :
  exists (w : World) (b : gmap string Z) ps t,
    rtc (cluster_step relay_scheduler) (fresh_world 0 quiet, ∅, fresh) (w, b, ps) /\
    (Tick, t) ∈ (ps "a").2 /\ in_cycle relay_scheduler "a" t /\
    (exists d, b !! "a" = Some d /\ (clock w < d -> leases w !! sch_name relay_scheduler = Some (mkLease "a" d))).
Proof.
  do 3 eexists. exists (cycling relay_scheduler "a" (sch_cycle relay_scheduler)).
  eassert (H : rtc (cluster_step relay_scheduler) (fresh_world 0 quiet, ∅, fresh) (_, _, _)).
  { eapply rtc_l; [apply (process_turn "a"), ts_start|].
    eapply rtc_l; [apply (process_turn "a"), ts_tick; reflexivity|].
    eapply rtc_l; [apply (process_turn "a"), (ts_resume _ _ Tick (lifted (acquire_call relay_scheduler "a")) _ Commit _ [] [])|].
    apply rtc_refl. }
  split; [exact H|].
  match goal with |- ?A /\ ?B /\ _ => assert (H1 : A); [|assert (H2 : B)] end.
  { apply list_elem_of_singleton. reflexivity. }
  { do 3 eexists. split; [reflexivity|]. exact (cycle_calm (s:=relay_scheduler)). }
  split; [exact H1|]. split; [exact H2|].
  exact (proj1 (cycles_exclude_each_other relay_scheduler _ _ _ _ "a" _ H H1 H2)).
Defined.
End Witness.
