(* ===== verification/Worker.v ===== *)
(** * The worker process

    [src/workers/confirmation.queue.runner.ts], which starts the confirmation
    worker, the schedulers, the sampler and the indexer and shuts them down on a
    signal; the error handler of [confirmation.queue.worker.ts]; and the probe
    server of [worker-metrics.server.ts]. *)

From S2P Require Import Prelude JsString Schema Platform Reference Guarantee Metrics Addresses Envelope Encoding Json Index EventListener Sweeps Scheduler.

Definition WORKER_NAME : string := "confirmation-queue-worker".

(** [WORKER_NAMES.CONFIRMATION] *)
Definition CONFIRMATION : string := "confirmation-worker".

(** The objects and module variables of the process.  The queue worker, the Redis
    connection and the probe server are open or closed; [exited] is the argument
    of [process.exit], [exitCode] is [process.exitCode]. *)
Record Process := mkProcess {
  expirationScheduler : SchedState;
  submissionRecoveryScheduler : SchedState;
  outboxRelayScheduler : SchedState;
  pendingRecoveryScheduler : SchedState;
  balanceDriftScheduler : option SchedState;
  samplerTimer : bool;
  eventListenerWorker : EventListenerWorker;
  queueOpen : bool;
  redisOpen : bool;
  serverOpen : bool;
  ready : bool;
  shuttingDown : bool;
  exitCode : option Z;
  exited : option Z }.

Definition Expiration : lens Process SchedState :=
  mkLens expirationScheduler (fun x p => mkProcess
    x p.(submissionRecoveryScheduler) p.(outboxRelayScheduler) p.(pendingRecoveryScheduler)
    p.(balanceDriftScheduler) p.(samplerTimer) p.(eventListenerWorker) p.(queueOpen)
    p.(redisOpen) p.(serverOpen) p.(ready) p.(shuttingDown) p.(exitCode) p.(exited)).
Definition Submission : lens Process SchedState :=
  mkLens submissionRecoveryScheduler (fun x p => mkProcess
    p.(expirationScheduler) x p.(outboxRelayScheduler) p.(pendingRecoveryScheduler)
    p.(balanceDriftScheduler) p.(samplerTimer) p.(eventListenerWorker) p.(queueOpen)
    p.(redisOpen) p.(serverOpen) p.(ready) p.(shuttingDown) p.(exitCode) p.(exited)).
Definition Relay : lens Process SchedState :=
  mkLens outboxRelayScheduler (fun x p => mkProcess
    p.(expirationScheduler) p.(submissionRecoveryScheduler) x p.(pendingRecoveryScheduler)
    p.(balanceDriftScheduler) p.(samplerTimer) p.(eventListenerWorker) p.(queueOpen)
    p.(redisOpen) p.(serverOpen) p.(ready) p.(shuttingDown) p.(exitCode) p.(exited)).
Definition Pending : lens Process SchedState :=
  mkLens pendingRecoveryScheduler (fun x p => mkProcess
    p.(expirationScheduler) p.(submissionRecoveryScheduler) p.(outboxRelayScheduler) x
    p.(balanceDriftScheduler) p.(samplerTimer) p.(eventListenerWorker) p.(queueOpen)
    p.(redisOpen) p.(serverOpen) p.(ready) p.(shuttingDown) p.(exitCode) p.(exited)).
Definition Drift : lens Process (option SchedState) :=
  mkLens balanceDriftScheduler (fun x p => mkProcess
    p.(expirationScheduler) p.(submissionRecoveryScheduler) p.(outboxRelayScheduler)
    p.(pendingRecoveryScheduler) x p.(samplerTimer) p.(eventListenerWorker) p.(queueOpen)
    p.(redisOpen) p.(serverOpen) p.(ready) p.(shuttingDown) p.(exitCode) p.(exited)).
Definition Sampler : lens Process bool :=
  mkLens samplerTimer (fun x p => mkProcess
    p.(expirationScheduler) p.(submissionRecoveryScheduler) p.(outboxRelayScheduler)
    p.(pendingRecoveryScheduler) p.(balanceDriftScheduler) x p.(eventListenerWorker)
    p.(queueOpen) p.(redisOpen) p.(serverOpen) p.(ready) p.(shuttingDown) p.(exitCode)
    p.(exited)).
Definition Listener : lens Process EventListenerWorker :=
  mkLens eventListenerWorker (fun x p => mkProcess
    p.(expirationScheduler) p.(submissionRecoveryScheduler) p.(outboxRelayScheduler)
    p.(pendingRecoveryScheduler) p.(balanceDriftScheduler) p.(samplerTimer) x p.(queueOpen)
    p.(redisOpen) p.(serverOpen) p.(ready) p.(shuttingDown) p.(exitCode) p.(exited)).
Definition QueueOpen : lens Process bool :=
  mkLens queueOpen (fun x p => mkProcess
    p.(expirationScheduler) p.(submissionRecoveryScheduler) p.(outboxRelayScheduler)
    p.(pendingRecoveryScheduler) p.(balanceDriftScheduler) p.(samplerTimer)
    p.(eventListenerWorker) x p.(redisOpen) p.(serverOpen) p.(ready) p.(shuttingDown)
    p.(exitCode) p.(exited)).
Definition RedisOpen : lens Process bool :=
  mkLens redisOpen (fun x p => mkProcess
    p.(expirationScheduler) p.(submissionRecoveryScheduler) p.(outboxRelayScheduler)
    p.(pendingRecoveryScheduler) p.(balanceDriftScheduler) p.(samplerTimer)
    p.(eventListenerWorker) p.(queueOpen) x p.(serverOpen) p.(ready) p.(shuttingDown)
    p.(exitCode) p.(exited)).
Definition ServerOpen : lens Process bool :=
  mkLens serverOpen (fun x p => mkProcess
    p.(expirationScheduler) p.(submissionRecoveryScheduler) p.(outboxRelayScheduler)
    p.(pendingRecoveryScheduler) p.(balanceDriftScheduler) p.(samplerTimer)
    p.(eventListenerWorker) p.(queueOpen) p.(redisOpen) x p.(ready) p.(shuttingDown)
    p.(exitCode) p.(exited)).
Definition Ready : lens Process bool :=
  mkLens ready (fun x p => mkProcess
    p.(expirationScheduler) p.(submissionRecoveryScheduler) p.(outboxRelayScheduler)
    p.(pendingRecoveryScheduler) p.(balanceDriftScheduler) p.(samplerTimer)
    p.(eventListenerWorker) p.(queueOpen) p.(redisOpen) p.(serverOpen) x p.(shuttingDown)
    p.(exitCode) p.(exited)).
Definition ShuttingDown : lens Process bool :=
  mkLens shuttingDown (fun x p => mkProcess
    p.(expirationScheduler) p.(submissionRecoveryScheduler) p.(outboxRelayScheduler)
    p.(pendingRecoveryScheduler) p.(balanceDriftScheduler) p.(samplerTimer)
    p.(eventListenerWorker) p.(queueOpen) p.(redisOpen) p.(serverOpen) p.(ready) x
    p.(exitCode) p.(exited)).
Definition ExitCode : lens Process (option Z) :=
  mkLens exitCode (fun x p => mkProcess
    p.(expirationScheduler) p.(submissionRecoveryScheduler) p.(outboxRelayScheduler)
    p.(pendingRecoveryScheduler) p.(balanceDriftScheduler) p.(samplerTimer)
    p.(eventListenerWorker) p.(queueOpen) p.(redisOpen) p.(serverOpen) p.(ready)
    p.(shuttingDown) x p.(exited)).
Definition Exited : lens Process (option Z) :=
  mkLens exited (fun x p => mkProcess
    p.(expirationScheduler) p.(submissionRecoveryScheduler) p.(outboxRelayScheduler)
    p.(pendingRecoveryScheduler) p.(balanceDriftScheduler) p.(samplerTimer)
    p.(eventListenerWorker) p.(queueOpen) p.(redisOpen) p.(serverOpen) p.(ready)
    p.(shuttingDown) p.(exitCode) x).

(** A program of one component inside the process. *)
Fixpoint zoom {W S S' err A} (l : lens S' S) (p : prog (W * S) err A) : prog (W * S') err A :=
  match p with
  | Ret a => Ret a
  | Throw e => Throw e
  | Loc f k =>
      Loc (fun ws => let r := f (ws.1, view l ws.2) in (r.1, (r.2.1, put l r.2.2 ws.2)))
          (fun r => zoom l (k r))
  | Act f k =>
      Act (fun ws => let r := f (ws.1, view l ws.2) in (r.1, (r.2.1, put l r.2.2 ws.2)))
          (fun r => zoom l (k r))
  end.

(** The scheduler behind an optional reference. *)
Definition DriftScheduler : lens Process SchedState :=
  mkLens (fun p => default (mkSched false false false false) (balanceDriftScheduler p))
         (fun x p => put Drift (Some x) p).

Section Worker.
Context `{P : Platform}.
Abbreviation proc := (prog (World * Process) err).

Definition assign {T} (l : lens Process T) (x : T) : proc unit :=
  modify (fun wp => (wp.1, put l x wp.2)).

(** A call of a client object that awaits its remote end. *)
Definition await_close (l : lens Process bool) : proc unit :=
  act (fun wp => (inl tt, (wp.1, put l false wp.2))).

(** ** The probe server *)

Definition setWorkerReady (value : bool) : proc unit := assign Ready value.

Definition isWorkerReady : proc bool := gets (fun wp => ready wp.2).

Definition startWorkerMetricsServer : proc unit := assign ServerOpen true.

(** [server.close]: an error when it is not listening. *)
Definition stopWorkerMetricsServer : proc unit :=
  act (fun wp => if serverOpen wp.2 then (inl tt, (wp.1, put ServerOpen false wp.2))
                 else (inr (PlainError "Server is not running."), wp)).

(** The request listener: status and body.  [text] is prom-client's rendering. *)
Definition serve_probe (text : World -> string + err) (url : string) : proc (Z * string) :=
  if String.eqb url "/metrics" then
    catch (let! metrics_ := act (fun wp => (text wp.1, wp)) in Ret (200, metrics_))
          (fun _ => Ret (500, "Failed to collect metrics"))
  else if String.eqb url "/health" then
    let! up := isWorkerReady in
    Ret (if up then 200 else 503,
         of_utf8 (stringify (JsObj [("status", JsStr (if up then "UP" else "DOWN"))])))
  else Ret (404, "Not Found").

(** ** Starting *)

Definition workerReady_set (name : string) (value : Z) : proc unit :=
  lift (set workerReady [("worker_name", name)] value).

Definition balanceDriftEnabled (env : Env) : bool :=
  negb (bool_decide (env "BALANCE_DRIFT_ENABLED" = Some "false")).

Definition workersEnabled (env : Env) : bool :=
  negb (bool_decide (env "DISABLE_WORKERS" = Some "true")).

Definition idle : SchedState := mkSched false false false false.

(** The objects a start creates. *)
Definition createComponents (env : Env) : proc unit :=
  do! assign Expiration idle in
  do! assign Submission idle in
  do! assign Relay idle in
  do! assign Sampler false in
  do! assign Pending idle in
  do! assign Drift (if balanceDriftEnabled env then Some idle else None) in
  assign Listener (mkWorker false false).

(** [confirmationQueueWorker.waitUntilReady()] *)
Definition waitUntilReady : proc unit := act (fun wp => (inl tt, wp)).

(** [PendingTransactionsSampler.start]: the first sample runs as a task of its own. *)
Definition sampler_start : proc unit := assign Sampler true.

Definition sampler_stop : proc unit := assign Sampler false.

(** [balanceDriftScheduler?.m()] *)
Definition if_drift (m : prog (World * SchedState) err unit) : proc unit :=
  let! wp := gets id in
  match balanceDriftScheduler wp.2 with
  | Some _ => zoom DriftScheduler m
  | None => Ret tt
  end.

(** Starting the loop of the indexer, which then runs as a task of its own; [true]
    when [start] was rejected. *)
Definition start_listener (env : Env) (intervalMs : option Z) : proc bool :=
  let! wp := gets id in
  match worker_start intervalMs env (eventListenerWorker wp.2) with
  | inl started => do! assign Listener started in Ret false
  | inr _ => Ret true
  end.

(** [intervalMs] is [Number(process.env.EVENT_LISTENER_INTERVAL_MS ?? 5000)].  The
    handler of a rejected indexer runs when the synchronous rest is done. *)
Definition startConfirmationQueueWorker (env : Env) (intervalMs : option Z) : proc unit :=
  do! startWorkerMetricsServer in
  do! createComponents env in
  do! workerReady_set WORKER_NAME 0 in
  do! waitUntilReady in
  do! zoom Expiration start in
  do! zoom Submission start in
  do! zoom Relay start in
  do! sampler_start in
  do! zoom Pending start in
  do! if_drift start in
  let! crashed := if workersEnabled env then start_listener env intervalMs else Ret false in
  do! workerReady_set WORKER_NAME 1 in
  do! setWorkerReady true in
  if crashed then assign ExitCode (Some 1) else Ret tt.

(** ** Stopping *)

Definition process_exit (code : Z) : proc unit := assign Exited (Some code).

Definition stop_listener : proc unit :=
  modify (fun wp => (wp.1, put Listener (worker_stop (eventListenerWorker wp.2)) wp.2)).

Definition quit_redis : proc unit :=
  let! wp := gets id in
  if redisOpen wp.2 then await_close RedisOpen else Ret tt.

(** The end of a shutdown: every connection is closed, then the process exits. *)
Definition close_connections : proc unit :=
  do! await_close QueueOpen in
  do! quit_redis in
  do! stopWorkerMetricsServer in
  process_exit 0.

Definition shutdown : proc unit :=
  let! wp := gets id in
  if shuttingDown wp.2 then Ret tt
  else
    do! assign ShuttingDown true in
    catch
      (do! workerReady_set WORKER_NAME 0 in
       do! setWorkerReady false in
       do! stop_listener in
       do! sampler_stop in
       do! zoom Pending stop in
       do! zoom Expiration stop in
       do! zoom Submission stop in
       do! zoom Relay stop in
       do! if_drift stop in
       close_connections)
      (fun _ => process_exit 1).

(** [confirmationQueueWorker.on('error', ...)] *)
Definition on_worker_error : proc unit := workerReady_set CONFIRMATION 0.

(** *** The indexer as a process of its own *)

(** A rejected start ends the process. *)
Definition startEventListenerWorker (env : Env) (intervalMs : option Z) : proc unit :=
  if workersEnabled env then
    let! crashed := start_listener env intervalMs in
    if crashed then process_exit 1 else Ret tt
  else Ret tt.

Definition runner_shutdown : proc unit :=
  do! stop_listener in process_exit 0.
End Worker.

(** ** A timer belongs to a running scheduler *)
Definition sched_ok (s : SchedState) : bool := implb (timer s) (running s).
Definition sched_on (s : SchedState) : bool := running s && timer s.
Definition sched_off (s : SchedState) : bool := negb (running s) && negb (timer s).

(** A condition on every scheduler of the process. *)
Definition all_schedulers (c : SchedState -> bool) (p : Process) : bool :=
  c (expirationScheduler p) && c (submissionRecoveryScheduler p) && c (outboxRelayScheduler p)
  && c (pendingRecoveryScheduler p)
  && match balanceDriftScheduler p with Some s => c s | None => true end.

Lemma all_schedulers_spec c p :
  all_schedulers c p = true <->
  c (expirationScheduler p) = true /\ c (submissionRecoveryScheduler p) = true /\
  c (outboxRelayScheduler p) = true /\ c (pendingRecoveryScheduler p) = true /\
  forall s, balanceDriftScheduler p = Some s -> c s = true.
Proof.
  unfold all_schedulers. rewrite !andb_true_iff.
  destruct (balanceDriftScheduler p); naive_solver.
Qed.

(** What a process that serves has running. *)
Definition in_service (env : Env) (intervalMs : option Z) (p : Process) : Prop :=
  serverOpen p = true /\ all_schedulers sched_on p = true /\ samplerTimer p = true /\
  (balanceDriftScheduler p <> None <-> balanceDriftEnabled env = true) /\
  (worker_running (eventListenerWorker p) = true <->
   workersEnabled env = true /\ exists ms, intervalMs = Some ms /\ 0 <= ms).

(** A process that was taken out of service. *)
Definition out_of_service (p : Process) : Prop :=
  ready p = false /\ shuttingDown p = true /\ all_schedulers sched_off p = true /\
  samplerTimer p = false /\ worker_running (eventListenerWorker p) = false.

Section Runs.
Context `{P : Platform} `{!PlatformLaws P}.

Lemma run_assign {T} (l : lens Process T) x env w p :
  run (assign l x) env (w, p) = (inl tt, (w, put l x p), env).
Proof. done. Qed.

Lemma run_workerReady_set name v env w p :
  run (workerReady_set name v) env (w, p) =
  (inl tt, (put Metrics (SetGauge "worker_ready" [("worker_name", name)] v :: metrics w) w, p), env).
Proof. unfold workerReady_set, set, report. by accepted. Qed.

(** The scheduler in view is started or stopped; nothing else of the process
    changes. *)
Definition started (s : SchedState) : SchedState :=
  if running s then s else mkSched true (executing s) true (leaseRenewTimer s).
Definition stopped (s : SchedState) : SchedState :=
  if running s then mkSched false (executing s) false false else s.

Definition lawful (l : lens Process SchedState) : Prop :=
  (forall x p, view l (put l x p) = x) /\ (forall x y p, put l x (put l y p) = put l x p).

Lemma run_zoom_gets {A} (l : lens Process SchedState)
    (k : SchedState -> prog (World * SchedState) err A) env w p :
  run (zoom l (bind (gets snd) k)) env (w, p) =
  run (zoom l (k (view l p))) env (w, put l (view l p) p).
Proof. done. Qed.

Lemma run_zoom_on_state (l : lens Process SchedState) f env w p :
  run (zoom l (on_state f)) env (w, p) = (inl tt, (w, put l (f (view l p)) p), env).
Proof. done. Qed.

Lemma run_zoom_start (l : lens Process SchedState) env w p :
  lawful l -> run (zoom l start) env (w, p) = (inl tt, (w, put l (started (view l p)) p), env).
Proof.
  intros [H1 H2]. unfold start, started. rewrite run_zoom_gets.
  destruct (running (view l p)); [done|]. by rewrite run_zoom_on_state, H1, H2.
Qed.

Lemma run_zoom_stop (l : lens Process SchedState) env w p :
  lawful l -> run (zoom l stop) env (w, p) = (inl tt, (w, put l (stopped (view l p)) p), env).
Proof.
  intros [H1 H2]. unfold stop, stopped. rewrite run_zoom_gets.
  destruct (running (view l p)); [|done]. cbn [negb]. by rewrite run_zoom_on_state, H1, H2.
Qed.
End Runs.

Lemma lawful_Expiration : lawful Expiration. Proof. done. Qed.
Lemma lawful_Submission : lawful Submission. Proof. done. Qed.
Lemma lawful_Relay : lawful Relay. Proof. done. Qed.
Lemma lawful_Pending : lawful Pending. Proof. done. Qed.
Lemma lawful_DriftScheduler : lawful DriftScheduler. Proof. done. Qed.

Create HintDb process.
#[export] Hint Resolve lawful_Expiration lawful_Submission lawful_Relay lawful_Pending
  lawful_DriftScheduler : process.

Section Optional.
Context `{P : Platform} `{!PlatformLaws P}.

Lemma run_if_drift m f env w p :
  (forall l env w p, lawful l -> run (zoom l m) env (w, p) = (inl tt, (w, put l (f (view l p)) p), env)) ->
  run (if_drift m) env (w, p) = (inl tt, (w, put Drift (f <$> balanceDriftScheduler p) p), env).
Proof.
  intros Hm. unfold if_drift. rewrite run_bind, run_gets. cbn [snd id].
  destruct p as [e s r q [d|] sa li qu re se rd sh ec ex]; cbn [balanceDriftScheduler]; [|done].
  by rewrite Hm by auto with process.
Qed.
End Optional.

(** Runs the steps of the process that cannot fail. *)
Ltac proc_steps :=
  repeat first
    [ rewrite run_bind
    | rewrite run_assign
    | rewrite run_workerReady_set
    | rewrite run_zoom_start by auto with process
    | rewrite run_zoom_stop by auto with process
    | rewrite (run_if_drift start started) by auto using run_zoom_start
    | rewrite (run_if_drift stop stopped) by auto using run_zoom_stop
    | rewrite run_modify | rewrite run_ret | rewrite run_gets ].

Section Start.
Context `{P : Platform} `{!PlatformLaws P} (env : Env) (intervalMs : option Z).

(** The indexer of a fresh process: whether its loop was started. *)
Lemma run_start_listener e w p :
  eventListenerWorker p = mkWorker false false ->
  exists crashed l,
    run (if workersEnabled env then start_listener env intervalMs else Ret false) e (w, p) =
      (inl crashed, (w, put Listener l p), e) /\
    (worker_running l = true <->
     workersEnabled env = true /\ exists ms, intervalMs = Some ms /\ 0 <= ms).
Proof.
  intros Hl. destruct p as [? ? ? ? ? ? li ? ? ? ? ? ? ?]; cbn in Hl; subst li.
  destruct (workersEnabled env); [|by exists false, (mkWorker false false); cbn; naive_solver].
  unfold start_listener. rewrite run_bind, run_gets. cbn [id snd eventListenerWorker].
  unfold worker_start. cbn [worker_running].
  destruct intervalMs as [ms|]; [|by exists true, (mkWorker false false); cbn; naive_solver].
  destruct (Z.ltb_spec ms 0).
  - exists true, (mkWorker false false). split; [done|]. cbn. split; [done|]. intros (_ & ms' & [= <-] & ?). lia.
  - exists false, (mkWorker true false). split; [by proc_steps|]. cbn. naive_solver.
Qed.

(** Every scheduler object is new. *)
Definition fresh_process (p : Process) : Process :=
  put Listener (mkWorker false false)
    (put Drift (if balanceDriftEnabled env then Some idle else None)
       (put Pending idle (put Sampler false (put Relay idle (put Submission idle
          (put Expiration idle (put ServerOpen true p))))))).
End Start.

(** Ready means running.  However the start of a worker process goes, it reports
    ready exactly when it returned, and then the probe server, every scheduler with
    its timer, the sampler and, when enabled and its interval is valid, the indexer
    are running; if the queue could not be reached it throws, with nothing started. *)
Theorem worker_start_ready `{P : Platform} `{!PlatformLaws P} env intervalMs outs w p r w' p' rest :
  ready p = false ->
  run (startConfirmationQueueWorker env intervalMs) (faults outs) (w, p) = (r, (w', p'), rest) ->
  match r with
  | inl _ => ready p' = true /\ in_service env intervalMs p'
  | inr _ => ready p' = false /\ all_schedulers sched_off p' = true /\
             samplerTimer p' = false /\ worker_running (eventListenerWorker p') = false
  end.
Proof.
  intros Hr. unfold startConfirmationQueueWorker, startWorkerMetricsServer, createComponents.
  proc_steps. fold (fresh_process env p).
  destruct (run_read_faults (fun _ : World * Process => inl tt) outs
    (put Metrics (SetGauge "worker_ready" [("worker_name", WORKER_NAME)] 0 :: metrics w) w,
     fresh_process env p)) as (u & outs1 & E & _).
  unfold waitUntilReady. rewrite E. destruct u as [u|e].
  - unfold sampler_start, setWorkerReady. proc_steps.
    match goal with |- context [run (if workersEnabled env then _ else _) ?e (?w1, ?p1)] =>
      destruct (run_start_listener env intervalMs e w1 p1) as (crashed & l & El & Hl); [done|] end.
    rewrite El. proc_steps.
    destruct crashed; proc_steps; intros [= <- <- <- <-].
    all: (split; [done|]); unfold in_service, all_schedulers, sched_on, fresh_process;
      destruct p, (balanceDriftEnabled env); cbn; naive_solver.
  - intros [= <- <- <- <-]. unfold all_schedulers, fresh_process.
    destruct p, (balanceDriftEnabled env); cbn in *; done.
Qed.

(** ** Shutdown *)

Lemma stopped_off s : sched_ok s = true -> sched_off (stopped s) = true.
Proof. by destruct s as [[] ? [] ?]. Qed.

(** What of the process is not a connection. *)
Definition service (p : Process) :=
  (expirationScheduler p, submissionRecoveryScheduler p, outboxRelayScheduler p,
   pendingRecoveryScheduler p, balanceDriftScheduler p, samplerTimer p, eventListenerWorker p,
   ready p, shuttingDown p).

Definition disconnected (p : Process) : Prop :=
  queueOpen p = false /\ redisOpen p = false /\ serverOpen p = false.

Lemma out_of_service_proper p p' : service p' = service p -> out_of_service p -> out_of_service p'.
Proof.
  destruct p, p'. unfold service, out_of_service, all_schedulers. cbn. intros [=]. by subst.
Qed.

Section Shutdown.
Context `{P : Platform} `{!PlatformLaws P}.

Lemma run_await_close l outs w p :
  exists r p' outs', run (await_close l) (faults outs) (w, p) = (r, (w, p'), faults outs') /\
    (p' = p \/ p' = put l false p) /\ (r = inl tt -> p' = put l false p) /\
    (outs = [] -> r = inl tt /\ outs' = []).
Proof.
  destruct outs as [|o outs]; [by exists (inl tt), (put l false p), []; auto 6|].
  unfold await_close, faults. rewrite fmap_cons, run_act_cons. cbn [out interfere perform].
  destruct o as [|e|e]; eexists _, _, outs; (split; [reflexivity|]); naive_solver.
Qed.

Lemma run_stop_server outs w p :
  exists r p' outs',
    run stopWorkerMetricsServer (faults outs) (w, p) = (r, (w, p'), faults outs') /\
    (p' = p \/ p' = put ServerOpen false p) /\ (r = inl tt -> p' = put ServerOpen false p) /\
    (outs = [] -> serverOpen p = true -> r = inl tt).
Proof.
  unfold stopWorkerMetricsServer.
  destruct outs as [|o outs].
  - change (faults []) with (@nil (envstep (World * Process) err)). rewrite run_nil, exec_act.
    cbn [snd fst]. destruct (serverOpen p); eexists _, _, []; (split; [reflexivity|]); naive_solver.
  - unfold faults. rewrite fmap_cons, run_act_cons. cbn [out interfere perform id snd fst].
    destruct o as [|e|e]; cbn [perform fst snd]; destruct (serverOpen p) eqn:E; eexists _, _, outs;
      (split; [reflexivity|]); naive_solver.
Qed.

Lemma run_close_connections outs w p :
  exists r p' outs', run close_connections (faults outs) (w, p) = (r, (w, p'), faults outs') /\
    service p' = service p /\
    (r = inl tt -> exited p' = Some 0 /\ disconnected p') /\
    (outs = [] -> serverOpen p = true -> r = inl tt).
Proof.
  unfold close_connections. rewrite run_bind.
  destruct (run_await_close QueueOpen outs w p) as (r1 & p1 & outs1 & E1 & C1 & D1 & F1).
  rewrite E1. destruct r1 as [[]|e].
  2: { eexists _, _, _. split; [done|]. destruct C1 as [->| ->]; naive_solver. }
  rewrite D1 by done. clear D1 C1. unfold quit_redis. rewrite !run_bind, run_gets. cbn [id snd].
  assert (H2 : exists r2 p2 outs2,
    run (if redisOpen (put QueueOpen false p) then await_close RedisOpen else Ret tt) (faults outs1)
        (w, put QueueOpen false p) = (r2, (w, p2), faults outs2) /\
    service p2 = service p /\ serverOpen p2 = serverOpen p /\
    (r2 = inl tt -> queueOpen p2 = false /\ redisOpen p2 = false) /\
    (outs1 = [] -> r2 = inl tt /\ outs2 = [])).
  { destruct (redisOpen (put QueueOpen false p)) eqn:Er.
    - destruct (run_await_close RedisOpen outs1 w (put QueueOpen false p))
        as (r2 & p2 & outs2 & E2 & C2 & D2 & F2).
      exists r2, p2, outs2. split_and!; [done|by destruct C2 as [->| ->]..| |done].
      intros ->. by rewrite D2.
    - by exists (inl tt), (put QueueOpen false p), outs1. }
  destruct H2 as (r2 & p2 & outs2 & E2 & S2 & O2 & D2 & F2). rewrite E2. destruct r2 as [[]|e].
  2: { exists (inr e), p2, outs2. split; [done|]. split; [done|]. split; [done|].
       intros Ho _. apply F1 in Ho as [_ ->]. by destruct F2. }
  rewrite run_bind. destruct (run_stop_server outs2 w p2) as (r3 & p3 & outs3 & E3 & C3 & D3 & F3).
  rewrite E3. destruct r3 as [[]|e].
  - rewrite D3 by done. unfold process_exit. rewrite run_assign. eexists _, _, _. split; [done|].
    split; [by destruct p2|]. split; [|done]. intros _. split; [done|].
    unfold disconnected. destruct p2, (D2 eq_refl). done.
  - eexists _, _, _. split; [done|]. split; [by destruct C3 as [->| ->]|]. split; [done|].
    intros Ho Hs. apply F1 in Ho as [_ ->]. destruct F2 as [_ ->]; [done|].
    apply F3; [done|]. by rewrite O2.
Qed.
End Shutdown.

(** The connections and the probe server of a process. *)
Definition connections (p : Process) := (queueOpen p, redisOpen p, serverOpen p).

(** C27: a shutdown takes the worker down in order.  Called on a process that is not
    shutting down yet, with any of its calls failing, a shutdown first takes the process
    out of service (not ready, every scheduler, the sampler and the indexer stopped)
    with the queue, Redis and the probe server as they were; only then it closes them,
    and it ends with the process still out of service and its exit requested: with
    code 0 only when all three are closed, which is what happens when no call fails
    and the probe server was listening, and with code 1 otherwise. *)
Theorem worker_shutdown `{P : Platform} `{!PlatformLaws P} outs w p :
  shuttingDown p = false -> all_schedulers sched_ok p = true ->
  worker_stopping (eventListenerWorker p) = false ->
  exists w1 p1 code w' p' rest,
    run shutdown (faults outs) (w, p) =
      run (catch close_connections (fun _ => process_exit 1)) (faults outs) (w1, p1) /\
    out_of_service p1 /\ connections p1 = connections p /\ exited p1 = exited p /\
    run shutdown (faults outs) (w, p) = (inl tt, (w', p'), rest) /\
    out_of_service p' /\ exited p' = Some code /\ (code = 0 \/ code = 1) /\
    (code = 0 -> disconnected p') /\
    (outs = [] -> serverOpen p = true -> code = 0).
Proof.
  intros Hs Hok Hl. unfold shutdown. rewrite run_bind, run_gets. cbn [id snd]. rewrite Hs.
  proc_steps. rewrite run_catch. unfold setWorkerReady, stop_listener, sampler_stop. proc_steps.
  match goal with |- context [run close_connections _ (?w1, ?p1)] =>
    exists w1, p1; rewrite !run_catch;
    destruct (run_close_connections outs w1 p1) as (r & p2 & outs2 & E & S2 & D2 & F2);
    assert (H1 : out_of_service p1 /\ connections p1 = connections p /\ exited p1 = exited p)
  end.
  { apply all_schedulers_spec in Hok as (? & ? & ? & ? & Hd).
    destruct p as [e s q pe d sa [run_ stop_] qu re se rd sh ec ex]. cbn in *. subst stop_.
    split; [|done]. unfold out_of_service. rewrite all_schedulers_spec. cbn.
    split_and!; auto using stopped_off; [|by destruct run_].
    intros s'. destruct d as [d|]; [|done]. intros [= <-]. auto using stopped_off. }
  destruct H1 as (H1 & H1s & H1x). pose proof (out_of_service_proper _ _ S2 H1) as H2. rewrite E.
  destruct r as [[]|e].
  - destruct (D2 eq_refl) as [Hx Hc]. exists 0. eexists _, p2, _. split_and!; try done. by left.
  - exists 1. eexists _, (put Exited (Some 1) p2), _. split; [done|].
    do 3 (split; [done|]). split; [reflexivity|].
    split_and!; [by destruct p2|done|by right|done|].
    intros Ho Hse. discriminate F2; [done|]. exact Hse.
Qed.

(** ** The readiness gauge *)

Definition ready_gauge `{ChainNodes} (name : string) (w : World) : option Z :=
  gauge_value "worker_ready" [("worker_name", name)] (metrics w).

Section Gauge.
Context `{P : Platform} `{!PlatformLaws P}.

(** Steps that leave the series of the job handler alone. *)
Definition keeps_series (wp wp' : World * Process) : Prop :=
  ready_gauge CONFIRMATION wp'.1 = ready_gauge CONFIRMATION wp.1.

#[export] Instance keeps_series_preorder : PreOrder keeps_series.
Proof. split; [by intros ?|intros ? ? ? H1 H2; unfold keeps_series in *; congruence]. Qed.

Lemma keeps_assign {T} (l : lens Process T) x : guards keeps_series (assign l x).
Proof. by apply guards_modify. Qed.

Lemma keeps_gauge v : guards keeps_series (workerReady_set WORKER_NAME v).
Proof.
  unfold workerReady_set, set, report. destruct (prom_accepts _ _); [|done].
  split; [|done]. intros [w p]. done.
Qed.

(** The programs of a scheduler do not touch the world here. *)
Lemma keeps_zoom {A} (l : lens Process SchedState) (m : prog (World * SchedState) err A) :
  guards (fun a b => b.1 = a.1) m -> guards keeps_series (zoom l m).
Proof.
  induction m as [a|e|R f k IH|R f k IH]; [done..| |]; intros [Hf Hk];
    (split; [|intros r; by apply IH]); intros [w p]; unfold keeps_series; cbn [fst snd];
    by rewrite Hf.
Qed.

Lemma keeps_start l : guards keeps_series (zoom l start).
Proof.
  apply keeps_zoom, guards_bind; [by split|]. intros s.
  destruct (running s); [done|by apply guards_modify].
Qed.

Lemma keeps_stop l : guards keeps_series (zoom l stop).
Proof.
  apply keeps_zoom, guards_bind; [by split|]. intros s.
  destruct (running s); [by apply guards_modify|done].
Qed.

Lemma keeps_if_drift m :
  guards keeps_series (zoom DriftScheduler m) -> guards keeps_series (if_drift m).
Proof.
  intros Hm. apply guards_bind; [apply guards_gets; apply _|]. intros wp.
  by destruct (balanceDriftScheduler wp.2).
Qed.

Lemma keeps_await l : guards keeps_series (await_close l).
Proof. by apply guards_act. Qed.

Create HintDb gauge.
#[local] Hint Resolve keeps_assign keeps_gauge keeps_start keeps_stop keeps_if_drift keeps_await : gauge.

#[local] Ltac keep_step :=
  first [ solve [auto with gauge]
        | apply guards_catch; [|intros ?]
        | apply guards_bind; [|intros ?]
        | apply guards_gets; apply _
        | by apply guards_modify
        | by apply guards_act
        | match goal with |- guards _ (if ?b then _ else _) => destruct b end
        | done ].

Lemma keeps_startConfirmationQueueWorker env intervalMs :
  guards keeps_series (startConfirmationQueueWorker env intervalMs).
Proof.
  unfold startConfirmationQueueWorker, startWorkerMetricsServer, createComponents, sampler_start,
    setWorkerReady.
  unfold waitUntilReady, start_listener. repeat keep_step.
  destruct (worker_start _ _ _); repeat keep_step.
Qed.

Lemma keeps_shutdown : guards keeps_series shutdown.
Proof.
  unfold shutdown, setWorkerReady, stop_listener, sampler_stop, close_connections, quit_redis,
    process_exit.
  unfold stopWorkerMetricsServer. repeat keep_step.
  all: apply guards_act; intros [w p]; cbn [snd]; by destruct (serverOpen p).
Qed.
End Gauge.

(** Once the queue worker reported an error, the series the alert watches stays 0: no
    start and no shutdown sets it again. *)
Lemma worker_error_sticks `{P : Platform} `{!PlatformLaws P} env intervalMs outs w p :
  let after := (run on_worker_error [] (w, p)).1.2 in
  ready_gauge CONFIRMATION after.1 = Some 0 /\
  ready_gauge CONFIRMATION
    (run (startConfirmationQueueWorker env intervalMs) (faults outs) after).1.2.1 = Some 0 /\
  ready_gauge CONFIRMATION (run shutdown (faults outs) after).1.2.1 = Some 0.
Proof.
  intros after.
  assert (H0 : ready_gauge CONFIRMATION after.1 = Some 0).
  { subst after. unfold on_worker_error. by rewrite run_workerReady_set. }
  assert (Hf : Forall (fun s : envstep (World * Process) err =>
                 forall wp, keeps_series wp (interfere s wp)) (faults outs)).
  { unfold faults. apply Forall_fmap, Forall_true. done. }
  split; [done|]. rewrite <- H0.
  split; apply (guards_run keeps_series); auto using keeps_startConfirmationQueueWorker, keeps_shutdown.
Qed.

(** The standalone indexer: a shutdown leaves no loop behind and exits with 0; an
    interval that is not a number (or negative) ends the process at the start. *)
Lemma runner_life `{P : Platform} env intervalMs w p :
  (worker_stopping (eventListenerWorker p) = false ->
   let p' := (exec runner_shutdown (w, p)).2.2 in
   worker_running (eventListenerWorker p') = false /\ exited p' = Some 0) /\
  (workersEnabled env = true -> (forall ms, intervalMs = Some ms -> ms < 0) ->
   exited (exec (startEventListenerWorker env intervalMs) (w, p)).2.2 = Some 1).
Proof.
  split.
  - intros H. unfold runner_shutdown, stop_listener, process_exit, assign. rewrite exec_bind, !exec_modify.
    cbn. unfold worker_stop. rewrite H, orb_false_r. split; [|done].
    by destruct (worker_running (eventListenerWorker p)) eqn:E.
  - intros He Hi. unfold startEventListenerWorker, start_listener. rewrite He, exec_bind.
    rewrite exec_bind, exec_gets. unfold worker_start, id. cbn [snd].
    destruct (worker_running _); [done|]. destruct intervalMs as [ms|]; [|done].
    destruct (Z.ltb_spec ms 0) as [_|H]; [done|]. specialize (Hi ms eq_refl). lia.
Qed.

Section Witness.
#[local] Existing Instance ref_platform.
#[local] Existing Instance ref_platform_laws.

Definition no_env : Env := fun _ => None.

(** A process that has just been loaded, connected to its queue. *)
Definition loaded : Process :=
  mkProcess idle idle idle idle None false (mkWorker false false) true true false false false None None.

Abbreviation boot :=
  (run (startConfirmationQueueWorker no_env (Some 5000)) (faults []) (fresh_world 0 quiet, loaded)).

Lemma boot_returns : boot.1.1 = inl tt.
Proof. vm_compute. reflexivity. Qed.

Lemma worker_start_ready_witness : exists w' p' rest,
  boot = (inl tt, (w', p'), rest) /\ ready p' = true /\ in_service no_env (Some 5000) p'.
Proof.
  pose proof boot_returns as E.
  match type of E with (?b.1.1 = _) => destruct b as [[r [w' p']] rest] eqn:R end.
  cbn [fst] in E. subst r.
  exists w', p', rest. split; [reflexivity|].
  exact (worker_start_ready (P:=ref_platform) no_env (Some 5000) [] (fresh_world 0 quiet) loaded
           (inl tt) w' p' rest eq_refl R).
Defined.

(** A process in service. *)
Definition serving : Process :=
  let on := mkSched true false true false in
  mkProcess on on on on (Some on) true (mkWorker true false) true true true true false None None.

Lemma worker_shutdown_witness : exists w' p' rest,
  run shutdown (faults []) (fresh_world 0 quiet, serving) = (inl tt, (w', p'), rest) /\
  out_of_service p' /\ exited p' = Some 0.
Proof.
  destruct (worker_shutdown (P:=ref_platform) [] (fresh_world 0 quiet) serving)
    as (w1 & p1 & code & w' & p' & rest & _ & _ & _ & _ & E & Ho & Hx & _ & _ & H0);
    [reflexivity..|].
  exists w', p', rest. rewrite H0 in Hx by reflexivity. split; [exact E|]. split; [exact Ho|exact Hx].
Defined.

(** A worker whose indexer was refused its interval still reports ready. *)
Example ready_without_indexer :
  let p := (run (startConfirmationQueueWorker no_env None) (faults []) (fresh_world 0 quiet, loaded)).1.2.2 in
  ready p = true /\ worker_running (eventListenerWorker p) = false /\ exitCode p = Some 1.
Proof. vm_compute. done. Qed.
End Witness.
