(* ===== verification/Registry.v ===== *)
(** * The metrics registry

    [registerMetric] of [src/observability/metrics.ts], the modules of
    [src/observability] and [src/metrics] that register their metrics when they are
    loaded, and the scrape endpoint of [src/api/routes/metrics.route.ts].  A module that
    registers a name twice throws at load time, which ends the process before it
    serves anything. *)

From S2P Require Import Prelude JsString Schema Platform Reference Guarantee Metrics Validators Wire Http Observability Scheduler Worker.

(** The registry: its metrics by name. *)
Abbreviation registry := (gmap string Metric).

(** prom-client refuses a metric when another object has its name. *)
Definition registerMetric (m : Metric) : prog registry err Metric :=
  let! known := gets (fun r : registry => r !! metric_name m) in
  match known with
  | Some _ =>
      Throw (PlainError ("A metric with the name " +:+ metric_name m +:+ " has already been registered."))
  | None => do! modify (fun r : registry => <[metric_name m := m]> r) in Ret m
  end.

(** ** The modules *)
Inductive metrics_module :=
| transaction_metrics | rpc_metrics | worker_metrics | health_metrics | http_metrics
| reconciliation_metrics | event_listener_metrics.

#[global] Instance metrics_module_eq_dec : EqDecision metrics_module.
Proof. solve_decision. Defined.

Definition transaction_declared : list Metric :=
  [transactionsCreatedTotal; transactionsSubmittedTotal; transactionsConfirmedTotal;
   transactionsFailedTotal; transactionsRevertedTotal; transactionSubmissionDurationSeconds;
   transactionConfirmationDurationSeconds].
Definition rpc_declared : list Metric :=
  [rpcRequestsTotal; rpcFailuresTotal; rpcRetriesTotal; rpcDurationSeconds].
Definition worker_declared : list Metric :=
  [workerCyclesTotal; workerFailuresTotal; workerDurationSeconds; workerReady;
   confirmationWorkerPendingTransactions].
Definition health_declared : list Metric := [deploymentInfo].
Definition http_declared : list Metric := [httpRequestsTotal; httpRequestDurationSeconds].
Definition reconciliation_declared : list Metric :=
  [balanceReconciliationSnapshots; balanceReconciliationLastSweepTimestamp].
Definition event_listener_declared : list Metric :=
  [eventListenerCyclesTotal; eventListenerFailuresTotal; eventListenerEventsProcessedTotal;
   eventListenerEventsSkippedTotal; eventListenerDuration; eventListenerLagBlocks].

Definition declares (m : metrics_module) : list Metric :=
  match m with
  | transaction_metrics => transaction_declared
  | rpc_metrics => rpc_declared
  | worker_metrics => worker_declared
  | health_metrics => health_declared
  | http_metrics => http_declared
  | reconciliation_metrics => reconciliation_declared
  | event_listener_metrics => event_listener_declared
  end.

(** Loading modules, each once, in the order their imports are first reached. *)
Definition load_modules (ms : list metrics_module) : prog registry err unit :=
  for_each ms (fun m => for_each (declares m) (fun x => do! registerMetric x in Ret tt)).

(** ** Loading succeeds *)
Definition names (ms : list metrics_module) : list string := metric_name <$> (ms ≫= declares).

Lemma register_all (l : list Metric) r :
  NoDup (metric_name <$> l) -> (forall x, x ∈ l -> r !! metric_name x = None) ->
  exists r', exec (for_each l (fun x => do! registerMetric x in Ret tt)) r = (inl tt, r') /\
    (forall x, x ∈ l -> r' !! metric_name x = Some x) /\
    (forall k, k ∉ metric_name <$> l -> r' !! k = r !! k).
Proof.
  revert r. induction l as [|m l IH]; intros r Hnd Hfree.
  - exists r. split; [done|]. split; [|done]. intros x Hx. by apply not_elem_of_nil in Hx.
  - rewrite fmap_cons in Hnd. apply NoDup_cons in Hnd as [Hm Hnd].
    destruct (IH (<[metric_name m := m]> r) Hnd) as (r' & E & Hin & Hout).
    { intros x Hx. rewrite lookup_insert_ne; [apply Hfree; by right|]. intros Heq. apply Hm.
      rewrite Heq. by apply list_elem_of_fmap_2. }
    exists r'. rewrite exec_for_each_cons, exec_bind. unfold registerMetric. rewrite exec_bind, exec_gets.
    rewrite (Hfree m) by left. split; [exact E|]. split.
    + intros x [->|Hx]%elem_of_cons; [|by apply Hin]. rewrite Hout by done. apply lookup_insert_eq.
    + intros k Hk. rewrite fmap_cons, not_elem_of_cons in Hk. rewrite Hout by apply Hk.
      rewrite lookup_insert_ne; [done|]. by intros <-; destruct Hk.
Qed.

Lemma exec_for_each_app {W X} (l1 l2 : list X) (body : X -> prog W err unit) w :
  exec (for_each (l1 ++ l2) body) w =
  match exec (for_each l1 body) w with
  | (inl _, w') => exec (for_each l2 body) w'
  | (inr e, w') => (inr e, w')
  end.
Proof.
  revert w. induction l1 as [|x l1 IH]; intros w; [done|]. cbn [app]. rewrite !exec_for_each_cons.
  destruct (exec (body x) w) as [[[]|e] w1]; [apply IH|done].
Qed.

Lemma load_modules_flat ms r :
  exec (load_modules ms) r =
  exec (for_each (ms ≫= declares) (fun x => do! registerMetric x in Ret tt)) r.
Proof.
  revert r. induction ms as [|m ms IH]; intros r; [done|]. cbn [mbind list_bind].
  unfold load_modules in *. rewrite exec_for_each_cons, exec_for_each_app.
  destruct (exec (for_each (declares m) _) r) as [[[]|e] r1]; [apply IH|done].
Qed.

Definition all_modules : list metrics_module :=
  [transaction_metrics; rpc_metrics; worker_metrics; health_metrics; http_metrics;
   reconciliation_metrics; event_listener_metrics].

Lemma names_distinct : NoDup (names all_modules).
Proof. apply (bool_decide_unpack _). vm_compute. exact I. Qed.

Lemma names_of_modules ms : NoDup ms -> NoDup (names ms).
Proof.
  intros Hnd. assert (Hs : ms ⊆+ all_modules).
  { apply NoDup_submseteq; [done|]. intros m _. destruct m; set_solver. }
  apply submseteq_Permutation in Hs as [rest Hp]. pose proof names_distinct as H.
  unfold names in *. rewrite Hp, bind_app, fmap_app in H. by apply NoDup_app in H as [H _].
Qed.

(** A process loads its modules.  [defaults] is what [collectDefaultMetrics] registered
    before, under names of its own.  Whichever modules are loaded, and in whichever order
    the imports reach them, no registration throws, and the registry then has exactly the
    defaults and the metrics of these modules, each under its own name. *)
Theorem modules_load ms (defaults : registry) :
  NoDup ms -> (forall k, k ∈ names ms -> defaults !! k = None) ->
  exists r, exec (load_modules ms) defaults = (inl tt, r) /\
    (forall m x, m ∈ ms -> x ∈ declares m -> r !! metric_name x = Some x) /\
    (forall k, k ∉ names ms -> r !! k = defaults !! k).
Proof.
  intros Hnd Hd. destruct (register_all (ms ≫= declares) defaults) as (r & E & Hin & Hout).
  - by apply names_of_modules.
  - intros x Hx. apply Hd. by apply list_elem_of_fmap_2.
  - exists r. rewrite load_modules_flat. split; [done|]. split; [|done].
    intros m x Hm Hx. apply Hin, list_elem_of_bind. by exists m.
Qed.

(** ** The scrape *)
Section Scrape.
Context `{P : Platform}.

Definition safeObserve (m : Metric) (labels : option (list (string * string))) : prog' unit :=
  catch (report m (default [] labels) (Observe (metric_name m) (default [] labels))) (fun _ => Ret tt).

(** prom-client's rendering of the registry and its content type. *)
Context (text : World -> string + err) (contentType : string).

Definition metricsText : prog' string := act (fun w => (text w, w)).

(** The handler of [GET /metrics]: status, content type and body; an error goes to the
    error handler of the API. *)
Definition metricsRoute : prog' ((Z * string * string) + Response) :=
  catch (let! body := metricsText in Ret (inl (200, contentType, body)))
    (fun e => Ret (inr (error_handler e))).

(** Both processes serve the registry, without side effects: the same text with 200 if it
    can be rendered; otherwise the API answers as for any error of its handlers, and the
    worker with 500. *)
Lemma scrape w p :
  let api := exec metricsRoute w in
  let worker := exec (serve_probe text "/metrics") (w, p) in
  api.2 = w /\ worker.2 = (w, p) /\
  match text w with
  | inl t => api.1 = inl (inl (200, contentType, t)) /\ worker.1 = inl (200, t)
  | inr e =>
      api.1 = inl (inr (error_handler e)) /\ worker.1 = inl (500, "Failed to collect metrics")
  end.
Proof.
  unfold metricsRoute, metricsText, serve_probe. cbn [String.eqb Ascii.eqb Bool.eqb].
  rewrite !exec_catch, !exec_bind, !exec_act. cbn [fst snd]. by destruct (text w).
Qed.
End Scrape.
