(* ===== verification/Lifecycle.v ===== *)
(** * Processes: start, signals and exit

    The entry points of the processes: [src/observability/otel-preload.ts], which each
    of them imports first, [src/api/server.ts] with the assembly of [src/api/app.ts],
    and the signal handlers [src/workers/confirmation.queue.runner.ts] installs.  A
    process is a Node.js host: an event loop that resumes what awaits, delivers signals
    to the listeners registered for them, and ends when it is told to, when a rejection
    is not handled, or by a signal nobody listens to. *)

From S2P Require Import Prelude JsString Double Schema Addresses Platform Reference Guarantee Metrics Config Validators Wire Http Observability Scheduler Timers Worker.

(** ** The host *)

Inductive signal := SIGINT | SIGTERM.

#[global] Instance signal_eq_dec : EqDecision signal.
Proof. solve_decision. Defined.

Definition signo (s : signal) : Z := match s with SIGINT => 2 | SIGTERM => 15 end.

(** The listeners a program registers: the hook of the tracing SDK, and its own. *)
Inductive hook := TracingShutdown | ProgramShutdown.

#[global] Instance hook_eq_dec : EqDecision hook.
Proof. solve_decision. Defined.

(** The tracing SDK: not started, running, or shut down. *)
Inductive Sdk := SdkOff | SdkRunning | SdkStopped.

(** [listeners] in the order of their registration, each with the [once] flag;
    [ended] is the exit status of a process that is no more. *)
Record Host (S : Type) := mkHost {
  app : S; tracing : Sdk; listeners : list (signal * bool * hook); ended : option Z }.
Arguments mkHost {S}.
Arguments app {S}.
Arguments tracing {S}.
Arguments listeners {S}.
Arguments ended {S}.

Section Host.
Context {S : Type}.
Abbreviation host := (Host S).
Abbreviation task := (prog host err unit).

Definition App : lens host S :=
  mkLens app (fun x h => mkHost x (tracing h) (listeners h) (ended h)).
Definition Tracing : lens host Sdk :=
  mkLens tracing (fun x h => mkHost (app h) x (listeners h) (ended h)).
Definition Listeners : lens host (list (signal * bool * hook)) :=
  mkLens listeners (fun x h => mkHost (app h) (tracing h) x (ended h)).

(** The first exit counts. *)
Definition halt (code : Z) (h : host) : host :=
  mkHost (app h) (tracing h) (listeners h) (Some (default code (ended h))).

(** [process.exit(code)]; it is the last statement wherever it is called. *)
Definition process_exit (code : Z) : task := modify (halt code).

(** [process.on(s, k)] and [process.once(s, k)] *)
Definition process_on (s : signal) (k : hook) : task :=
  modify (fun h => put Listeners (listeners h ++ [(s, false, k)]) h).
Definition process_once (s : signal) (k : hook) : task :=
  modify (fun h => put Listeners (listeners h ++ [(s, true, k)]) h).

(** ** The event loop *)

(** A task up to its next await; a rejection nobody handles ends the process. *)
Definition land (p : task) (h : host) : host * list task :=
  match settle p h with
  | (Ret _, h') => (h', [])
  | (Throw _, h') => (halt 1 h', [])
  | (p', h') => (h', [p'])
  end.

Definition launch (c : host * list task) (p : task) : host * list task :=
  match ended c.1 with
  | Some _ => c
  | None => let r := land p c.1 in (r.1, c.2 ++ r.2)
  end.

Definition hears (s : signal) (l : signal * bool * hook) : bool := bool_decide (l.1.1 = s).

(** A listener registered with [once] is gone when its signal has come. *)
Definition spent (s : signal) (l : signal * bool * hook) : bool := hears s l && l.1.2.

Context (handler : hook -> task).

(** A signal nobody listens to has its default effect; otherwise the listeners run,
    in order. *)
Definition deliver (s : signal) (c : host * list task) : host * list task :=
  let heard := List.filter (hears s) (listeners c.1) in
  match heard with
  | [] => (halt (128 + signo s) c.1, c.2)
  | _ =>
      fold_left launch (map (fun l => handler l.2) heard)
        (put Listeners (List.filter (fun l => negb (spent s l)) (listeners c.1)) c.1, c.2)
  end.

Inductive turn : host * list task -> host * list task -> Prop :=
| turn_signal s c : ended c.1 = None -> turn c (deliver s c)
| turn_resume {R} (f : host -> (R + err) * host) k o h ts1 ts2 :
    ended h = None ->
    turn (h, ts1 ++ Act f k :: ts2)
      (let rw := perform o f h in
       let r := land (k rw.1) rw.2 in
       (r.1, ts1 ++ r.2 ++ ts2)).
End Host.

(** A program of a part of the host's state. *)
Fixpoint inside {S T A} (l : lens S T) (p : prog T err A) : prog S err A :=
  match p with
  | Ret a => Ret a
  | Throw e => Throw e
  | Loc f k =>
      Loc (fun s => let r := f (view l s) in (r.1, put l r.2 s)) (fun r => inside l (k r))
  | Act f k =>
      Act (fun s => let r := f (view l s) in (r.1, put l r.2 s)) (fun r => inside l (k r))
  end.

(** ** otel-preload.ts *)

Record SdkConfig := mkSdkConfig {
  service_name : string; service_version : string; deployment_environment : string;
  traces_url : string }.

Section Preload.
Context (env : Env).

Definition enabled : bool :=
  String.eqb
    (default (if bool_decide (env "NODE_ENV" = Some "test") then "false" else "true")
             (env "OTEL_TRACES_ENABLED"))
    "true".

(** [process.env.OTEL_EXPORTER_OTLP_ENDPOINT || 'http://localhost:4318'] *)
Definition endpoint_ : string :=
  if falsy (env "OTEL_EXPORTER_OTLP_ENDPOINT") then "http://localhost:4318"
  else default "" (env "OTEL_EXPORTER_OTLP_ENDPOINT").

Definition sdk_config : SdkConfig :=
  mkSdkConfig (default "blockchain-transaction-simulator" (env "OTEL_SERVICE_NAME"))
    (default "unknown" (env "APP_VERSION")) (default "development" (env "NODE_ENV"))
    (endpoint_ +:+ "/v1/traces").

(** [new NodeSDK(...)] and [sdk.start()] *)
Context (sdk_start : SdkConfig -> unit + err).

Definition preload {S} : prog (Host S) err unit :=
  if enabled then
    catch
      (do! rethrow (sdk_start sdk_config) in
       do! modify (put Tracing SdkRunning) in
       do! process_once SIGTERM TracingShutdown in
       process_once SIGINT TracingShutdown)
      (fun _ => Ret tt)
  else Ret tt.
End Preload.

(** [sdk.shutdown().catch(...)] *)
Definition tracing_shutdown {S} : prog (Host S) err unit :=
  catch (act (fun h => (inl tt, put Tracing SdkStopped h))) (fun _ => Ret tt).

(** ** The API process *)

(** A Fastify instance: the routes it knows, by method and URL, and the port it
    listens on. *)
Record Server := mkServer { routes : list (string * string); listening : option double }.

(** A plugin with its prefix: the routes it registers, as method and path.  The
    decorating plugins (hooks, JWT, Swagger) register none of the API's. *)
Definition plugin : Type := string * list (string * string).

Definition plugins : list plugin :=
  [("", []);                                                       (* observabilityPlugin *)
   ("", []);                                                       (* swagger *)
   ("", []);                                                       (* jwt *)
   (Observability.API_PREFIX, [("GET", "/health"); ("GET", "/ready")]);
   (Observability.API_PREFIX +:+ "/tenants", [("POST", "/")]);
   (Observability.API_PREFIX +:+ "/tenants/me/api-keys", [("POST", "/"); ("GET", "/"); ("DELETE", "/:id")]);
   (Observability.API_PREFIX +:+ "/audit-logs", [("GET", "/")]);
   (Observability.API_PREFIX +:+ "/wallets",
    [("GET", "/me"); ("GET", "/"); ("GET", "/:id"); ("POST", "/"); ("POST", "/challenge");
     ("POST", "/custodial"); ("GET", "/:id/balances")]);
   (Observability.API_PREFIX +:+ "/tokens",
    [("POST", "/"); ("GET", "/"); ("GET", "/:id"); ("POST", "/:id/mint");
     ("GET", "/:tokenId/balance/:walletId"); ("GET", "/:tokenId/balance/:walletId/reconcile")]);
   (Observability.API_PREFIX +:+ "/transactions", [("POST", "/"); ("GET", "/"); ("GET", "/:id")]);
   (Observability.API_PREFIX +:+ "/auth", [("POST", "/register"); ("POST", "/login"); ("POST", "/refresh")]);
   (Observability.API_PREFIX +:+ "/metrics", [("GET", "/")]);
   ("/docs", [])].                                                 (* swaggerUI *)

(** The URLs of a route: the root of a prefix is served with and without its slash. *)
Definition urls (prefix path : string) : list string :=
  if String.eqb path "/" then [prefix; prefix +:+ "/"] else [prefix +:+ path].

(** Fastify exposes a HEAD route with every GET route. *)
Definition exposed (method : string) : list string :=
  if String.eqb method "GET" then ["GET"; "HEAD"] else [method].

Definition routes_of (p : plugin) : list (string * string) :=
  flat_map (fun r => flat_map (fun m => map (pair m) (urls p.1 r.2)) (exposed r.1)) p.2.

(** Fastify refuses a route it already has. *)
Fixpoint add_routes (l known : list (string * string)) : list (string * string) + err :=
  match l with
  | [] => inl known
  | r :: l' =>
      if bool_decide (r ∈ known) then inr (PlainError "Method already declared for route")
      else add_routes l' (known ++ [r])
  end.

Section Api.
Context `{P : Platform} (env : Env).
Abbreviation api := (World * Server)%type.
Abbreviation host := (Host api).

Definition Db : lens api World := mkLens fst (fun w a => (w, a.2)).

(** [await app.register(plugin, { prefix })] *)
Definition register_plugin (p : plugin) (h : host) : (unit + err) * host :=
  match add_routes (routes_of p) (routes (app h).2) with
  | inl l => (inl tt, put App ((app h).1, mkServer l (listening (app h).2)) h)
  | inr e => (inr e, h)
  end.

Definition register (p : plugin) : prog host err unit := act (register_plugin p).

Definition buildApp : prog host err unit :=
  do! modify (fun h : host => put App ((app h).1, mkServer [] None) h) in
  do! inside App (inside Db (initializeDeploymentMetrics env)) in
  for_each plugins register.

(** [app.listen({ port, host })] and [app.close()] *)
Definition listen (port : double) : prog host err unit :=
  act (fun h => (inl tt, put App ((app h).1, mkServer (routes (app h).2) (Some port)) h)).
Definition close : prog host err unit :=
  act (fun h => (inl tt, put App ((app h).1, mkServer (routes (app h).2) None) h)).

Definition listen_for_signals (port : double) : prog host err unit :=
  catch
    (do! listen port in
     do! process_on SIGTERM ProgramShutdown in
     process_on SIGINT ProgramShutdown)
    (fun _ => process_exit 1).

(** [port] is [env.PORT]. *)
Definition start (port : double) : prog host err unit :=
  do! buildApp in
  listen_for_signals port.

Definition api_shutdown : prog host err unit :=
  do! close in process_exit 0.

Definition api_handler (k : hook) : prog host err unit :=
  match k with TracingShutdown => tracing_shutdown | ProgramShutdown => api_shutdown end.

(** A process that was just loaded with [w] as its surroundings, and the synchronous
    part of its entry point: the imports, then [start()]. *)
Definition loaded_host (w : World) : host := mkHost (w, mkServer [] None) SdkOff [] None.

Definition api_boot (sdk_start : SdkConfig -> unit + err) (port : double) (w : World)
  : host * list (prog host err unit) :=
  fold_left launch [preload env sdk_start; start port] (loaded_host w, []).
End Api.

(** ** The worker process *)

Section WorkerHost.
Context `{P : Platform} (env : Env) (intervalMs : option Z).
Abbreviation host := (Host (World * Process)).

(** What the runner does with a rejected start: the process ends. *)
Definition worker_main : prog host err unit :=
  catch
    (do! inside App (startConfirmationQueueWorker env intervalMs) in
     do! process_once SIGINT ProgramShutdown in
     process_once SIGTERM ProgramShutdown)
    (fun _ => process_exit 1).

(** [void shutdown(signal)]; [process.exit] is its last statement. *)
Definition worker_shutdown_hook : prog host err unit :=
  do! inside App Worker.shutdown in
  let! code := gets (fun h : host => exited (app h).2) in
  match code with Some c => process_exit c | None => Ret tt end.

Definition worker_handler (k : hook) : prog host err unit :=
  match k with TracingShutdown => tracing_shutdown | ProgramShutdown => worker_shutdown_hook end.

Definition worker_boot (sdk_start : SdkConfig -> unit + err) (w : World) (p : Process)
  : host * list (prog host err unit) :=
  fold_left launch [preload env sdk_start; worker_main] (mkHost (w, p) SdkOff [] None, []).
End WorkerHost.

(** ** The route table *)

(** No plugin registers a route another one has: the assembly is not refused, and the
    table holds the routes of every resource of the API. *)
Lemma route_table :
  exists l, add_routes (flat_map routes_of plugins) [] = inl l /\
    l = flat_map routes_of plugins /\ (list_to_set l : gset (string * string)) = route_labels.
Proof.
  eexists. split; [vm_compute; reflexivity|]. split; [vm_compute; reflexivity|].
  apply (bool_decide_unpack _). vm_compute. exact I.
Qed.

Lemma add_routes_app l1 l2 known :
  add_routes (l1 ++ l2) known =
  match add_routes l1 known with inl k => add_routes l2 k | inr e => inr e end.
Proof.
  revert known. induction l1 as [|r l1 IH]; intros known; [done|]. cbn. by destruct (bool_decide _).
Qed.

(** Two elements of one list. *)
Lemma two_splits {A} (a b : A) ts1 ts2 us1 us2 :
  ts1 ++ a :: ts2 = us1 ++ b :: us2 ->
  (ts1 = us1 /\ a = b /\ ts2 = us2) \/
  (exists l, us1 = ts1 ++ a :: l /\ ts2 = l ++ b :: us2) \/
  (exists l, ts1 = us1 ++ b :: l /\ us2 = l ++ a :: ts2).
Proof.
  revert us1. induction ts1 as [|x ts1 IH]; intros [|y us1] E; cbn in E; injection E as -> E.
  - by left.
  - right; left. by exists us1.
  - right; right. by exists ts1.
  - destruct (IH us1 E) as [(-> & -> & ->)|[(l & -> & ->)|(l & -> & ->)]]; [by left|..];
      right; [left|right]; by exists l.
Qed.

(** ** Tasks of the API process *)
Section ApiFacts.
Context `{P : Platform} `{!PlatformLaws P} (env : Env) (port : double).
Abbreviation api := (World * Server)%type.
Abbreviation host := (Host api).
Abbreviation task := (prog host err unit).

(** What an awaiting handler is. *)
Definition hook_task (k : hook) : task :=
  match k with
  | TracingShutdown => tracing_shutdown
  | ProgramShutdown => api_shutdown
  end.

Lemma launch_hook k (c : host * list task) :
  ended c.1 = None -> launch c (api_handler k) = (c.1, c.2 ++ [hook_task k]).
Proof. intros E. unfold launch. rewrite E. by destruct k. Qed.

Lemma launch_hooks ks (c : host * list task) :
  ended c.1 = None ->
  fold_left launch (map api_handler ks) c = (c.1, c.2 ++ map hook_task ks).
Proof.
  revert c. induction ks as [|k ks IH]; intros c E; cbn [map fold_left].
  - rewrite app_nil_r. by destruct c.
  - rewrite launch_hook, IH by done. cbn [fst snd]. by rewrite <- app_assoc.
Qed.

(** A delivered signal starts a task for each listener and ends the process when
    there is none. *)
Lemma deliver_spec s (h : host) ts :
  ended h = None ->
  deliver api_handler s (h, ts) =
  match List.filter (hears s) (listeners h) with
  | [] => (halt (128 + signo s) h, ts)
  | heard =>
      (put Listeners (List.filter (fun l => negb (spent s l)) (listeners h)) h,
       ts ++ map (fun l => hook_task l.2) heard)
  end.
Proof.
  intros E. unfold deliver. cbn [fst snd]. destruct (List.filter (hears s) (listeners h)) as [|l heard]; [done|].
  rewrite <- (map_map (fun l => l.2) api_handler), launch_hooks by done. by rewrite map_map.
Qed.

(** Resuming a handler: the SDK's hook ends silently; the server's ends the process,
    with status 0 once the server is closed and 1 when closing failed. *)
Definition silent (t : task) : Prop :=
  match t with
  | Act f k => forall o h, let rw := perform o f h in
      exists sdk, land (k rw.1) rw.2 = (put Tracing sdk h, [])
  | _ => False
  end.

Definition closed (h : host) : host :=
  put App ((app h).1, mkServer (routes (app h).2) None) h.

Definition after_close (o : outcome err) (h : host) : host :=
  match o with Commit => halt 0 (closed h) | Refuse _ => halt 1 h | Lose _ => halt 1 (closed h) end.

Definition closing (t : task) : Prop :=
  match t with
  | Act f k => forall o h, let rw := perform o f h in land (k rw.1) rw.2 = (after_close o h, [])
  | _ => False
  end.

Lemma silent_tracing : silent (hook_task TracingShutdown).
Proof. intros [|e|e] [a t l x]; by eexists. Qed.

Lemma closing_shutdown : closing (hook_task ProgramShutdown).
Proof. by intros [|e|e] h. Qed.

(** The start in flight: whatever its calls answer, it awaits again, or the process
    ends with status 1, or the handlers are registered. *)
Definition serving_signals (h : host) : host :=
  put Listeners (listeners h ++ [(SIGTERM, false, ProgramShutdown); (SIGINT, false, ProgramShutdown)]) h.

Inductive starting : task -> Prop :=
| starting_awaits {R} (f : host -> (R + err) * host) k :
    (forall h, exists a, (f h).2 = put App a h) ->
    (forall r h, ended h = None ->
       (exists t, land (k r) h = (h, [t]) /\ starting t) \/
       land (k r) h = (serving_signals h, []) \/
       land (k r) h = (halt 1 h, [])) ->
    starting (Act f k).

Lemma starting_act t :
  starting t ->
  match t with
  | Act f k =>
      (forall h, exists a, (f h).2 = put App a h) /\
      (forall r h, ended h = None ->
         (exists t, land (k r) h = (h, [t]) /\ starting t) \/
         land (k r) h = (serving_signals h, []) \/
         land (k r) h = (halt 1 h, []))
  | _ => False
  end.
Proof. by destruct 1. Qed.

(** The part of [start] that follows the registration of [l]. *)
Definition start_from (l : list plugin) : task :=
  do! for_each l register in listen_for_signals port.

Lemma start_from_settled l : starting (start_from l).
Proof.
  induction l as [|p l IH].
  - constructor; [intros h; by eexists|]. intros [[]|e] h Hh; [right; left|by right; right].
    transitivity (put Listeners ((listeners h ++ [(SIGTERM, false, ProgramShutdown)]) ++
                    [(SIGINT, false, ProgramShutdown)]) h, @nil task); [done|].
    unfold serving_signals. by rewrite <- app_assoc.
  - constructor.
    + intros h. change (exists a, (register_plugin p h).2 = put App a h). unfold register_plugin.
      destruct (add_routes _ _); [by eexists|]. exists (app h). by destruct h.
    + intros [[]|e] h Hh; [|by right; right]. left. exists (start_from l).
      split; [|done]. by destruct l.
Qed.

(** ** Booting *)

(** The listeners the SDK's preload leaves behind. *)
Definition tracing_hooks (sdk_start : SdkConfig -> unit + err) : list (signal * bool * hook) :=
  if enabled env && (match sdk_start (sdk_config env) with inl _ => true | inr _ => false end)
  then [(SIGTERM, true, TracingShutdown); (SIGINT, true, TracingShutdown)] else [].

Lemma land_preload sdk_start w :
  exists sdk, land (preload env sdk_start) (loaded_host w) =
    (put Tracing sdk (put Listeners (tracing_hooks sdk_start) (loaded_host w)), []).
Proof.
  unfold preload, tracing_hooks. destruct (enabled env); [|by exists SdkOff].
  by destruct (sdk_start (sdk_config env)) as [[]|e]; eexists.
Qed.

Lemma land_start (h : host) :
  exists a, land (start env port) h = (put App a h, [start_from plugins]) /\ a.2 = mkServer [] None.
Proof.
  unfold start, buildApp, initializeDeploymentMetrics, Metrics.set, report. accepted.
  eexists. split; [by destruct h|done].
Qed.

Lemma boot_spec sdk_start w :
  exists h, api_boot env sdk_start port w = (h, [start_from plugins]) /\
    ended h = None /\ (app h).2 = mkServer [] None /\ listeners h = tracing_hooks sdk_start.
Proof.
  destruct (land_preload sdk_start w) as [sdk E].
  set (h1 := put Tracing sdk _) in E. destruct (land_start h1) as (a & E2 & Ha).
  exists (put App a h1). unfold api_boot. cbn [fold_left]. unfold launch at 2. cbn [fst snd ended loaded_host].
  rewrite E. unfold launch. cbn [fst snd app_nil]. change (ended h1) with (@None Z). rewrite E2. done.
Qed.

(** ** The invariant *)

Definition unserved (h : host) : Prop := Forall (fun l => l.2 = TracingShutdown) (listeners h).

Definition served (h : host) : Prop :=
  forall s, (s, false, ProgramShutdown) ∈ listeners h.

Definition api_ok (c : host * list task) : Prop :=
  match ended c.1 with
  | None =>
      (unserved c.1 /\
       exists ts1 t ts2, c.2 = ts1 ++ t :: ts2 /\ starting t /\ Forall silent (ts1 ++ ts2)) \/
      (served c.1 /\ Forall (fun t => silent t \/ closing t) c.2)
  | Some code =>
      (code = 0 /\ listening (app c.1).2 = None) \/ code = 1 \/
      (unserved c.1 /\ exists s, code = 128 + signo s)
  end.

Lemma heard_unserved s h :
  unserved h -> Forall silent (map (fun l => hook_task l.2) (List.filter (hears s) (listeners h))).
Proof.
  unfold unserved. induction 1 as [|l ls Hl _ IH]; cbn; [done|].
  destruct (hears s l); cbn; [|done]. constructor; [|done]. rewrite Hl. apply silent_tracing.
Qed.

Lemma heard_any s (ls : list (signal * bool * hook)) :
  Forall (fun t => silent t \/ closing t) (map (fun l => hook_task l.2) (List.filter (hears s) ls)).
Proof.
  induction ls as [|l ls IH]; cbn; [done|]. destruct (hears s l); cbn; [|done]. constructor; [|done].
  destruct l.2; [left; apply silent_tracing|right; apply closing_shutdown].
Qed.

Lemma filter_unserved s h :
  unserved h -> unserved (put Listeners (List.filter (fun l => negb (spent s l)) (listeners h)) h).
Proof.
  unfold unserved. cbn. induction 1 as [|l ls Hl _ IH]; cbn; [done|].
  destruct (spent s l); cbn; [done|by constructor].
Qed.

Lemma filter_served s h :
  served h -> served (put Listeners (List.filter (fun l => negb (spent s l)) (listeners h)) h).
Proof.
  intros H s'. cbn. apply list_elem_of_In, filter_In. split; [by apply list_elem_of_In, H|].
  unfold spent. by rewrite andb_false_r.
Qed.

Lemma served_hears s h : served h -> List.filter (hears s) (listeners h) <> [].
Proof.
  intros H E. assert (Hin : In (s, false, ProgramShutdown) (List.filter (hears s) (listeners h))).
  { apply filter_In. split; [by apply list_elem_of_In, H|]. by apply bool_decide_eq_true_2. }
  by rewrite E in Hin.
Qed.

Lemma served_after_start h : served (serving_signals h).
Proof. intros []; cbn; set_solver. Qed.

Lemma deliver_ok s c : ended c.1 = None -> api_ok c -> api_ok (deliver api_handler s c).
Proof.
  destruct c as [h ts]. cbn [fst]. intros E H. unfold api_ok in H. cbn [fst snd] in H. rewrite E in H.
  rewrite deliver_spec by done. destruct (List.filter (hears s) (listeners h)) as [|l0 ls0] eqn:Ef.
  - destruct H as [[Hu _]|[Hs _]]; [|by apply (served_hears s) in Hs].
    unfold api_ok. cbn. rewrite E. right. right. split; [done|by exists s].
  - rewrite <- Ef. unfold api_ok. cbn [fst snd]. replace (ended _) with (@None Z) by done.
    destruct H as [[Hu (ts1 & t & ts2 & -> & Ht & Hq)]|[Hs Hq]].
    + left. split; [by apply filter_unserved|]. eexists ts1, t, _.
      split; [by rewrite <- app_assoc|]. split; [done|].
      rewrite app_assoc. apply Forall_app. split; [done|by apply heard_unserved].
    + right. split; [by apply filter_served|]. apply Forall_app. split; [done|apply heard_any].
Qed.

(** Resuming a task that ends leaves the others. *)
Lemma silent_resumes {R} (f : host -> (R + err) * host) k o h :
  silent (Act f k) -> exists sdk, land (k (perform o f h).1) (perform o f h).2 = (put Tracing sdk h, []).
Proof. intros H. apply H. Qed.

Lemma resume_starting {R} (f : host -> (R + err) * host) k o h ts1 ts2 :
  ended h = None -> unserved h -> starting (Act f k) -> Forall silent (ts1 ++ ts2) ->
  api_ok (let rw := perform o f h in let r := land (k rw.1) rw.2 in (r.1, ts1 ++ r.2 ++ ts2)).
Proof.
  intros E Hu Ht Hq. destruct (starting_act _ Ht) as [Hf Hk]. cbv zeta.
  assert (Hh : exists a, (perform o f h).2 = put App a h).
  { destruct o; cbn; [apply Hf| |apply Hf]. exists (app h). by destruct h. }
  destruct Hh as [a Hh]. rewrite Hh.
  destruct (Hk (perform o f h).1 (put App a h) E) as [(t & -> & Hs)|[->| ->]];
    unfold api_ok; cbn; rewrite E.
  - left. split; [done|]. by exists ts1, t, ts2.
  - right. split; [apply served_after_start|].
    eapply Forall_impl; [exact Hq|]. by left.
  - by right; left.
Qed.

Lemma resume_serving {R} (f : host -> (R + err) * host) k o h ts1 ts2 :
  ended h = None -> served h -> silent (Act f k) \/ closing (Act f k) ->
  Forall (fun t => silent t \/ closing t) (ts1 ++ ts2) ->
  api_ok (let rw := perform o f h in let r := land (k rw.1) rw.2 in (r.1, ts1 ++ r.2 ++ ts2)).
Proof.
  intros E Hs [Ht|Ht] Hq; cbv zeta.
  - destruct (silent_resumes f k o h Ht) as [sdk ->]. unfold api_ok. cbn. rewrite E. by right.
  - rewrite (Ht o h). unfold api_ok. destruct o; cbn; rewrite E; cbn; tauto.
Qed.

Lemma turn_ok c c' : turn api_handler c c' -> api_ok c -> api_ok c'.
Proof.
  intros Ht. destruct Ht as [s c E|R f k o h ts1 ts2 E]; [by apply deliver_ok|].
  intros H. unfold api_ok in H. cbn [fst snd] in H. rewrite E in H.
  destruct H as [[Hu (us1 & t & us2 & El & Ht & Hq)]|[Hs Hq]].
  - apply two_splits in El as [(<- & <- & <-)|[(l & -> & ->)|(l & -> & ->)]].
    + by apply resume_starting.
    + rewrite !Forall_app, Forall_cons in Hq. destruct Hq as [(Q1 & Q & Q2) Q3].
      destruct (silent_resumes f k o h Q) as [sdk Hr]. unfold api_ok. cbv zeta. rewrite Hr. cbn. rewrite E.
      left. split; [done|]. exists (ts1 ++ l), t, us2. rewrite <- app_assoc, !Forall_app. done.
    + rewrite !Forall_app, Forall_cons in Hq. destruct Hq as (Q1 & Q2 & Q & Q3).
      destruct (silent_resumes f k o h Q) as [sdk Hr]. unfold api_ok. cbv zeta. rewrite Hr. cbn. rewrite E.
      left. split; [done|]. exists us1, t, (l ++ ts2). rewrite <- app_assoc, !Forall_app. done.
  - apply Forall_app in Hq as [Q1 Q2]. apply Forall_cons in Q2 as [Q2 Q3].
    apply resume_serving; [done..|]. by apply Forall_app.
Qed.

Lemma boot_ok sdk_start w : api_ok (api_boot env sdk_start port w).
Proof.
  destruct (boot_spec sdk_start w) as (h & -> & E & _ & El). unfold api_ok. cbn. rewrite E. left. split.
  - unfold unserved. rewrite El. unfold tracing_hooks. destruct (_ && _); by repeat constructor.
  - exists [], (start_from plugins), []. split; [done|]. split; [apply start_from_settled|done].
Qed.

Lemma api_reachable c c' : rtc (turn api_handler) c c' -> api_ok c -> api_ok c'.
Proof. induction 1 as [|x y z Hxy _ IH]; [done|]. intros Hx. by apply IH, (turn_ok x). Qed.

(** One turn of the first task. *)
Lemma turn_first o (t : task) h h' new ts :
  ended h = None ->
  match t with
  | Act f k => land (k (perform o f h).1) (perform o f h).2 = (h', new)
  | _ => False
  end ->
  turn api_handler (h, t :: ts) (h', new ++ ts).
Proof.
  intros E H. destruct t as [|e|R f k|R f k]; try done.
  pose proof (turn_resume api_handler f k o h [] ts E) as Ht. cbv zeta in Ht. by rewrite H in Ht.
Qed.

(** A start whose calls succeed. *)
Lemma start_completes l (h : host) rs ts :
  ended h = None -> add_routes (flat_map routes_of l) (routes (app h).2) = inl rs ->
  rtc (turn api_handler) (h, start_from l :: ts)
    (serving_signals (put App ((app h).1, mkServer rs (Some port)) h), ts).
Proof.
  revert h. induction l as [|p l IH]; intros h E Er; cbn [flat_map] in Er.
  - injection Er as <-. apply rtc_once, (turn_first Commit _ _ _ [] ts E).
    transitivity (put Listeners ((listeners h ++ [(SIGTERM, false, ProgramShutdown)]) ++
                    [(SIGINT, false, ProgramShutdown)])
                    (put App ((app h).1, mkServer (routes (app h).2) (Some port)) h), @nil task); [done|].
    unfold serving_signals. by rewrite <- app_assoc.
  - rewrite add_routes_app in Er.
    destruct (add_routes (routes_of p) (routes (app h).2)) as [k|e] eqn:Ek; [|done].
    eapply rtc_l; [|apply (IH (put App ((app h).1, mkServer k (listening (app h).2)) h) E Er)].
    assert (Ep : register_plugin p h = (inl tt, put App ((app h).1, mkServer k (listening (app h).2)) h))
      by (unfold register_plugin; by rewrite Ek).
    apply (turn_first Commit _ _ _ [start_from l] ts E).
    change (land (bind (bind (rethrow (register_plugin p h).1) (fun _ => for_each l register))
                    (fun _ => listen_for_signals port)) (register_plugin p h).2 =
      (put App ((app h).1, mkServer k (listening (app h).2)) h, [start_from l])).
    rewrite Ep. by destruct l.
Qed.
End ApiFacts.

(** C28: the life of the API process.  Whatever its calls answer, in whatever order they
    end and whenever signals come: the process ends with status 0 only after the server
    stopped listening; otherwise with 1 (an assembly, a start or a close that failed),
    or, as long as it has not registered its handlers, by the signal.  While it lives
    it is starting or it serves its signals; and a signal that it serves starts a
    close that ends the process, with status 0 when it succeeded and with 1 when not. *)
Theorem api_process_life `{P : Platform} `{!PlatformLaws P} env port sdk_start w h ts :
  rtc (turn api_handler) (api_boot env sdk_start port w) (h, ts) ->
  (forall code, ended h = Some code ->
     (code = 0 /\ listening (app h).2 = None) \/ code = 1 \/
     ((code = 130 \/ code = 143) /\ unserved h)) /\
  (ended h = None -> ts = [] -> served h) /\
  (ended h = None -> served h -> forall s, exists h' ts1 ts2,
     deliver api_handler s (h, ts) = (h', ts1 ++ api_shutdown :: ts2) /\ ended h' = None /\
     closing api_shutdown /\
     forall o, ended (after_close o h') = Some (match o with Commit => 0 | _ => 1 end)).
Proof.
  intros H. apply api_reachable in H; [|apply boot_ok].
  unfold api_ok in H. cbn [fst snd] in H. split_and!.
  - intros code E. rewrite E in H. destruct H as [H|[->|(Hu & s & ->)]]; [by left|by right; left|].
    right; right. split; [destruct s; cbn; auto|done].
  - intros E ->. rewrite E in H. destruct H as [(_ & ts1 & t & ts2 & E' & _)|[Hs _]]; [|done].
    by destruct ts1.
  - intros E Hs s. rewrite deliver_spec by done.
    destruct (List.filter (hears s) (listeners h)) as [|l0 ls0] eqn:Ef; [by apply (served_hears s) in Hs|].
    rewrite <- Ef.
    assert (Hin : In (s, false, ProgramShutdown) (List.filter (hears s) (listeners h))).
    { apply filter_In. split; [by apply list_elem_of_In, Hs|]. by apply bool_decide_eq_true_2. }
    apply in_split in Hin as (l1 & l2 & ->). rewrite map_app, app_assoc. cbn [map snd hook_task].
    eexists _, _, _. split; [done|]. split; [done|]. split; [apply closing_shutdown|].
    intros o. destruct o; cbn; by rewrite E.
Qed.

(** C39: a signal that comes while the API starts is lost, when tracing is on.  The
    listener of the tracing SDK, registered before the server has its own, takes the
    place of the signal's default effect: the process does not end, and when its start
    completes it serves, without tracing.  Without tracing such a signal ends the
    process. *)
Theorem signal_lost_while_starting `{P : Platform} `{!PlatformLaws P} env port sdk_start w s :
  (enabled env = false ->
   ended (deliver api_handler s (api_boot env sdk_start port w)).1 = Some (128 + signo s)) /\
  (enabled env = true -> sdk_start (sdk_config env) = inl tt ->
   exists h, rtc (turn api_handler) (deliver api_handler s (api_boot env sdk_start port w)) (h, []) /\
     ended h = None /\ served h /\ listening (app h).2 = Some port /\ tracing h = SdkStopped).
Proof.
  destruct (boot_spec env port sdk_start w) as (h & Eb & E & Ea & El).
  unfold tracing_hooks in El. rewrite Eb, deliver_spec, El by done. split; intros He; rewrite He.
  - cbn. by rewrite E.
  - intros Hs. rewrite Hs. cbn [andb].
    destruct route_table as (rs & Er & _). 
    assert (Er' : add_routes (flat_map routes_of plugins) (routes (app h).2) = inl rs) by (by rewrite Ea).
    set (h1 := put Listeners _ h).
    exists (put Tracing SdkStopped (serving_signals (put App ((app h1).1, mkServer rs (Some port)) h1))).
    split; [|split; [exact E|]; split; [apply served_after_start|by split]].
    lazymatch goal with |- rtc _ ?c _ =>
      replace c with (h1, [start_from port plugins; hook_task TracingShutdown]) by (by destruct s) end.
    etransitivity; [by apply (start_completes port plugins h1 rs)|].
    apply rtc_once, (turn_first Commit _ _ _ []); [done|]. by destruct h.
Qed.

(** ** What every turn respects *)
Section HostGuards.
Context {S : Type} (handler : hook -> prog (Host S) err unit).
Abbreviation host := (Host S).
Context (G : host -> host -> Prop) `{!PreOrder G}.
Hypothesis G_halt : forall code h, G h (halt code h).
Hypothesis G_spent : forall s h,
  G h (put Listeners (List.filter (fun l => negb (spent s l)) (listeners h)) h).
Hypothesis G_handler : forall k, guards G (handler k).

Lemma land_guards p h : guards G p -> G h (land p h).1 /\ Forall (guards G) (land p h).2.
Proof.
  intros Hp. destruct (settle_guards G p h Hp) as [H1 H2]. unfold land.
  destruct (settle p h) as [q h']. cbn in H1, H2.
  destruct q as [[]|e|R f k|R f k]; cbn.
  - by split.
  - split; [|done]. etransitivity; [exact H2|apply G_halt].
  - split; [done|]. by apply Forall_singleton.
  - split; [done|]. by apply Forall_singleton.
Qed.

Lemma launch_guards c p :
  guards G p ->
  G c.1 (launch c p).1 /\ (Forall (guards G) c.2 -> Forall (guards G) (launch c p).2).
Proof.
  intros Hp. unfold launch. destruct (ended c.1); [done|].
  destruct (land_guards p c.1 Hp) as [H1 H2]. split; [done|]. intros Hc. by apply Forall_app.
Qed.

Lemma launches_guards ks c :
  G c.1 (fold_left launch (map handler ks) c).1 /\
  (Forall (guards G) c.2 -> Forall (guards G) (fold_left launch (map handler ks) c).2).
Proof.
  revert c. induction ks as [|k ks IH]; intros c; [done|]. cbn.
  destruct (launch_guards c (handler k) (G_handler k)) as [H1 H2].
  destruct (IH (launch c (handler k))) as [H3 H4]. split; [by etransitivity|auto].
Qed.

Lemma deliver_guards s c :
  Forall (guards G) c.2 -> G c.1 (deliver handler s c).1 /\ Forall (guards G) (deliver handler s c).2.
Proof.
  intros Hc. unfold deliver.
  destruct (List.filter (hears s) (listeners c.1)) as [|l ls]; [split; [apply G_halt|done]|].
  rewrite <- (map_map snd handler). set (c' := (_, c.2)).
  destruct (launches_guards (map snd (l :: ls)) c') as [H1 H2].
  split; [etransitivity; [apply G_spent|exact H1]|exact (H2 Hc)].
Qed.

Lemma turn_guards c c' :
  turn handler c c' -> Forall (guards G) c.2 -> G c.1 c'.1 /\ Forall (guards G) c'.2.
Proof.
  intros [s c0 _|R f k o h ts1 ts2 _] Hc; [by apply deliver_guards|]. cbn [fst snd] in *.
  rewrite Forall_app, Forall_cons in Hc. destruct Hc as (H1 & [Hf Hk] & H2). cbv zeta.
  assert (Hp : G h (perform o f h).2) by (destruct o; cbn; auto; reflexivity).
  destruct (land_guards (k (perform o f h).1) (perform o f h).2 (Hk _)) as [H3 H4].
  split; [by etransitivity|]. by rewrite !Forall_app.
Qed.

Lemma turns_guards c c' :
  rtc (turn handler) c c' -> Forall (guards G) c.2 -> G c.1 c'.1 /\ Forall (guards G) c'.2.
Proof.
  induction 1 as [|x y z Hxy _ IH]; [done|]. intros Hx.
  destruct (turn_guards x y Hxy Hx) as [H1 H2]. destruct (IH H2) as [H3 H4].
  split; [by etransitivity|done].
Qed.
End HostGuards.

(** ** The signals of the worker process *)
Section WorkerSignals.
Context `{P : Platform} (env : Env) (intervalMs : option Z).
Abbreviation host := (Host (World * Process)).

(** Every listener of the worker process is registered with [once]. *)
Definition all_once (h : host) : Prop := Forall (fun l => l.1.2 = true) (listeners h).

Definition keeps_once (h h' : host) : Prop := all_once h -> all_once h'.

#[local] Instance keeps_once_preorder : PreOrder keeps_once.
Proof. split; [by intros h H|]. intros a b c H1 H2 H. auto. Qed.

(** What runs inside the program leaves the listeners alone. *)
Definition same_listeners (h h' : host) : Prop := listeners h' = listeners h.

#[global] Instance same_listeners_preorder : PreOrder same_listeners.
Proof. split; [done|]. unfold same_listeners. by intros a b c -> ->. Qed.

Lemma guards_inside {A} (p : prog (World * Process) err A) : guards same_listeners (inside App p).
Proof. induction p as [a|e|R f k IH|R f k IH]; cbn; [done|done|by split..]. Qed.

Lemma guards_weaken {A} (p : prog host err A) : guards same_listeners p -> guards keeps_once p.
Proof.
  induction p as [a|e|R f k IH|R f k IH]; cbn; [done|done|..]; intros [Hf Hk];
    (split; [|naive_solver]); intros h; unfold keeps_once, all_once; by rewrite Hf.
Qed.

Lemma keeps_once_add s k (h : host) : keeps_once h (put Listeners (listeners h ++ [(s, true, k)]) h).
Proof. intros H. apply Forall_app. split; [done|]. by repeat constructor. Qed.

Lemma guards_worker_handler k : guards same_listeners (worker_handler k).
Proof.
  destruct k; cbn [worker_handler].
  - apply guards_catch; [|done]. apply guards_act. by intros h.
  - apply guards_bind; [apply guards_inside|]. intros _. apply guards_bind; [apply guards_gets, _|].
    intros [c|]; [|done]. by apply guards_modify.
Qed.

Lemma guards_worker_main : guards keeps_once (worker_main env intervalMs).
Proof.
  apply guards_catch; [|intros _; apply guards_modify; intros h H; exact H].
  apply guards_bind; [apply guards_weaken, guards_inside|]. intros _.
  apply guards_bind; [|intros _]; apply guards_modify, keeps_once_add.
Qed.

Lemma guards_preload sdk_start : guards keeps_once (preload env sdk_start).
Proof.
  unfold preload. destruct (enabled env); [|done]. apply guards_catch; [|done].
  apply guards_bind; [apply guards_rethrow|]. intros _.
  apply guards_bind; [apply guards_modify; intros h H; exact H|]. intros _.
  apply guards_bind; [|intros _]; apply guards_modify, keeps_once_add.
Qed.

Lemma filter_once s h :
  keeps_once h (put Listeners (List.filter (fun l => negb (spent s l)) (listeners h)) h).
Proof.
  unfold keeps_once, all_once. cbn. induction 1 as [|l ls Hl _ IH]; cbn; [done|].
  destruct (spent s l); cbn; [done|by constructor].
Qed.

Lemma worker_once sdk_start w p h ts :
  rtc (turn worker_handler) (worker_boot env intervalMs sdk_start w p) (h, ts) -> all_once h.
Proof.
  intros H. set (h0 := mkHost (w, p) SdkOff [] None).
  assert (Hhalt : forall code h, keeps_once h (halt code h)) by (intros code h' Hh; exact Hh).
  destruct (launch_guards keeps_once Hhalt (h0, []) (preload env sdk_start)
    (guards_preload _)) as [G1 F1].
  destruct (launch_guards keeps_once Hhalt (launch (h0, []) (preload env sdk_start)) _ guards_worker_main) as [G2 F2].
  destruct (turns_guards worker_handler keeps_once Hhalt filter_once
    (fun k => guards_weaken _ (guards_worker_handler k)) _ _ H (F2 (F1 (Forall_nil_2 _)))) as [G3 _].
  apply G3, G2, G1. constructor.
Qed.

(** After a delivery nobody listens to that signal any more. *)
Lemma filter_spent s (ls : list (signal * bool * hook)) :
  Forall (fun l => l.1.2 = true) ls ->
  List.filter (hears s) (List.filter (fun l => negb (spent s l)) ls) = [].
Proof.
  induction 1 as [|l ls Hl _ IH]; [done|]. cbn. unfold spent at 1. rewrite Hl, andb_true_r.
  destruct (hears s l) eqn:E; cbn; [done|by rewrite E].
Qed.

(** A hook that finds the shutdown under way returns at once. *)
Lemma hook_when_shutting_down (h : host) :
  shuttingDown (app h).2 = true -> exited (app h).2 = None ->
  land worker_shutdown_hook h = (put App (app h) h, []).
Proof.
  destruct h as [[w p] t ls x]. destruct p. cbn. by intros -> ->.
Qed.

Lemma launches_when_shutting_down ks (c : host * list (prog host err unit)) :
  shuttingDown (app c.1).2 = true -> exited (app c.1).2 = None ->
  app (fold_left launch (map worker_handler ks) c).1 = app c.1.
Proof.
  revert c. induction ks as [|k ks IH]; intros c Hs Hx; [done|]. cbn [map fold_left].
  assert (E : app (launch c (worker_handler k)).1 = app c.1).
  { unfold launch. destruct (ended c.1); [done|]. destruct k; [done|].
    cbn [worker_handler]. by rewrite hook_when_shutting_down. }
  rewrite IH; by rewrite E.
Qed.
End WorkerSignals.

(** Signals of the worker process.  Its listeners are registered with [once].  So the
    same signal again, while the first one is being served, has its default effect and
    ends the process in the middle of its shutdown; the other signal finds the shutdown
    under way and changes nothing of the program. *)
Theorem worker_signals `{P : Platform} env intervalMs sdk_start w p h ts s :
  rtc (turn worker_handler) (worker_boot env intervalMs sdk_start w p) (h, ts) ->
  ended h = None ->
  let c := deliver worker_handler s (h, ts) in
  ended c.1 = None ->
  ended (deliver worker_handler s c).1 = Some (128 + signo s) /\
  (shuttingDown (app h).2 = true -> exited (app h).2 = None -> app c.1 = app h).
Proof.
  intros H E c Ec. pose proof (worker_once _ _ _ _ _ _ _ H) as Ho.
  unfold c, deliver in Ec |- *. cbn [fst snd] in *.
  destruct (List.filter (hears s) (listeners h)) as [|l ls] eqn:Ef.
  { cbn in Ec. by rewrite E in Ec. }
  set (h1 := put Listeners _ h) in *. set (c1 := fold_left launch _ (h1, ts)) in *. split.
  - assert (Hl : listeners c1.1 = listeners h1).
    { unfold c1. rewrite <- (map_map snd worker_handler).
      exact (proj1 (launches_guards worker_handler same_listeners (fun _ _ => eq_refl)
               guards_worker_handler (map snd (l :: ls)) (h1, ts))). }
    rewrite Hl. unfold h1. cbn [put listeners Listeners]. rewrite filter_spent by done.
    unfold halt. cbn [fst ended]. by rewrite Ec.
  - unfold c1. rewrite <- (map_map snd worker_handler). intros Hs Hx.
    by apply (launches_when_shutting_down _ (h1, ts)).
Qed.

Section Witness.
#[local] Existing Instance ref_platform.
#[local] Existing Instance ref_platform_laws.

Definition no_tracing : Env := fun v => if String.eqb v "OTEL_TRACES_ENABLED" then Some "false" else None.
Definition sdk_ok (_ : SdkConfig) : unit + err := inl tt.

(** A process that is killed before it serves. *)
Lemma api_process_life_witness :
  exists h ts,
    rtc (turn (api_handler (P:=ref_platform))) (api_boot (P:=ref_platform) no_tracing sdk_ok (of_Z 3000) (fresh_world 0 quiet)) (h, ts) /\
    ended h = Some 143 /\
    ((143 = 0 /\ listening (app h).2 = None) \/ 143 = 1 \/ ((143 = 130 \/ 143 = 143) /\ unserved (P:=ref_platform) h)).
Proof.
  set (c := api_boot (P:=ref_platform) no_tracing sdk_ok (of_Z 3000) (fresh_world 0 quiet)).
  exists (deliver (api_handler (P:=ref_platform)) SIGTERM c).1, (deliver (api_handler (P:=ref_platform)) SIGTERM c).2.
  assert (H : rtc (turn (api_handler (P:=ref_platform))) c ((deliver (api_handler (P:=ref_platform)) SIGTERM c).1, (deliver (api_handler (P:=ref_platform)) SIGTERM c).2)).
  { rewrite <- surjective_pairing. apply rtc_once, turn_signal. vm_compute. reflexivity. }
  assert (E : ended (deliver (api_handler (P:=ref_platform)) SIGTERM c).1 = Some 143) by (vm_compute; reflexivity).
  split; [exact H|]. split; [exact E|].
  exact (proj1 (api_process_life (P:=ref_platform) no_tracing (of_Z 3000) sdk_ok (fresh_world 0 quiet) _ _ H) 143 E).
Defined.

Lemma signal_lost_while_starting_witness :
  exists h, rtc (turn (api_handler (P:=ref_platform)))
    (deliver (api_handler (P:=ref_platform)) SIGTERM (api_boot (P:=ref_platform) (fun _ => None) sdk_ok (of_Z 3000) (fresh_world 0 quiet))) (h, []) /\
    ended h = None /\ served (P:=ref_platform) h /\ listening (app h).2 = Some (of_Z 3000) /\ tracing h = SdkStopped.
Proof.
  apply (signal_lost_while_starting (P:=ref_platform) (fun _ => None) (of_Z 3000) sdk_ok (fresh_world 0 quiet) SIGTERM);
    reflexivity.
Defined.

(** The first task is resumed and its call succeeds. *)
Definition resume_first {S} (c : Host S * list (prog (Host S) err unit)) : Host S * list (prog (Host S) err unit) :=
  match c.2 with
  | Act f k :: ts => let r := land (k (f c.1).1) (f c.1).2 in (r.1, r.2 ++ ts)
  | _ => c
  end.

(** A worker that serves, is told to stop and told again: it is gone before its queue
    is closed. *)
Example worker_stopped_twice :
  let c0 := resume_first (worker_boot (P:=ref_platform) no_tracing (Some 5000) sdk_ok
                            (fresh_world 0 quiet) loaded) in
  let c1 := deliver (worker_handler (P:=ref_platform)) SIGTERM c0 in
  let c2 := deliver (worker_handler (P:=ref_platform)) SIGTERM c1 in
  ended c0.1 = None /\ ready (app c0.1).2 = true /\
  ended c1.1 = None /\ shuttingDown (app c1.1).2 = true /\
  ended c2.1 = Some 143 /\ queueOpen (app c2.1).2 = true.
Proof. vm_compute. split_and!; reflexivity. Qed.
End Witness.
