(* ===== verification/System.v ===== *)
(** * The whole system

    API requests, confirmation jobs, scheduler cycles and the indexer run as
    tasks of several processes over one database.  A step of the system is one
    atomic step of one task, with whatever fate its remote call has, the start
    of a new task, the crash of a task at any point, or a change of the outside
    world.  The invariants of the ledger hold in every reachable state. *)

From S2P Require Import Prelude JsString Schema Platform Reference StateMachine TransactionRepository Outbox Guarantee Ledger Metrics Addresses Envelope Adapters Transfer Confirmation Index EventListener Sweeps Reconcile Registration Ownership Identity Validators Wire Http Scheduler.

Section System.
Context `{P : Platform} `{K : Crypto} `{KS : !Keys} `{M : Hmac} `{A : !Auth} `{ZD : Zod}.
Context (adapters : list BlockchainAdapter).

(** The entry points.  Which of them are started, how often and with which
    arguments, is left open: timers, redelivered jobs, several replicas. *)
Inductive spawnable : prog' unit -> Prop :=
| sp_transfer r : spawnable (do! transfer adapters r in Ret tt)
| sp_confirm id tenant : spawnable (processTransaction adapters id tenant)
| sp_acquire o n t : spawnable (do! acquire o n t in Ret tt)
| sp_renew o n t : spawnable (do! renew o n t in Ret tt)
| sp_release o n : spawnable (release o n)
| sp_expiration : spawnable (sch_cycle ExpirationScheduler)
| sp_submission : spawnable (sch_cycle SubmissionRecoveryScheduler)
| sp_pending i g f s : spawnable (sch_cycle (PendingRecoveryScheduler i g f s))
| sp_relay : spawnable (sch_cycle OutboxRelayScheduler)
| sp_drift i evm ps c fuel :
    spawnable (sch_cycle (BalanceDriftScheduler i (sweep evm adapters ps c fuel)))
| sp_index env i f : spawnable (do! worker_turn env i f in Ret tt)
| sp_sample : spawnable sample_pending
| sp_wallet evm isEvm isOnCurve t o c a :
    spawnable (do! createWallet evm isEvm isOnCurve t o c a in Ret tt)
| sp_custodial env evm t o c :
    spawnable (do! custodial_createWallet env evm adapters t o c in Ret tt)
| sp_token n s a d b : spawnable (do! registerToken adapters n s a d b in Ret tt)
| sp_mint t r a : spawnable (do! mintToken adapters t r a in Ret tt)
| sp_request env secret config evm isEvm isOnCurve r :
    spawnable (do! handle env secret config evm isEvm isOnCurve adapters r in Ret tt).

Definition State : Type := World * list (prog' unit).

Inductive sys_step : State -> State -> Prop :=
| sys_spawn w ts p : spawnable p -> sys_step (w, ts) (w, p :: ts)
| sys_task w w' ts1 ts2 p p' :
    pstep (w, p) (w', p') -> sys_step (w, ts1 ++ p :: ts2) (w', ts1 ++ p' :: ts2)
| sys_crash w ts1 ts2 p : sys_step (w, ts1 ++ p :: ts2) (w, ts1 ++ ts2)
| sys_outside w w' ts :
    transactions w' = transactions w -> outbox w' = outbox w -> apiKeys w' = apiKeys w ->
    sys_step (w, ts) (w', ts).

(** An undisturbed execution is one of the schedules. *)
Lemma exec_system (p : prog' unit) w :
  exists p', rtc sys_step (w, [p]) ((exec p w).2, [p']).
Proof.
  revert w. induction p as [a|e|R f c IH|R f c IH]; intros w; [by eexists; reflexivity..| |].
  - destruct (IH (f w).1 (f w).2) as [p' Hp]. exists p'. eapply rtc_l; [|exact Hp].
    by apply (sys_task w _ [] [] (Loc f c)).
  - destruct (IH (f w).1 (f w).2) as [p' Hp]. exists p'. eapply rtc_l; [|exact Hp].
    apply (sys_task w _ [] [] (Act f c)). by exists Commit.
Qed.

Context `{!PlatformLaws P} (Ha : Forall AdapterSteady adapters).

Lemma spawnable_steady p : spawnable p -> guards steady p.
Proof.
  destruct 1; cbn [sch_cycle ExpirationScheduler SubmissionRecoveryScheduler
    PendingRecoveryScheduler OutboxRelayScheduler BalanceDriftScheduler].
  all: try apply guards_metered.
  all: solve_guards.
  all: try apply guards_metered; solve_guards.
Qed.

Definition pool_steady (s : State) : Prop := Forall (guards steady) s.2.

Lemma sys_step_steady s s' :
  sys_step s s' -> pool_steady s -> steady s.1 s'.1 /\ pool_steady s'.
Proof.
  unfold pool_steady. destruct 1 as [w ts p Hp|w w' ts1 ts2 p p' Hp|w ts1 ts2 p|w w' ts Ht Ho Hk];
    cbn [fst snd]; intros H.
  - split; [reflexivity|]. constructor; [by apply spawnable_steady|done].
  - rewrite Forall_app, Forall_cons in H. destruct H as (H1 & Hg & H2).
    destruct (guards_pstep _ _ _ _ _ Hp Hg) as [HG Hg'].
    split; [done|]. rewrite Forall_app, Forall_cons. done.
  - rewrite Forall_app, Forall_cons in H. destruct H as (H1 & _ & H2).
    split; [reflexivity|]. by apply Forall_app.
  - split; [by apply steady_same|done].
Qed.

Lemma sys_steps_steady s s' :
  rtc sys_step s s' -> pool_steady s -> steady s.1 s'.1 /\ pool_steady s'.
Proof.
  induction 1 as [s|s1 s2 s3 H1 _ IH]; intros H; [split; [reflexivity|done]|].
  destruct (sys_step_steady s1 s2 H1 H) as [G1 H2]. destruct (IH H2) as [G2 H3].
  split; [by etransitivity|done].
Qed.

Lemma reachable_pool w w' ts' :
  rtc sys_step (w, []) (w', ts') -> pool_steady (w', ts').
Proof. intros H. apply (sys_steps_steady _ _ H). constructor. Qed.
End System.

(** C2: the ledger and the outbox agree, always.  In every state the system can
    reach from a sound database, through any interleaving of requests, jobs,
    sweeps and crashes, with calls that fail or lose their answer: the rows of the
    ledger respect the constraints and carry exactly the data their status calls
    for, and there is exactly one [transaction.confirmed] event per CONFIRMED
    transaction and none for any other. *)
Theorem system_ledger_invariant `{P : Platform} `{!PlatformLaws P} `{K : Crypto} `{KS : !Keys}
    `{M : Hmac} `{A : !Auth} `{ZD : Zod} adapters w0 w ts :
  Forall AdapterSteady adapters -> ledger_ok w0 ->
  rtc (sys_step adapters) (w0, []) (w, ts) ->
  ledger_ok w.
Proof.
  intros Ha H0 H. destruct (sys_steps_steady adapters Ha _ _ H) as [[[_ HG] _] _]; [constructor|].
  by apply HG.
Qed.

(** C3: transactions only move forward.  Between any two moments of a reachable
    history no transaction disappears; each either is unchanged or its status
    moved along the state machine, with parties, token, amount and creation time
    unchanged and, once it left PENDING, the same hash; a transaction that was
    not there before entered the table as PENDING without a hash. *)
Theorem system_lifecycle `{P : Platform} `{!PlatformLaws P} `{K : Crypto} `{KS : !Keys}
    `{M : Hmac} `{A : !Auth} `{ZD : Zod} adapters w0 w ts w' ts' :
  Forall AdapterSteady adapters ->
  rtc (sys_step adapters) (w0, []) (w, ts) -> rtc (sys_step adapters) (w, ts) (w', ts') ->
  lifecycle w w'.
Proof.
  intros Ha H1 H2. pose proof (reachable_pool adapters Ha _ _ _ H1) as Hp.
  by destruct (sys_steps_steady adapters Ha _ _ H2 Hp) as [[[HL _] _] _].
Qed.

(** C4: the end is the end.  Once a transaction is CONFIRMED, FAILED or EXPIRED,
    its row is the same, field by field, in every later state. *)
Theorem system_terminal_rows_are_final `{P : Platform} `{!PlatformLaws P} `{K : Crypto} `{KS : !Keys}
    `{M : Hmac} `{A : !Auth} `{ZD : Zod} adapters w0 w ts w' ts' id t :
  Forall AdapterSteady adapters ->
  rtc (sys_step adapters) (w0, []) (w, ts) -> rtc (sys_step adapters) (w, ts) (w', ts') ->
  transactions w !! id = Some t -> isTerminal (status t) = true ->
  transactions w' !! id = Some t.
Proof.
  intros Ha H1 H2 Et St. pose proof (reachable_pool adapters Ha _ _ _ H1) as Hp.
  destruct (sys_steps_steady adapters Ha _ _ H2 Hp) as [[[HL _] _] _].
  specialize (HL id). cbn in HL. rewrite Et in HL. destruct HL as (t' & Et' & Ev).
  apply evolves_terminal in Ev; [by subst|]. by destruct (status t).
Qed.

(** C1: the program refines the ledger.  Whatever happens in a reachable history,
    seen through the transactions and the outbox it is a run of the abstract
    ledger of [Ledger]: transfers are opened, broadcast, observed and settled
    there one at a time, and a transfer is announced in the very step that
    settles it. *)
Theorem system_refines_ledger `{P : Platform} `{!PlatformLaws P} `{K : Crypto} `{KS : !Keys}
    `{M : Hmac} `{A : !Auth} `{ZD : Zod} adapters w0 w ts w' ts' :
  Forall AdapterSteady adapters -> ledger_ok w0 ->
  rtc (sys_step adapters) (w0, []) (w, ts) -> rtc (sys_step adapters) (w, ts) (w', ts') ->
  rtc ledger_step (ledger_of w) (ledger_of w').
Proof.
  intros Ha H0 H1 H2.
  destruct (sys_steps_steady adapters Ha _ _ H1) as [[[_ HG1] _] Hp]; [constructor|].
  destruct (sys_steps_steady adapters Ha _ _ H2 Hp) as [[[HL HG2] _] _].
  apply lifecycle_simulates; [by apply HG1|by apply HG2, HG1|done].
Qed.

(** The key table is well formed, always.  In every reachable state API keys have
    pairwise different hashes, each in the form the hash function's digest is
    written, which is what the comparison of decoded hashes relies on. *)
Theorem system_keys_well_formed `{P : Platform} `{!PlatformLaws P} `{K : Crypto} `{KS : !Keys}
    `{M : Hmac} `{A : !Auth} `{ZD : Zod} adapters w0 w ts :
  Forall AdapterSteady adapters -> keys_ok (apiKeys w0) ->
  rtc (sys_step adapters) (w0, []) (w, ts) -> keys_ok (apiKeys w).
Proof.
  intros Ha H0 H1.
  destruct (sys_steps_steady adapters Ha _ _ H1) as [[_ [_ HK]] _]; [constructor|]. by apply HK.
Qed.

(** C8: revoked is revoked.  Once an API key was revoked, it is refused in every later
    state, whatever requests, key creations, uses and crashes lie in between. *)
Theorem system_revocation_is_final `{P : Platform} `{!PlatformLaws P} `{K : Crypto} `{KS : !Keys}
    `{M : Hmac} `{A : !Auth} `{ZD : Zod} adapters w0 w ts w' ts' tenant id w1 r raw :
  Forall AdapterSteady adapters -> keys_ok (apiKeys w0) ->
  rtc (sys_step adapters) (w0, []) (w, ts) ->
  apiKeys w !! id = Some r -> keyHash r = hashToken raw ->
  exec (revokeKey tenant id) w = (inl tt, w1) ->
  rtc (sys_step adapters) (w1, ts) (w', ts') ->
  exec (verifyKey raw) w' = (inr invalidTenantKey, w').
Proof.
  intros Ha H0 H1 Er Hh Hrev H2.
  destruct (sys_steps_steady adapters Ha _ _ H1) as [[_ [_ HK1]] Hp]; [constructor|].
  pose proof (guards_exec steady (revokeKey tenant id) w ltac:(solve_guards)) as [_ [_ HKr]].
  rewrite Hrev in HKr.
  destruct (sys_steps_steady adapters Ha (w1, ts) _ H2 Hp) as [[_ [HE2 HK2]] _].
  apply revokeKey_revokes in Hrev as (r' & Er' & _ & _ & Hw1). assert (r' = r) as -> by congruence.
  apply (revoked_key_rejected raw id (revoke_row (clock w) r) w1 w'); [|done|done|done|].
  - rewrite Hw1. apply lookup_insert_eq.
  - by apply HK2, HKr, HK1.
Qed.

Section Witness.
#[local] Existing Instance ref_platform.
#[local] Existing Instance ref_platform_laws.
#[local] Existing Instance no_crypto.
#[local] Existing Instance no_keys.
#[local] Existing Instance plain_auth.
#[local] Existing Instance toy_hmac.
#[local] Existing Instance any_zod.

(** A deployment whose only adapter is Bitcoin's. *)
Definition btc_only : list BlockchainAdapter := [BitcoinAdapter].

Lemma btc_only_steady : Forall AdapterSteady btc_only.
Proof. constructor; [|constructor]. apply BitcoinAdapter_steady. Qed.

Definition start_world : World := submitted_world SUBMITTED mined.

Lemma start_ok : ledger_ok start_world.
Proof.
  split; [split|split_and!].
  - decided.
  - apply map_Forall_singleton. unfold row_consistent. cbn. naive_solver.
  - done.
  - done.
  - intros id t E S.
    change (({["x1" := sent_row SUBMITTED]} : gmap string Transaction) !! id = Some t) in E.
    apply lookup_singleton_Some in E as [<- <-]. done.
Qed.

(** A confirmation job, run to its end: one of the schedules. *)
Definition job : prog' unit := processTransaction btc_only "x1" "t1".
Definition done_world : World := (exec job start_world).2.

Lemma job_run : exists p', rtc (sys_step btc_only) (start_world, []) (done_world, [p']).
Proof.
  destruct (exec_system (P:=ref_platform) btc_only job start_world) as [p' H]. exists p'.
  eapply rtc_l; [|exact H]. apply sys_spawn, sp_confirm.
Qed.

(** The job confirms the transaction and writes its event. *)
Example job_confirms :
  (status <$> transactions done_world !! "x1") = Some CONFIRMED /\ size (outbox done_world) = 1%nat.
Proof. vm_compute. done. Qed.

Lemma system_ledger_invariant_witness : ledger_ok done_world.
Proof.
  destruct job_run as [p' H].
  eapply (system_ledger_invariant (P:=ref_platform) btc_only start_world done_world [p']);
    [apply btc_only_steady|apply start_ok|exact H].
Defined.

Lemma system_lifecycle_witness : lifecycle start_world done_world.
Proof.
  destruct job_run as [p' H].
  eapply (system_lifecycle (P:=ref_platform) btc_only start_world start_world [] done_world [p']);
    [apply btc_only_steady|reflexivity|exact H].
Defined.

(** The confirmed row, under a redelivery of the same job. *)
Definition confirmed_again : World := (exec job done_world).2.

Lemma system_terminal_rows_are_final_witness :
  transactions confirmed_again !! "x1" = transactions done_world !! "x1".
Proof.
  destruct job_run as [p1 H1].
  destruct (exec_system (P:=ref_platform) btc_only job done_world) as [p2 H2].
  destruct (transactions done_world !! "x1") as [t|] eqn:E;
    [|vm_compute in E; discriminate E].
  apply (system_terminal_rows_are_final (P:=ref_platform) btc_only start_world done_world []
           confirmed_again [p2] "x1" t); [apply btc_only_steady| | |exact E|].
  - eapply rtc_r; [exact H1|]. exact (sys_crash btc_only done_world [] [] p1).
  - eapply rtc_l; [|exact H2]. apply sys_spawn, sp_confirm.
  - vm_compute in E. injection E as <-. reflexivity.
Defined.

Lemma system_refines_ledger_witness : rtc ledger_step (ledger_of start_world) (ledger_of done_world).
Proof.
  destruct job_run as [p' H].
  eapply (system_refines_ledger (P:=ref_platform) btc_only start_world start_world [] done_world [p']);
    [apply btc_only_steady|apply start_ok|reflexivity|exact H].
Defined.

(** One key, created by a request and revoked. *)
Definition key_created : World := new_key.2.

Lemma key_request : exists p', rtc (sys_step btc_only) (key_created, []) (key_created, [p']).
Proof. eexists. apply rtc_once. apply sys_spawn, sp_sample. Qed.

Lemma system_keys_well_formed_witness : keys_ok (apiKeys key_created).
Proof.
  destruct key_request as [p' H].
  eapply (system_keys_well_formed (P:=ref_platform) btc_only key_created key_created [p']);
    [apply btc_only_steady|apply new_key_ok|exact H].
Defined.

Definition key_revoked : World := (exec (revokeKey "t1" the_key.2.1) key_created).2.

Lemma system_revocation_is_final_witness :
  exec (verifyKey the_key.1) key_revoked = (inr invalidTenantKey, key_revoked).
Proof.
  eapply (system_revocation_is_final (P:=ref_platform) btc_only key_created key_created [] key_revoked []
    "t1" the_key.2.1 key_revoked the_key.2.2 the_key.1);
    [apply btc_only_steady|apply new_key_ok|reflexivity|by_vm|by_vm|by_vm|reflexivity].
Defined.
End Witness.
